(* ===== verification/_CoqProject ===== *)
-Q . S2P
Prelude.v
Json.v
Hash.v
Errors.v
Text.v
CircuitBreaker.v
HttpClient.v
Redis.v
RateLimiter.v
Streams.v
Events.v
Consumer.v
Outbox.v
Cache.v
Upstash.v
Idempotency.v
Webhooks.v
Integrations.v
Repository.v
Migrations.v
DbSession.v
TextFilter.v
ErrorMiddleware.v
Portals.v
EventOps.v
Lifecycle.v
Worker.v
OutboxTask.v
Loki.v
Monitoring.v
Schemas.v
Vault.v
Settings.v
Platform.v
Contracts.v
Payloads.v
EventFlow.v
Redelivery.v
Pipeline.v
Purge.v
Envelopes.v
RedisConnection.v
Logging.v
TestConfig.v
TestStack.v
TestRun.v
TestGuards.v
TestTopology.v
TestRoles.v
TestFixtures.v
