(* ===== verification/Prelude.v ===== *)
(** * tr-shared-lib: a verification development

    tr-shared-lib (src/src/tr_shared) is the Python library the services of one platform share: how
    they call each other, limit and deduplicate requests, cache, publish and consume events, and receive
    webhooks.  This library models its stateful core as executable Rocq functions and proves
    what makes each part correct, or what it fails to guarantee.

    ** How the code is modelled

    A coroutine or method is a computation of the monad [M E W] below: it takes the world, and gives an
    outcome, [Ret] or [Exc] with a Python exception of type [Errors.exn], together with the world it
    left, also when it raised.  [catch], [catch_Exception] and [finally] are the [try] statements of the
    code; [catch_Exception] lets cancellation and interpreter exit through, as [except Exception] does.
    Code outside the repository is a type class: its operations, and in a second class the laws its
    documentation gives, with an instance that shows the laws can hold ([Redis.mem], [Redis.conn],
    [Streams.smem], [HttpClient.net], [Outbox.oworld]).  Values of JSON are [Json.json]; Python strings have
    code points below 256; times are integers in microseconds unless a file says otherwise.
    Between two commands that one coroutine sends, the world may only change through those commands, unless the
    theorem says which interference it allows; a command itself (a Lua script included) is atomic.

    ** Files, and what they correspond to (paths under src/src/tr_shared)

    Foundations
    - Prelude: the monad and its lemmas, strings, insertion-ordered dictionaries, reachability.
    - Json: [json.dumps], [json.loads], [repr]; decoding an encoded value gives it back.
    - Hash: [hashlib] and [hmac] digests, UTF-8, checked on the standards' test vectors.
    - Text: [str] methods and [urllib.parse] on the strings of this development.
    - Errors: contracts/headers.py, contracts/errors.py, exceptions.py, schemas/error_envelope.py,
      middleware/exception_handlers.py, with the reply of the API exception handler ([base_handler_reply]).
    - Schemas: the language of pydantic declarations, what validation does with one (a parameter with its
      documentation as laws, and a reference instance), and that a dumped value validates to itself.

    Calls between services
    - CircuitBreaker: http/circuit_breaker.py.  A step relation over the four operations in any order:
      [breaker_invariant], [probes_spaced], [trips_at_threshold], [recovery_cycle].
    - HttpClient: http/client.py, http/internal_client.py, http/correlation.py: [call_errors],
      [request_retries], [request_exhausted], [unanswered_probe].
    - RateLimiter: rate_limiter/ and monitoring/path_normalizer.py.  The fixed-window script and the in-memory
      fallback refine one abstract window counter, the sliding-window script a request log;
      [rl_check_contract] gives the answers under any outage.
    - Integrations, Portals: integrations/.  The configuration client's cache and its locks as a step relation of
      coroutines ([one_fetch_in_flight]); portal identities and errors, the token exchange, and the
      HikCentral probes, which are sent only to hosts whose addresses were checked.

    - Contracts: contracts/s2s/, bedrooms.py, emirates.py, enums.py, glossary.py.  What three requests accept,
      and that declared models survive a round trip ([contracts_hold]); no two calls share a path
      ([routes_do_not_collide]).

    Redis and events
    - RedisConnection: redis/connection.py, redis/pool.py: a reset connection always shows as a connection error;
      what a pool is built with.
    - Redis, Streams: the server's commands, streams with consumer groups, and a connection that loses replies
      and resends, as interfaces with reference implementations; redis/connection.py's URL check.
    - Events: events/envelope.py, producer.py, helpers.py, retry_policy.py, retry_state.py, dead_letter.py, the
      duplicate checker of consumer.py, contracts/taxonomy.py: [publish_parses], [checker_remembers].
    - Consumer: the operations of events/consumer.py: [process_message_verdict] pins the Redis commands of each
      verdict, [pending_until_acknowledged], [retries_bounded], [housekeeping_keeps_pending].
    - Lifecycle: [EventConsumer.start], its two loops and the signal's [stop] as three tasks under any
      schedule: a shutdown completes in eight fair rounds, with the client closed unless closing it raised,
      and the consumer deregisters alone.
    - EventOps: events/group_health.py, supervisor.py, pii.py.
    - Payloads: events/event_types.py, events/payloads/.  A payload that was built, published and parsed is the
      same payload, drift is refused, and feature wildcards route an event to its own feature.
    - Outbox: events/durable_publisher.py, events/outbox_drainer.py: [outbox_never_loses], and the schedule in
      which an event is published twice.  The database's clock ([db_now]) is another than the process's.
    - OutboxTask: the drainer's Celery task.  Runs serve the due rows in the order of their due times, and
      publish the whole backlog when all of it is due ([outbox_drains]).
    - EventFlow composes them: what a service stores in its outbox is what the consumer's handler for the
      event's type or feature gets, typed, and acknowledges ([durable_event_reaches_handler]).
    - Redelivery: the consumer with its duplicate checker runs the handler of an event once, however often the
      event is delivered ([handled_event_is_not_handled_again]).
    - Pipeline: the drainer's runs and the consumer's passes in any order.  In a fault-free system every event
      of a backlog that is due is handled exactly once, and nothing else is ([every_event_is_handled_once]).
    - Purge: scripts/purge_stuck_pel.py: the backlog of a group is drained, and what a concurrent read loses.

    Requests
    - Cache: cache/.  Errors stay inside but for values over the size limit, cache-aside, round trip, invalidation by pattern.
    - Upstash: cache/adapters/upstash.py.  The two adapters agree but for a TTL of 0.
    - Idempotency: middleware/idempotency.py.  Duplicates are not executed; first executions.
    - Webhooks: webhooks/, client_ip.py, security.py.  Authentication, deduplication, answers.
    - TextFilter: schemas/validators.py, middleware/unstorable_text.py.  The search finds unstorable text exactly
      where there is some; the middleware refuses it in the path, the query and JSON or urlencoded bodies, and
      is transparent otherwise.
    - ErrorMiddleware: middleware/correlation_id.py, logging_middleware.py, error_handler.py, alerts/slack.py:
      the alert budget, the answers, and that a database outage never pages (with DbSession and Errors).
    - Envelopes: schemas/responses.py and the registration of exception handlers: every error a service raises on
      purpose is answered in the shape that [ErrorEnvelope] declares ([errors_share_one_shape]).

    Data
    - Repository: db/repository.py, db/base.py.  Tenant isolation of every read; pages put together are the
      listing when the order has no ties, and may repeat rows when it has.
    - DbSession: db/session.py, errors.py, exception_handlers.py, migrations/runner.py, contracts/availability.py,
      db_pool.py.  Every engine has its statement cap; failures of the driver are typed.
    - Migrations: db/utils.py, db/migrations/.  The merge gate passes exactly merged revisions; LIKE
      escaping; URLs.
    - Vault: vault.py.

    Processes
    - Worker: celery/.  The worker's one event loop, the app's configuration, the context of log lines.
    - Logging: logging/setup.py: the processor chains, the root logger, a record's extras.
    - Loki: monitoring/loki_handler.py.  Under any interleaving of threads every line is in the buffer or in
      exactly one of the requests posted, under its own labels.
    - Monitoring: the rest of monitoring/.  The metrics middleware is transparent and records exactly the
      measurements of the request, with no identifier in a label; task metrics account for every run; the
      choice of providers.
    - Settings: config/, contracts/environment.py.  The production guard; who reads an environment variable.
    - Platform: redis/pool.py, redis/client.py, health/router.py, schemas/responses.py,
      contracts/entity_types.py, web/dependencies.py, phone.py.

    Testing (testing/)
    - TestConfig: config.py, lanes.py, the worker's Redis index of isolation.py.  A configuration never sets what the
      plugin owns; when a run is without infrastructure; twenty workers have databases of their own.
    - TestStack: stack.py.  Containers, the template migrated once, the databases cloned from it: under any sequence
      of runs, failures and interruptions a template is complete or absent ([test_data_is_cold]).
    - TestRun: plugin.py.  A run points at this machine only and owns its environment ([test_run_stays_local]).
    - TestGuards: transaction_guard.py, session_scope.py, primary_keys.py, statements.py, roundtrip.py.  The guard catches every
      task dispatched inside an open transaction; the scans pass exactly when their rule holds.
    - TestTopology: celery_topology.py.  The queues a start script consumes are never read as none
      ([consumed_queues_parsed]); a default queue and a schedule that pass are drained.
    - TestRoles: role_dispatch.py.  What a start script that passes does with the statement profile ([background_roles_checked]).
    - TestFixtures: stubs/, fixtures.py, isolation.py.  The fakes answer the clients of Portals and sign for the verifiers
      of Webhooks; a session that commits leaves nothing behind.

    The components meet at interfaces: [RateLimiter], [Events], [Cache], [Idempotency] and [Webhooks] are
    written against [RedisServer] and [RedisConn] and proved against [RedisDoc]; [Consumer], [Lifecycle] and
    [Outbox] also against [StreamDoc]; [CacheService] against [CacheInterface], which the Redis and the
    Upstash adapter implement; [OutboxTask] composes [Outbox] with [Worker]; [Repository] against [SqlDb] and [SqlDoc], [Vault] against [VaultDb] and [VaultDoc], [Contracts], [Payloads] and
    [Envelopes] against [Pydantic] and [PydanticDoc], [TestStack] against [Machine] and [MachineDoc], each with an instance that keeps the laws.

    ** Fuel and bounds

    [Json.parse_value] takes the length of its input as fuel, which [publish_parses], [cache_roundtrip] and
    [loads_dumps] show to be enough for every encoded value.  [SCAN] loops take a number of rounds;
    [delete_pattern_complete] proves that [1 + scan_rank 0] rounds end the loop for every server that keeps
    [ScanDoc].  [TextFilter.search] takes one more than the size of the value, which [unstorable_text_location_spec] shows
    to be enough.  The loop of [Purge] takes a round per full 500 pending
    entries and one more ([purge_empties_the_group]).  The retry loop of the HTTP client is a recursion on the configured budget.
    The waits of [TestStack] take a round per interval of their timeout ([ready_rounds_enough]).
    64-bit overflow of Redis counters is an error of the command ([doc_incrby]); Python integers do not
    overflow; the one float division of the code is rounded to 53 bits ([Platform.true_divide]).

    ** Not modelled

    The OpenTelemetry SDK, Prometheus' registry and structlog's processors, which the code only configures;
    pydantic's parsing of the environment into settings; SQL beyond the
    statements the code sends; FastAPI's routing beyond the tables of routes; floats of JSON; lazy imports of
    the packages; of testing/, the scans of the syntax trees of other repositories (guards.py, db_reach.py,
    tenant_header_guard.py), the checks that start processes, and the match of Celery routes by [fnmatch].  In Lifecycle one pass of a
    loop is one step; a stop that arrives inside a pass takes effect after it; in Pipeline a run of
    the drainer and a pass of the consumer are steps; in TestStack a critical section under a server's lock is one. *)

From stdpp Require Export base tactics option list gmap strings.
From Stdlib Require Export ZArith Lia.
From Stdlib Require Import DecimalString DecimalPos DecimalZ DecimalFacts.

Local Open Scope Z_scope.

(** ** Outcomes and the state-and-exception monad

    Python code that threads shared state through calls and may raise is
    written in [M E W]: a computation takes the world [W] and gives an outcome
    together with the world it left behind, also when it raised. *)

Inductive outcome (E A : Type) : Type :=
| Ret (a : A)
| Exc (e : E).
Arguments Ret {E A} a.
Arguments Exc {E A} e.

Definition outcome_bind {E A B} (o : outcome E A) (k : A -> outcome E B) : outcome E B :=
  match o with Ret a => k a | Exc e => Exc e end.

Definition M (E W A : Type) : Type := W -> outcome E A * W.

Section Monad.
Context {E W : Type}.

Definition ret {A} (a : A) : M E W A := fun w => (Ret a, w).
Definition raise {A} (e : E) : M E W A := fun w => (Exc e, w).
Definition bind {A B} (c : M E W A) (k : A -> M E W B) : M E W B :=
  fun w => match c w with
           | (Ret a, w') => k a w'
           | (Exc e, w') => (Exc e, w')
           end.
(** [try: c / except Exception as e: h e] *)
Definition catch {A} (c : M E W A) (h : E -> M E W A) : M E W A :=
  fun w => match c w with
           | (Ret a, w') => (Ret a, w')
           | (Exc e, w') => h e w'
           end.
(** [try: c / finally: d]: [d] runs in both cases, an exception of [d] wins. *)
Definition finally {A} (c : M E W A) (d : M E W unit) : M E W A :=
  fun w => let (o, w1) := c w in
           match d w1 with
           | (Ret _, w2) => (o, w2)
           | (Exc e, w2) => (Exc e, w2)
           end.
Definition gets {A} (f : W -> A) : M E W A := fun w => (Ret (f w), w).
Definition modify (f : W -> W) : M E W unit := fun w => (Ret tt, f w).

(** [for x in l: body x] *)
Fixpoint mfor {X} (l : list X) (body : X -> M E W unit) : M E W unit :=
  match l with
  | [] => ret tt
  | x :: l' => bind (body x) (fun _ => mfor l' body)
  end.
(** A loop that carries an accumulator. *)
Fixpoint mfold {X A} (body : A -> X -> M E W A) (l : list X) (a : A) : M E W A :=
  match l with
  | [] => ret a
  | x :: l' => bind (body a x) (fun a' => mfold body l' a')
  end.
End Monad.

Declare Scope py_scope.
Delimit Scope py_scope with py.
Notation "'let!' x := c 'in' k" := (bind c (fun x => k))
  (at level 10, x pattern, c at level 100, k at level 200) : py_scope.
Notation "'do!' c 'in' k" := (bind c (fun _ => k))
  (at level 10, c at level 100, k at level 200) : py_scope.
Open Scope py_scope.

(** A computation over one component of a larger world. *)
Definition on_fst {E W V A} (c : M E W A) : M E (W * V) A :=
  fun wv => let (o, w') := c (fst wv) in (o, (w', snd wv)).
Definition on_snd {E W V A} (c : M E W A) : M E (V * W) A :=
  fun vw => let (o, w') := c (snd vw) in (o, (fst vw, w')).

(** ** What a computation may raise

    [raises_only P c]: from every world, an exception of [c] satisfies [P].
    [never_raises] is the silent-fail contract the cache layer documents. *)

Section Raises.
Context {E W : Type}.

Definition raises_only {A} (P : E -> Prop) (c : M E W A) : Prop :=
  forall w e w', c w = (Exc e, w') -> P e.
Definition never_raises {A} (c : M E W A) : Prop := raises_only (fun _ => False) c.

Lemma raises_only_ret {A} P (a : A) : raises_only P (ret a).
Proof. intros w e w' H. discriminate H. Qed.
Lemma raises_only_gets {A} P (f : W -> A) : raises_only P (gets f).
Proof. intros w e w' H. discriminate H. Qed.
Lemma raises_only_modify P (f : W -> W) : raises_only P (modify f).
Proof. intros w e w' H. discriminate H. Qed.
Lemma raises_only_raise {A} (P : E -> Prop) (e : E) : P e -> raises_only P (@raise E W A e).
Proof. intros HP w e' w' H. by inversion H; subst. Qed.
Lemma raises_only_bind {A B} P (c : M E W A) (k : A -> M E W B) :
  raises_only P c -> (forall a, raises_only P (k a)) -> raises_only P (bind c k).
Proof.
  intros Hc Hk w e w'. unfold bind. destruct (c w) as [[a|e1] w1] eqn:Ec; intros H.
  - exact (Hk a _ _ _ H).
  - inversion H; subst. exact (Hc _ _ _ Ec).
Qed.
Lemma raises_only_catch {A} P (c : M E W A) (h : E -> M E W A) :
  (forall e, raises_only P (h e)) -> raises_only P (catch c h).
Proof.
  intros Hh w e w'. unfold catch. destruct (c w) as [[a|e1] w1] eqn:Ec; intros H.
  - discriminate H.
  - exact (Hh e1 _ _ _ H).
Qed.
Lemma raises_only_catch_except {A} (P Q : E -> Prop) (c : M E W A) (h : E -> M E W A) :
  raises_only Q c -> (forall e, Q e -> raises_only P (h e)) -> raises_only P (catch c h).
Proof.
  intros Hc Hh w e w'. unfold catch. destruct (c w) as [[a|e1] w1] eqn:Ec; intros H.
  - discriminate H.
  - exact (Hh e1 (Hc _ _ _ Ec) _ _ _ H).
Qed.
Lemma raises_only_weaken {A} (P Q : E -> Prop) (c : M E W A) :
  (forall e, P e -> Q e) -> raises_only P c -> raises_only Q c.
Proof. intros HPQ Hc w e w' H. eauto. Qed.
Lemma raises_only_mfor {X} P (l : list X) (body : X -> M E W unit) :
  (forall x, raises_only P (body x)) -> raises_only P (mfor l body).
Proof.
  intros Hb. induction l as [|x l IH]; cbn;
    [apply raises_only_ret | by apply raises_only_bind].
Qed.
Lemma raises_only_mfold {X A} P (body : A -> X -> M E W A) (l : list X) (a : A) :
  (forall a x, raises_only P (body a x)) -> raises_only P (mfold body l a).
Proof.
  intros Hb. revert a. induction l as [|x l IH]; intros a; cbn;
    [apply raises_only_ret | by apply raises_only_bind].
Qed.
(** A computation that never raises returns a value. *)
Lemma never_raises_returns {A} (c : M E W A) w :
  never_raises c -> exists a w', c w = (Ret a, w').
Proof.
  intros Hc. destruct (c w) as [[a|e] w'] eqn:Ec; [eauto | by destruct (Hc _ _ _ Ec)].
Qed.

Lemma bind_Ret {A B} (c : M E W A) (k : A -> M E W B) w a w' :
  c w = (Ret a, w') -> bind c k w = k a w'.
Proof. unfold bind. by intros ->. Qed.
Lemma bind_Exc {A B} (c : M E W A) (k : A -> M E W B) w e w' :
  c w = (Exc e, w') -> bind c k w = (Exc e, w').
Proof. unfold bind. by intros ->. Qed.
Lemma bind_Ret_inv {A B} (c : M E W A) (k : A -> M E W B) w b w' :
  bind c k w = (Ret b, w') -> exists a w1, c w = (Ret a, w1) /\ k a w1 = (Ret b, w').
Proof. unfold bind. destruct (c w) as [[a|e] w1]; [eauto | discriminate]. Qed.
Lemma bind_assoc {A B C} (c : M E W A) (f : A -> M E W B) (g : B -> M E W C) w :
  bind (bind c f) g w = bind c (fun a => bind (f a) g) w.
Proof. unfold bind. by destruct (c w) as [[a|e] w1]. Qed.

Lemma mfold_app {X A} (body : A -> X -> M E W A) l1 l2 a w :
  mfold body (l1 ++ l2) a w = bind (mfold body l1 a) (mfold body l2) w.
Proof.
  revert a w. induction l1 as [|x l1 IH]; intros a w; [done |]. cbn [mfold app]. rewrite bind_assoc.
  unfold bind. destruct (body a x w) as [[a'|e] w1]; [apply IH | done].
Qed.

(** A predicate on worlds kept by a computation, whatever its outcome. *)
Definition preserves {A} (I : W -> Prop) (c : M E W A) : Prop :=
  forall w, I w -> I (snd (c w)).
Lemma preserves_ret {A} I (a : A) : preserves I (ret a).
Proof. by intros w Hw. Qed.
Lemma preserves_raise {A} I (e : E) : preserves I (@raise E W A e).
Proof. by intros w Hw. Qed.
Lemma preserves_gets {A} I (f : W -> A) : preserves I (gets f).
Proof. by intros w Hw. Qed.
Lemma preserves_bind {A B} I (c : M E W A) (k : A -> M E W B) :
  preserves I c -> (forall a, preserves I (k a)) -> preserves I (bind c k).
Proof.
  intros Hc Hk w Hw. specialize (Hc w Hw). unfold bind.
  destruct (c w) as [[a|e] w1]; cbn in *; [by apply Hk | done].
Qed.
Lemma preserves_catch {A} I (c : M E W A) (h : E -> M E W A) :
  preserves I c -> (forall e, preserves I (h e)) -> preserves I (catch c h).
Proof.
  intros Hc Hk w Hw. specialize (Hc w Hw). unfold catch.
  destruct (c w) as [[a|e] w1]; cbn in *; [done | by apply Hk].
Qed.
Lemma preserves_finally {A} I (c : M E W A) (d : M E W unit) :
  preserves I c -> preserves I d -> preserves I (finally c d).
Proof.
  intros Hc Hd w Hw. specialize (Hc w Hw). unfold finally. destruct (c w) as [o w1].
  specialize (Hd w1 Hc). by destruct (d w1) as [[[]|e] w2].
Qed.
Lemma preserves_modify I (f : W -> W) : (forall w, I w -> I (f w)) -> preserves I (modify f).
Proof. intros Hf w Hw. by apply Hf. Qed.
(** A computation chosen by reading the world. *)
Lemma preserves_read {A B} I (f : W -> B) (k : B -> M E W A) :
  (forall b, preserves I (k b)) -> preserves I (fun w => k (f w) w).
Proof. intros Hk w Hw. by apply Hk. Qed.
Lemma preserves_mfor {X} I (l : list X) (body : X -> M E W unit) :
  (forall x, x ∈ l -> preserves I (body x)) -> preserves I (mfor l body).
Proof.
  induction l as [|x l IH]; intros Hb; cbn; [apply preserves_ret |].
  apply preserves_bind; [apply Hb; left |]. intros _. apply IH. intros y Hy. apply Hb. by right.
Qed.
End Raises.

Create HintDb py.
#[export] Hint Resolve raises_only_ret raises_only_gets raises_only_modify raises_only_raise
  raises_only_bind raises_only_catch raises_only_mfor raises_only_mfold
  preserves_ret preserves_raise preserves_gets preserves_bind preserves_catch preserves_finally preserves_modify
  preserves_mfor : py.
#[export] Hint Unfold never_raises : py.

(** Case analysis on the innermost [match] or [if] of the goal or a hypothesis. *)
Ltac case_inner :=
  match goal with
  | |- context [match ?x with _ => _ end] =>
      lazymatch x with context [match _ with _ => _ end] => fail | _ => destruct x eqn:? end
  | H : context [match ?x with _ => _ end] |- _ =>
      lazymatch x with context [match _ with _ => _ end] => fail | _ => destruct x eqn:? end
  end.
(** Run a monadic definition: expose the state passing and simplify. *)
Ltac mrun := unfold bind, catch, ret, raise, gets, modify in *; cbn in *.

(** ** Strings

    A Python [str] whose characters the code compares, joins or splits is a
    Rocq [string] (one character per byte). *)

Definition strip_suffix_len (n : nat) (s : string) : string :=
  String.substring 0 (String.length s - n) s.
Definition startswith (s p : string) : bool := String.prefix p s.
Definition endswith (s p : string) : bool :=
  (String.length p <=? String.length s)%nat &&
  bool_decide (String.substring (String.length s - String.length p) (String.length p) s = p).
(** [str.removesuffix] *)
Definition removesuffix (s p : string) : string :=
  if endswith s p then strip_suffix_len (String.length p) s else s.
(** [sub in s] *)
Definition contains (sub s : string) : bool :=
  match String.index 0 sub s with Some _ => true | None => false end.
(** [bool(s)] for a string *)
Definition nonempty (s : string) : bool := negb (bool_decide (s = "")).
(** [sep.join(l)] *)
Fixpoint join (sep : string) (l : list string) : string :=
  match l with
  | [] => ""
  | [x] => x
  | x :: l' => x +:+ sep +:+ join sep l'
  end.
(** [str.lower] on ASCII letters *)
Definition lower_ascii (c : Ascii.ascii) : Ascii.ascii :=
  let n := Ascii.nat_of_ascii c in
  if (65 <=? n)%nat && (n <=? 90)%nat then Ascii.ascii_of_nat (n + 32) else c.
Fixpoint lower (s : string) : string :=
  match s with
  | EmptyString => EmptyString
  | String c s' => String (lower_ascii c) (lower s')
  end.
(** [str.strip]: Python's white space among the code points below 256 *)
Definition is_space (c : Ascii.ascii) : bool :=
  let n := Ascii.nat_of_ascii c in
  ((9 <=? n) && (n <=? 13) || (28 <=? n) && (n <=? 32) || (n =? 133) || (n =? 160))%nat.
Fixpoint lstrip (s : string) : string :=
  match s with
  | EmptyString => EmptyString
  | String c s' => if is_space c then lstrip s' else s
  end.
Fixpoint rstrip (s : string) : string :=
  match s with
  | EmptyString => EmptyString
  | String c s' => match rstrip s' with
                   | EmptyString => if is_space c then EmptyString else String c EmptyString
                   | t => String c t
                   end
  end.
Definition strip (s : string) : string := rstrip (lstrip s).
(** [headers.get(name)] of a Starlette request: names match in any case. *)
Fixpoint header_get (name : string) (hs : list (string * string)) : option string :=
  match hs with
  | [] => None
  | (k, v) :: hs' => if bool_decide (lower k = lower name) then Some v else header_get name hs'
  end.
Fixpoint all_chars (p : Ascii.ascii -> bool) (s : string) : bool :=
  match s with EmptyString => true | String c s' => p c && all_chars p s' end.
(** [s] has no character [c] *)
Fixpoint free_of (c : Ascii.ascii) (s : string) : bool :=
  match s with
  | EmptyString => true
  | String d s' => negb (bool_decide (d = c)) && free_of c s'
  end.

#[local] Arguments String.append : simpl nomatch.

Lemma length_append (s t : string) :
  String.length (s +:+ t) = (String.length s + String.length t)%nat.
Proof. induction s as [|c s IH]; simpl; [done | by rewrite IH]. Qed.
Lemma append_nil_r (s : string) : s +:+ "" = s.
Proof. induction s as [|c s IH]; simpl; [done | by rewrite IH]. Qed.
Lemma all_chars_append p (s t : string) : all_chars p (s +:+ t) = all_chars p s && all_chars p t.
Proof. induction s as [|c s IH]; [done |]. simpl. by rewrite IH, andb_assoc. Qed.
Lemma append_assoc (s t u : string) : (s +:+ t) +:+ u = s +:+ (t +:+ u).
Proof. induction s as [|c s IH]; simpl; [done | by rewrite IH]. Qed.
Lemma append_inj_l (s t u : string) : s +:+ t = s +:+ u -> t = u.
Proof. induction s as [|c s IH]; simpl; [done | intros H; inversion H; auto]. Qed.
Lemma append_inj_r (s t u : string) : s +:+ u = t +:+ u -> s = t.
Proof.
  revert t. induction s as [|c s IH]; intros [|d t]; simpl; [done | | |].
  - intros H. apply (f_equal String.length) in H. simpl in H.
    rewrite (length_append t u) in H. lia.
  - intros H. apply (f_equal String.length) in H. simpl in H.
    rewrite (length_append s u) in H. lia.
  - intros H. inversion H. f_equal. auto.
Qed.
Lemma startswith_append (p s : string) : startswith (p +:+ s) p = true.
Proof.
  unfold startswith. induction p as [|c p IH]; simpl; [by destruct s |].
  by destruct (Ascii.ascii_dec c c).
Qed.
Lemma startswith_inv (s p : string) : startswith s p = true -> exists t, s = p +:+ t.
Proof.
  unfold startswith. revert s.
  induction p as [|c p IH]; intros s; [by exists s |].
  destruct s as [|d s]; simpl; [intros H; discriminate H |].
  destruct (Ascii.ascii_dec c d) as [-> |]; [| intros H; discriminate H].
  intros [t ->]%IH. by exists t.
Qed.
Lemma substring_suffix (s t : string) :
  String.substring (String.length s) (String.length t) (s +:+ t) = t.
Proof.
  induction s as [|c s IH]; simpl; [| done].
  induction t as [|d t IH]; simpl; [done | by rewrite IH].
Qed.
Lemma substring_prefix (s t : string) : String.substring 0 (String.length s) (s +:+ t) = s.
Proof. induction s as [|c s IH]; simpl; [by destruct t | by rewrite IH]. Qed.
Lemma endswith_append (s p : string) : endswith (s +:+ p) p = true.
Proof.
  unfold endswith. rewrite length_append.
  replace (String.length s + String.length p - String.length p)%nat
    with (String.length s) by lia.
  rewrite substring_suffix, bool_decide_true by done.
  rewrite andb_true_r. apply Nat.leb_le. lia.
Qed.
Lemma substring_split n (s : string) : (n <= String.length s)%nat ->
  s = String.substring 0 n s +:+ String.substring n (String.length s - n) s.
Proof.
  revert s. induction n as [|n IH]; intros [|c s]; cbn [String.length]; try lia; intros Hn; [done | |].
  - cbn. f_equal. symmetry. pose proof (substring_prefix s "") as E. by rewrite append_nil_r in E.
  - cbn. f_equal. apply IH. lia.
Qed.
Lemma endswith_spec (s p : string) : endswith s p = true <-> exists base, s = base +:+ p.
Proof.
  split; [| intros (base & ->); apply endswith_append]. unfold endswith.
  rewrite andb_true_iff, bool_decide_eq_true, Nat.leb_le. intros [Hl Hs].
  exists (String.substring 0 (String.length s - String.length p) s). rewrite <- Hs at 2.
  rewrite (substring_split (String.length s - String.length p) s) at 1 by lia. do 2 f_equal. lia.
Qed.
Lemma removesuffix_append (s p : string) : removesuffix (s +:+ p) p = s.
Proof.
  unfold removesuffix, strip_suffix_len. rewrite endswith_append, length_append.
  replace (String.length s + String.length p - String.length p)%nat
    with (String.length s) by lia.
  apply substring_prefix.
Qed.
Lemma nonempty_spec s : nonempty s = true <-> s <> "".
Proof. unfold nonempty. case_bool_decide; naive_solver. Qed.
Lemma nonempty_false s : nonempty s = false <-> s = "".
Proof. unfold nonempty. case_bool_decide; naive_solver. Qed.

Lemma free_of_split (c : Ascii.ascii) (s1 s2 t1 t2 : string) :
  free_of c s1 = true -> free_of c s2 = true ->
  s1 +:+ String c t1 = s2 +:+ String c t2 -> s1 = s2 /\ t1 = t2.
Proof.
  revert s2. induction s1 as [|a s1 IH]; intros [|b s2]; simpl;
    rewrite ?andb_true_iff, ?negb_true_iff, ?bool_decide_eq_false; intros H1 H2 H.
  - by inversion H.
  - inversion H; subst. naive_solver.
  - inversion H; subst. naive_solver.
  - inversion H; subst. destruct (IH s2) as [-> ->]; naive_solver.
Qed.

(** Joining separator-free parts is injective once the number of parts is fixed. *)
Lemma join_inj (c : Ascii.ascii) (l1 l2 : list string) :
  length l1 = length l2 ->
  Forall (fun s => free_of c s = true) l1 -> Forall (fun s => free_of c s = true) l2 ->
  join (String c "") l1 = join (String c "") l2 -> l1 = l2.
Proof.
  revert l2. induction l1 as [|x l1 IH]; intros [|y l2]; cbn [length]; try done; try lia.
  intros Hlen F1 F2. inversion F1 as [|? ? Hx F1']; inversion F2 as [|? ? Hy F2']; subst.
  destruct l1 as [|x' l1], l2 as [|y' l2]; cbn [length] in Hlen; try lia.
  - simpl. by intros ->.
  - intros H. cbn [join] in H.
    destruct (free_of_split c x y _ _ Hx Hy H) as [-> Hrest].
    f_equal. apply IH; [simpl; lia | done | done | exact Hrest].
Qed.

(** [str(n)] and [int(s)] for integers *)
Definition str_of_Z (z : Z) : string := NilZero.string_of_int (Z.to_int z).
Definition Z_of_str (s : string) : option Z := Z.of_int <$> NilZero.int_of_string s.
Lemma Z_of_str_of_Z z : Z_of_str (str_of_Z z) = Some z.
Proof.
  unfold Z_of_str, str_of_Z. rewrite NilZero.isi.
  - cbn. f_equal. apply DecimalZ.of_to.
  - destruct z as [|p|p]; cbn; [done | | done]. intros [= H].
    by apply (DecimalPos.Unsigned.to_uint_nonnil p).
  - destruct z as [|p|p]; cbn; [done | done |]. intros [= H].
    by apply (DecimalPos.Unsigned.to_uint_nonnil p).
Qed.

(** ** Insertion-ordered dictionaries

    A Python [dict] keyed by strings where the order of its items matters: a
    list of pairs; assignment replaces in place or appends at the end. *)

Section Dict.
Context {V : Type}.

Fixpoint dget (k : string) (d : list (string * V)) : option V :=
  match d with
  | [] => None
  | (k', v) :: d' => if bool_decide (k = k') then Some v else dget k d'
  end.
Fixpoint dset (k : string) (v : V) (d : list (string * V)) : list (string * V) :=
  match d with
  | [] => [(k, v)]
  | (k', v') :: d' => if bool_decide (k = k') then (k, v) :: d' else (k', v') :: dset k v d'
  end.
Definition ddel (k : string) (d : list (string * V)) : list (string * V) :=
  filter (fun kv => kv.1 <> k) d.

Lemma dget_dset_eq k v d : dget k (dset k v d) = Some v.
Proof.
  induction d as [|[k' v'] d IH]; simpl; [by rewrite bool_decide_true |].
  case_bool_decide; simpl; [by rewrite bool_decide_true | by rewrite bool_decide_false].
Qed.
Lemma dget_dset_ne k k' v d : k' <> k -> dget k' (dset k v d) = dget k' d.
Proof.
  intros Hne. induction d as [|[k2 v2] d IH]; simpl; [by rewrite bool_decide_false |].
  case_bool_decide; simpl; subst; [by rewrite !bool_decide_false | by rewrite IH].
Qed.
Lemma dget_ddel_eq k d : dget k (ddel k d) = None.
Proof.
  induction d as [|[k' v'] d IH]; simpl; [done |]. unfold ddel in *.
  rewrite filter_cons. case_decide as Hc; simpl in *; [| done].
  rewrite bool_decide_false by naive_solver. done.
Qed.
Lemma dget_ddel_ne k k' d : k' <> k -> dget k' (ddel k d) = dget k' d.
Proof.
  intros Hne. induction d as [|[k2 v2] d IH]; simpl; [done |]. unfold ddel in *.
  rewrite filter_cons. case_decide as Hc; simpl in *.
  - case_bool_decide; [done | exact IH].
  - rewrite bool_decide_false; [exact IH |]. intros ->. naive_solver.
Qed.
Lemma dget_None_notin k (d : list (string * V)) : dget k d = None <-> k ∉ d.*1.
Proof.
  induction d as [|[k' v'] d IH]; simpl; [set_solver |].
  case_bool_decide; subst; set_solver.
Qed.
Lemma dget_in k (v : V) (l : list (string * V)) : dget k l = Some v -> (k, v) ∈ l.
Proof.
  induction l as [|[k' v'] l IH]; cbn; [done |]. case_bool_decide; [intros [= ->]; subst; left |].
  intros E. right. auto.
Qed.
Lemma dget_NoDup k (v : V) d : NoDup d.*1 -> (k, v) ∈ d -> dget k d = Some v.
Proof.
  induction d as [|[k' v'] d IH]; [set_solver |]. cbn. intros [Hk Hn]%NoDup_cons Hin.
  apply elem_of_cons in Hin as [[=<- <-] | Hin]; [by rewrite bool_decide_true |].
  rewrite bool_decide_false; [by apply IH |]. intros ->. apply Hk, list_elem_of_fmap. by exists (k', v).
Qed.
Lemma elem_of_dset k (v : V) d x : x ∈ (dset k v d).*1 <-> x = k \/ x ∈ d.*1.
Proof.
  induction d as [|[k' v'] d IH]; cbn; [set_solver |].
  case_bool_decide as Hk; cbn; rewrite !elem_of_cons; [naive_solver |]. rewrite IH. naive_solver.
Qed.
Lemma NoDup_dset k (v : V) d : NoDup d.*1 -> NoDup (dset k v d).*1.
Proof.
  induction d as [|[k' v'] d IH]; cbn; [intros _; apply NoDup_singleton |].
  rewrite NoDup_cons. intros [Hn Hd]. case_bool_decide as Hk; cbn; rewrite NoDup_cons; [by subst |].
  split; [| auto]. rewrite <- dget_None_notin, dget_dset_ne by done. by apply dget_None_notin.
Qed.
Lemma length_ddel_le k (d : list (string * V)) : (length (ddel k d) <= length d)%nat.
Proof. apply length_filter. Qed.
Lemma length_dset k v (d : list (string * V)) :
  length (dset k v d) = match dget k d with Some _ => length d | None => S (length d) end.
Proof.
  induction d as [|[k' v'] d IH]; simpl; [done |].
  case_bool_decide; simpl; [done |]. rewrite IH. by destruct (dget k d).
Qed.
End Dict.

(** ** Options and lists *)

Lemma default_Some {A} (d x : A) : default d (Some x) = x.
Proof. reflexivity. Qed.

Lemma filter_none {A} (P : A -> Prop) `{forall x, Decision (P x)} (l : list A) :
  (forall x, x ∈ l -> ~ P x) -> filter P l = [].
Proof.
  induction l as [|x l IH]; intros Hl; [done |].
  rewrite filter_cons_False by (apply Hl; left). apply IH. intros y Hy. apply Hl. by right.
Qed.

(** ** Reflexive-transitive closure of a step relation *)

Inductive star {S : Type} (R : S -> S -> Prop) : S -> S -> Prop :=
| star_refl s : star R s s
| star_step s1 s2 s3 : R s1 s2 -> star R s2 s3 -> star R s1 s3.

(** An invariant of the steps holds in every reachable state. *)
Lemma star_invariant {S : Type} (R : S -> S -> Prop) (I : S -> Prop) s s' :
  (forall s1 s2, R s1 s2 -> I s1 -> I s2) -> star R s s' -> I s -> I s'.
Proof. intros HR Hs. induction Hs; eauto. Qed.
