(* ===== verification/Json.v ===== *)
(** * JSON values and Python's [json.dumps] / [json.loads]

    The part of Python's [json] module the library uses: values, the default
    encoder (separators [", "] and [": "], ASCII output) and the decoder.
    Numbers are integers and characters are Latin-1: a fraction, an exponent or
    a code point above U+00FF is outside the model. *)

From stdpp Require Import sorting.
From S2P Require Import Prelude.
From Stdlib Require Import DecimalString DecimalPos DecimalN DecimalZ DecimalFacts.
From Stdlib Require Import Ascii.
Local Open Scope Z_scope.

Inductive json :=
| JNull
| JBool (b : bool)
| JInt (z : Z)
| JStr (s : string)
| JList (l : list json)
| JObj (o : list (string * json)).

Section json_ind.
Variable P : json -> Prop.
Hypothesis Hnull : P JNull.
Hypothesis Hbool : forall b, P (JBool b).
Hypothesis Hint : forall z, P (JInt z).
Hypothesis Hstr : forall s, P (JStr s).
Hypothesis Hlist : forall l, Forall P l -> P (JList l).
Hypothesis Hobj : forall o, Forall (fun kv => P (snd kv)) o -> P (JObj o).
Fixpoint json_nested_ind (v : json) : P v :=
  match v with
  | JNull => Hnull
  | JBool b => Hbool b
  | JInt z => Hint z
  | JStr s => Hstr s
  | JList l =>
      Hlist l ((fix go l : Forall P l :=
        match l with
        | [] => @List.Forall_nil _ P
        | x :: l' => @List.Forall_cons _ P x l' (json_nested_ind x) (go l')
        end) l)
  | JObj o =>
      Hobj o ((fix go o : Forall (fun kv => P (snd kv)) o :=
        match o with
        | [] => @List.Forall_nil _ _
        | kv :: o' => @List.Forall_cons _ _ kv o' (json_nested_ind (snd kv)) (go o')
        end) o)
  end.
End json_ind.

#[export] Instance json_eq_dec : EqDecision json.
Proof.
  unfold EqDecision. fix json_eq_dec 1.
  intros [|b|z|t|l|o] [|b'|z'|t'|l'|o']; try (right; discriminate).
  - by left.
  - destruct (decide (b = b')); [left; congruence | right; congruence].
  - destruct (decide (z = z')); [left; congruence | right; congruence].
  - destruct (decide (t = t')); [left; congruence | right; congruence].
  - destruct (@list_eq_dec json json_eq_dec l l'); [left; congruence | right; congruence].
  - destruct (@list_eq_dec (string * json)
      (@prod_eq_dec string _ json json_eq_dec) o o'); [left; congruence | right; congruence].
Defined.

(** Truthiness of a decoded value. *)
Definition truthy (v : json) : bool :=
  match v with
  | JNull => false
  | JBool b => b
  | JInt z => negb (z =? 0)
  | JStr s => nonempty s
  | JList l => match l with [] => false | _ => true end
  | JObj o => match o with [] => false | _ => true end
  end.

(** [v.get(k)] of a decoded object *)
Definition jget (k : string) (v : json) : option json :=
  match v with JObj o => dget k o | _ => None end.

(** ** Encoder *)

Definition chr (n : nat) : Ascii.ascii := Ascii.ascii_of_nat n.
Definition ord (c : Ascii.ascii) : nat := Ascii.nat_of_ascii c.
Definition c_quote := chr 34.
Definition c_backslash := chr 92.
Definition s1 (c : Ascii.ascii) : string := String c "".
Definition hex_digit (n : nat) : Ascii.ascii := if (n <? 10)%nat then chr (48 + n) else chr (87 + n).

Definition esc_char (c : Ascii.ascii) : string :=
  if bool_decide (c = c_quote) then String c_backslash (s1 c_quote)
  else if bool_decide (c = c_backslash) then String c_backslash (s1 c_backslash)
  else if bool_decide (c = chr 10) then String c_backslash "n"
  else if bool_decide (c = chr 13) then String c_backslash "r"
  else if bool_decide (c = chr 9) then String c_backslash "t"
  else if bool_decide (c = chr 8) then String c_backslash "b"
  else if bool_decide (c = chr 12) then String c_backslash "f"
  else if (32 <=? ord c)%nat && (ord c <=? 126)%nat then s1 c
  else String c_backslash
         (String "u"%char (String "0"%char (String "0"%char
           (String (hex_digit (ord c / 16)) (s1 (hex_digit (ord c mod 16))))))).

Fixpoint esc (s : string) : string :=
  match s with EmptyString => EmptyString | String c s' => esc_char c +:+ esc s' end.
Definition quote_str (s : string) : string := String c_quote (esc s +:+ s1 c_quote).

Fixpoint dumps (v : json) : string :=
  match v with
  | JNull => "null"
  | JBool true => "true"
  | JBool false => "false"
  | JInt z => str_of_Z z
  | JStr s => quote_str s
  | JList l => "[" +:+ join ", " (map dumps l) +:+ "]"
  | JObj o => "{" +:+ join ", " (map (fun kv => quote_str (fst kv) +:+ ": " +:+ dumps (snd kv)) o) +:+ "}"
  end.

(** [json.dumps(v, sort_keys=True)] is [dumps (sort_keys v)]: keys in the order of their
    code points, at every level. *)
Fixpoint str_leb (s t : string) : bool :=
  match s, t with
  | EmptyString, _ => true
  | String _ _, EmptyString => false
  | String a s', String b t' =>
      if (ord a <? ord b)%nat then true else if (ord b <? ord a)%nat then false else str_leb s' t'
  end.
Definition key_le (x y : string * json) : Prop := str_leb (fst x) (fst y) = true.
#[export] Instance key_le_dec x y : Decision (key_le x y).
Proof. unfold key_le. apply _. Defined.
Fixpoint sort_keys (v : json) : json :=
  match v with
  | JList l => JList (map sort_keys l)
  | JObj o => JObj (merge_sort key_le (map (fun kv => (fst kv, sort_keys (snd kv))) o))
  | _ => v
  end.

(** ** [repr] and [str] of a decoded value *)

Definition hex2 (n : nat) : string := String (hex_digit (n / 16)) (s1 (hex_digit (n mod 16))).
Definition repr_char (q c : Ascii.ascii) : string :=
  if bool_decide (c = q) || bool_decide (c = c_backslash) then String c_backslash (s1 c)
  else if (ord c =? 10)%nat then String c_backslash "n"
  else if (ord c =? 13)%nat then String c_backslash "r"
  else if (ord c =? 9)%nat then String c_backslash "t"
  else if ((ord c <? 32) || (127 <=? ord c) && (ord c <=? 160) || (ord c =? 173))%nat
       then String c_backslash (String (chr 120) (hex2 (ord c)))
  else s1 c.
Fixpoint repr_chars (q : Ascii.ascii) (s : string) : string :=
  match s with EmptyString => EmptyString | String c s' => repr_char q c +:+ repr_chars q s' end.
(** Double quotes only around a string that has single quotes and no double ones. *)
Definition repr_str (s : string) : string :=
  let q := if negb (free_of (chr 39) s) && free_of c_quote s then c_quote else chr 39 in
  String q (repr_chars q s +:+ s1 q).
Fixpoint py_repr (v : json) : string :=
  match v with
  | JNull => "None"
  | JBool true => "True"
  | JBool false => "False"
  | JInt z => str_of_Z z
  | JStr s => repr_str s
  | JList l => "[" +:+ join ", " (map py_repr l) +:+ "]"
  | JObj o => "{" +:+ join ", " (map (fun kv => repr_str (fst kv) +:+ ": " +:+ py_repr (snd kv)) o) +:+ "}"
  end.
Definition py_str (v : json) : string := match v with JStr s => s | _ => py_repr v end.

(** ** Decoder *)

Definition is_ws (c : Ascii.ascii) : bool :=
  (ord c =? 32)%nat || (ord c =? 9)%nat || (ord c =? 10)%nat || (ord c =? 13)%nat.
Fixpoint skip_ws (s : string) : string :=
  match s with
  | EmptyString => EmptyString
  | String c s' => if is_ws c then skip_ws s' else s
  end.
Definition hex_val (c : Ascii.ascii) : option nat :=
  let n := ord c in
  if (48 <=? n)%nat && (n <=? 57)%nat then Some (n - 48)%nat
  else if (97 <=? n)%nat && (n <=? 102)%nat then Some (n - 87)%nat
  else if (65 <=? n)%nat && (n <=? 70)%nat then Some (n - 55)%nat
  else None.
Definition cons_fst (c : Ascii.ascii) (r : option (string * string)) : option (string * string) :=
  match r with Some (s, t) => Some (String c s, t) | None => None end.
Definition unesc (c : Ascii.ascii) : option Ascii.ascii :=
  if bool_decide (c = c_quote) then Some c_quote
  else if bool_decide (c = c_backslash) then Some c_backslash
  else if bool_decide (c = chr 47) then Some (chr 47)
  else if bool_decide (c = "n"%char) then Some (chr 10)
  else if bool_decide (c = "r"%char) then Some (chr 13)
  else if bool_decide (c = "t"%char) then Some (chr 9)
  else if bool_decide (c = "b"%char) then Some (chr 8)
  else if bool_decide (c = "f"%char) then Some (chr 12)
  else None.
(** The rest of a string literal after its opening quote. *)
Fixpoint parse_str (s : string) : option (string * string) :=
  match s with
  | EmptyString => None
  | String c r =>
      if bool_decide (c = c_quote) then Some ("", r)
      else if bool_decide (c = c_backslash) then
        match r with
        | String e r' =>
            if bool_decide (e = "u"%char) then
              match r' with
              | String h1 (String h2 (String h3 (String h4 r''))) =>
                  match hex_val h1, hex_val h2, hex_val h3, hex_val h4 with
                  | Some O, Some O, Some a, Some b => cons_fst (chr (16 * a + b)) (parse_str r'')
                  | _, _, _, _ => None
                  end
              | _ => None
              end
            else match unesc e with Some x => cons_fst x (parse_str r') | None => None end
        | EmptyString => None
        end
      else if (ord c <? 32)%nat then None
      else cons_fst c (parse_str r)
  end.

Definition is_digit (c : Ascii.ascii) : bool := (48 <=? ord c)%nat && (ord c <=? 57)%nat.
Fixpoint take_digits (s : string) : string * string :=
  match s with
  | String c s' => if is_digit c then let (d, r) := take_digits s' in (String c d, r) else ("", s)
  | EmptyString => ("", "")
  end.
(** A JSON integer: no leading zero before another digit. *)
Definition parse_int (s : string) : option (Z * string) :=
  let (sign, body) := match s with
                      | String "-"%char s' => ("-", s')
                      | _ => ("", s)
                      end in
  let (d, r) := take_digits body in
  match d with
  | String "0"%char (String _ _) => None
  | _ => match Z_of_str (sign +:+ d) with Some z => Some (z, r) | None => None end
  end.

Definition eat (p s : string) : option string :=
  if startswith s p then Some (String.substring (String.length p) (String.length s - String.length p) s)
  else None.

Definition parse_scalar (s : string) : option (json * string) :=
  match eat "null" s with
  | Some r => Some (JNull, r)
  | None => match eat "true" s with
  | Some r => Some (JBool true, r)
  | None => match eat "false" s with
  | Some r => Some (JBool false, r)
  | None => match parse_int s with Some (z, r) => Some (JInt z, r) | None => None end
  end end end.

(** The recursion is on fuel; [loads] gives one unit per character of the text
    and one more, and every nested call has consumed a character. *)
Fixpoint parse_value (fuel : nat) (s : string) : option (json * string) :=
  match fuel with
  | O => None
  | S f =>
      match skip_ws s with
      | EmptyString => None
      | String c r =>
          if bool_decide (c = c_quote) then
            match parse_str r with Some (t, r') => Some (JStr t, r') | None => None end
          else if bool_decide (c = "["%char) then
            match skip_ws r with
            | String "]"%char r' => Some (JList [], r')
            | _ => match parse_items f r with Some (l, r') => Some (JList l, r') | None => None end
            end
          else if bool_decide (c = "{"%char) then
            match skip_ws r with
            | String "}"%char r' => Some (JObj [], r')
            | _ => match parse_members f [] r with
                   | Some (o, r') => Some (JObj o, r')
                   | None => None
                   end
            end
          else parse_scalar (String c r)
      end
  end
with parse_items (fuel : nat) (s : string) : option (list json * string) :=
  match fuel with
  | O => None
  | S f =>
      match parse_value f s with
      | None => None
      | Some (v, r) =>
          match skip_ws r with
          | String ","%char r' =>
              match parse_items f r' with Some (l, r'') => Some (v :: l, r'') | None => None end
          | String "]"%char r' => Some ([v], r')
          | _ => None
          end
      end
  end
with parse_members (fuel : nat) (acc : list (string * json)) (s : string)
    : option (list (string * json) * string) :=
  match fuel with
  | O => None
  | S f =>
      match skip_ws s with
      | String c r =>
          if bool_decide (c = c_quote) then
            match parse_str r with
            | None => None
            | Some (k, r1) =>
                match skip_ws r1 with
                | String ":"%char r2 =>
                    match parse_value f r2 with
                    | None => None
                    | Some (v, r3) =>
                        (* a repeated key keeps its last value *)
                        let acc' := dset k v acc in
                        match skip_ws r3 with
                        | String ","%char r4 => parse_members f acc' r4
                        | String "}"%char r4 => Some (acc', r4)
                        | _ => None
                        end
                    end
                | _ => None
                end
            end
          else None
      | EmptyString => None
      end
  end.

(** [json.loads]: [None] is a [JSONDecodeError]. *)
Definition loads (s : string) : option json :=
  match parse_value (S (String.length s)) s with
  | Some (v, r) => match skip_ws r with EmptyString => Some v | _ => None end
  | None => None
  end.

Example loads_ex :
  loads (dumps (JObj [("a", JInt (-12)); ("b", JList [JNull; JBool true; JStr ("x" +:+ s1 (chr 10))])])) =
  Some (JObj [("a", JInt (-12)); ("b", JList [JNull; JBool true; JStr ("x" +:+ s1 (chr 10))])]).
Proof. vm_compute. reflexivity. Qed.

(** ** The round trip *)

#[local] Arguments String.append : simpl nomatch.

(** Values whose objects have distinct keys, as Python dictionaries do. *)
Fixpoint json_wf (v : json) : bool :=
  match v with
  | JList l => forallb json_wf l
  | JObj o => bool_decide (NoDup o.*1) && forallb (fun kv => json_wf (snd kv)) o
  | _ => true
  end.

(** Fuel one value needs. *)
Definition need_seq (l : list nat) : nat := foldr (fun x a => S (Nat.max x a)) O l.
Fixpoint need (v : json) : nat :=
  match v with
  | JList l => S (need_seq (map need l))
  | JObj o => S (need_seq (map (fun kv => need (snd kv)) o))
  | _ => 1%nat
  end.

Lemma parse_esc_char c t : parse_str (esc_char c +:+ t) = cons_fst c (parse_str t).
Proof. destruct c as [[] [] [] [] [] [] [] []]; reflexivity. Qed.
Lemma parse_str_esc s r : parse_str (esc s +:+ String c_quote r) = Some (s, r).
Proof.
  induction s as [|c s IH]; [done |].
  cbn [esc]. by rewrite append_assoc, parse_esc_char, IH.
Qed.

Definition digit_free (s : string) : Prop :=
  match s with String c _ => is_digit c = false | EmptyString => True end.
Lemma take_digits_free s : digit_free s -> take_digits s = ("", s).
Proof. destruct s as [|c s]; cbn; [done | by intros ->]. Qed.
Lemma take_digits_uint d r :
  digit_free r -> take_digits (NilEmpty.string_of_uint d +:+ r) = (NilEmpty.string_of_uint d, r).
Proof.
  intros Hr. induction d as [|d IH|d IH|d IH|d IH|d IH|d IH|d IH|d IH|d IH|d IH];
    [by apply take_digits_free | ..]; cbn; by rewrite IH.
Qed.

(** The digits of a positive number start with a non-zero one. *)
Lemma pos_digits p : exists c t,
  NilEmpty.string_of_uint (Pos.to_uint p) = String c t /\ is_digit c = true /\ c <> "0"%char.
Proof.
  assert (H : Decimal.nzhead (Pos.to_uint p) = Pos.to_uint p).
  { pose proof (DecimalPos.Unsigned.to_of (Pos.to_uint p)) as H.
    rewrite (DecimalPos.Unsigned.of_to p) in H. cbn in H. rewrite unorm_nzhead in H; [done |].
    intros Hz%unorm_0. rewrite Hz in H.
    by apply (DecimalPos.Unsigned.to_uint_nonzero p). }
  pose proof (DecimalPos.Unsigned.to_uint_nonnil p) as Hn.
  destruct (Pos.to_uint p) as [|d|d|d|d|d|d|d|d|d|d]; cbn; try done;
    try (eexists _, _; repeat split; done).
  by destruct (nzhead_nonzero (Decimal.D0 d) d).
Qed.
Lemma str_of_Z_pos p : str_of_Z (Z.pos p) = NilEmpty.string_of_uint (Pos.to_uint p).
Proof.
  unfold str_of_Z. cbn. unfold NilZero.string_of_uint.
  by destruct (Pos.to_uint p) eqn:Hp; [by destruct (DecimalPos.Unsigned.to_uint_nonnil p) | ..].
Qed.
Lemma str_of_Z_neg p : str_of_Z (Z.neg p) = String "-" (str_of_Z (Z.pos p)).
Proof. reflexivity. Qed.
(** What an integer literal looks like from outside. *)
Lemma str_of_Z_head z : exists c t, str_of_Z z = String c t /\ (is_digit c = true \/ c = "-"%char).
Proof.
  destruct z as [|p|p]; [by exists "0"%char, ""; auto | |].
  - rewrite str_of_Z_pos. destruct (pos_digits p) as (c & t & -> & Hc & _). eauto.
  - rewrite str_of_Z_neg. eauto.
Qed.

Lemma parse_int_str z r : digit_free r -> parse_int (str_of_Z z +:+ r) = Some (z, r).
Proof.
  intros Hr. pose proof (Z_of_str_of_Z z) as Hrt. destruct z as [|p|p].
  - unfold parse_int. cbn. by rewrite (take_digits_free r Hr).
  - rewrite str_of_Z_pos in *. destruct (pos_digits p) as (c & t & Hp & Hc & H0).
    unfold parse_int. pose proof (take_digits_uint (Pos.to_uint p) r Hr) as Ht.
    rewrite Hp in *. simpl in Ht |- *.
    replace (match c with "-"%char => ("-", t +:+ r) | _ => ("", String c (t +:+ r)) end)
      with ("", String c (t +:+ r)) by (by destruct c as [[] [] [] [] [] [] [] []]).
    simpl. rewrite Ht.
    destruct t as [|c' t]; [by rewrite Hrt; destruct c as [[] [] [] [] [] [] [] []] |].
    rewrite Hrt. by destruct c as [[] [] [] [] [] [] [] []].
  - rewrite str_of_Z_neg, str_of_Z_pos in *. destruct (pos_digits p) as (c & t & Hp & Hc & H0).
    unfold parse_int. simpl. rewrite (take_digits_uint (Pos.to_uint p) r Hr), Hp in *.
    destruct t as [|c' t]; (rewrite Hrt; by destruct c as [[] [] [] [] [] [] [] []]).
Qed.

(** The text of a value starts with neither white space nor a closing bracket. *)
Definition opens (c : ascii) : bool :=
  negb (is_ws c) && negb (bool_decide (c = "]"%char)) && negb (bool_decide (c = "}"%char)).
Lemma dumps_head v : exists c t, dumps v = String c t /\ opens c = true.
Proof.
  destruct v as [|b|z|s|l|o]; try (eexists _, _; split; reflexivity).
  - destruct b; eexists _, _; split; reflexivity.
  - cbn. destruct (str_of_Z_head z) as (c & t & -> & Hc). exists c, t. split; [done |].
    destruct Hc as [Hc | ->]; [| done]. by destruct c as [[] [] [] [] [] [] [] []].
Qed.
Lemma skip_ws_opens c t : opens c = true -> skip_ws (String c t) = String c t.
Proof. unfold opens. cbn. by destruct (is_ws c). Qed.

Lemma parse_scalar_int z r :
  digit_free r -> parse_scalar (str_of_Z z +:+ r) = Some (JInt z, r).
Proof.
  intros Hr. pose proof (parse_int_str z r Hr) as Hp. unfold parse_scalar.
  destruct (str_of_Z_head z) as (c & t & Hz & Hc). rewrite Hz in *.
  destruct Hc as [Hc | ->]; [| simpl in *; by rewrite Hp].
  assert (He : forall p q, is_digit p = false -> eat (String p q) (String c t +:+ r) = None).
  { intros p q Hd. unfold eat, startswith. simpl.
    destruct (ascii_dec p c) as [-> |]; [congruence | done]. }
  rewrite !He by done. by rewrite Hp.
Qed.

Lemma eat_append p r : eat p (p +:+ r) = Some r.
Proof.
  unfold eat. rewrite startswith_append, length_append.
  replace (String.length p + String.length r - String.length p)%nat
    with (String.length r) by lia.
  by rewrite substring_suffix.
Qed.
Lemma eat_other c p d q r : c <> d -> eat (String c p) (String d q +:+ r) = None.
Proof. intros Hne. unfold eat, startswith. simpl. by destruct (ascii_dec c d). Qed.

(** A value is read back from its text, whatever follows it. *)
Definition reads (v : json) : Prop :=
  forall f r, (need v <= f)%nat -> digit_free r -> parse_value f (dumps v +:+ r) = Some (v, r).

Lemma parse_value_space f s : parse_value f (String " " s) = parse_value f s.
Proof. by destruct f. Qed.

Lemma reads_scalar v c t :
  dumps v = String c t -> opens c = true ->
  c <> c_quote -> c <> "["%char -> c <> "{"%char -> (1 <= need v)%nat ->
  (forall r, digit_free r -> parse_scalar (dumps v +:+ r) = Some (v, r)) -> reads v.
Proof.
  intros Hd Ho Hq Hb Hc Hn Hs f r Hf Hr. destruct f as [|f]; [lia |].
  specialize (Hs r Hr). rewrite Hd in *.
  change (String c t +:+ r) with (String c (t +:+ r)) in *. cbn [parse_value].
  rewrite (skip_ws_opens c (t +:+ r) Ho). rewrite !bool_decide_false by done. exact Hs.
Qed.

Lemma parse_items_reads l r : Forall reads l -> l <> [] ->
  forall f, (need_seq (map need l) <= f)%nat -> digit_free r ->
  parse_items f (join ", " (map dumps l) +:+ String "]" r) = Some (l, r) /\
  parse_items f (String " " (join ", " (map dumps l) +:+ String "]" r)) = Some (l, r).
Proof.
  induction 1 as [|v l Hv Hl IH]; [done |]. intros _ f Hf Hr.
  destruct f as [|f]; [cbn in Hf; lia |]. cbn [map need_seq foldr] in Hf.
  destruct l as [|v' l].
  - simpl. rewrite parse_value_space, Hv; [done | cbn in *; lia | done].
  - cbn [parse_items]. rewrite parse_value_space.
    change (join ", " (map dumps (v :: v' :: l)))
      with (dumps v +:+ ", " +:+ join ", " (map dumps (v' :: l))).
    rewrite !append_assoc. rewrite Hv by (cbn in *; lia || done).
    destruct (IH ltac:(done) f ltac:(cbn in *; lia) Hr) as [_ IH2].
    simpl. simpl in IH2. by rewrite IH2.
Qed.

Lemma dset_fresh {V} k (v : V) d : k ∉ d.*1 -> dset k v d = d ++ [(k, v)].
Proof.
  induction d as [|[k' v'] d IH]; cbn; [done |]. intros Hk.
  rewrite bool_decide_false by set_solver. rewrite IH by set_solver. done.
Qed.

Definition dumps_member (kv : string * json) : string := quote_str kv.1 +:+ ": " +:+ dumps kv.2.
Lemma dumps_member_append kv r :
  dumps_member kv +:+ r = String c_quote (esc kv.1 +:+ String c_quote (String ":" (String " " (dumps kv.2 +:+ r)))).
Proof. unfold dumps_member, quote_str. simpl. rewrite !append_assoc. reflexivity. Qed.

Lemma parse_members_reads o r : Forall (fun kv => reads kv.2) o -> o <> [] ->
  forall f acc, (need_seq (map (fun kv => need kv.2) o) <= f)%nat -> digit_free r ->
  NoDup (acc.*1 ++ o.*1) ->
  parse_members f acc (join ", " (map dumps_member o) +:+ String "}" r) = Some (acc ++ o, r) /\
  parse_members f acc (String " " (join ", " (map dumps_member o) +:+ String "}" r)) = Some (acc ++ o, r).
Proof.
  induction 1 as [|[k v] o Hv Ho IH]; [done |]. intros _ f acc Hf Hr Hnd.
  destruct f as [|f]; [cbn in Hf; lia |]. cbn [map need_seq foldr] in Hf.
  assert (Hk : k ∉ acc.*1) by (apply NoDup_app in Hnd; set_solver).
  assert (Hsp : forall s, parse_members (S f) acc (String " " s) = parse_members (S f) acc s) by done.
  rewrite Hsp. refine ((fun H => conj H H) _).
  destruct o as [|kv' o].
  - cbn [map join]. rewrite dumps_member_append. simpl. rewrite parse_str_esc. simpl.
    rewrite parse_value_space, (Hv f) by (cbn in *; lia || done). simpl.
    by rewrite dset_fresh.
  - change (join ", " (map dumps_member ((k, v) :: kv' :: o)))
      with (dumps_member (k, v) +:+ ", " +:+ join ", " (map dumps_member (kv' :: o))).
    rewrite !append_assoc, dumps_member_append. cbn [parse_members]. simpl.
    rewrite parse_str_esc. simpl. rewrite parse_value_space, (Hv f) by (cbn in *; lia || done).
    simpl. rewrite dset_fresh by done.
    destruct (IH ltac:(done) f (acc ++ [(k, v)]) ltac:(cbn in *; lia) Hr) as [_ IH2].
    { rewrite fmap_app. cbn in *. by rewrite <- app_assoc. }
    simpl in IH2. rewrite IH2. by rewrite <- app_assoc.
Qed.

Lemma dumps_obj o : dumps (JObj o) = "{" +:+ join ", " (map dumps_member o) +:+ "}".
Proof. reflexivity. Qed.

Lemma join_items_head l r : l <> [] ->
  exists c t, join ", " (map dumps l) +:+ r = String c t /\ opens c = true.
Proof.
  destruct l as [|v l]; [done |]. intros _. destruct (dumps_head v) as (c & t & Hd & Ho).
  destruct l; cbn [map join]; rewrite Hd; eexists _, _; (split; [reflexivity | done]).
Qed.

Lemma parse_value_list f r :
  parse_value (S f) (String "[" r) =
  match skip_ws r with
  | String "]" r' => Some (JList [], r')
  | _ => match parse_items f r with Some (l, r') => Some (JList l, r') | None => None end
  end.
Proof. reflexivity. Qed.
Lemma parse_value_obj f r :
  parse_value (S f) (String "{" r) =
  match skip_ws r with
  | String "}" r' => Some (JObj [], r')
  | _ => match parse_members f [] r with Some (o, r') => Some (JObj o, r') | None => None end
  end.
Proof. reflexivity. Qed.

Lemma reads_list l : Forall reads l -> reads (JList l).
Proof.
  intros Hl f r Hf Hr. cbn [need] in Hf. destruct f as [|f]; [lia |].
  cbn [dumps]. rewrite !append_assoc. destruct l as [|v l]; [done |].
  change ("[" +:+ ?s) with (String "[" s). change ("]" +:+ r) with (String "]" r).
  rewrite parse_value_list.
  destruct (parse_items_reads (v :: l) r Hl ltac:(done) f ltac:(lia) Hr) as [Hp _].
  destruct (join_items_head (v :: l) (String "]" r) ltac:(done)) as (c & t & Hj & Ho).
  rewrite Hj in *. rewrite (skip_ws_opens c t Ho), Hp.
  by destruct c as [[] [] [] [] [] [] [] []].
Qed.

Lemma reads_obj o : NoDup o.*1 -> Forall (fun kv => reads kv.2) o -> reads (JObj o).
Proof.
  intros Hnd Ho f r Hf Hr. cbn [need] in Hf. destruct f as [|f]; [lia |].
  rewrite dumps_obj, !append_assoc. destruct o as [|kv o]; [done |].
  change ("{" +:+ ?s) with (String "{" s). change ("}" +:+ r) with (String "}" r).
  rewrite parse_value_obj.
  destruct (parse_members_reads (kv :: o) r Ho ltac:(done) f [] ltac:(lia) Hr Hnd) as [Hp _].
  assert (exists t, join ", " (map dumps_member (kv :: o)) +:+ String "}" r = String c_quote t)
    as [t Ht].
  { destruct o; cbn [map join]; rewrite ?append_assoc, dumps_member_append; eauto. }
  rewrite Ht in *. by rewrite Hp.
Qed.

Lemma json_wf_reads v : json_wf v = true -> reads v.
Proof.
  induction v as [|b|z|s|l IH|o IH] using json_nested_ind; cbn [json_wf]; intros Hwf.
  - eapply reads_scalar; [reflexivity | by vm_compute | done | done | done | done |].
    intros r _. unfold parse_scalar. cbn [dumps]. by rewrite eat_append.
  - destruct b; (eapply reads_scalar; [reflexivity | by vm_compute | done | done | done | done |]);
      intros r _; unfold parse_scalar; cbn [dumps];
      rewrite !(eat_other _ _ _ _ r) by done; by rewrite eat_append.
  - destruct (str_of_Z_head z) as (c & t & Hz & Hc).
    destruct (dumps_head (JInt z)) as (c' & t' & Hz' & Ho). cbn in Hz'.
    rewrite Hz in Hz'. simplify_eq.
    eapply reads_scalar; [exact Hz | exact Ho | | | | done | intros; by apply parse_scalar_int];
      intros ->; by destruct Hc.
  - intros f r Hf Hr. destruct f as [|f]; [cbn in Hf; lia |]. simpl.
    rewrite append_assoc. change (s1 c_quote +:+ r) with (String c_quote r).
    by rewrite parse_str_esc.
  - apply reads_list. rewrite forallb_forall in Hwf. rewrite Forall_forall in IH |- *.
    intros x Hx. apply IH; [done |]. apply Hwf. by apply list_elem_of_In.
  - apply andb_true_iff in Hwf as [Hnd Hwf]. apply bool_decide_eq_true in Hnd.
    apply reads_obj; [done |]. rewrite forallb_forall in Hwf. rewrite Forall_forall in IH |- *.
    intros x Hx. apply IH; [done |]. apply Hwf. by apply list_elem_of_In.
Qed.

Lemma need_seq_join {A} (t : A -> string) (n : A -> nat) l :
  Forall (fun x => (n x <= String.length (t x))%nat) l ->
  (need_seq (map n l) <= S (String.length (join ", " (map t l))))%nat.
Proof.
  induction 1 as [|x l Hx Hl IH]; cbn [map need_seq foldr]; [cbn; lia |].
  fold (need_seq (map n l)). destruct l as [|y l]; [cbn; lia |].
  change (join ", " (t x :: map t (y :: l))) with (t x +:+ ", " +:+ join ", " (map t (y :: l))).
  rewrite !length_append. cbn [String.length]. lia.
Qed.

Lemma need_le_length v : (need v <= String.length (dumps v))%nat.
Proof.
  induction v as [|[]|z|s|l IH|o IH] using json_nested_ind; cbn [need]; try (cbn; lia).
  - destruct (str_of_Z_head z) as (c & t & Hz & _). cbn [dumps]. rewrite Hz. cbn. lia.
  - cbn [dumps]. rewrite !length_append. cbn [String.length].
    pose proof (need_seq_join dumps need l IH). lia.
  - rewrite dumps_obj, !length_append. cbn [String.length].
    assert (Ho : Forall (fun kv => (need kv.2 <= String.length (dumps_member kv))%nat) o).
    { eapply Forall_impl; [exact IH |]. intros kv Hkv. unfold dumps_member.
      rewrite !length_append. cbn in Hkv. lia. }
    pose proof (need_seq_join dumps_member (fun kv => need kv.2) o Ho). cbn in *. lia.
Qed.

(** Decoding what the encoder wrote gives the value back. *)
Theorem loads_dumps v : json_wf v = true -> loads (dumps v) = Some v.
Proof.
  intros Hwf. unfold loads. pose proof (need_le_length v) as Hn.
  pose proof (json_wf_reads v Hwf (S (String.length (dumps v))) "" ltac:(lia) I) as H.
  rewrite append_nil_r in H. by rewrite H.
Qed.

(** ** Sorted keys do not depend on the order of insertion *)

Lemma str_leb_refl s : str_leb s s = true.
Proof. induction s as [|c s IH]; [done |]. cbn [str_leb]. by rewrite Nat.ltb_irrefl. Qed.
Lemma str_leb_total s t : str_leb s t = true \/ str_leb t s = true.
Proof.
  revert t. induction s as [|a s IH]; intros [|b t]; cbn [str_leb]; auto.
  destruct (Nat.ltb_spec (ord a) (ord b)), (Nat.ltb_spec (ord b) (ord a)); auto.
Qed.
Lemma ord_inj a b : ord a = ord b -> a = b.
Proof. intros H%(f_equal Ascii.ascii_of_nat). unfold ord in H. by rewrite !Ascii.ascii_nat_embedding in H. Qed.
Lemma str_leb_antisym s t : str_leb s t = true -> str_leb t s = true -> s = t.
Proof.
  revert t. induction s as [|a s IH]; intros [|b t]; cbn [str_leb]; try done.
  destruct (Nat.ltb_spec (ord a) (ord b)), (Nat.ltb_spec (ord b) (ord a)); try done; try lia.
  intros H1 H2. f_equal; [apply ord_inj; lia | auto].
Qed.
Lemma str_leb_trans s t u : str_leb s t = true -> str_leb t u = true -> str_leb s u = true.
Proof.
  revert t u. induction s as [|a s IH]; intros [|b t] [|c u]; cbn [str_leb]; try done.
  destruct (Nat.ltb_spec (ord a) (ord b)), (Nat.ltb_spec (ord b) (ord a)),
    (Nat.ltb_spec (ord b) (ord c)), (Nat.ltb_spec (ord c) (ord b)),
    (Nat.ltb_spec (ord a) (ord c)), (Nat.ltb_spec (ord c) (ord a)); try done; try lia. apply IH.
Qed.
#[local] Instance key_le_total : Total key_le.
Proof. intros x y. apply str_leb_total. Qed.
#[local] Instance key_le_trans : Transitive key_le.
Proof. intros x y z. apply str_leb_trans. Qed.

(** Two sorted lists of pairs with the same pairs and no key twice are equal. *)
Lemma sorted_pairs_unique (l1 l2 : list (string * json)) :
  StronglySorted key_le l1 -> StronglySorted key_le l2 -> NoDup l1.*1 -> l1 ≡ₚ l2 -> l1 = l2.
Proof.
  intros S1. revert l2. induction S1 as [|x l1 S1 IH F1]; intros l2 S2 N P.
  { by apply Permutation_nil in P. }
  destruct S2 as [|y l2 S2 F2]; [by apply Permutation_sym, Permutation_nil in P |].
  assert (x = y) as ->.
  { assert (Hx : x ∈ y :: l2) by (rewrite <- P; left). assert (Hy : y ∈ x :: l1) by (rewrite P; left).
    apply elem_of_cons in Hx as [| Hx]; [done |]. apply elem_of_cons in Hy as [| Hy]; [done |].
    rewrite Forall_forall in F1, F2. pose proof (str_leb_antisym _ _ (F1 _ Hy) (F2 _ Hx)) as E.
    exfalso. inversion N as [| ? ? Hn]; subst. apply Hn. rewrite E. by apply list_elem_of_fmap_2. }
  f_equal. apply Permutation_cons_inv in P. inversion N; subst. auto.
Qed.
Lemma sort_keys_perm o1 o2 : o1 ≡ₚ o2 -> NoDup o1.*1 -> sort_keys (JObj o1) = sort_keys (JObj o2).
Proof.
  intros P N. cbn [sort_keys]. f_equal.
  apply sorted_pairs_unique; try apply StronglySorted_merge_sort; try apply _.
  - rewrite merge_sort_Permutation, <- list_fmap_compose. exact N.
  - rewrite !merge_sort_Permutation. by apply Permutation_map.
Qed.

(** ** Equality up to the order of keys: what a JSONB column keeps of a value *)

Definition same_json (v w : json) : Prop := sort_keys v = sort_keys w.
#[export] Instance same_json_equiv : Equivalence same_json.
Proof. split; unfold same_json; [done | by intros ? ? | congruence]. Qed.
Definition same_member (x y : string * json) : Prop := x.1 = y.1 /\ same_json x.2 y.2.

Lemma same_flat v w : match v with JList _ | JObj _ => False | _ => True end -> same_json v w -> w = v.
Proof. unfold same_json. by destruct v, w. Qed.
Lemma same_list l v : same_json (JList l) v -> exists l', v = JList l' /\ Forall2 same_json l l'.
Proof.
  unfold same_json. destruct v as [| | | |l'|]; try done. intros [= E]. exists l'. split; [done |].
  revert l' E. induction l as [|x l IH]; intros [|y l'] [=]; constructor; auto.
Qed.
Lemma same_list_intro l l' : Forall2 same_json l l' -> same_json (JList l) (JList l').
Proof. intros Hl. unfold same_json. cbn. f_equal. induction Hl; cbn; by f_equal. Qed.
Lemma same_obj_intro o o' : Forall2 same_member o o' -> same_json (JObj o) (JObj o').
Proof.
  intros Ho. unfold same_json. cbn [sort_keys]. do 2 f_equal. induction Ho as [|[k x] [k' y] o o' [Hk Hx] _ IH]; [done |].
  cbn in *. unfold same_json in Hx. by rewrite Hk, Hx, IH.
Qed.
Lemma dget_fmap_val {V V'} (g : V -> V') k (o : list (string * V)) :
  dget k (map (fun kv => (kv.1, g kv.2)) o) = g <$> dget k o.
Proof. induction o as [|[k' v] o IH]; [done |]. cbn. by case_bool_decide. Qed.
Lemma dget_perm {V} k (a b : list (string * V)) : a ≡ₚ b -> NoDup a.*1 -> dget k a = dget k b.
Proof.
  intros P N. assert (N' : NoDup b.*1) by by rewrite <- P.
  destruct (dget k a) as [v|] eqn:E.
  - symmetry. apply dget_NoDup; [done |]. rewrite <- P. by apply dget_in.
  - symmetry. apply dget_None_notin. rewrite <- P. by apply dget_None_notin.
Qed.
Lemma same_obj o v : same_json (JObj o) v -> exists o', v = JObj o' /\ o.*1 ≡ₚ o'.*1 /\
  (NoDup o.*1 -> forall k, option_Forall2 same_json (dget k o) (dget k o')).
Proof.
  unfold same_json at 1. destruct v as [| | | | |o']; try done. cbn [sort_keys]. intros [= E].
  assert (P : map (fun kv => (kv.1, sort_keys kv.2)) o ≡ₚ map (fun kv => (kv.1, sort_keys kv.2)) o')
    by (rewrite <- (merge_sort_Permutation key_le (map _ o)), E; apply merge_sort_Permutation).
  assert (Hk : forall x : list (string * json), (map (fun kv => (kv.1, sort_keys kv.2)) x).*1 = x.*1)
    by (intros x; rewrite <- list_fmap_compose; by apply list_fmap_ext).
  exists o'. split; [done |]. split; [by rewrite <- (Hk o), <- (Hk o'), P |].
  intros N k. pose proof (dget_perm k _ _ P) as Hd. rewrite Hk, !dget_fmap_val in Hd. specialize (Hd N).
  destruct (dget k o), (dget k o'); try done; constructor. by injection Hd.
Qed.
