(* ===== verification/Hash.v ===== *)
(** * The digests of Python's standard library

    [hashlib.sha256], [hashlib.md5], [hmac.new(key, msg, sha256)] and their
    [hexdigest], as FIPS 180-4, RFC 1321 and RFC 2104 define them, and the UTF-8 form of a
    Latin-1 string.  A byte is a [Z] below 256, a word a [Z] below [2^32]; the
    test vectors of the standards are checked at the end. *)

From S2P Require Import Prelude Json.
From Stdlib Require Import Ascii.
Local Open Scope Z_scope.

(** ** Bytes and words *)

Definition w32 (x : Z) : Z := Z.land x 0xffffffff.
Definition rotr (n x : Z) : Z := Z.lor (Z.shiftr x n) (w32 (Z.shiftl x (32 - n))).
Definition rotl (n x : Z) : Z := rotr (32 - n) x.
Definition not32 (x : Z) : Z := Z.lxor x 0xffffffff.

Fixpoint bytes_of (s : string) : list Z :=
  match s with
  | EmptyString => []
  | String c s' => Z.of_nat (ord c) :: bytes_of s'
  end.
(** [n] bytes of [x], the most significant one first. *)
Fixpoint be_bytes (n : nat) (x : Z) : list Z :=
  match n with
  | O => []
  | S n' => Z.land (Z.shiftr x (8 * Z.of_nat n')) 255 :: be_bytes n' x
  end.
Definition le_bytes (n : nat) (x : Z) : list Z := rev (be_bytes n x).
Definition be_word (l : list Z) : Z := fold_left (fun a b => Z.lor (Z.shiftl a 8) b) l 0.
(** The list in pieces of [n]; [fuel] pieces at most. *)
Fixpoint pieces (fuel n : nat) (l : list Z) : list (list Z) :=
  match fuel, l with
  | O, _ | _, [] => []
  | S f, _ => take n l :: pieces f n (drop n l)
  end.
Definition hex_byte (b : Z) : string :=
  String (hex_digit (Z.to_nat (Z.shiftr b 4))) (String (hex_digit (Z.to_nat (Z.land b 15))) "").
Definition hexdigest (l : list Z) : string := fold_right (fun b s => hex_byte b +:+ s) "" l.

(** Padding to a multiple of 64 bytes: a 1 bit, zeros, the length in bits. *)
Definition padded (length_bytes : nat -> Z -> list Z) (msg : list Z) : list Z :=
  let n := Z.of_nat (length msg) in
  msg ++ 128 :: replicate (Z.to_nat ((55 - n) mod 64)) 0 ++ length_bytes 8%nat (8 * n).
Definition blocks (word : list Z -> Z) (m : list Z) : list (list Z) :=
  map (fun b => map word (pieces 16 4 b)) (pieces (length m) 64 m).

(** ** SHA-256 *)

(** The constants are fractional parts of roots of the first primes, 32 bits of each. *)
Fixpoint primes (fuel : nat) (found : list Z) (n : Z) : list Z :=
  match fuel with
  | O => rev found
  | S f => primes f (if forallb (fun p => negb (n mod p =? 0)) found then n :: found else found) (n + 1)
  end.
(** The integer cube root, bit by bit from [2^n]. *)
Fixpoint cbrt (n : nat) (x acc : Z) : Z :=
  let r := acc + 2 ^ Z.of_nat n in
  let acc := if r * r * r <=? x then r else acc in
  match n with O => acc | S n' => cbrt n' x acc end.
Definition sha256_k : list Z :=
  Eval vm_compute in map (fun p => w32 (cbrt 36 (Z.shiftl p 96) 0)) (primes 310 [] 2).
Definition sha256_h : list Z :=
  Eval vm_compute in map (fun p => w32 (Z.sqrt (Z.shiftl p 64))) (take 8 (primes 310 [] 2)).
(** The message schedule, built newest word first. *)
Fixpoint schedule (n : nat) (ws : list Z) : list Z :=
  match n with
  | O => rev ws
  | S n' =>
      let x := nth 14 ws 0 in
      let y := nth 1 ws 0 in
      let s0 := Z.lxor (Z.lxor (rotr 7 x) (rotr 18 x)) (Z.shiftr x 3) in
      let s1 := Z.lxor (Z.lxor (rotr 17 y) (rotr 19 y)) (Z.shiftr y 10) in
      schedule n' (w32 (nth 15 ws 0 + s0 + nth 6 ws 0 + s1) :: ws)
  end.
Definition sha256_round (st : list Z) (kw : Z * Z) : list Z :=
  match st with
  | [a; b; c; d; e; f; g; h] =>
      let s1 := Z.lxor (Z.lxor (rotr 6 e) (rotr 11 e)) (rotr 25 e) in
      let ch := Z.lxor (Z.land e f) (Z.land (not32 e) g) in
      let t1 := w32 (h + s1 + ch + fst kw + snd kw) in
      let s0 := Z.lxor (Z.lxor (rotr 2 a) (rotr 13 a)) (rotr 22 a) in
      let maj := Z.lxor (Z.lxor (Z.land a b) (Z.land a c)) (Z.land b c) in
      [w32 (t1 + s0 + maj); a; b; c; w32 (d + t1); e; f; g]
  | _ => st
  end.
Definition sha256_block (st ws : list Z) : list Z :=
  zip_with (fun x y => w32 (x + y)) st
    (fold_left sha256_round (zip sha256_k (schedule 48 (rev ws))) st).
Definition sha256 (msg : list Z) : list Z :=
  concat (map (be_bytes 4) (fold_left sha256_block (blocks be_word (padded be_bytes msg)) sha256_h)).

(** ** MD5 *)

Definition md5_k : list Z := [
  0xd76aa478; 0xe8c7b756; 0x242070db; 0xc1bdceee; 0xf57c0faf; 0x4787c62a; 0xa8304613; 0xfd469501;
  0x698098d8; 0x8b44f7af; 0xffff5bb1; 0x895cd7be; 0x6b901122; 0xfd987193; 0xa679438e; 0x49b40821;
  0xf61e2562; 0xc040b340; 0x265e5a51; 0xe9b6c7aa; 0xd62f105d; 0x02441453; 0xd8a1e681; 0xe7d3fbc8;
  0x21e1cde6; 0xc33707d6; 0xf4d50d87; 0x455a14ed; 0xa9e3e905; 0xfcefa3f8; 0x676f02d9; 0x8d2a4c8a;
  0xfffa3942; 0x8771f681; 0x6d9d6122; 0xfde5380c; 0xa4beea44; 0x4bdecfa9; 0xf6bb4b60; 0xbebfbc70;
  0x289b7ec6; 0xeaa127fa; 0xd4ef3085; 0x04881d05; 0xd9d4d039; 0xe6db99e5; 0x1fa27cf8; 0xc4ac5665;
  0xf4292244; 0x432aff97; 0xab9423a7; 0xfc93a039; 0x655b59c3; 0x8f0ccc92; 0xffeff47d; 0x85845dd1;
  0x6fa87e4f; 0xfe2ce6e0; 0xa3014314; 0x4e0811a1; 0xf7537e82; 0xbd3af235; 0x2ad7d2bb; 0xeb86d391].
Definition md5_s : list Z :=
  concat (map (fun l => concat (replicate 4 l))
    [[7; 12; 17; 22]; [5; 9; 14; 20]; [4; 11; 16; 23]; [6; 10; 15; 21]]).
Definition md5_h : list Z := [0x67452301; 0xefcdab89; 0x98badcfe; 0x10325476].
Definition md5_round (ws : list Z) (st : list Z) (i : nat) : list Z :=
  match st with
  | [a; b; c; d] =>
      let '(f, g) :=
        if (i <? 16)%nat then (Z.lor (Z.land b c) (Z.land (not32 b) d), i)
        else if (i <? 32)%nat then (Z.lor (Z.land d b) (Z.land (not32 d) c), ((5 * i + 1) mod 16)%nat)
        else if (i <? 48)%nat then (Z.lxor (Z.lxor b c) d, ((3 * i + 5) mod 16)%nat)
        else (Z.lxor c (Z.lor b (not32 d)), ((7 * i) mod 16)%nat) in
      let x := w32 (a + f + nth i md5_k 0 + nth g ws 0) in
      [d; w32 (b + rotl (nth i md5_s 0) x); b; c]
  | _ => st
  end.
Definition md5_block (st ws : list Z) : list Z :=
  zip_with (fun x y => w32 (x + y)) st (fold_left (md5_round ws) (seq 0 64) st).
Definition md5 (msg : list Z) : list Z :=
  concat (map (le_bytes 4)
    (fold_left md5_block (blocks (fun l => be_word (rev l)) (padded le_bytes msg)) md5_h)).

(** ** HMAC *)

Definition hmac_sha256 (key msg : list Z) : list Z :=
  let k := if (64 <? length key)%nat then sha256 key else key in
  let k := k ++ replicate (64 - length k) 0 in
  sha256 (map (Z.lxor 0x5c) k ++ sha256 (map (Z.lxor 0x36) k ++ msg)).

(** ** UTF-8

    [s.encode()] and [b.decode()], for code points below 256. *)
Fixpoint utf8_encode (s : string) : string :=
  match s with
  | EmptyString => EmptyString
  | String c s' =>
      if (ord c <? 128)%nat then String c (utf8_encode s')
      else String (chr (192 + ord c / 64)) (String (chr (128 + ord c mod 64)) (utf8_encode s'))
  end.
(** The byte after a lead byte C2 or C3. *)
Definition utf8_char (lead next : ascii) : option ascii :=
  if ((194 <=? ord lead) && (ord lead <=? 195) && (128 <=? ord next) && (ord next <=? 191))%nat
  then Some (chr ((ord lead - 192) * 64 + (ord next - 128))) else None.
Fixpoint utf8_decode (s : string) : option string :=
  match s with
  | EmptyString => Some EmptyString
  | String c s' =>
      if (ord c <? 128)%nat then String c <$> utf8_decode s'
      else match s' with
           | String d s'' =>
               match utf8_char c d with Some x => String x <$> utf8_decode s'' | None => None end
           | EmptyString => None
           end
  end.

Lemma utf8_char_code (c : ascii) : (ord c <? 128)%nat = false ->
  (ord (chr (192 + ord c / 64)) <? 128)%nat = false /\
  utf8_char (chr (192 + ord c / 64)) (chr (128 + ord c mod 64)) = Some c.
Proof. destruct c as [[] [] [] [] [] [] [] []]; cbn; intros H; try discriminate H; split; reflexivity. Qed.
Lemma utf8_decode_encode s : utf8_decode (utf8_encode s) = Some s.
Proof.
  induction s as [|c s IH]; [done |]. cbn [utf8_encode].
  destruct (ord c <? 128)%nat eqn:E; cbn [utf8_decode]; [by rewrite E, IH |].
  destruct (utf8_char_code c E) as [El Ec]. by rewrite El, Ec, IH.
Qed.
Lemma utf8_encode_inj s t : utf8_encode s = utf8_encode t -> s = t.
Proof. intros H%(f_equal utf8_decode). rewrite !utf8_decode_encode in H. congruence. Qed.

(** ** Test vectors *)

(** A digest of SHA-256 is 32 bytes, and its text 64 hexadecimal digits. *)
Definition is_byte (b : Z) : Prop := 0 <= b < 256.
Lemma be_bytes_length n x : length (be_bytes n x) = n.
Proof. induction n as [|n IH]; [done |]. cbn. by rewrite IH. Qed.
Lemma be_bytes_bytes n x : Forall is_byte (be_bytes n x).
Proof.
  induction n as [|n IH]; constructor; [| exact IH]. unfold is_byte.
  change 255 with (Z.ones 8). rewrite Z.land_ones by lia. apply Z.mod_pos_bound. lia.
Qed.
Lemma sha256_round_length st kw : length (sha256_round st kw) = length st.
Proof. do 9 (destruct st as [|? st]; try reflexivity). Qed.
Lemma sha256_block_length st ws : length (sha256_block st ws) = length st.
Proof.
  unfold sha256_block. rewrite length_zip_with. generalize (zip sha256_k (schedule 48 (rev ws))) as kws.
  intros kws. cut (length (fold_left sha256_round kws st) = length st); [lia |]. revert st.
  induction kws as [|kw kws IH]; intros st; [done |]. cbn [fold_left]. by rewrite IH, sha256_round_length.
Qed.
Lemma sha256_bytes msg : length (sha256 msg) = 32%nat /\ Forall is_byte (sha256 msg).
Proof.
  unfold sha256. generalize (blocks be_word (padded be_bytes msg)) as bs. intros bs.
  assert (length (fold_left sha256_block bs sha256_h) = 8%nat) as Hl.
  { change 8%nat with (length sha256_h). generalize sha256_h as st. induction bs as [|b bs IH]; intros st; [done |].
    cbn [fold_left]. by rewrite IH, sha256_block_length. }
  revert Hl. generalize (fold_left sha256_block bs sha256_h) as st. intros st Hl. split.
  - do 9 (destruct st as [|? st]; try discriminate Hl). reflexivity.
  - apply Forall_concat, Forall_map, Forall_true, be_bytes_bytes.
Qed.
Lemma md5_block_length st ws : length (md5_block st ws) = length st.
Proof.
  unfold md5_block. rewrite length_zip_with.
  cut (length (fold_left (md5_round ws) (seq 0 64) st) = length st); [lia |]. generalize (seq 0 64) as is_. intros is_. revert st.
  induction is_ as [|i is_ IH]; intros st; [done |]. cbn [fold_left]. rewrite IH.
  do 5 (destruct st as [|? st]; try reflexivity). unfold md5_round. by repeat case_match.
Qed.
Lemma md5_bytes msg : length (md5 msg) = 16%nat /\ Forall is_byte (md5 msg).
Proof.
  unfold md5. generalize (blocks (fun l => be_word (rev l)) (padded le_bytes msg)) as bs. intros bs.
  assert (length (fold_left md5_block bs md5_h) = 4%nat) as Hl.
  { change 4%nat with (length md5_h). generalize md5_h as st. induction bs as [|b bs IH]; intros st; [done |].
    cbn [fold_left]. by rewrite IH, md5_block_length. }
  revert Hl. generalize (fold_left md5_block bs md5_h) as st. intros st Hl. split.
  - do 5 (destruct st as [|? st]; try discriminate Hl). reflexivity.
  - apply Forall_concat, Forall_map, Forall_true. intros x. apply Forall_rev, be_bytes_bytes.
Qed.
Definition is_hex (c : ascii) : bool :=
  let n := ord c in ((48 <=? n) && (n <=? 57) || (97 <=? n) && (n <=? 102))%nat.
Lemma hex_digit_hex n : (n < 16)%nat -> is_hex (hex_digit n) = true.
Proof. intros Hn. do 16 (destruct n as [|n]; [reflexivity |]). lia. Qed.
Lemma hexdigest_hex l : Forall is_byte l ->
  all_chars is_hex (hexdigest l) = true /\ String.length (hexdigest l) = (2 * length l)%nat.
Proof.
  induction 1 as [|b l Hb Hl [IH1 IH2]]; [done |]. unfold is_byte in Hb.
  change (hexdigest (b :: l)) with (String (hex_digit (Z.to_nat (Z.shiftr b 4)))
    (String (hex_digit (Z.to_nat (Z.land b 15))) (hexdigest l))).
  cbn [all_chars String.length length]. rewrite IH1, IH2.
  rewrite !hex_digit_hex; [split; [done | cbn; lia] | |].
  - change 15 with (Z.ones 4). rewrite Z.land_ones by lia. pose proof (Z.mod_pos_bound b (2 ^ 4) ltac:(lia)). lia.
  - rewrite Z.shiftr_div_pow2 by lia. pose proof (Z.div_lt_upper_bound b (2 ^ 4) 16 ltac:(lia) ltac:(lia)). lia.
Qed.

(** The digits are lower-case ones. *)
Lemma lower_hex s : all_chars is_hex s = true -> lower s = s.
Proof.
  induction s as [|c s IH]; [done |]. cbn [all_chars lower]. intros [Hc Hs]%andb_true_iff. rewrite (IH Hs). f_equal.
  revert Hc. destruct c as [[] [] [] [] [] [] [] []]; vm_compute; congruence.
Qed.
Example sha256_abc : hexdigest (sha256 (bytes_of "abc")) =
  "ba7816bf8f01cfea414140de5dae2223b00361a396177a9cb410ff61f20015ad".
Proof. vm_compute. reflexivity. Qed.
Example sha256_two_blocks :
  hexdigest (sha256 (bytes_of "abcdbcdecdefdefgefghfghighijhijkijkljklmklmnlmnomnopnopq")) =
  "248d6a61d20638b8e5c026930c3e6039a33ce45964ff2167f6ecedd419db06c1".
Proof. vm_compute. reflexivity. Qed.
Example md5_digits :
  hexdigest (md5 (bytes_of "12345678901234567890123456789012345678901234567890123456789012345678901234567890")) =
  "57edf4a22be3c955ac49da2e2107b67a".
Proof. vm_compute. reflexivity. Qed.
Example hmac_jefe : hexdigest (hmac_sha256 (bytes_of "Jefe") (bytes_of "what do ya want for nothing?")) =
  "5bdcc146bf60754e6a042426089575c75a003f089d2739839dec58b964ec3843".
Proof. vm_compute. reflexivity. Qed.
