(* ===== verification/Errors.v ===== *)
(** * Exceptions, the error envelope and its handlers

    Models src/tr_shared/exceptions.py, schemas/error_envelope.py and
    middleware/exception_handlers.py, and fixes the type of everything modelled
    code may raise: Python's and the client libraries' exception classes the
    code tells apart, [httpx.HTTPStatusError] with its response, and the
    library's own API exceptions. *)

From S2P Require Import Prelude Json.
From Stdlib Require Import Ascii.
Local Open Scope Z_scope.

(** ** HTTP headers (contracts/headers.py) *)

Module HttpHeader.
Definition USER_ID := "X-User-ID".
Definition USER_ROLE := "X-User-Role".
Definition TENANT_ID := "X-Tenant-ID".
Definition CORRELATION_ID := "X-Correlation-ID".
Definition USER_EMAIL := "X-User-Email".
Definition USER_PERMISSIONS := "X-User-Permissions".
Definition SITE_ID := "X-Site-Id".
Definition AUTH_PROVIDER := "X-Auth-Provider".
Definition GATEWAY_SIGNATURE := "X-Gateway-Signature".
Definition GATEWAY_TIMESTAMP := "X-Gateway-Timestamp".
Definition SERVICE_TOKEN := "X-Service-Token".
Definition SERVICE_NAME := "X-Service-Name".
Definition CALLING_SERVICE := "X-Calling-Service".
Definition CALLING_TENANT_ID := "X-Calling-Tenant-ID".
Definition IDEMPOTENCY_KEY := "X-Idempotency-Key".
Definition IDEMPOTENCY_REPLAYED := "X-Idempotency-Replayed".
Definition REQUEST_TIMEOUT_MS := "X-Request-Timeout-Ms".
Definition FORWARDED_FOR := "X-Forwarded-For".
Definition REAL_IP := "X-Real-IP".
Definition ORIGINAL_IP := "X-Original-IP".
Definition BFF_TOKEN := "X-BFF-Token".
Definition RATE_LIMIT_LIMIT := "X-RateLimit-Limit".
Definition RATE_LIMIT_REMAINING := "X-RateLimit-Remaining".
Definition RATE_LIMIT_RESET := "X-RateLimit-Reset".
Definition RETRY_AFTER := "Retry-After".
End HttpHeader.

(** [^[A-Za-z0-9-]{1,64}$], matched in full *)
Definition correlation_char (c : ascii) : bool :=
  ((65 <=? ord c)%nat && (ord c <=? 90)%nat) || ((97 <=? ord c)%nat && (ord c <=? 122)%nat) ||
  ((48 <=? ord c)%nat && (ord c <=? 57)%nat) || (ord c =? 45)%nat.
Definition is_valid_correlation_id (value : string) : bool :=
  all_chars correlation_char value && (1 <=? String.length value)%nat &&
  (String.length value <=? 64)%nat.

(** ** API exceptions *)

Inductive ErrorCategory :=
| VALIDATION | AUTH | FORBIDDEN | NOT_FOUND | CONFLICT | CONTENT_TOO_LARGE | RATE_LIMIT
| DATABASE | INTERNAL | BAD_GATEWAY | UNAVAILABLE | TIMEOUT.
#[export] Instance ErrorCategory_eq_dec : EqDecision ErrorCategory.
Proof. solve_decision. Defined.

Definition category_value (c : ErrorCategory) : string :=
  match c with
  | VALIDATION => "VALIDATION" | AUTH => "AUTH" | FORBIDDEN => "FORBIDDEN"
  | NOT_FOUND => "NOT_FOUND" | CONFLICT => "CONFLICT"
  | CONTENT_TOO_LARGE => "CONTENT_TOO_LARGE" | RATE_LIMIT => "RATE_LIMIT"
  | DATABASE => "DATABASE" | INTERNAL => "INTERNAL" | BAD_GATEWAY => "BAD_GATEWAY"
  | UNAVAILABLE => "UNAVAILABLE" | TIMEOUT => "TIMEOUT"
  end.

(** [BaseAPIException]: the class attribute [category] and what [__init__] sets. *)
Record BaseAPIException := mkApi {
  category : option ErrorCategory;
  status_code : Z;
  error : string;
  detail_message : json;      (* [JNull] is [None] *)
  error_code : json;          (* [JNull] is [None] *)
  headers : option (list (string * string));
  extra : list (string * json);
}.

Definition ValidationError (detail code : json) : BaseAPIException :=
  mkApi (Some VALIDATION) 400 "Validation failed" detail code None [].
Definition AuthenticationError (detail code : json)
    (headers : option (list (string * string))) : BaseAPIException :=
  mkApi (Some AUTH) 401 "Authentication failed" detail code headers [].
Definition AuthorizationError (detail code : json) : BaseAPIException :=
  mkApi (Some FORBIDDEN) 403 "Authorization failed" detail code None [].
Definition NotFoundError (resource : string) (identifier : option string) (code : json)
    : BaseAPIException :=
  let detail :=
    match identifier with
    | Some i => if nonempty i then resource +:+ " " +:+ i +:+ " not found"
                else resource +:+ " not found"
    | None => resource +:+ " not found"
    end in
  mkApi (Some NOT_FOUND) 404 (resource +:+ " not found") (JStr detail) code None [].
Definition ConflictError (detail code : json) : BaseAPIException :=
  mkApi (Some CONFLICT) 409 "Conflict" detail code None [].
Definition ContentTooLargeError (detail code : json) : BaseAPIException :=
  mkApi (Some CONTENT_TOO_LARGE) 413 "Content too large" detail code None [].
Definition RateLimitError (detail code : json) (retry_after : option Z)
    (headers : option (list (string * string))) : BaseAPIException :=
  let merged := default [] headers in
  let merged := match retry_after with
                | Some n => dset HttpHeader.RETRY_AFTER (str_of_Z n) merged
                | None => merged
                end in
  mkApi (Some RATE_LIMIT) 429 "Rate limit exceeded" detail code
    (match merged with [] => None | _ => Some merged end) [].
Definition DatabaseError (detail code : json) : BaseAPIException :=
  mkApi (Some DATABASE) 500 "Database error" detail code None [].
Definition InternalServerError (detail code : json) : BaseAPIException :=
  mkApi (Some INTERNAL) 500 "Internal server error" detail code None [].
Definition BadGatewayError (detail code : json) : BaseAPIException :=
  mkApi (Some BAD_GATEWAY) 502 "Bad gateway" detail code None [].
Definition ServiceUnavailableError (detail code : json)
    (retry_after : option Z) : BaseAPIException :=
  mkApi (Some UNAVAILABLE) 503 "Service unavailable" detail code
    ((fun n => [(HttpHeader.RETRY_AFTER, str_of_Z n)]) <$> retry_after) [].
Definition ServiceTimeoutError (detail code : json) : BaseAPIException :=
  mkApi (Some TIMEOUT) 504 "Service timeout" detail code None [].

(** ** The exceptions modelled code may raise *)

(** An [httpx.Response] as the code reads it. *)
Record response := mkResponse {
  r_status : Z;
  r_content_type : string;   (* [headers.get("content-type", "")] *)
  r_text : string;
}.

(** Exception classes, with the name of the module for the client libraries. *)
Inductive py_class :=
| ValueError | TypeError | KeyError | RuntimeError | AttributeError
| OSError | ConnectionError | TimeoutError | CancelledError | SystemExit | OtherException
| RedisError | RedisConnectionError | RedisTimeoutError | RedisResponseError
| CacheConnectionError | CacheOperationError
| HttpxHTTPError | HttpxRequestError | HttpxTimeoutException
| EventPublishTransportError | IntegrationConfigError | IntegrationConfigNotFound
| NotImplementedError | RecursionError | UnicodeDecodeError
| FileNotFoundError | NotADirectoryError | GaiError
| MultipleResultsFound | InvalidRequestError.
#[export] Instance py_class_eq_dec : EqDecision py_class.
Proof. solve_decision. Defined.

Inductive exn :=
| PyErr (cls : py_class) (msg : string)
| HTTPStatusError (resp : response) (msg : string)
| ApiError (e : BaseAPIException).

(** [exc.__class__.__name__] *)
Definition class_name (e : exn) : string :=
  match e with
  | PyErr c _ =>
      match c with
      | ValueError => "ValueError" | TypeError => "TypeError" | KeyError => "KeyError"
      | RuntimeError => "RuntimeError" | AttributeError => "AttributeError"
      | OSError => "OSError" | ConnectionError => "ConnectionError"
      | TimeoutError => "TimeoutError" | CancelledError => "CancelledError"
      | SystemExit => "SystemExit" | OtherException => "Exception"
      | RedisError => "RedisError" | RedisConnectionError => "ConnectionError"
      | RedisTimeoutError => "TimeoutError" | RedisResponseError => "ResponseError"
      | CacheConnectionError => "CacheConnectionError"
      | CacheOperationError => "CacheOperationError"
      | HttpxHTTPError => "HTTPError" | HttpxRequestError => "RequestError"
      | HttpxTimeoutException => "TimeoutException"
      | EventPublishTransportError => "EventPublishTransportError"
      | IntegrationConfigError => "IntegrationConfigError"
      | IntegrationConfigNotFound => "IntegrationConfigNotFound"
      | NotImplementedError => "NotImplementedError" | RecursionError => "RecursionError"
      | UnicodeDecodeError => "UnicodeDecodeError"
      | FileNotFoundError => "FileNotFoundError" | NotADirectoryError => "NotADirectoryError"
      | GaiError => "gaierror"
      | MultipleResultsFound => "MultipleResultsFound"
      | InvalidRequestError => "InvalidRequestError"
      end
  | HTTPStatusError _ _ => "HTTPStatusError"
  | ApiError _ => "HTTPException"
  end.

(** The direct superclass, where the code's [except] clauses depend on it. *)
Definition superclass (c : py_class) : option py_class :=
  match c with
  | ConnectionError | TimeoutError | FileNotFoundError | NotADirectoryError | GaiError =>
      Some OSError
  | NotImplementedError | RecursionError => Some RuntimeError
  | UnicodeDecodeError => Some ValueError
  | MultipleResultsFound => Some InvalidRequestError
  | RedisConnectionError | RedisTimeoutError | RedisResponseError => Some RedisError
  | HttpxRequestError => Some HttpxHTTPError
  | HttpxTimeoutException => Some HttpxRequestError
  | IntegrationConfigNotFound => Some IntegrationConfigError
  | _ => None
  end.
(** The hierarchy is three levels deep at most. *)
Definition is_a (c d : py_class) : bool :=
  bool_decide (c = d) ||
  match superclass c with
  | Some c' => bool_decide (c' = d) ||
      match superclass c' with Some c'' => bool_decide (c'' = d) | None => false end
  | None => false
  end.
Definition isinstance (e : exn) (d : py_class) : bool :=
  match e with
  | PyErr c _ => is_a c d
  | HTTPStatusError _ _ => bool_decide (d = HttpxHTTPError)
  | ApiError _ => false
  end.
(** [except Exception] does not catch cancellation or interpreter exit. *)
Definition is_Exception (e : exn) : bool :=
  match e with
  | PyErr CancelledError _ | PyErr SystemExit _ => false
  | _ => true
  end.
(** [str(exc)] *)
Definition str_exn (e : exn) : string :=
  match e with
  | PyErr _ m => m
  | HTTPStatusError _ m => m
  | ApiError e => str_of_Z (status_code e) +:+ ": " +:+ error e
  end.

Notation Py W A := (M exn W A).
(** [except Exception as e: h e], anything else propagates *)
Definition catch_Exception {W A} (c : Py W A) (h : exn -> Py W A) : Py W A :=
  catch c (fun e => if is_Exception e then h e else raise e).

(** A pure computation that may raise, inside a stateful one. *)
Definition lift_out {W A} (o : outcome exn A) : Py W A :=
  match o with Ret a => ret a | Exc e => raise e end.
(** The value of an outcome, whatever it raised. *)
Definition outcome_value {A} (o : outcome exn A) : option A :=
  match o with Ret a => Some a | Exc _ => None end.

(** ** Subclasses of services (exceptions.py)

    [BaseAPIException.__init_subclass__] wraps the [__init__] of every subclass; the state is the
    list of attributes that [hasattr] finds on the new instance. *)

Definition _REQUIRED_ATTRS : list string := ["status_code"; "error"; "detail_message"; "error_code"; "extra"].
(** [BaseAPIException.__init__], as far as it sets attributes; the first two are starlette's. *)
Definition base_init {W} : Py (list string * W) unit :=
  modify (fun st => (st.1 ++ ["status_code"; "detail"; "headers"; "error"; "detail_message"; "error_code"; "extra"], st.2)).
Definition missing_attrs (attrs : list string) : list string := filter (fun a => a ∉ attrs) _REQUIRED_ATTRS.
Definition _verified_init {W} (cls : string) (original_init : Py (list string * W) unit) : Py (list string * W) unit :=
  do! original_init in
  let! attrs := gets fst in
  match missing_attrs attrs with
  | [] => ret tt
  | missing => raise (PyErr TypeError (cls +:+ " did not set required attributes " +:+
      py_repr (JList (map JStr missing)) +:+ ". Every BaseAPIException subclass must call " +:+
      "super().__init__(status_code=..., error=..., detail=..., " +:+
      "code=...). See tr_shared.exceptions docstring."))
  end.

(** ** The error envelope (schemas/error_envelope.py) *)

Definition VALIDATION_CODE := "VALIDATION_000".
Definition INTERNAL_CODE := "INTERNAL_000".
Definition CONFLICT_CODE := "CONFLICT_000".

Definition add_field (k : string) (v : json) (inner : list (string * json))
    : list (string * json) :=
  match v with JNull => inner | _ => dset k v inner end.
Definition jopt (o : option string) : json := match o with Some s => JStr s | None => JNull end.

Definition build_error_envelope (message : string) (code correlation_id : json)
    (extra : list (string * json)) : json :=
  let inner := [("message", JStr message)] in
  let inner := add_field "code" code inner in
  let inner := add_field "correlation_id" correlation_id inner in
  JObj [("error", JObj (foldl (fun inner kv => add_field kv.1 kv.2 inner) inner extra))].

(** [app.state.error_code_prefix]: unset until [register_exception_handlers]. *)
Definition is_upper (c : ascii) : bool := (65 <=? ord c)%nat && (ord c <=? 90)%nat.
Fixpoint all_upper (s : string) : bool :=
  match s with EmptyString => true | String c s' => is_upper c && all_upper s' end.
Definition set_error_code_prefix (code_prefix : string) : outcome exn (option string) :=
  if nonempty code_prefix && all_upper code_prefix then Ret (Some code_prefix)
  else Exc (PyErr ValueError ("code_prefix must be upper-case letters only, got " +:+ repr_str code_prefix)).
Definition framework_error_code (app : option string) (suffix : string) : outcome exn string :=
  match app with
  | None => Exc (PyErr RuntimeError ("This app has no error code prefix: call " +:+
              "register_exception_handlers(app, code_prefix=...) at startup."))
  | Some code_prefix => Ret (code_prefix +:+ "_" +:+ suffix)
  end.

(** ** Exception handlers (middleware/exception_handlers.py) *)

Record http_reply := mkReply {
  reply_status : Z;
  reply_body : json;
  reply_headers : option (list (string * string));
}.

Definition _TRANSPORT_HEADERS : list string :=
  ["content-length"; "content-type"; "transfer-encoding"; "connection"].
Definition _safe_headers (headers : option (list (string * string)))
    : option (list (string * string)) :=
  match headers with
  | None | Some [] => headers
  | Some h => Some (filter (fun kv => lower kv.1 ∉ _TRANSPORT_HEADERS) h)
  end.
Definition _default_code_suffix (e : BaseAPIException) : string :=
  match category e with
  | Some c => category_value c +:+ "_000"
  | None => "HTTP_" +:+ str_of_Z (status_code e)
  end.

(** The keyword arguments [base_api_exception_handler] passes by name; an
    [extra] that repeats one makes the call a [TypeError]. *)
Definition handler_keywords : list string := ["message"; "code"; "correlation_id"; "detail"].
Definition base_api_exception_handler (app correlation_id : option string)
    (e : BaseAPIException) : outcome exn http_reply :=
  let code := if truthy (error_code e) then Ret (error_code e)
              else match framework_error_code app (_default_code_suffix e) with
                   | Ret c => Ret (JStr c)
                   | Exc err => Exc err
                   end in
  match code with
  | Exc err => Exc err
  | Ret c =>
      if existsb (fun kv => bool_decide (kv.1 ∈ handler_keywords)) (extra e)
      then Exc (PyErr TypeError "got multiple values for keyword argument")
      else Ret (mkReply (status_code e)
                  (build_error_envelope (error e) c (jopt correlation_id)
                     (("detail", detail_message e) :: extra e))
                  (_safe_headers (headers e)))
  end.

(** [http_exception_handler]: [body_allowed] is FastAPI's rule for statuses without a
    body; [None] as body stands for an empty response. *)
Definition http_exception_handler (body_allowed : Z -> bool) (app correlation_id : option string)
    (status : Z) (detail : string) (hs : option (list (string * string)))
    : outcome exn http_reply :=
  if negb (body_allowed status) then Ret (mkReply status JNull (_safe_headers hs))
  else match framework_error_code app ("HTTP_" +:+ str_of_Z status) with
       | Exc e => Exc e
       | Ret c => Ret (mkReply status (build_error_envelope detail (JStr c) (jopt correlation_id) [])
                         (_safe_headers hs))
       end.
(** [validation_exception_handler]; [errors] is [jsonable_encoder(exc.errors())]. *)
Definition validation_exception_handler (app correlation_id : option string) (errors : json)
    : outcome exn http_reply :=
  match framework_error_code app VALIDATION_CODE with
  | Exc e => Exc e
  | Ret c => Ret (mkReply 422 (build_error_envelope "Validation failed" (JStr c)
                                 (jopt correlation_id) [("fields", errors)]) None)
  end.

(** Whatever a subclass's [__init__] does, an instance exists only with all the attributes that the
    handlers read; an [__init__] that calls the base's one and raises nothing is not disturbed. *)
Lemma verified_init_complete {W} cls (original_init : Py (list string * W) unit) st u st' :
  _verified_init cls original_init st = (Ret u, st') ->
  original_init st = (Ret u, st') /\ forall a, a ∈ _REQUIRED_ATTRS -> a ∈ st'.1.
Proof.
  unfold _verified_init. intros E. apply bind_Ret_inv in E as ([] & st1 & E1 & E).
  unfold bind, gets in E. destruct (missing_attrs st1.1) as [|a l] eqn:Ef; [| discriminate E].
  injection E as <- <-. split; [done |]. intros a Ha. destruct (decide (a ∈ st1.1)) as [|Hn]; [done |].
  assert (Hin : a ∈ missing_attrs st1.1) by by apply list_elem_of_filter.
  rewrite Ef in Hin. by apply elem_of_nil in Hin.
Qed.
Lemma verified_init_transparent {W} cls (original_init : Py (list string * W) unit) st st' :
  original_init st = (Ret tt, st') -> (forall a, a ∈ _REQUIRED_ATTRS -> a ∈ st'.1) ->
  _verified_init cls original_init st = (Ret tt, st').
Proof.
  intros E Ha. unfold _verified_init. rewrite (bind_Ret _ _ _ _ _ E). unfold bind, gets.
  assert (missing_attrs st'.1 = []) as -> by (apply filter_none; intros a Hin Hn; by apply Hn, Ha). done.
Qed.

Lemma dget_add_field k k' v inner : k <> k' -> dget k (add_field k' v inner) = dget k inner.
Proof. intros Hne. unfold add_field. destruct v; try done; by apply dget_dset_ne. Qed.
Lemma dget_fold_fields k ex inner :
  Forall (fun kv => kv.1 <> k) ex ->
  dget k (foldl (fun inner kv => add_field kv.1 kv.2 inner) inner ex) = dget k inner.
Proof.
  revert inner. induction ex as [|kv ex IH]; intros inner Hex; cbn; [done |].
  inversion Hex; subst. rewrite IH by done. by apply dget_add_field.
Qed.
(** Extras never overwrite the envelope's own fields. *)
Lemma envelope_core message code corr ex :
  Forall (fun kv => kv.1 ∉ ["message"; "code"; "correlation_id"]) ex -> code <> JNull ->
  exists inner, build_error_envelope message code corr ex = JObj [("error", JObj inner)] /\
    dget "message" inner = Some (JStr message) /\ dget "code" inner = Some code.
Proof.
  intros Hex Hc. eexists. split; [reflexivity |].
  split; (rewrite dget_fold_fields by (eapply Forall_impl; [exact Hex | set_solver]));
    rewrite dget_add_field by done; [by rewrite dget_add_field |].
  unfold add_field. destruct code; try done; by rewrite dget_dset_eq.
Qed.
Lemma extra_not_reserved (ex : list (string * json)) :
  existsb (fun kv => bool_decide (kv.1 ∈ handler_keywords)) ex = false ->
  Forall (fun kv => kv.1 ∉ ["message"; "code"; "correlation_id"]) ex.
Proof.
  intros H. rewrite Forall_forall. intros kv Hin Hk.
  apply not_true_iff_false in H. apply H. apply existsb_exists. exists kv.
  split; [by apply list_elem_of_In |]. apply bool_decide_eq_true. set_solver.
Qed.

(** The handler answers every API exception that does not repeat one of its
    keywords, with the exception's status, an envelope whose [message] is the
    exception's error and whose [code] is the exception's own code or
    [PREFIX_CATEGORY_000], and never with a header that belongs to the transport. *)
Theorem base_handler_reply (prefix : string) corr e :
  existsb (fun kv => bool_decide (kv.1 ∈ handler_keywords)) (extra e) = false ->
  exists r inner c, base_api_exception_handler (Some prefix) corr e = Ret r /\
    reply_status r = status_code e /\
    reply_body r = JObj [("error", JObj inner)] /\
    dget "message" inner = Some (JStr (error e)) /\ dget "code" inner = Some c /\
    truthy c = true /\
    (error_code e = c \/ c = JStr (prefix +:+ "_" +:+ _default_code_suffix e)) /\
    (forall h kv, reply_headers r = Some h -> kv ∈ h -> lower kv.1 ∉ _TRANSPORT_HEADERS).
Proof.
  intros Hex. unfold base_api_exception_handler.
  set (code := if truthy (error_code e) then _ else _).
  assert (exists c, code = Ret c /\ truthy c = true /\
    (error_code e = c \/ c = JStr (prefix +:+ "_" +:+ _default_code_suffix e))) as (c & -> & Ht & Hc).
  { unfold code, framework_error_code. destruct (truthy (error_code e)) eqn:Hn; [eauto |].
    eexists. split; [reflexivity |]. split; [| by right]. apply nonempty_spec.
    by destruct prefix. }
  rewrite Hex.
  destruct (envelope_core (error e) c (jopt corr) (("detail", detail_message e) :: extra e))
    as (inner & Hb & Hm & Hco).
  { constructor; [set_solver | by apply extra_not_reserved]. }
  { by intros ->. }
  exists (mkReply (status_code e) (JObj [("error", JObj inner)]) (_safe_headers (headers e))), inner, c.
  rewrite Hb. repeat split; try done. cbn.
  intros h kv Hh Hin. unfold _safe_headers in Hh.
  destruct (headers e) as [[|x l]|]; simplify_eq; [set_solver |].
  by apply list_elem_of_filter in Hin as [? _].
Qed.

Lemma base_handler_reply_witness : exists r,
  base_api_exception_handler (Some "LISTING") None
    (RateLimitError (JStr "slow down") JNull (Some 3) (Some [("Content-Length", "9")])) = Ret r /\
  reply_status r = 429.
Proof.
  destruct (base_handler_reply "LISTING" None
    (RateLimitError (JStr "slow down") JNull (Some 3) (Some [("Content-Length", "9")])) eq_refl)
    as (r & inner & c & Hr & Hs & _).
  exists r. split; [exact Hr | exact Hs].
Defined.
