(* ===== verification/Text.v ===== *)
(** * Python's string methods beyond the prelude

    [str.replace], [partition], [rpartition], [split], [find] and the URL
    splitting of [urllib.parse], with the lemmas the components share.  These
    model the language and its standard library, not files of src/. *)

From S2P Require Import Prelude Errors.
From Stdlib Require Import Ascii.
Local Open Scope Z_scope.

#[local] Arguments String.append : simpl nomatch.

(** ** Replacing *)

(** [s.replace(old, new)] for a non-empty [old]: occurrences are found from the left and do not
    overlap; [skip] characters belong to the occurrence just replaced. *)
Fixpoint replace_from (old new : string) (skip : nat) (s : string) : string :=
  match s with
  | EmptyString => EmptyString
  | String c s' =>
      match skip with
      | S k => replace_from old new k s'
      | O => if startswith s old
             then new +:+ replace_from old new (String.length old - 1) s'
             else String c (replace_from old new 0 s')
      end
  end.
Definition replace_all (old new s : string) : string := replace_from old new 0 s.
Definition drop_str (n : nat) (s : string) : string := String.substring n (String.length s - n) s.
(** [s.replace(old, new, 1)] *)
Fixpoint replace_first (old new s : string) : string :=
  if startswith s old then new +:+ drop_str (String.length old) s
  else match s with
       | EmptyString => EmptyString
       | String c s' => String c (replace_first old new s')
       end.

(** ** Splitting *)

(** [s.partition(c)] as the two sides of the first [c], if there is one *)
Fixpoint split_first (c : ascii) (s : string) : option (string * string) :=
  match s with
  | EmptyString => None
  | String d s' => if bool_decide (d = c) then Some (EmptyString, s')
                   else (fun p => (String d (fst p), snd p)) <$> split_first c s'
  end.
(** The two sides of the last [c] *)
Fixpoint rsplit_first (c : ascii) (s : string) : option (string * string) :=
  match s with
  | EmptyString => None
  | String d s' =>
      match rsplit_first c s' with
      | Some (a, b) => Some (String d a, b)
      | None => if bool_decide (d = c) then Some (EmptyString, s') else None
      end
  end.
(** [s.partition(c)[0]], [s.partition(c)[2]] and [s.rpartition(c)[2]] *)
Definition before_first (c : ascii) (s : string) : string :=
  match split_first c s with Some (a, _) => a | None => s end.
Definition after_first (c : ascii) (s : string) : string :=
  match split_first c s with Some (_, b) => b | None => "" end.
Definition after_last (c : ascii) (s : string) : string :=
  match rsplit_first c s with Some (_, b) => b | None => s end.
(** [s.split(c)] *)
Fixpoint split_on (c : ascii) (s : string) : list string :=
  match s with
  | EmptyString => [EmptyString]
  | String d s' => if bool_decide (d = c) then EmptyString :: split_on c s'
                   else match split_on c s' with
                        | x :: l => String d x :: l
                        | [] => [String d EmptyString]
                        end
  end.
(** [s.split()]: maximal runs of characters that are not white space *)
Fixpoint split_ws_aux (cur : string) (s : string) : list string :=
  match s with
  | EmptyString => if nonempty cur then [cur] else []
  | String d s' => if is_space d then (if nonempty cur then cur :: split_ws_aux "" s' else split_ws_aux "" s')
                   else split_ws_aux (cur +:+ String d "") s'
  end.
Definition split_ws (s : string) : list string := split_ws_aux "" s.
Definition no_space (s : string) : bool := all_chars (fun c => negb (is_space c)) s.

(** ** Lemmas *)

Lemma drop_str_append a b : drop_str (String.length a) (a +:+ b) = b.
Proof.
  unfold drop_str. rewrite length_append.
  replace (String.length a + String.length b - String.length a)%nat with (String.length b) by lia.
  apply substring_suffix.
Qed.
Lemma startswith_nil s : startswith s "" = true.
Proof. by destruct s. Qed.
Lemma startswith_char c d s : startswith (String d s) (String c "") = bool_decide (d = c).
Proof.
  unfold startswith. cbn. destruct (Ascii.ascii_dec c d) as [->|]; [by destruct s; rewrite bool_decide_true |].
  by rewrite bool_decide_false by congruence.
Qed.
(** Replacing one character acts on each character alone. *)
Fixpoint str_bind (f : ascii -> string) (s : string) : string :=
  match s with
  | EmptyString => EmptyString
  | String c s' => f c +:+ str_bind f s'
  end.
Lemma replace_char c new s :
  replace_all (String c "") new s = str_bind (fun d => if bool_decide (d = c) then new else String d "") s.
Proof.
  unfold replace_all. induction s as [|d s IH]; [done |].
  cbn [replace_from str_bind]. rewrite startswith_char. cbn [String.length Nat.sub]. rewrite IH.
  by case_bool_decide.
Qed.
Lemma str_bind_append f s t : str_bind f (s +:+ t) = str_bind f s +:+ str_bind f t.
Proof.
  induction s as [|c s IH]; [done |]. cbn [str_bind]. change (String c s +:+ t) with (String c (s +:+ t)).
  cbn [str_bind]. by rewrite IH, append_assoc.
Qed.
Lemma str_bind_bind f g s : str_bind g (str_bind f s) = str_bind (fun c => str_bind g (f c)) s.
Proof. induction s as [|c s IH]; [done |]. cbn [str_bind]. by rewrite str_bind_append, IH. Qed.
Lemma str_bind_ext f g s : (forall c, f c = g c) -> str_bind f s = str_bind g s.
Proof. intros Hf. induction s as [|c s IH]; [done |]. cbn [str_bind]. by rewrite Hf, IH. Qed.

Lemma free_of_append c s t : free_of c (s +:+ t) = free_of c s && free_of c t.
Proof. induction s as [|d s IH]; simpl; [done | by rewrite IH, andb_assoc]. Qed.
Lemma split_first_append c s t : free_of c s = true -> split_first c (s +:+ String c t) = Some (s, t).
Proof.
  induction s as [|d s IH]; simpl; [by rewrite bool_decide_true |].
  intros [Hd Hs]%andb_true_iff. rewrite negb_true_iff in Hd. by rewrite Hd, IH.
Qed.
Lemma split_first_None c s : free_of c s = true -> split_first c s = None.
Proof.
  induction s as [|d s IH]; simpl; [done |]. intros [Hd Hs]%andb_true_iff.
  rewrite negb_true_iff in Hd. by rewrite Hd, IH.
Qed.
Lemma rsplit_first_None c s : free_of c s = true -> rsplit_first c s = None.
Proof.
  induction s as [|d s IH]; simpl; [done |]. intros [Hd Hs]%andb_true_iff.
  rewrite negb_true_iff in Hd. by rewrite IH, Hd.
Qed.
Lemma rsplit_first_append c s t : free_of c t = true -> rsplit_first c (s +:+ String c t) = Some (s, t).
Proof.
  intros Ht. induction s as [|d s IH]; simpl.
  - by rewrite rsplit_first_None, bool_decide_true.
  - by rewrite IH.
Qed.
(** [str.upper] on ASCII letters *)
Definition upper_ascii (c : ascii) : ascii :=
  let n := nat_of_ascii c in if (97 <=? n)%nat && (n <=? 122)%nat then ascii_of_nat (n - 32) else c.
Fixpoint upper (s : string) : string :=
  match s with EmptyString => EmptyString | String c s' => String (upper_ascii c) (upper s') end.

Lemma split_on_free c s : free_of c s = true -> split_on c s = [s].
Proof.
  induction s as [|d s IH]; simpl; [done |]. intros [Hd Hs]%andb_true_iff.
  rewrite negb_true_iff in Hd. by rewrite Hd, IH.
Qed.
Lemma split_on_append c s t : free_of c s = true -> split_on c (s +:+ String c t) = s :: split_on c t.
Proof.
  induction s as [|d s IH]; simpl; [by rewrite bool_decide_true |].
  intros [Hd Hs]%andb_true_iff. rewrite negb_true_iff in Hd. by rewrite Hd, IH.
Qed.
(** Splitting what was terminated: every record comes back, with one empty string at the end. *)
Lemma split_on_terminated c l :
  Forall (fun s => free_of c s = true) l ->
  split_on c (foldr (fun s r => s +:+ String c r) "" l) = l ++ [""].
Proof. induction 1 as [|s l Hs _ IH]; simpl; [done |]. by rewrite split_on_append, IH. Qed.

Lemma split_ws_aux_run cur s t :
  no_space s = true -> split_ws_aux cur (s +:+ t) = split_ws_aux (cur +:+ s) t.
Proof.
  unfold no_space. revert cur. induction s as [|d s IH]; intros cur; simpl; [by rewrite append_nil_r |].
  intros [Hd Hs]%andb_true_iff. rewrite negb_true_iff in Hd. rewrite Hd, IH by done.
  f_equal. rewrite append_assoc. done.
Qed.
Lemma split_ws_cons s d t :
  no_space s = true -> s <> "" -> is_space d = true ->
  split_ws (s +:+ String d t) = s :: split_ws t.
Proof.
  intros Hs Hne Hd. unfold split_ws. rewrite split_ws_aux_run by done. simpl. rewrite Hd.
  by rewrite (proj2 (nonempty_spec s)).
Qed.
Lemma split_ws_single s : no_space s = true -> s <> "" -> split_ws s = [s].
Proof.
  intros Hs Hne. unfold split_ws. rewrite <- (append_nil_r s) at 1. rewrite split_ws_aux_run by done.
  simpl. by rewrite (proj2 (nonempty_spec s)).
Qed.
Lemma split_ws_terminated d l :
  is_space d = true -> Forall (fun s => no_space s = true /\ s <> "") l ->
  split_ws (foldr (fun s r => s +:+ String d r) "" l) = l.
Proof.
  intros Hd. induction 1 as [|s l [Hs Hne] _ IH]; simpl; [done |]. by rewrite split_ws_cons, IH.
Qed.
Lemma replace_first_no old new s : contains old s = false -> replace_first old new s = s.
Proof.
  unfold contains, startswith. intros Hc.
  assert (String.index 0 old s = None) as Hi by (destruct (String.index 0 old s); done). clear Hc.
  revert Hi. induction s as [|c s IH]; intros Hi.
  - destruct old; [done |]. done.
  - unfold replace_first, startswith; fold replace_first. destruct (String.prefix old (String c s)) eqn:E.
    + cbn in Hi. destruct old; [done |]. cbn in E, Hi. by rewrite E in Hi.
    + f_equal. apply IH. destruct old as [|o old]; [by destruct s |].
      cbn in Hi, E. rewrite E in Hi. by destruct (String.index 0 (String o old) s).
Qed.

(** ** [urllib.parse.urlsplit] *)

Record split_result := mkSplit {
  u_scheme : string; u_netloc : string; u_path : string; u_query : string; u_fragment : string;
}.

Definition is_lower_alpha (c : ascii) : bool :=
  let n := nat_of_ascii (lower_ascii c) in (97 <=? n)%nat && (n <=? 122)%nat.
Definition is_decimal (c : ascii) : bool :=
  let n := nat_of_ascii c in (48 <=? n)%nat && (n <=? 57)%nat.
Definition scheme_char (c : ascii) : bool :=
  is_lower_alpha c || is_decimal c || bool_decide (c ∈ ["+"; "-"; "."]%char).
(** Leading control characters and spaces go, then every tab and line break. *)
Fixpoint lstrip_control (s : string) : string :=
  match s with
  | EmptyString => EmptyString
  | String c s' => if (nat_of_ascii c <=? 32)%nat then lstrip_control s' else s
  end.
Definition is_unsafe (c : ascii) : bool := bool_decide (nat_of_ascii c ∈ [9; 10; 13]%nat).
Definition remove_unsafe (s : string) : string :=
  str_bind (fun c => if is_unsafe c then "" else String c "") s.
Definition split_scheme (url : string) : string * string :=
  match split_first ":" url with
  | Some (String c s as scheme, rest) =>
      if is_lower_alpha c && all_chars scheme_char scheme then (lower scheme, rest) else ("", url)
  | _ => ("", url)
  end.
(** The longest prefix without [/], [?] and [#], and the rest. *)
Fixpoint split_netloc (s : string) : string * string :=
  match s with
  | EmptyString => ("", "")
  | String c s' => if bool_decide (c ∈ ["/"; "?"; "#"]%char) then ("", s)
                   else let (a, b) := split_netloc s' in (String c a, b)
  end.

Section Url.
(** Whether [urlsplit] accepts the host part: bracketed text must be an IP literal ([ipaddress])
    and a non-ASCII one must be stable under NFKC. *)
Variable host_ok : string -> bool.

Definition urlsplit (url : string) : outcome exn split_result :=
  let url := remove_unsafe (lstrip_control url) in
  let (scheme, url) := split_scheme url in
  let (netloc, url) :=
    if startswith url "//" then split_netloc (drop_str 2 url) else ("", url) in
  if negb (bool_decide (free_of "[" netloc = free_of "]" netloc)) then
    Exc (PyErr ValueError "Invalid IPv6 URL")
  else if negb (host_ok netloc) then Exc (PyErr ValueError "invalid netloc")
  else
    let fragment := after_first "#" url in
    let url := before_first "#" url in
    Ret (mkSplit scheme netloc (before_first "?" url) (after_first "?" url) fragment).

(** [SplitResult._hostinfo] *)
Definition hostinfo (netloc : string) : string * string :=
  let info := after_last "@" netloc in
  match split_first "[" info with
  | Some (_, bracketed) => (before_first "]" bracketed, after_first ":" (after_first "]" bracketed))
  | None => (before_first ":" info, after_first ":" info)
  end.
(** [SplitResult.hostname]; a zone identifier keeps its case *)
Definition hostname (r : split_result) : option string :=
  let h := fst (hostinfo (u_netloc r)) in
  if nonempty h then
    match split_first "%" h with
    | Some (a, b) => Some (lower a +:+ "%" +:+ b)
    | None => Some (lower h)
    end
  else None.
(** [SplitResult.port] *)
Definition port (r : split_result) : outcome exn (option Z) :=
  let p := snd (hostinfo (u_netloc r)) in
  if nonempty p then
    if all_chars is_decimal p then
      match Z_of_str p with
      | Some n => if (0 <=? n) && (n <=? 65535) then Ret (Some n)
                  else Exc (PyErr ValueError "Port out of range 0-65535")
      | None => Exc (PyErr ValueError "Port could not be cast to integer value")
      end
    else Exc (PyErr ValueError "Port could not be cast to integer value")
  else Ret None.
End Url.

(** [urlunsplit] of a result with a netloc *)
Definition urlunsplit (r : split_result) : string :=
  let url := u_path r in
  let url := if nonempty url && negb (startswith url "/") then "/" +:+ url else url in
  let url := "//" +:+ u_netloc r +:+ url in
  let url := if nonempty (u_scheme r) then u_scheme r +:+ ":" +:+ url else url in
  let url := if nonempty (u_query r) then url +:+ "?" +:+ u_query r else url in
  if nonempty (u_fragment r) then url +:+ "#" +:+ u_fragment r else url.

(** [sub in s] *)
Lemma contains_cons sub c s :
  contains sub (String c s) = startswith (String c s) sub || contains sub s.
Proof.
  unfold contains, startswith. cbn. destruct sub as [|d sub]; [by destruct s |].
  destruct (String.prefix (String d sub) (String c s)) eqn:E; cbn in E; rewrite E; [done |].
  by destruct (String.index 0 (String d sub) s).
Qed.
Lemma contains_spec sub s : contains sub s = true <-> exists a b, s = a +:+ sub +:+ b.
Proof.
  split.
  - induction s as [|c s IH].
    + unfold contains. destruct sub; [| done]. by exists "", "".
    + rewrite contains_cons. intros [[t ->]%startswith_inv | (a & b & ->)%IH]%orb_true_iff.
      * by exists "", t.
      * by exists (String c a), b.
  - intros (a & b & ->). induction a as [|c a IH].
    + change ("" +:+ sub +:+ b) with (sub +:+ b). destruct (sub +:+ b) as [|c t] eqn:E.
      * destruct sub; [done |]. discriminate E.
      * rewrite contains_cons, <- E, startswith_append. done.
    + change (String c a +:+ sub +:+ b) with (String c (a +:+ sub +:+ b)).
      by rewrite contains_cons, IH, orb_true_r.
Qed.
Lemma contains_false_append_l sub a b : contains sub (a +:+ b) = false -> contains sub a = false.
Proof.
  destruct (contains sub a) eqn:E; [| done]. apply contains_spec in E as (x & y & ->).
  intros Hf. rewrite <- Hf. symmetry. apply contains_spec. exists x, (y +:+ b). by rewrite !append_assoc.
Qed.
Lemma contains_false_append_r sub a b : contains sub (a +:+ b) = false -> contains sub b = false.
Proof.
  destruct (contains sub b) eqn:E; [| done]. apply contains_spec in E as (x & y & ->).
  intros Hf. rewrite <- Hf. symmetry. apply contains_spec. exists (a +:+ x), y. by rewrite !append_assoc.
Qed.

(** ** Splitting a URL that was put together *)

(** What follows the netloc *)
Definition url_tail (path query fragment : string) : string :=
  path +:+ (if nonempty query then "?" +:+ query else "") +:+
  (if nonempty fragment then "#" +:+ fragment else "").
Definition url_of (scheme netloc path query fragment : string) : string :=
  scheme +:+ "://" +:+ netloc +:+ url_tail path query fragment.

(** The parts of a URL that splitting gives back *)
Record url_parts (scheme netloc path query fragment : string) : Prop := {
  up_scheme : exists c s, scheme = String c s /\ is_lower_alpha c = true;
  up_scheme_chars : all_chars scheme_char scheme = true;
  up_scheme_lower : lower scheme = scheme;
  up_netloc : all_chars (fun c => negb (bool_decide (c ∈ ["/"; "?"; "#"]%char))) netloc = true;
  up_brackets : free_of "[" netloc = free_of "]" netloc;
  up_path : path = "" \/ startswith path "/" = true;
  up_path_free : free_of "?" path = true /\ free_of "#" path = true;
  up_query_free : free_of "#" query = true;
  up_safe : remove_unsafe (url_of scheme netloc path query fragment) =
            url_of scheme netloc path query fragment;
}.

Lemma alpha_printable c : is_lower_alpha c = true -> (nat_of_ascii c <=? 32)%nat = false.
Proof. by destruct c as [[] [] [] [] [] [] [] []]; vm_compute. Qed.
Lemma free_of_scheme s : all_chars scheme_char s = true -> free_of ":" s = true.
Proof.
  induction s as [|c s IH]; [done |]. cbn. rewrite !andb_true_iff. intros [Hc Hs]. split; [| auto].
  rewrite negb_true_iff, bool_decide_eq_false. intros ->. by vm_compute in Hc.
Qed.
Lemma split_netloc_append netloc rest :
  all_chars (fun c => negb (bool_decide (c ∈ ["/"; "?"; "#"]%char))) netloc = true ->
  match rest with EmptyString => True | String c _ => c ∈ ["/"; "?"; "#"]%char end ->
  split_netloc (netloc +:+ rest) = (netloc, rest).
Proof.
  intros Hn Hr. induction netloc as [|c n IH].
  - change ("" +:+ rest) with rest. destruct rest as [|c r]; [done |]. cbn. by rewrite bool_decide_true.
  - cbn [all_chars] in Hn. apply andb_true_iff in Hn as [Hc Hn]. rewrite negb_true_iff in Hc.
    change (String c n +:+ rest) with (String c (n +:+ rest)). cbn [split_netloc].
    by rewrite Hc, IH.
Qed.
Lemma url_tail_head p q f :
  p = "" \/ startswith p "/" = true ->
  match url_tail p q f with EmptyString => True | String c _ => c ∈ ["/"; "?"; "#"]%char end.
Proof.
  unfold url_tail. intros [-> | [t ->]%startswith_inv].
  - simpl. destruct (nonempty q); simpl; [set_solver |]. destruct (nonempty f); simpl; [set_solver | done].
  - simpl. set_solver.
Qed.
Lemma url_tail_split p q f :
  free_of "?" p = true -> free_of "#" p = true -> free_of "#" q = true ->
  let u := before_first "#" (url_tail p q f) in
  after_first "#" (url_tail p q f) = f /\ before_first "?" u = p /\ after_first "?" u = q.
Proof.
  intros Hp Hp2 Hq. unfold url_tail. set (pq := p +:+ (if nonempty q then "?" +:+ q else "")).
  assert (free_of "#" pq = true) as Hpq.
  { unfold pq. rewrite free_of_append, Hp2. by destruct (nonempty q). }
  assert (before_first "?" pq = p /\ after_first "?" pq = q) as Hs.
  { unfold pq, before_first, after_first. destruct (nonempty q) eqn:Eq.
    - change ("?" +:+ q) with (String "?" q). by rewrite (split_first_append "?" p q).
    - apply nonempty_false in Eq as ->. rewrite append_nil_r, split_first_None by done. done. }
  rewrite <- append_assoc. fold pq.
  assert (before_first "#" (pq +:+ (if nonempty f then "#" +:+ f else "")) = pq /\
          after_first "#" (pq +:+ (if nonempty f then "#" +:+ f else "")) = f) as [-> ->]; [| by split].
  unfold before_first, after_first.
  destruct (nonempty f) eqn:Ef.
  - change ("#" +:+ f) with (String "#" f). by rewrite (split_first_append "#" pq f Hpq).
  - apply nonempty_false in Ef as ->. by rewrite append_nil_r, split_first_None.
Qed.

Section UrlLemmas.
Variable host_ok : string -> bool.

Lemma urlsplit_url_of scheme netloc path query fragment :
  url_parts scheme netloc path query fragment -> host_ok netloc = true ->
  urlsplit host_ok (url_of scheme netloc path query fragment) =
  Ret (mkSplit scheme netloc path query fragment).
Proof.
  intros [(c & s & Hc & Hca) Hsc Hl Hn Hb Hp [Hp1 Hp2] Hq Hsafe] Hok. unfold urlsplit.
  assert (lstrip_control (url_of scheme netloc path query fragment) =
          url_of scheme netloc path query fragment) as ->.
  { unfold url_of. rewrite Hc. simpl. by rewrite alpha_printable. }
  rewrite Hsafe. unfold split_scheme, url_of.
  assert (split_first ":" (scheme +:+ "://" +:+ netloc +:+ url_tail path query fragment) =
          Some (scheme, "//" +:+ netloc +:+ url_tail path query fragment)) as ->
    by (apply (split_first_append ":" scheme ("//" +:+ netloc +:+ url_tail path query fragment));
        by apply free_of_scheme).
  rewrite Hc in *. rewrite Hca, Hsc, Hl. cbn [andb].
  assert (startswith ("//" +:+ netloc +:+ url_tail path query fragment) "//" = true) as ->
    by apply startswith_append.
  change (drop_str 2) with (drop_str (String.length "//")). rewrite drop_str_append.
  rewrite split_netloc_append by (done || by apply url_tail_head).
  rewrite Hb, bool_decide_true by done. cbn [negb]. rewrite Hok. cbn [negb].
  destruct (url_tail_split path query fragment Hp1 Hp2 Hq) as (-> & -> & ->). done.
Qed.
Lemma urlunsplit_url_of scheme netloc path query fragment :
  scheme <> "" -> path = "" \/ startswith path "/" = true ->
  urlunsplit (mkSplit scheme netloc path query fragment) = url_of scheme netloc path query fragment.
Proof.
  intros Hs Hp. unfold urlunsplit, url_of, url_tail.
  cbn [u_path u_netloc u_scheme u_query u_fragment].
  assert (nonempty path && negb (startswith path "/") = false) as ->
    by (destruct Hp as [-> | ->]; [done | by rewrite andb_false_r]).
  rewrite (proj2 (nonempty_spec scheme)) by done.
  destruct (nonempty query), (nonempty fragment);
    rewrite ?append_nil_r, ?append_assoc; simpl; rewrite ?append_assoc; done.
Qed.
End UrlLemmas.
