(* ===== verification/CircuitBreaker.v ===== *)
(** * The circuit breaker

    Models src/tr_shared/http/circuit_breaker.py.  Times are readings of
    [time.monotonic()] on one integer scale; [recovery_timeout] is on the same
    scale.  Logging is not modelled. *)

From S2P Require Import Prelude.
Local Open Scope Z_scope.

Inductive CircuitState := CLOSED | OPEN | HALF_OPEN.
#[export] Instance CircuitState_eq_dec : EqDecision CircuitState.
Proof. solve_decision. Defined.

Record CircuitBreaker := mkCB {
  state : CircuitState;
  failure_count : Z;
  failure_threshold : Z;
  recovery_timeout : Z;
  opened_at : Z;
  probe_started_at : option Z;
}.

Definition new_breaker (failure_threshold recovery_timeout : Z) : CircuitBreaker :=
  {| state := CLOSED; failure_count := 0; failure_threshold := failure_threshold;
     recovery_timeout := recovery_timeout; opened_at := 0; probe_started_at := None |}.

(** [_transition]: set the state (a transition to the same state is a no-op). *)
Definition _transition (new_state : CircuitState) (b : CircuitBreaker) : CircuitBreaker :=
  if decide (state b = new_state) then b
  else mkCB new_state (failure_count b) (failure_threshold b) (recovery_timeout b)
         (opened_at b) (probe_started_at b).

Definition set_probe (p : option Z) (b : CircuitBreaker) : CircuitBreaker :=
  mkCB (state b) (failure_count b) (failure_threshold b) (recovery_timeout b) (opened_at b) p.
Definition set_failure_count (n : Z) (b : CircuitBreaker) : CircuitBreaker :=
  mkCB (state b) n (failure_threshold b) (recovery_timeout b) (opened_at b) (probe_started_at b).
Definition set_opened_at (t : Z) (b : CircuitBreaker) : CircuitBreaker :=
  mkCB (state b) (failure_count b) (failure_threshold b) (recovery_timeout b) t
    (probe_started_at b).

(** [is_open]: the answer and the breaker after the call, at reading [now]. *)
Definition is_open (now : Z) (b : CircuitBreaker) : bool * CircuitBreaker :=
  match state b with
  | CLOSED => (false, b)
  | OPEN =>
      if now - opened_at b <? recovery_timeout b then (true, b)
      else (false, set_probe (Some now) (_transition HALF_OPEN b))
  | HALF_OPEN =>
      match probe_started_at b with
      | Some p =>
          if now - p <? recovery_timeout b then (true, b)
          else (false, set_probe (Some now) b)
      | None => (false, set_probe (Some now) b)
      end
  end.

Definition record_success (b : CircuitBreaker) : CircuitBreaker :=
  let b := set_failure_count 0 b in
  if decide (state b = HALF_OPEN) then _transition CLOSED (set_probe None b) else b.

Definition record_failure (now : Z) (b : CircuitBreaker) : CircuitBreaker :=
  let b := set_failure_count (failure_count b + 1) b in
  if bool_decide (state b = HALF_OPEN) || (failure_threshold b <=? failure_count b)
  then _transition OPEN (set_probe None (set_opened_at now b))
  else b.

(** ** Steps and the invariant *)

(** What the callers of one breaker do, in the order the event loop runs it. *)
Inductive cb_event :=
| IsOpen (now : Z)
| Success
| Failure (now : Z).

(** One event: the time at which a caller was let through, if it was. *)
Definition cb_apply (ev : cb_event) (b : CircuitBreaker) : option Z * CircuitBreaker :=
  match ev with
  | IsOpen now => let (o, b') := is_open now b in (if o then None else Some now, b')
  | Success => (None, record_success b)
  | Failure now => (None, record_failure now b)
  end.

Inductive cb_step : CircuitBreaker -> CircuitBreaker -> Prop :=
| cb_step_event ev b : cb_step b (snd (cb_apply ev b)).

Record cb_ok (b : CircuitBreaker) : Prop := {
  cb_ok_threshold : 1 <= failure_threshold b;
  cb_ok_count : 0 <= failure_count b;
  cb_ok_closed : state b = CLOSED ->
    failure_count b < failure_threshold b /\ probe_started_at b = None;
  cb_ok_open : state b = OPEN -> probe_started_at b = None;
  cb_ok_half : state b = HALF_OPEN -> is_Some (probe_started_at b);
}.

Ltac cb_cases :=
  repeat (case_bool_decide || case_decide || case_inner || destruct_and?); simplify_eq/=;
  try discriminate.

Lemma cb_ok_new th r : 1 <= th -> cb_ok (new_breaker th r).
Proof. intros H. split; cbn; naive_solver lia. Qed.

Lemma cb_ok_apply ev b : cb_ok b -> cb_ok (snd (cb_apply ev b)).
Proof.
  intros [Hth Hc Hcl Hop Hha]. destruct b as [st n th r o p]; cbn in *.
  destruct ev as [now | | now], st; cbn in *;
    unfold record_success, record_failure, is_open, _transition, set_failure_count,
      set_probe, set_opened_at; cbn;
    cb_cases; split; cbn; intros; try discriminate; eauto; try lia; try naive_solver lia.
Qed.

(** The breaker's parameters never change. *)
Lemma cb_apply_params ev b :
  failure_threshold (snd (cb_apply ev b)) = failure_threshold b /\
  recovery_timeout (snd (cb_apply ev b)) = recovery_timeout b.
Proof.
  destruct b as [st n th r o p], ev as [now | | now], st; cbn;
    unfold record_success, record_failure, is_open, _transition, set_failure_count,
      set_probe, set_opened_at; cbn; cb_cases; done.
Qed.

(** C9. In every state a breaker can reach, whatever its callers do and in
    whatever order: a closed breaker has counted fewer failures than the
    threshold, and a probe is outstanding exactly when it is half-open. *)
Theorem breaker_invariant th r b :
  1 <= th -> star cb_step (new_breaker th r) b -> cb_ok b.
Proof.
  intros Hth Hs. eapply star_invariant; [| exact Hs | by apply cb_ok_new].
  intros b1 b2 Hst Hok. destruct Hst. by apply cb_ok_apply.
Qed.

Lemma breaker_invariant_witness :
  cb_ok (record_failure 7 (record_failure 5 (new_breaker 2 60))) /\
  state (record_failure 7 (record_failure 5 (new_breaker 2 60))) = OPEN.
Proof.
  split; [| reflexivity]. apply (breaker_invariant 2 60); [lia |].
  apply (star_step _ _ _ _ (cb_step_event (Failure 5) _)).
  apply (star_step _ _ _ _ (cb_step_event (Failure 7) _)). apply star_refl.
Defined.

(** ** At most one probe per recovery window *)

Fixpoint admitted (evs : list cb_event) (b : CircuitBreaker) : list Z :=
  match evs with
  | [] => []
  | ev :: evs' =>
      let (a, b') := cb_apply ev b in
      match a with
      | Some t => t :: admitted evs' b'
      | None => admitted evs' b'
      end
  end.

(** Clock readings do not decrease from [t] on, and no success is reported. *)
Fixpoint no_success_from (t : Z) (evs : list cb_event) : Prop :=
  match evs with
  | [] => True
  | IsOpen now :: evs' => t <= now /\ no_success_from now evs'
  | Failure now :: evs' => t <= now /\ no_success_from now evs'
  | Success :: _ => False
  end.

(** The last time the breaker tripped or let a probe through. *)
Definition gate (b : CircuitBreaker) : Z :=
  match state b, probe_started_at b with
  | HALF_OPEN, Some p => p
  | _, _ => opened_at b
  end.

(** Consecutive elements, and the first one from [lo], are at least [r] apart. *)
Fixpoint spaced (r lo : Z) (l : list Z) : Prop :=
  match l with
  | [] => True
  | t :: l' => lo + r <= t /\ spaced r t l'
  end.

Lemma spaced_weaken r lo lo' l : lo <= lo' -> spaced r lo' l -> spaced r lo l.
Proof. destruct l; cbn; [done | intros; split; naive_solver lia]. Qed.

(** One event on a tripped breaker: it stays tripped, and an admitted probe
    comes no sooner than the recovery timeout after the gate. *)
Lemma tripped_event ev b a b' t :
  cb_ok b -> state b <> CLOSED -> gate b <= t -> no_success_from t [ev] ->
  cb_apply ev b = (a, b') ->
  state b' <> CLOSED /\
  (exists t', t <= t' /\ gate b' <= t' /\ gate b <= gate b' /\
     (ev = IsOpen t' \/ ev = Failure t')) /\
  match a with
  | Some t' => gate b + recovery_timeout b <= t' /\ gate b' = t' /\ ev = IsOpen t'
  | None => True
  end.
Proof.
  intros [Hth Hc Hcl Hop Hha] Hst Hg Hno. destruct b as [st n th r o p].
  destruct ev as [now | | now], st; cbn in *; try done;
    unfold record_failure, is_open, _transition, set_failure_count, set_probe, set_opened_at,
      gate in *; cbn in *; intros H;
    first [rewrite Hop in * by done | destruct Hha as [q ->]; [done |]];
    cb_cases; cbn; repeat split; try done; try lia;
    match goal with
    | |- context [IsOpen ?x = IsOpen _] => exists x
    | |- context [Failure ?x = Failure _] => exists x
    end; naive_solver lia.
Qed.

(** C15. From a tripped breaker, until somebody reports a success, the requests
    it lets through (its probes) are each at least [recovery_timeout] after the
    trip and after one another, whatever failures are reported in between. *)
Theorem probes_spaced evs b t :
  cb_ok b -> state b <> CLOSED -> 0 <= recovery_timeout b ->
  gate b <= t -> no_success_from t evs ->
  spaced (recovery_timeout b) (gate b) (admitted evs b).
Proof.
  revert b t. induction evs as [|ev evs IH]; intros b t Hok Hst Hr Hg Hno; cbn; [done |].
  destruct (cb_apply ev b) as [a b'] eqn:Hap.
  assert (Hno1 : no_success_from t [ev]) by (destruct ev; cbn in *; naive_solver).
  destruct (tripped_event ev b a b' t Hok Hst Hg Hno1 Hap)
    as (Hst' & (t' & Ht' & Hg' & Hgg & Hev) & Ha).
  pose proof (cb_ok_apply ev b Hok) as Hok'. pose proof (cb_apply_params ev b) as [_ Hpar].
  rewrite Hap in Hok', Hpar; cbn in Hok', Hpar.
  assert (Hno' : no_success_from t' evs) by (destruct Hev; subst; cbn in Hno; naive_solver).
  specialize (IH b' t' Hok' Hst' ltac:(lia) Hg' Hno'). rewrite Hpar in IH.
  destruct a as [t1|].
  - destruct Ha as (Hsp & Hg1 & _). cbn. split; [done |]. by rewrite <- Hg1.
  - by eapply spaced_weaken.
Qed.

Lemma probes_spaced_witness :
  let b := record_failure 5 (new_breaker 1 60) in
  let evs := [IsOpen 30; IsOpen 65; IsOpen 70; Failure 80; IsOpen 100; IsOpen 140] in
  admitted evs b = [65; 140] /\ spaced 60 5 (admitted evs b).
Proof.
  cbv zeta. split; [vm_compute; reflexivity |].
  apply (probes_spaced _ (record_failure 5 (new_breaker 1 60)) 5); cbn; try done; lia.
Defined.

(** ** Tripping and recovery *)

Lemma failures_closed ts b :
  state b = CLOSED -> 0 <= failure_count b ->
  let b' := foldl (fun b t => record_failure t b) b ts in
  if failure_count b + Z.of_nat (length ts) <? failure_threshold b
  then state b' = CLOSED /\ failure_count b' = failure_count b + Z.of_nat (length ts)
  else ts = [] \/ state b' = OPEN.
Proof.
  assert (Hopen : forall ts b, state b = OPEN -> failure_threshold b <= failure_count b ->
            state (foldl (fun b t => record_failure t b) b ts) = OPEN).
  { intros ts'. induction ts' as [|t ts' IH]; intros b'; cbn; [done |]. intros Hs Hc.
    apply IH; unfold record_failure, _transition, set_failure_count, set_probe,
      set_opened_at; cbn; rewrite Hs; cb_cases; cbn; lia || done. }
  revert b. induction ts as [|t ts IH]; intros b Hs Hc; cbn [foldl length].
  - rewrite Z.add_0_r. case_match; [done | by left].
  - destruct (decide (failure_threshold b <= failure_count b + 1)) as [Hle|Hgt].
    + destruct (Z.ltb_spec (failure_count b + Z.of_nat (S (length ts))) (failure_threshold b));
        [lia |]. right. apply Hopen; unfold record_failure, _transition, set_failure_count,
        set_probe, set_opened_at; cbn; rewrite Hs; cb_cases; cbn; lia || done.
    + assert (Hb : record_failure t b = set_failure_count (failure_count b + 1) b).
      { unfold record_failure. cbn. rewrite Hs, bool_decide_false by done. cbn.
        destruct (Z.leb_spec (failure_threshold b) (failure_count b + 1)); [lia | done]. }
      rewrite Hb. specialize (IH (set_failure_count (failure_count b + 1) b) Hs).
      cbn in IH. specialize (IH ltac:(lia)).
      replace (failure_count b + Z.of_nat (S (length ts)))
        with (failure_count b + 1 + Z.of_nat (length ts)) by lia.
      destruct (Z.ltb_spec (failure_count b + 1 + Z.of_nat (length ts)) (failure_threshold b)).
      * exact IH.
      * destruct IH as [-> | IH]; [cbn in *; lia | by right].
Qed.

(** A new breaker trips exactly when the number of failures in a row
    reaches the threshold: before that it is closed and lets every call
    through, from then on it is open. *)
Theorem trips_at_threshold th r ts now :
  1 <= th ->
  let b := foldl (fun b t => record_failure t b) (new_breaker th r) ts in
  if Z.of_nat (length ts) <? th
  then state b = CLOSED /\ is_open now b = (false, b)
  else state b = OPEN.
Proof.
  intros Hth b. pose proof (failures_closed ts (new_breaker th r) eq_refl) as H.
  change (failure_count (new_breaker th r)) with 0 in H.
  change (failure_threshold (new_breaker th r)) with th in H.
  rewrite Z.add_0_l in H. specialize (H ltac:(lia)). fold b in H. cbv zeta in H.
  destruct (Z.ltb_spec (Z.of_nat (length ts)) th) as [Hlt | Hge].
  - destruct H as [H _]. split; [done |]. unfold is_open. by rewrite H.
  - destruct H as [-> | H]; [cbn in Hge; lia | done].
Qed.

Lemma trips_at_threshold_witness :
  state (foldl (fun b t => record_failure t b) (new_breaker 3 60) [1; 2]) = CLOSED /\
  state (foldl (fun b t => record_failure t b) (new_breaker 3 60) [1; 2; 3]) = OPEN.
Proof.
  split.
  - exact (proj1 (trips_at_threshold 3 60 [1; 2] 0 ltac:(lia))).
  - exact (trips_at_threshold 3 60 [1; 2; 3] 0 ltac:(lia)).
Defined.

(** Recovery: an open breaker refuses until [recovery_timeout] has passed,
    then lets one caller through and becomes half-open; a success of that
    caller closes it with a clean count, a failure reopens it with a fresh
    window. *)
Theorem recovery_cycle b now :
  cb_ok b -> state b = OPEN ->
  (now < opened_at b + recovery_timeout b -> is_open now b = (true, b)) /\
  (opened_at b + recovery_timeout b <= now ->
    exists h, is_open now b = (false, h) /\ state h = HALF_OPEN /\
      probe_started_at h = Some now /\
      (forall t, t < now + recovery_timeout b -> is_open t h = (true, h)) /\
      state (record_success h) = CLOSED /\ failure_count (record_success h) = 0 /\
      (forall t, state (record_failure t h) = OPEN /\ opened_at (record_failure t h) = t)).
Proof.
  intros Hok Hs. destruct b as [st n th r o p]; cbn in *; subst st.
  unfold is_open; cbn. split; intros Hnow.
  - destruct (Z.ltb_spec (now - o) r); [done | lia].
  - destruct (Z.ltb_spec (now - o) r); [lia |]. eexists. split; [done |]. cbn.
    repeat split; try done. intros t Ht. unfold _transition.
    case_decide; [done |]. cbn. destruct (Z.ltb_spec (t - now) r); [done | lia].
Qed.

Lemma recovery_cycle_witness :
  let b := record_failure 5 (new_breaker 1 60) in
  is_open 64 b = (true, b) /\ fst (is_open 65 b) = false.
Proof.
  pose proof (recovery_cycle (record_failure 5 (new_breaker 1 60)) 64
    (cb_ok_apply (Failure 5) _ (cb_ok_new 1 60 ltac:(lia))) eq_refl) as [H1 _].
  pose proof (recovery_cycle (record_failure 5 (new_breaker 1 60)) 65
    (cb_ok_apply (Failure 5) _ (cb_ok_new 1 60 ltac:(lia))) eq_refl) as [_ H2].
  cbv zeta. split; [apply H1; vm_compute; reflexivity |].
  destruct H2 as (h & Hh & _); [vm_compute; discriminate |]. by rewrite Hh.
Defined.
