(* ===== verification/HttpClient.v ===== *)
(** * The service-to-service HTTP client

    Models src/tr_shared/http/client.py ([ServiceHTTPClient]), http/correlation.py
    and http/internal_client.py ([InternalServiceClient]).  The network, the
    clock and [asyncio.sleep] are the class [HttpEnv]; httpx's
    [raise_for_status] is a parameter with its documented behaviour as laws. *)

From S2P Require Import Prelude Json Errors CircuitBreaker.
Local Open Scope Z_scope.

Record request := mkRequest {
  rq_method : string;
  rq_url : string;
  rq_params : option json;
  rq_json : option json;
  rq_headers : list (string * string);
}.

Class HttpEnv (W : Type) := {
  http_send : request -> Py W response;      (* [client.request] *)
  sleep : Z -> Py W unit;                    (* [asyncio.sleep] *)
  monotonic : W -> Z;                        (* [time.monotonic] *)
  raise_for_status : response -> option string;  (* the error's text, [None] when it returns *)
}.
Class HttpLaws (W : Type) `{HttpEnv W} : Prop := {
  raise_for_status_2xx r : 200 <= r_status r < 300 -> raise_for_status r = None;
  raise_for_status_error r : 400 <= r_status r < 600 -> is_Some (raise_for_status r);
}.

(** The headers an [httpx.AsyncClient] was built with, and whether it is closed. *)
Record httpx_client := mkHttpx { default_headers : list (string * string); is_closed : bool }.

Record client_config := mkClientConfig {
  service_name : string;
  service_token : string;
  max_retries : Z;
}.
Record client_state := mkClientState {
  circuit : CircuitBreaker;
  client : option httpx_client;
}.

(** [{**a, **b}] *)
Definition dict_merge {V} (a b : list (string * V)) : list (string * V) :=
  foldl (fun d kv => dset kv.1 kv.2 d) a b.
Definition correlation_headers (correlation_id : option string) : list (string * string) :=
  match correlation_id with
  | Some c => if nonempty c then [(HttpHeader.CORRELATION_ID, c)] else []
  | None => []
  end.

Section Client.
Context {W : Type} `{HttpEnv W}.
Variable cfg : client_config.

Definition ServiceHTTPClient_init (failure_threshold recovery_timeout : Z) : client_state :=
  mkClientState (new_breaker failure_threshold recovery_timeout) None.

(** Run the breaker inside the client's state. *)
Definition circuit_is_open : Py (client_state * W) bool := fun '(c, w) =>
  let (o, b) := is_open (monotonic w) (circuit c) in (Ret o, (mkClientState b (client c), w)).
Definition circuit_record_success : Py (client_state * W) unit := fun '(c, w) =>
  (Ret tt, (mkClientState (record_success (circuit c)) (client c), w)).
Definition circuit_record_failure : Py (client_state * W) unit := fun '(c, w) =>
  (Ret tt, (mkClientState (record_failure (monotonic w) (circuit c)) (client c), w)).

Definition _get_client : Py (client_state * W) httpx_client := fun '(c, w) =>
  let fresh :=
    let headers := [("Content-Type", "application/json")] in
    mkHttpx (if nonempty (service_token cfg)
             then dset HttpHeader.SERVICE_TOKEN (service_token cfg) headers else headers) false in
  let cl := match client c with
            | Some cl => if is_closed cl then fresh else cl
            | None => fresh
            end in
  (Ret cl, (mkClientState (circuit c) (Some cl), w)).
Definition close : Py (client_state * W) unit := fun '(c, w) =>
  match client c with
  | Some cl => if is_closed cl then (Ret tt, (c, w)) else (Ret tt, (mkClientState (circuit c) None, w))
  | None => (Ret tt, (c, w))
  end.

(** The value returned for a successful response. *)
Definition response_value (r : response) : json :=
  if r_status r =? 204 then JObj []
  else if negb (contains "application/json" (lower (r_content_type r)))
  then JObj [("raw", JStr (r_text r))]
  else match loads (r_text r) with
       | Some v => v
       | None => JObj [("raw", JStr (r_text r))]
       end.

(** The body of the retry loop: [Some v] returns [v], [None] goes on. *)
Definition try_once (rq : request) : Py (client_state * W) (option json) :=
  catch
    (let! r := on_snd (http_send rq) in
     match raise_for_status r with
     | Some msg => raise (HTTPStatusError r msg)
     | None =>
         do! circuit_record_success in
         ret (Some (response_value r))
     end)
    (fun e =>
       match e with
       | HTTPStatusError r _ =>
           if (400 <=? r_status r) && (r_status r <? 500) then raise e
           else do! circuit_record_failure in ret None
       | PyErr c _ =>
           if is_a c HttpxRequestError then do! circuit_record_failure in ret None else raise e
       | ApiError _ => raise e
       end).

(** [for attempt in range(max_retries)], [n] iterations left *)
Fixpoint attempts (rq : request) (n : nat) (attempt : Z) : Py (client_state * W) json :=
  match n with
  | O => raise (PyErr ConnectionError
           (service_name cfg +:+ ": failed after " +:+ str_of_Z (max_retries cfg) +:+ " retries"))
  | S n' =>
      let! r := try_once rq in
      match r with
      | Some v => ret v
      | None =>
          do! (if attempt <? max_retries cfg - 1 then on_snd (sleep (2 ^ attempt)) else ret tt) in
          attempts rq n' (attempt + 1)
      end
  end.

Definition _request (correlation_id : option string) (method path : string)
    (params json_body : option json) (headers : option (list (string * string)))
    : Py (client_state * W) json :=
  let! o := circuit_is_open in
  if (o : bool) then
    raise (PyErr ConnectionError
      ("Circuit breaker open for " +:+ service_name cfg +:+ " — requests rejected"))
  else
    let! _ := _get_client in
    let merged := dict_merge (correlation_headers correlation_id) (default [] headers) in
    attempts (mkRequest method path params json_body merged) (Z.to_nat (max_retries cfg)) 0.

Definition get cid path params headers := _request cid "GET" path params None headers.
Definition post cid path json_body headers := _request cid "POST" path None json_body headers.
Definition put cid path json_body headers := _request cid "PUT" path None json_body headers.
Definition patch cid path json_body headers := _request cid "PATCH" path None json_body headers.
Definition delete cid path headers := _request cid "DELETE" path None None headers.

(** ** [InternalServiceClient] *)

Definition _envelope_data (envelope : json) : outcome exn json :=
  match envelope with
  | JObj o =>
      match dget "data" o with
      | Some d => Ret d
      | None => Exc (ApiError (ServiceUnavailableError
                  (JStr "Internal response missing 'data' field")
                  (JStr "INTERNAL_CLIENT_UNAVAILABLE_003") None))
      end
  | _ => Exc (ApiError (ServiceUnavailableError (JStr "Internal response was not a JSON object")
           (JStr "INTERNAL_CLIENT_UNAVAILABLE_002") None))
  end.

(** [a or b] *)
Definition json_or (a b : json) : json := if truthy a then a else b.

Definition _translate_status_error (r : response) : outcome exn BaseAPIException :=
  let status := r_status r in
  let body := default (JObj []) (loads (r_text r)) in
  let err := match jget "error" body with Some (JObj o) => JObj o | _ => JObj [] end in
  let message := json_or (json_or (default JNull (jget "message" err)) (JStr (r_text r)))
                   (JStr "Internal error") in
  let detail := json_or (default JNull (jget "detail" err)) message in
  let code := default JNull (jget "code" err) in
  if status =? 400 then Ret (ValidationError detail code)
  else if status =? 401 then Ret (AuthenticationError detail code None)
  else if status =? 403 then Ret (AuthorizationError detail code)
  else if status =? 404 then
    match message with
    | JStr m => Ret (NotFoundError (removesuffix m " not found") None code)
    | _ => Exc (PyErr AttributeError "object has no attribute 'removesuffix'")
    end
  else if status =? 409 then Ret (ConflictError detail code)
  else if status =? 429 then Ret (RateLimitError detail code None None)
  else Ret (ServiceUnavailableError detail code None).

Definition lift_outcome {V A} (o : outcome exn A) : Py V A :=
  match o with Ret a => ret a | Exc e => raise e end.

Inductive method := GET | POST | PATCH | DELETE | OTHER (m : string).

Definition _call (BASE_PATH : string) (cid : option string) (m : method) (path : string)
    (tenant_id : option string) (params json_body : option json) : Py (client_state * W) json :=
  let full_path := if nonempty BASE_PATH then BASE_PATH +:+ path else path in
  let headers := match tenant_id with
                 | Some t => [(HttpHeader.TENANT_ID, t)]
                 | None => []
                 end in
  let! envelope :=
    catch
      (match m with
       | GET => get cid full_path params (Some headers)
       | POST => post cid full_path json_body (Some headers)
       | PATCH => patch cid full_path json_body (Some headers)
       | DELETE => delete cid full_path (Some headers)
       | OTHER s => raise (PyErr ValueError ("Unsupported method: " +:+ s))
       end)
      (fun e =>
         match e with
         | HTTPStatusError r _ =>
             let! t := lift_outcome (_translate_status_error r) in raise (ApiError t)
         | _ =>
             if isinstance e HttpxTimeoutException then
               raise (ApiError (ServiceTimeoutError (JStr ("Timeout calling " +:+ full_path))
                 (JStr "INTERNAL_CLIENT_TIMEOUT_001")))
             else if isinstance e ConnectionError then
               raise (ApiError (ServiceUnavailableError (JStr (str_exn e))
                 (JStr "INTERNAL_CLIENT_UNAVAILABLE_001") None))
             else if isinstance e HttpxHTTPError then
               raise (ApiError (ServiceUnavailableError
                 (JStr ("HTTP error calling " +:+ full_path +:+ ": " +:+ class_name e))
                 (JStr "INTERNAL_CLIENT_UNAVAILABLE_004") None))
             else raise e
         end) in
  match envelope with
  | JObj [] => ret JNull
  | _ => lift_outcome (_envelope_data envelope)
  end.

Definition _get BASE_PATH cid path tenant_id params :=
  _call BASE_PATH cid GET path tenant_id params None.
Definition _post BASE_PATH cid path tenant_id json_body :=
  _call BASE_PATH cid POST path tenant_id None json_body.
Definition _patch BASE_PATH cid path tenant_id json_body :=
  _call BASE_PATH cid PATCH path tenant_id None json_body.
Definition _delete BASE_PATH cid path tenant_id :=
  _call BASE_PATH cid DELETE path tenant_id None None.

(** ** What reaches the callers *)

(** The network raises only httpx's request errors (timeouts among them). *)
Definition transport_only : Prop :=
  forall rq, raises_only (fun e => isinstance e HttpxRequestError = true) (@http_send W _ rq).
(** [asyncio.sleep] is not interrupted. *)
Definition sleep_returns : Prop := forall d, never_raises (@sleep W _ d).

Definition client_error (e : exn) : Prop :=
  exists r m, e = HTTPStatusError r m /\ 400 <= r_status r < 500.
Definition request_error (e : exn) : Prop :=
  client_error e \/ exists msg, e = PyErr ConnectionError msg.

Lemma raises_only_on_snd {V A} (Q : exn -> Prop) (c : Py W A) :
  raises_only Q c -> raises_only Q (on_snd (V := V) c).
Proof.
  intros Hc [v w] e w'. unfold on_snd; cbn. destruct (c w) as [o w1] eqn:Ec.
  intros [= -> _]. exact (Hc _ _ _ Ec).
Qed.
Lemma raises_only_circuit Q :
  raises_only Q circuit_is_open /\ raises_only Q circuit_record_success /\
  raises_only Q circuit_record_failure /\ raises_only Q _get_client.
Proof.
  repeat split; intros [c w] e w'; cbn; try discriminate.
  unfold circuit_is_open. by destruct (is_open _ _).
Qed.

Lemma try_once_raises rq : transport_only -> raises_only client_error (try_once rq).
Proof.
  intros Ht. unfold try_once. pose proof (raises_only_circuit client_error) as (_ & Hs & Hf & _).
  apply (raises_only_catch_except _
    (fun e => isinstance e HttpxRequestError = true \/ exists r m, e = HTTPStatusError r m)).
  - apply raises_only_bind; [apply raises_only_on_snd |].
    + eapply raises_only_weaken; [| apply Ht]. auto.
    + intros r. destruct (raise_for_status r); [apply raises_only_raise; eauto |].
      apply raises_only_bind; [apply raises_only_circuit | intros; apply raises_only_ret].
  - intros e He. destruct e as [c m | r m | a].
    + destruct He as [He | (r & m' & He)]; [| done]. cbn in He. rewrite He. auto with py.
    + destruct (400 <=? r_status r) eqn:H4, (r_status r <? 500) eqn:H5; cbn; auto with py.
      apply raises_only_raise. exists r, m. split; [done | lia].
    + destruct He as [He | (r & m' & He)]; done.
Qed.

Lemma attempts_raises rq n a :
  transport_only -> sleep_returns -> raises_only request_error (attempts rq n a).
Proof.
  intros Ht Hs. revert a. induction n as [|n IH]; intros a; cbn.
  - apply raises_only_raise. right. eauto.
  - apply raises_only_bind.
    + eapply raises_only_weaken; [| by apply try_once_raises]. by left.
    + intros [v|]; [auto with py |]. apply raises_only_bind; [| auto].
      case_match; [| auto with py]. apply raises_only_on_snd.
      eapply raises_only_weaken; [| apply Hs]. done.
Qed.

Lemma request_raises cid m path params body h :
  transport_only -> sleep_returns -> raises_only request_error (_request cid m path params body h).
Proof.
  intros Ht Hs. pose proof (raises_only_circuit request_error) as (Ho & _ & _ & Hg).
  unfold _request. apply raises_only_bind; [done |]. intros [|].
  - apply raises_only_raise. right. eauto.
  - apply raises_only_bind; [done |]. intros _. by apply attempts_raises.
Qed.
End Client.

(** The statuses [_translate_status_error] can give. *)
Lemma translate_status r :
  match _translate_status_error r with
  | Ret a => status_code a ∈ [400; 401; 403; 404; 409; 429; 503]
  | Exc e => exists msg, e = PyErr AttributeError msg
  end.
Proof.
  unfold _translate_status_error.
  generalize (json_or (json_or (default JNull (jget "message"
    match jget "error" (default (JObj []) (loads (r_text r))) with
    | Some (JObj o) => JObj o | _ => JObj [] end)) (JStr (r_text r))) (JStr "Internal error")).
  intros message. cbv zeta.
  destruct (r_status r =? 400); [cbn; set_solver |].
  destruct (r_status r =? 401); [cbn; set_solver |].
  destruct (r_status r =? 403); [cbn; set_solver |].
  destruct (r_status r =? 404); [destruct message; cbn; eauto; set_solver |].
  destruct (r_status r =? 409); [cbn; set_solver |].
  destruct (r_status r =? 429); cbn; set_solver.
Qed.

(** Whatever the network does, the exceptions a caller of the internal
    client can see are the API errors 400, 401, 403, 404, 409, 429 and 503, or
    an [AttributeError] when a 404 body carries a message that is not a string.
    In particular a timeout never surfaces as [ServiceTimeoutError] (504): the
    HTTP client has already turned it into a [ConnectionError]. *)
Theorem call_errors {W} `{HttpEnv W} cfg BASE_PATH cid m path tenant params body :
  transport_only (W := W) -> sleep_returns (W := W) -> (forall s, m <> OTHER s) ->
  raises_only
    (fun e => (exists a, e = ApiError a /\ status_code a ∈ [400; 401; 403; 404; 409; 429; 503]) \/
              exists msg, e = PyErr AttributeError msg)
    (_call cfg BASE_PATH cid m path tenant params body).
Proof.
  intros Ht Hs Hm. unfold _call.
  apply raises_only_bind; [apply (raises_only_catch_except _ request_error) |].
  - destruct m as [| | | |s]; [.. | by destruct (Hm s)]; by apply request_raises.
  - intros e [(r & msg & -> & Hr) | (msg & ->)].
    + pose proof (translate_status r) as Htr.
      destruct (_translate_status_error r) as [a|err]; intros w e w'; cbn; intros [= <- _]; eauto.
    + cbn. apply raises_only_raise. left. eexists. split; [done | cbn; set_solver].
  - intros env. destruct env as [| | | | |[|kv o]]; cbn; try apply raises_only_ret;
      try case_match; try apply raises_only_ret;
      apply raises_only_raise; left; eexists; (split; [done | cbn; set_solver]).
Qed.

(** ** A scripted network

    The network answers from a list, a call takes [net_latency], a sleep takes
    its argument; what the client did is logged in order. *)

Inductive net_event := Sent (rq : request) | Slept (d : Z).
Record net := mkNet {
  net_script : list (outcome exn response);
  net_clock : Z;
  net_latency : Z;
  net_log : list net_event;
}.
#[export] Instance net_env : HttpEnv net := {
  http_send rq w :=
    match net_script w with
    | [] => (Exc (PyErr HttpxRequestError "connection refused"),
             mkNet [] (net_clock w + net_latency w) (net_latency w) (net_log w ++ [Sent rq]))
    | o :: os => (o, mkNet os (net_clock w + net_latency w) (net_latency w)
                       (net_log w ++ [Sent rq]))
    end;
  sleep d w := (Ret tt, mkNet (net_script w) (net_clock w + d) (net_latency w)
                          (net_log w ++ [Slept d]));
  monotonic := net_clock;
  raise_for_status r :=
    if (200 <=? r_status r) && (r_status r <? 300) then None else Some (r_text r);
}.
#[export] Instance net_laws : HttpLaws net.
Proof.
  split; intros r Hr; cbn.
  - by rewrite (proj2 (Z.leb_le _ _)), (proj2 (Z.ltb_lt _ _)) by lia.
  - rewrite (proj2 (Z.ltb_ge (r_status r) 300)) by lia. rewrite andb_false_r. eauto.
Qed.

(** Answers after which the loop tries again: transport errors and non-4xx error statuses. *)
Definition retryable (o : outcome exn response) : Prop :=
  match o with
  | Ret r => 300 <= r_status r < 400 \/ 500 <= r_status r < 600
  | Exc e => exists c m, e = PyErr c m /\ is_a c HttpxRequestError = true
  end.
(** What [k] failed attempts, the first numbered [attempt], leave in the log. *)
Fixpoint retry_log (rq : request) (k : nat) (attempt : Z) : list net_event :=
  match k with
  | O => []
  | S k' => Sent rq :: Slept (2 ^ attempt) :: retry_log rq k' (attempt + 1)
  end.
Definition fail_at (ts : list Z) (b : CircuitBreaker) : CircuitBreaker :=
  foldl (fun b t => record_failure t b) b ts.

Lemma try_once_retryable rq o os c t lat log :
  retryable o ->
  try_once rq (c, mkNet (o :: os) t lat log) =
  (Ret None, (mkClientState (record_failure (t + lat) (circuit c)) (client c),
              mkNet os (t + lat) lat (log ++ [Sent rq]))).
Proof.
  intros Hr. unfold try_once, catch, bind, on_snd; cbn. destruct o as [r|e]; cbn in *.
  - rewrite (proj2 (andb_false_iff (200 <=? r_status r) (r_status r <? 300)))
      by (right; apply Z.ltb_ge; lia). cbn.
    destruct (400 <=? r_status r) eqn:H1, (r_status r <? 500) eqn:H2; try done; lia.
  - destruct Hr as (cl & m & -> & Hc). by rewrite Hc.
Qed.

Lemma attempts_retry cfg rq fs : forall n a c t lat log rest,
  Forall retryable fs -> (length fs <= n)%nat ->
  a + Z.of_nat (length fs) <= max_retries cfg - 1 ->
  exists ts t', length ts = length fs /\
  attempts cfg rq n a (c, mkNet (fs ++ rest) t lat log) =
  attempts cfg rq (n - length fs) (a + Z.of_nat (length fs))
    (mkClientState (fail_at ts (circuit c)) (client c),
     mkNet rest t' lat (log ++ retry_log rq (length fs) a)).
Proof.
  induction fs as [|o fs IH]; intros n a c t lat log rest Hf Hn Ha.
  - exists [], t. split; [done |]. rewrite Nat.sub_0_r, Z.add_0_r, app_nil_r.
    by destruct c.
  - apply Forall_cons in Hf as [Ho Hf]. destruct n as [|n]; cbn [length] in *; [lia |].
    cbn [attempts app].
    rewrite (bind_Ret _ _ _ _ _ (try_once_retryable rq o _ c t lat log Ho)). cbn beta iota.
    rewrite (proj2 (Z.ltb_lt a _)) by lia. unfold bind, on_snd at 1; cbn [sleep net_env fst snd].
    destruct (IH n (a + 1) (mkClientState (record_failure (t + lat) (circuit c)) (client c))
      (t + lat + 2 ^ a) lat ((log ++ [Sent rq]) ++ [Slept (2 ^ a)]) rest Hf)
      as (ts & t' & Hts & E); [lia | lia |].
    exists ((t + lat) :: ts), t'. split; [cbn; lia |].
    cbn [net_script net_clock net_latency net_log] in *. unfold bind, on_snd in E. rewrite E.
    rewrite <- !app_assoc. cbn [retry_log app Nat.sub circuit client fail_at foldl].
    by replace (a + 1 + Z.of_nat (length fs)) with (a + Z.of_nat (S (length fs))) by lia.
Qed.

Definition is_2xx (r : response) : Prop := 200 <= r_status r < 300.
Definition is_4xx (r : response) : Prop := 400 <= r_status r < 500.

Lemma try_once_2xx rq r os c t lat log :
  is_2xx r ->
  try_once rq (c, mkNet (Ret r :: os) t lat log) =
  (Ret (Some (response_value r)),
   (mkClientState (record_success (circuit c)) (client c),
    mkNet os (t + lat) lat (log ++ [Sent rq]))).
Proof.
  intros Hr. unfold is_2xx in Hr. unfold try_once, catch, bind, on_snd; cbn.
  by rewrite (proj2 (Z.leb_le _ _)), (proj2 (Z.ltb_lt _ _)) by lia.
Qed.
Lemma try_once_4xx rq r os c t lat log :
  is_4xx r ->
  try_once rq (c, mkNet (Ret r :: os) t lat log) =
  (Exc (HTTPStatusError r (r_text r)), (c, mkNet os (t + lat) lat (log ++ [Sent rq]))).
Proof.
  intros Hr. unfold is_4xx in Hr. unfold try_once, catch, bind, on_snd; cbn.
  rewrite (proj2 (Z.ltb_ge (r_status r) 300)), andb_false_r by lia. cbn.
  by rewrite (proj2 (Z.leb_le _ _)), (proj2 (Z.ltb_lt _ _)) by lia.
Qed.

(** The request that [_request] builds. *)
Definition request_of cid m path params body headers : request :=
  mkRequest m path params body (dict_merge (correlation_headers cid) (default [] headers)).

(** Past the breaker's gate, [_request] is the retry loop. *)
Lemma request_admitted cfg cid m path params body h c w b :
  is_open (net_clock w) (circuit c) = (false, b) ->
  exists cl, _request cfg cid m path params body h (c, w) =
    attempts cfg (request_of cid m path params body h) (Z.to_nat (max_retries cfg)) 0
      (mkClientState b (Some cl), w).
Proof.
  intros Ho. unfold _request, bind, circuit_is_open. cbn [monotonic net_env]. rewrite Ho.
  unfold _get_client. by eexists.
Qed.

(** C14. Retry with back-off.  When the breaker admits the call, [k] retryable
    answers (transport errors, 3xx, 5xx) followed by a final one make exactly
    [k + 1] sends of the same request, separated by sleeps of 1, 2, 4, ... seconds,
    and the breaker sees [k] failures.  A 2xx answer is returned and reported
    as a success; a 4xx answer is raised unchanged and reported as neither. *)
Theorem request_retries cfg cid m path params body h c b t lat log fs r rest :
  is_open t (circuit c) = (false, b) -> Forall retryable fs ->
  Z.of_nat (length fs) < max_retries cfg -> is_2xx r \/ is_4xx r ->
  let rq := request_of cid m path params body h in
  exists ts c' w', length ts = length fs /\
    _request cfg cid m path params body h (c, mkNet (fs ++ Ret r :: rest) t lat log) =
      (if r_status r <? 300 then Ret (response_value r)
       else Exc (HTTPStatusError r (r_text r)), (c', w')) /\
    net_log w' = log ++ retry_log rq (length fs) 0 ++ [Sent rq] /\
    circuit c' = (if r_status r <? 300 then record_success (fail_at ts b) else fail_at ts b).
Proof.
  intros Ho Hf Hk Hr rq.
  destruct (request_admitted cfg cid m path params body h c
    (mkNet (fs ++ Ret r :: rest) t lat log) b Ho) as [cl ->]. fold rq.
  destruct (attempts_retry cfg rq fs (Z.to_nat (max_retries cfg)) 0
    (mkClientState b (Some cl)) t lat log (Ret r :: rest) Hf) as (ts & t' & Hts & ->); [lia..|].
  destruct (Z.to_nat (max_retries cfg) - length fs)%nat eqn:En; [lia |]. cbn [attempts].
  exists ts. destruct Hr as [Hr | Hr].
  - rewrite (bind_Ret _ _ _ _ _ (try_once_2xx rq r _ _ _ _ _ Hr)). unfold is_2xx in Hr.
    rewrite (proj2 (Z.ltb_lt _ _)) by lia. do 2 eexists. repeat split; [done |].
    cbn. by rewrite <- app_assoc.
  - rewrite (bind_Exc _ _ _ _ _ (try_once_4xx rq r _ _ _ _ _ Hr)). unfold is_4xx in Hr.
    rewrite (proj2 (Z.ltb_ge _ _)) by lia. do 2 eexists. repeat split; [done |].
    cbn. by rewrite <- app_assoc.
Qed.

(** The retry budget.  When every answer is retryable, the client sends the
    request exactly [max_retries] times, sleeps between the attempts but not after
    the last, reports every failure to the breaker and raises [ConnectionError]. *)
Theorem request_exhausted cfg cid m path params body h c b t lat log fs o rest :
  is_open t (circuit c) = (false, b) -> Forall retryable (fs ++ [o]) ->
  Z.of_nat (length (fs ++ [o])) = max_retries cfg ->
  let rq := request_of cid m path params body h in
  exists ts c' w' msg, Z.of_nat (length ts) = max_retries cfg /\
    _request cfg cid m path params body h (c, mkNet ((fs ++ [o]) ++ rest) t lat log) =
      (Exc (PyErr ConnectionError msg), (c', w')) /\
    net_script w' = rest /\
    net_log w' = log ++ retry_log rq (length fs) 0 ++ [Sent rq] /\
    circuit c' = fail_at ts b.
Proof.
  intros Ho [Hf Ho1]%Forall_app Hk rq. rewrite length_app in Hk; cbn in Hk.
  rewrite <- app_assoc. cbn [app].
  destruct (request_admitted cfg cid m path params body h c
    (mkNet (fs ++ o :: rest) t lat log) b Ho) as [cl ->]. fold rq.
  destruct (attempts_retry cfg rq fs (Z.to_nat (max_retries cfg)) 0
    (mkClientState b (Some cl)) t lat log (o :: rest) Hf) as (ts & t' & Hts & ->); [lia..|].
  replace (Z.to_nat (max_retries cfg) - length fs)%nat with 1%nat by lia. cbn [attempts].
  rewrite (bind_Ret _ _ _ _ _
    (try_once_retryable rq o _ _ _ _ _ (proj1 (proj1 (Forall_cons _ _ _) Ho1)))).
  cbn beta iota. rewrite (proj2 (Z.ltb_ge _ _)) by lia. unfold bind, ret, raise; cbn beta iota.
  exists (ts ++ [t' + lat]). do 3 eexists. repeat split.
  - rewrite length_app. cbn. lia.
  - cbn. by rewrite <- app_assoc.
  - cbn. unfold fail_at. by rewrite foldl_app.
Qed.

(** An open breaker sheds the call: nothing is sent, nothing slept, no client built. *)
Lemma request_shed cfg cid m path params body h c w b :
  is_open (net_clock w) (circuit c) = (true, b) ->
  exists msg, _request cfg cid m path params body h (c, w) =
    (Exc (PyErr ConnectionError msg), (mkClientState b (client c), w)).
Proof.
  intros Ho. unfold _request, bind, circuit_is_open. cbn [monotonic net_env]. rewrite Ho.
  by eexists.
Qed.

(** A probe that is answered with a 4xx status proves the service alive, but the
    client reports neither success nor failure to the breaker: the breaker stays
    half-open with the probe outstanding, and the next call is shed without a send. *)
Theorem unanswered_probe cfg cid m path params body h c t lat log r rest :
  state (circuit c) = OPEN -> recovery_timeout (circuit c) <= t - opened_at (circuit c) ->
  0 < max_retries cfg -> 0 <= lat < recovery_timeout (circuit c) -> is_4xx r ->
  exists c' w',
    _request cfg cid m path params body h (c, mkNet (Ret r :: rest) t lat log) =
      (Exc (HTTPStatusError r (r_text r)), (c', w')) /\
    state (circuit c') = HALF_OPEN /\
    forall cid2 m2 path2 params2 body2 h2, exists msg,
      _request cfg cid2 m2 path2 params2 body2 h2 (c', w') =
      (Exc (PyErr ConnectionError msg), (c', w')).
Proof.
  intros Hs Ht Hm Hlat Hr.
  assert (Ho : is_open t (circuit c) =
    (false, set_probe (Some t) (_transition HALF_OPEN (circuit c)))).
  { unfold is_open. rewrite Hs. by rewrite (proj2 (Z.ltb_ge _ _)) by lia. }
  destruct (request_admitted cfg cid m path params body h c
    (mkNet (Ret r :: rest) t lat log) _ Ho) as [cl ->].
  destruct (Z.to_nat (max_retries cfg)) as [|n] eqn:En; [lia |]. cbn [attempts].
  rewrite (bind_Exc _ _ _ _ _ (try_once_4xx _ r _ _ _ _ _ Hr)).
  assert (Hb : set_probe (Some t) (_transition HALF_OPEN (circuit c)) =
    mkCB HALF_OPEN (failure_count (circuit c)) (failure_threshold (circuit c))
      (recovery_timeout (circuit c)) (opened_at (circuit c)) (Some t)).
  { unfold _transition, set_probe. by rewrite Hs. }
  do 2 eexists. split; [done |]. rewrite Hb. split; [done |]. intros.
  apply request_shed. cbn.
  by rewrite (proj2 (Z.ltb_lt _ _)) by lia.
Qed.

(** ** Witnesses *)

Definition demo_cfg := mkClientConfig "lead-service" "token" 3.
Definition demo_client := ServiceHTTPClient_init 5 60.
Definition ok_reply := mkResponse 200 "application/json" "{}".
Definition bad_gateway := mkResponse 502 "text/html" "oops".
Definition not_found := mkResponse 404 "application/json" "{}".
Definition refused : outcome exn response := Exc (PyErr HttpxRequestError "refused").
Definition tripped_client : client_state :=
  mkClientState (mkCB OPEN 5 5 60 0 None) None.

Lemma retryable_demo : Forall retryable [refused; Ret bad_gateway].
Proof. repeat constructor; cbn; [by eexists _, _ | lia]. Qed.

Lemma request_retries_witness :
  exists c' w', _request demo_cfg None "GET" "/x" None None None
    (demo_client, mkNet [refused; Ret bad_gateway; Ret ok_reply] 0 1 []) =
    (Ret (JObj []), (c', w')) /\ length (net_log w') = 5%nat.
Proof.
  destruct (request_retries demo_cfg None "GET" "/x" None None None demo_client
    (circuit demo_client) 0 1 [] [refused; Ret bad_gateway] ok_reply [])
    as (ts & c' & w' & _ & E & Hl & _);
    [reflexivity | apply retryable_demo | reflexivity | left; unfold is_2xx; cbn; lia |].
  exists c', w'. split; [exact E | rewrite Hl; reflexivity].
Defined.

Lemma request_exhausted_witness :
  exists c' w' msg, _request demo_cfg None "GET" "/x" None None None
    (demo_client, mkNet [refused; Ret bad_gateway; refused] 0 1 []) =
    (Exc (PyErr ConnectionError msg), (c', w')) /\ length (net_log w') = 5%nat.
Proof.
  destruct (request_exhausted demo_cfg None "GET" "/x" None None None demo_client
    (circuit demo_client) 0 1 [] [refused; Ret bad_gateway] refused [])
    as (ts & c' & w' & msg & _ & E & _ & Hl & _);
    [reflexivity | | reflexivity |].
  - apply Forall_app. split; [apply retryable_demo |].
    repeat constructor. cbn. by eexists _, _.
  - exists c', w', msg. split; [exact E | rewrite Hl; reflexivity].
Defined.

Lemma unanswered_probe_witness :
  exists c' w', _request demo_cfg None "GET" "/x" None None None
    (tripped_client, mkNet [Ret not_found; Ret ok_reply] 100 1 []) =
    (Exc (HTTPStatusError not_found "{}"), (c', w')) /\
  exists msg, _request demo_cfg None "GET" "/y" None None None (c', w') =
    (Exc (PyErr ConnectionError msg), (c', w')).
Proof.
  destruct (unanswered_probe demo_cfg None "GET" "/x" None None None tripped_client 100 1 []
    not_found [Ret ok_reply]) as (c' & w' & E & _ & Hn);
    [reflexivity | cbn; lia | reflexivity | cbn; lia | unfold is_4xx; cbn; lia |].
  exists c', w'. split; [exact E | apply Hn].
Defined.

(** A network without the script: every request times out. *)
Definition dead_env : HttpEnv unit := {|
  http_send _ w := (Exc (PyErr HttpxTimeoutException "timed out"), w);
  sleep _ w := (Ret tt, w);
  monotonic _ := 0;
  raise_for_status _ := None;
|}.
Lemma call_errors_witness :
  raises_only
    (fun e => (exists a, e = ApiError a /\ status_code a ∈ [400; 401; 403; 404; 409; 429; 503]) \/
              exists msg, e = PyErr AttributeError msg)
    (_call (H := dead_env) demo_cfg "/internal" None GET "/x" (Some "t1") None None) /\
  exists a w', _call (H := dead_env) demo_cfg "/internal" None GET "/x" (Some "t1") None None
    (demo_client, tt) = (Exc (ApiError a), w') /\ status_code a = 503.
Proof.
  split.
  - apply (call_errors (H := dead_env) demo_cfg "/internal" None GET "/x" (Some "t1") None None).
    + intros rq w e w' [= <- _]. reflexivity.
    + intros d w e w' E. discriminate E.
    + discriminate.
  - eexists _, _. split; reflexivity.
Defined.
