(* ===== verification/Redis.v ===== *)
(** * Redis as the code sees it

    Redis is not part of this repository: the server is the class
    [RedisServer], its commands are parameters, and [RedisDoc] states the
    documented effect of each command the code relies on, as an equation on the
    map of live keys.  [RedisConn] is a client connection: redis-py may lose a
    reply and (the pool of redis/pool.py is built with [Retry(retries=3)])
    send the command again, so a call that returns has run the command one or
    more times.  [Mem] is an implementation that satisfies the laws. *)

From S2P Require Import Prelude Json Errors Text.
Local Open Scope Z_scope.

(** Times are in microseconds, the resolution of [time.time()]. *)
Definition sec : Z := 1000000.

Inductive rvalue :=
| RStr (s : string)
| RZset (z : gmap string Z)
| RHash (h : gmap string string).

Record entry := mkEntry { e_val : rvalue; e_exp : option Z }.

Inductive srv_error := WrongType | NotInteger | InvalidExpire | SrvError (msg : string).
Definition srv_message (e : srv_error) : string :=
  match e with
  | WrongType => "WRONGTYPE Operation against a key holding the wrong kind of value"
  | NotInteger => "ERR value is not an integer or out of range"
  | InvalidExpire => "ERR invalid expire time"
  | SrvError m => m
  end.

Notation Srv S A := (M srv_error S A).

Definition int64 (n : Z) : bool := (- 2 ^ 63 <=? n) && (n <? 2 ^ 63).

Class RedisServer (S : Type) := {
  srv_live : S -> gmap string entry;     (* keys that have not expired *)
  srv_now : S -> Z;
  srv_tick : Z -> S -> S;                (* time passes *)
  ttl_seconds : Z -> Z;                  (* how TTL rounds to seconds *)
  cmd_get : string -> Srv S (option string);
  cmd_set : string -> string -> option Z -> bool -> Srv S bool;   (* key value EX NX *)
  cmd_del : list string -> Srv S Z;
  cmd_exists : list string -> Srv S Z;
  cmd_incrby : string -> Z -> Srv S Z;
  cmd_expire : string -> Z -> Srv S bool;
  cmd_ttl : string -> Srv S Z;
  cmd_mget : list string -> Srv S (list (option string));
  cmd_zremrangebyscore : string -> Z -> Z -> Srv S Z;
  cmd_zadd : string -> list (string * Z) -> Srv S Z;
  cmd_zcard : string -> Srv S Z;
  cmd_hincrby : string -> string -> Z -> Srv S Z;
  cmd_hget : string -> string -> Srv S (option string);
  cmd_hdel : string -> string -> Srv S Z;
}.

(** [gives c s o m]: in state [s] the command replies [o] and leaves the live keys [m]. *)
Definition gives {S A} `{RedisServer S} (c : Srv S A) (s : S) (o : outcome srv_error A)
    (m : gmap string entry) : Prop :=
  fst (c s) = o /\ srv_live (snd (c s)) = m /\ srv_now (snd (c s)) = srv_now s.

Definition expiry (now : Z) (ex : option Z) : option Z := (fun s => now + s * sec) <$> ex.

(** The reply and the effect the documentation gives each command. *)
Section Documented.
Variable now : Z.
Variable m : gmap string entry.

Definition doc_get (k : string) : outcome srv_error (option string) :=
  match m !! k with
  | None => Ret None
  | Some e => match e_val e with RStr v => Ret (Some v) | _ => Exc WrongType end
  end.
Definition doc_set (k v : string) (ex : option Z) (nx : bool)
    : outcome srv_error bool * gmap string entry :=
  match ex with
  | Some s =>
      if s <=? 0 then (Exc InvalidExpire, m)
      else if nx && bool_decide (is_Some (m !! k)) then (Ret false, m)
      else (Ret true, <[k := mkEntry (RStr v) (expiry now ex)]> m)
  | None =>
      if nx && bool_decide (is_Some (m !! k)) then (Ret false, m)
      else (Ret true, <[k := mkEntry (RStr v) None]> m)
  end.
Definition doc_del (ks : list string) : Z * gmap string entry :=
  foldl (fun '(n, m) k => match m !! k with
                          | Some _ => (n + 1, base.delete k m)
                          | None => (n, m)
                          end) (0, m) ks.
Definition doc_exists (ks : list string) : Z :=
  foldl (fun n k => match m !! k with Some _ => n + 1 | None => n end) 0 ks.
Definition doc_incrby (k : string) (n : Z) : outcome srv_error Z * gmap string entry :=
  match m !! k with
  | None => if int64 n then (Ret n, <[k := mkEntry (RStr (str_of_Z n)) None]> m)
            else (Exc NotInteger, m)
  | Some e =>
      match e_val e with
      | RStr v =>
          match Z_of_str v with
          | Some z => if int64 (z + n)
                      then (Ret (z + n), <[k := mkEntry (RStr (str_of_Z (z + n))) (e_exp e)]> m)
                      else (Exc NotInteger, m)
          | None => (Exc NotInteger, m)
          end
      | _ => (Exc WrongType, m)
      end
  end.
Definition doc_expire (k : string) (s : Z) : bool * gmap string entry :=
  match m !! k with
  | None => (false, m)
  | Some e => (true, if s <=? 0 then base.delete k m
                     else <[k := mkEntry (e_val e) (expiry now (Some s))]> m)
  end.
Definition doc_ttl (ttl_seconds : Z -> Z) (k : string) : Z :=
  match m !! k with
  | None => -2
  | Some e => match e_exp e with None => -1 | Some t => ttl_seconds (t - now) end
  end.
Definition doc_mget (ks : list string) : list (option string) :=
  map (fun k => match m !! k with
                | Some e => match e_val e with RStr v => Some v | _ => None end
                | None => None
                end) ks.
(** Sorted sets: members with a score; an empty one is no key at all. *)
Definition zset_of (k : string) : option (gmap string Z * option Z) :=
  match m !! k with
  | None => Some (∅, None)
  | Some e => match e_val e with RZset z => Some (z, e_exp e) | _ => None end
  end.
Definition put_zset (k : string) (z : gmap string Z) (exp : option Z) : gmap string entry :=
  if bool_decide (z = ∅) then base.delete k m else <[k := mkEntry (RZset z) exp]> m.
Definition in_scores (lo hi : Z) (x : string * Z) : Prop := lo <= snd x <= hi.
#[global] Instance in_scores_dec lo hi x : Decision (in_scores lo hi x).
Proof. unfold in_scores. apply _. Defined.
Definition doc_zremrangebyscore (k : string) (lo hi : Z)
    : outcome srv_error Z * gmap string entry :=
  match zset_of k with
  | Some (z, exp) =>
      (Ret (Z.of_nat (size (filter (in_scores lo hi) z))),
       put_zset k (filter (fun x => ~ in_scores lo hi x) z) exp)
  | None => (Exc WrongType, m)
  end.
Definition doc_zadd (k : string) (ms : list (string * Z))
    : outcome srv_error Z * gmap string entry :=
  match zset_of k with
  | Some (z, exp) =>
      let z' := foldl (fun z x => <[fst x := snd x]> z) z ms in
      (Ret (Z.of_nat (size z') - Z.of_nat (size z)), put_zset k z' exp)
  | None => (Exc WrongType, m)
  end.
Definition doc_zcard (k : string) : outcome srv_error Z :=
  match zset_of k with
  | Some (z, _) => Ret (Z.of_nat (size z))
  | None => Exc WrongType
  end.
Definition hash_of (k : string) : option (gmap string string * option Z) :=
  match m !! k with
  | None => Some (∅, None)
  | Some e => match e_val e with RHash h => Some (h, e_exp e) | _ => None end
  end.
Definition put_hash (k : string) (h : gmap string string) (exp : option Z)
    : gmap string entry :=
  if bool_decide (h = ∅) then base.delete k m else <[k := mkEntry (RHash h) exp]> m.
Definition doc_hincrby (k f : string) (n : Z) : outcome srv_error Z * gmap string entry :=
  match hash_of k with
  | Some (h, exp) =>
      match Z_of_str (default "0" (h !! f)) with
      | Some z => if int64 (z + n)
                  then (Ret (z + n), put_hash k (<[f := str_of_Z (z + n)]> h) exp)
                  else (Exc NotInteger, m)
      | None => (Exc NotInteger, m)
      end
  | None => (Exc WrongType, m)
  end.
Definition doc_hget (k f : string) : outcome srv_error (option string) :=
  match hash_of k with Some (h, _) => Ret (h !! f) | None => Exc WrongType end.
Definition doc_hdel (k f : string) : outcome srv_error Z * gmap string entry :=
  match hash_of k with
  | Some (h, exp) => (Ret (if bool_decide (is_Some (h !! f)) then 1 else 0),
                      put_hash k (base.delete f h) exp)
  | None => (Exc WrongType, m)
  end.
End Documented.

(** A live entry survives until its expiry. *)
Definition unexpired (now : Z) (e : entry) : bool :=
  match e_exp e with None => true | Some t => now <? t end.

Class RedisDoc (S : Type) `{RedisServer S} : Prop := {
  tick_live d s : 0 <= d ->
    srv_live (srv_tick d s) = filter (fun ke => unexpired (srv_now s + d) (snd ke) = true) (srv_live s);
  tick_now d s : 0 <= d -> srv_now (srv_tick d s) = srv_now s + d;
  ttl_rounds d : Z.abs (ttl_seconds d * sec - d) < sec;
  get_doc k s : gives (cmd_get k) s (doc_get (srv_live s) k) (srv_live s);
  set_doc k v ex nx s : gives (cmd_set k v ex nx) s
    (fst (doc_set (srv_now s) (srv_live s) k v ex nx)) (snd (doc_set (srv_now s) (srv_live s) k v ex nx));
  del_doc ks s : gives (cmd_del ks) s (Ret (fst (doc_del (srv_live s) ks))) (snd (doc_del (srv_live s) ks));
  exists_doc ks s : gives (cmd_exists ks) s (Ret (doc_exists (srv_live s) ks)) (srv_live s);
  incrby_doc k n s : gives (cmd_incrby k n) s
    (fst (doc_incrby (srv_live s) k n)) (snd (doc_incrby (srv_live s) k n));
  expire_doc k n s : gives (cmd_expire k n) s
    (Ret (fst (doc_expire (srv_now s) (srv_live s) k n))) (snd (doc_expire (srv_now s) (srv_live s) k n));
  ttl_doc k s : gives (cmd_ttl k) s (Ret (doc_ttl (srv_now s) (srv_live s) ttl_seconds k)) (srv_live s);
  mget_doc ks s : gives (cmd_mget ks) s (Ret (doc_mget (srv_live s) ks)) (srv_live s);
  zremrangebyscore_doc k lo hi s : gives (cmd_zremrangebyscore k lo hi) s
    (fst (doc_zremrangebyscore (srv_live s) k lo hi)) (snd (doc_zremrangebyscore (srv_live s) k lo hi));
  zadd_doc k ms s : gives (cmd_zadd k ms) s
    (fst (doc_zadd (srv_live s) k ms)) (snd (doc_zadd (srv_live s) k ms));
  zcard_doc k s : gives (cmd_zcard k) s (doc_zcard (srv_live s) k) (srv_live s);
  hincrby_doc k f n s : gives (cmd_hincrby k f n) s
    (fst (doc_hincrby (srv_live s) k f n)) (snd (doc_hincrby (srv_live s) k f n));
  hget_doc k f s : gives (cmd_hget k f) s (doc_hget (srv_live s) k f) (srv_live s);
  hdel_doc k f s : gives (cmd_hdel k f) s
    (fst (doc_hdel (srv_live s) k f)) (snd (doc_hdel (srv_live s) k f));
}.

(** ** The client connection *)

(** [runs n c s]: the server after [c] was executed [n] times, replies ignored. *)
Definition runs {S A} (n : nat) (c : Srv S A) (s : S) : S := Nat.iter n (fun s => snd (c s)) s.

(** redis/connection.py: the pool only takes [redis://] URLs (those whose host part [urlsplit]
    accepts: see [Text.urlsplit]). *)
Definition require_plain_redis_url (url : string) : outcome exn unit :=
  match urlsplit (fun _ => true) url with
  | Exc e => Exc e
  | Ret r =>
      if negb (bool_decide (u_scheme r = "redis")) then
        Exc (PyErr ValueError ("ProxySafeConnection only supports redis:// URLs, got " +:+ u_scheme r +:+
          "://; rediss:// and unix:// would silently drop the proxy guards"))
      else Ret tt
  end.

Class RedisConn (W S : Type) := {
  rexec : forall {A}, Srv S A -> Py W A;   (* [await client.<command>(...)] or [eval] *)
  aclose : Py W unit;                      (* [await client.aclose(...)] of the redis package *)
  srv : W -> S;
  wall : W -> Z;                           (* [time.time()] *)
}.
Class RedisConnDoc (W S : Type) `{RedisConn W S} : Prop := {
  rexec_ret {A} (c : Srv S A) w a w' : rexec c w = (Ret a, w') ->
    exists n, c (runs n c (srv w)) = (Ret a, srv w');
  rexec_exc {A} (c : Srv S A) w e w' : rexec c w = (Exc e, w') ->
    exists n, srv w' = runs n c (srv w);
  rexec_wall {A} (c : Srv S A) w : wall (snd (rexec c w)) = wall w;
  aclose_srv w : srv (snd (aclose w)) = srv w;    (* closing sends no command *)
}.

(** ** The reference implementation *)

Record mem := mkMem { mem_map : gmap string entry; mem_now : Z }.
Definition doc_cmd {A} (f : Z -> gmap string entry -> outcome srv_error A * gmap string entry)
    : Srv mem A :=
  fun s => let (o, m) := f (mem_now s) (mem_map s) in (o, mkMem m (mem_now s)).
Definition ret_pair {A} (x : A * gmap string entry) : outcome srv_error A * gmap string entry :=
  (Ret (fst x), snd x).

#[export] Instance mem_server : RedisServer mem := {
  srv_live := mem_map;
  srv_now := mem_now;
  srv_tick d s := mkMem (filter (fun ke => unexpired (mem_now s + d) (snd ke) = true) (mem_map s))
                    (mem_now s + d);
  ttl_seconds d := (d + 500000) / sec;
  cmd_get k := doc_cmd (fun _ m => (doc_get m k, m));
  cmd_set k v ex nx := doc_cmd (fun now m => doc_set now m k v ex nx);
  cmd_del ks := doc_cmd (fun _ m => ret_pair (doc_del m ks));
  cmd_exists ks := doc_cmd (fun _ m => (Ret (doc_exists m ks), m));
  cmd_incrby k n := doc_cmd (fun _ m => doc_incrby m k n);
  cmd_expire k n := doc_cmd (fun now m => ret_pair (doc_expire now m k n));
  cmd_ttl k := doc_cmd (fun now m => (Ret (doc_ttl now m (fun d => (d + 500000) / sec) k), m));
  cmd_mget ks := doc_cmd (fun _ m => (Ret (doc_mget m ks), m));
  cmd_zremrangebyscore k lo hi := doc_cmd (fun _ m => doc_zremrangebyscore m k lo hi);
  cmd_zadd k ms := doc_cmd (fun _ m => doc_zadd m k ms);
  cmd_zcard k := doc_cmd (fun _ m => (doc_zcard m k, m));
  cmd_hincrby k f n := doc_cmd (fun _ m => doc_hincrby m k f n);
  cmd_hget k f := doc_cmd (fun _ m => (doc_hget m k f, m));
  cmd_hdel k f := doc_cmd (fun _ m => doc_hdel m k f);
}.

Lemma doc_cmd_gives {A} f s :
  gives (A := A) (doc_cmd f) s (fst (f (mem_now s) (mem_map s))) (snd (f (mem_now s) (mem_map s))).
Proof. unfold gives, doc_cmd; cbn. by destruct (f _ _). Qed.

#[export] Instance mem_doc : RedisDoc mem.
Proof.
  split; intros; try apply doc_cmd_gives; try reflexivity.
  cbn. unfold sec. pose proof (Z.div_mod (d + 500000) 1000000).
  pose proof (Z.mod_pos_bound (d + 500000) 1000000). lia.
Qed.

(** A connection whose next calls meet the scripted faults, and then none. *)
Inductive link := Up | Down | LostReply | Resent.
Record conn (S : Type) := mkConn { cn_srv : S; cn_wall : Z; cn_links : list link }.
Arguments mkConn {S}.
Arguments cn_srv {S}.
Arguments cn_wall {S}.
Arguments cn_links {S}.
Definition link_down {A} : outcome exn A := Exc (PyErr RedisConnectionError "connection lost").
Definition lift_reply {A} (o : outcome srv_error A) : outcome exn A :=
  match o with Ret a => Ret a | Exc e => Exc (PyErr RedisResponseError (srv_message e)) end.
#[export] Instance conn_redis {S} : RedisConn (conn S) S := {
  rexec A c w :=
    let (l, ls) := match cn_links w with [] => (Up, []) | l :: ls => (l, ls) end in
    let (o, s) := c (cn_srv w) in
    match l with
    | Up => (lift_reply o, mkConn s (cn_wall w) ls)
    | Down => (link_down, mkConn (cn_srv w) (cn_wall w) ls)
    | LostReply => (link_down, mkConn s (cn_wall w) ls)
    | Resent => let (o, s) := c s in (lift_reply o, mkConn s (cn_wall w) ls)
    end;
  aclose w :=
    match cn_links w with
    | Down :: ls => (link_down, mkConn (cn_srv w) (cn_wall w) ls)
    | _ => (Ret tt, w)
    end;
  srv := cn_srv;
  wall := cn_wall;
}.
#[export] Instance conn_doc {S} : RedisConnDoc (conn S) S.
Proof.
  split; [| | | by intros [s t [|[| | |] ls]]];
    intros A c [s t ls]; cbn; destruct ls as [|[| | |] ls]; cbn;
    destruct (c s) as [[a|e] s1] eqn:E; cbn; intros; simplify_eq;
    try (exists 0%nat; cbn; rewrite ?E; done); try (exists 1%nat; cbn; rewrite ?E; done);
    destruct (c s1) as [[b|e'] s2] eqn:E2; cbn in *; simplify_eq; try done;
    try (exists 1%nat; cbn; rewrite E; done); exists 2%nat; cbn; rewrite E; cbn; by rewrite E2.
Qed.

Definition mem0 : mem := mkMem ∅ 0.

(** ** Consequences the components use *)

Section Laws.
Context {S : Type} `{RedisDoc S}.

Lemma gives_run {A} (c : Srv S A) s o m :
  gives c s o m -> exists s', c s = (o, s') /\ srv_live s' = m /\ srv_now s' = srv_now s.
Proof. intros (<- & <- & Hn). exists (snd (c s)). split; [by destruct (c s) | done]. Qed.

Lemma gives_bind {A B} (c : Srv S A) (k : A -> Srv S B) s a m o m' :
  gives c s (Ret a) m ->
  (forall s', srv_live s' = m -> srv_now s' = srv_now s -> gives (k a) s' o m') ->
  gives (bind c k) s o m'.
Proof.
  intros (s' & E & Hm & Hn)%gives_run Hk. destruct (Hk s' Hm Hn) as (Ho & Hm' & Hn').
  unfold gives. rewrite !(bind_Ret _ _ _ _ _ E). rewrite <- Hn. auto.
Qed.
Lemma gives_bind_Exc {A B} (c : Srv S A) (k : A -> Srv S B) s e m :
  gives c s (Exc e) m -> gives (bind c k) s (Exc e) m.
Proof.
  intros (s' & E & Hm & Hn)%gives_run. unfold gives. by rewrite !(bind_Exc _ _ _ _ _ E).
Qed.
Lemma gives_ret {A} (a : A) s : gives (ret a) s (Ret a) (srv_live s).
Proof. done. Qed.

Lemma gives_ret_eq {A} (a : A) s m : srv_live s = m -> gives (ret a) s (Ret a) m.
Proof. by intros <-. Qed.

(** A command whose effect does not depend on how often it is repeated. *)
Lemma runs_fix {A} (c : Srv S A) s (P : S -> Prop) n :
  P s -> (forall s, P s -> P (snd (c s))) -> P (runs n c s).
Proof. intros Hs Hc. unfold runs. induction n; cbn; auto. Qed.

Lemma tick_lookup d s k : 0 <= d ->
  srv_live (srv_tick d s) !! k =
  match srv_live s !! k with
  | Some e => if unexpired (srv_now s + d) e then Some e else None
  | None => None
  end.
Proof.
  intros Hd. rewrite tick_live by done. destruct (srv_live s !! k) as [e|] eqn:E.
  - destruct (unexpired _ e) eqn:U.
    + by apply map_lookup_filter_Some.
    + apply map_lookup_filter_None. right. intros x Hx. cbn. congruence.
  - apply map_lookup_filter_None. by left.
Qed.

Lemma incr_absent k s :
  srv_live s !! k = None ->
  gives (cmd_incrby k 1) s (Ret 1) (<[k := mkEntry (RStr (str_of_Z 1)) None]> (srv_live s)).
Proof. intros Hk. pose proof (incrby_doc k 1 s) as Hi. unfold doc_incrby in Hi. by rewrite Hk in Hi. Qed.
Lemma incr_present k s c e :
  srv_live s !! k = Some (mkEntry (RStr (str_of_Z c)) e) -> int64 (c + 1) = true ->
  gives (cmd_incrby k 1) s (Ret (c + 1))
    (<[k := mkEntry (RStr (str_of_Z (c + 1))) e]> (srv_live s)).
Proof.
  intros Hk Hc. pose proof (incrby_doc k 1 s) as Hi. unfold doc_incrby in Hi.
  rewrite Hk in Hi. cbn [e_val e_exp] in Hi. by rewrite Z_of_str_of_Z, Hc in Hi.
Qed.
Lemma expire_present k s e n :
  srv_live s !! k = Some e -> 0 < n ->
  gives (cmd_expire k n) s (Ret true)
    (<[k := mkEntry (e_val e) (Some (srv_now s + n * sec))]> (srv_live s)).
Proof.
  intros Hk Hn. pose proof (expire_doc k n s) as He. unfold doc_expire in He.
  by rewrite Hk, (proj2 (Z.leb_gt n 0)) in He.
Qed.
Lemma zset_of_put m k z exp :
  exists exp', zset_of (put_zset m k z exp) k = Some (z, exp').
Proof.
  unfold zset_of, put_zset. case_bool_decide as Hz.
  - rewrite lookup_delete_eq, Hz. eauto.
  - rewrite lookup_insert_eq. eauto.
Qed.
(** Adding one member leaves a key that holds it. *)
Lemma zadd_one k mb sc s z exp :
  zset_of (srv_live s) k = Some (z, exp) ->
  exists r m, gives (cmd_zadd k [(mb, sc)]) s (Ret r) m /\
    m !! k = Some (mkEntry (RZset (<[mb := sc]> z)) exp).
Proof.
  intros Hz. pose proof (zadd_doc k [(mb, sc)] s) as Ha. unfold doc_zadd in Ha.
  rewrite Hz in Ha. cbn in Ha. eexists _, _. split; [exact Ha |].
  unfold put_zset. rewrite bool_decide_false by apply insert_non_empty.
  by rewrite lookup_insert_eq.
Qed.
Lemma ttl_bounds d n : 0 <= d <= n * sec -> 0 <= ttl_seconds d <= n.
Proof. intros Hd. pose proof (ttl_rounds d). unfold sec in *. lia. Qed.

Lemma doc_del_lookup m ks k :
  snd (doc_del m ks) !! k = if bool_decide (k ∈ ks) then None else m !! k.
Proof.
  unfold doc_del. generalize 0. revert m.
  induction ks as [|x ks IH]; intros m n; cbn; [by rewrite bool_decide_false by set_solver |].
  destruct (m !! x) eqn:E; rewrite IH.
  - case_bool_decide; [by rewrite bool_decide_true by set_solver |].
    destruct (decide (k = x)) as [-> | Hne].
    + by rewrite lookup_delete_eq, bool_decide_true by set_solver.
    + by rewrite lookup_delete_ne, bool_decide_false by set_solver.
  - case_bool_decide; [by rewrite bool_decide_true by set_solver |].
    destruct (decide (k = x)) as [-> | Hne].
    + rewrite bool_decide_true by set_solver. done.
    + by rewrite bool_decide_false by set_solver.
Qed.
End Laws.

(** ** A connection without faults

    While [up] holds, a command runs exactly once and its reply arrives. *)
Definition exact_link {W S} `{RedisConn W S} (up : W -> Prop) : Prop :=
  forall A (c : Srv S A) w, up w ->
    fst (rexec c w) = lift_reply (fst (c (srv w))) /\
    srv (snd (rexec c w)) = snd (c (srv w)) /\ up (snd (rexec c w)).
Definition conn_up {S} (w : conn S) : Prop := cn_links w = [].
Lemma conn_exact {S} : exact_link (W := conn S) (S := S) conn_up.
Proof. intros A c [s t ls] Hup. unfold conn_up in *. cbn in *. subst. by destruct (c s). Qed.

Lemma exact_run {W S A} `{RedisServer S} `{RedisConn W S} (up : W -> Prop) (c : Srv S A) w o m :
  exact_link up -> up w -> gives c (srv w) o m ->
  exists w', rexec c w = (lift_reply o, w') /\ srv_live (srv w') = m /\
    srv_now (srv w') = srv_now (srv w) /\ up w'.
Proof.
  intros Hx Hup (Ho & Hm & Hn). destruct (Hx A c w Hup) as (E1 & E2 & Hup').
  destruct (rexec c w) as [o' w']. cbn in *. exists w'. rewrite E2. by subst.
Qed.
