(* ===== verification/RateLimiter.v ===== *)
(** * The rate limiter

    Models src/tr_shared/rate_limiter/ (schemas.py, lua_scripts.py,
    algorithms.py, memory_fallback.py, core.py, dependency.py) and
    monitoring/path_normalizer.py.  The Lua scripts are programs over the
    server's commands, executed atomically by [eval]; the Python side runs them
    over a connection that may fail.  Times are microseconds ([sec] to the
    second); logging is not modelled. *)

From S2P Require Import Prelude Json Errors Redis.
From Stdlib Require Import Ascii Sorted.
Local Open Scope Z_scope.

(** ** Schemas *)

Inductive Algorithm := FIXED_WINDOW | SLIDING_WINDOW.
Inductive FailMode := OPEN | CLOSED.
#[export] Instance FailMode_eq_dec : EqDecision FailMode.
Proof. solve_decision. Defined.

Record WindowConfig := mkWindow { w_limit : Z; window_seconds : Z }.
Record RateLimitConfig := mkRLConfig {
  windows : list WindowConfig;
  algorithm : Algorithm;
  fail_mode : FailMode;
  rl_key_prefix : string;
  methods : option (list string);
}.
Record RateLimitResult := mkResult {
  allowed : bool;
  limit : Z;
  remaining : Z;
  reset_at : Z;
  retry_after : Z;
}.
Record RateLimitInfo := mkInfo { results : list RateLimitResult; is_blocked : bool }.

Definition default_window : WindowConfig := mkWindow 100 60.
Definition _DEFAULT_CONFIG : RateLimitConfig :=
  mkRLConfig [default_window] FIXED_WINDOW OPEN "rl" None.

(** ** The Lua scripts *)

Section Scripts.
Context {S : Type} `{RedisServer S}.

Definition FIXED_WINDOW_LUA (key : string) (limit ttl : Z) : Srv S (Z * Z * Z) :=
  let! count := cmd_incrby key 1 in
  do! (if count =? 1 then (do! cmd_expire key ttl in ret tt) else ret tt) in
  let! remaining_ttl := cmd_ttl key in
  ret (count, if limit <? count then 1 else 0, remaining_ttl).

(** [tostring] is how Lua writes a number in [now .. ':'], [random] the value of
    [math.random(1000000)] in this run. *)
Definition SLIDING_WINDOW_LUA (tostring : Z -> string) (random : Z)
    (key : string) (now window_size limit : Z) : Srv S (Z * Z) :=
  do! cmd_zremrangebyscore key 0 (now - window_size * sec) in
  do! cmd_zadd key [(tostring now +:+ ":" +:+ str_of_Z random, now)] in
  let! count := cmd_zcard key in
  do! cmd_expire key window_size in
  ret (count, if limit <? count then 1 else 0).
End Scripts.

(** ** The in-memory fallback *)

Record bucket := mkBucket { count : Z; reset_time : Z }.
Record MemoryFallback := mkFallback {
  _buckets : gmap string bucket;
  _cleanup_threshold : Z;
}.
Definition DEFAULT_CLEANUP_THRESHOLD : Z := 10000.
Definition MemoryFallback_init : MemoryFallback := mkFallback ∅ DEFAULT_CLEANUP_THRESHOLD.

Definition _cleanup_expired (now : Z) (f : MemoryFallback) : MemoryFallback :=
  mkFallback (filter (fun kb => ~ reset_time (snd kb) < now) (_buckets f)) (_cleanup_threshold f).

Definition MemoryFallback_check (now : Z) (key : string) (limit window_seconds : Z)
    (f : MemoryFallback) : RateLimitResult * MemoryFallback :=
  let f := if _cleanup_threshold f <? Z.of_nat (size (_buckets f))
           then _cleanup_expired now f else f in
  let put b := mkFallback (<[key := b]> (_buckets f)) (_cleanup_threshold f) in
  let fresh :=
    let reset_time := now + window_seconds * sec in
    (mkResult true limit (Z.max 0 (limit - 1)) (Z.quot reset_time sec) 0,
     put (mkBucket 1 reset_time)) in
  match _buckets f !! key with
  | None => fresh
  | Some b =>
      if reset_time b <? now then fresh
      else if limit <=? count b then
        (mkResult false limit 0 (Z.quot (reset_time b) sec)
           (Z.max 1 (Z.quot (reset_time b - now) sec)), f)
      else
        let b := mkBucket (count b + 1) (reset_time b) in
        (mkResult true limit (Z.max 0 (limit - count b)) (Z.quot (reset_time b) sec) 0, put b)
  end.

(** ** Path normalisation (monitoring/path_normalizer.py) *)

Definition is_digit (c : ascii) : bool := (48 <=? ord c)%nat && (ord c <=? 57)%nat.
Definition is_hex (c : ascii) : bool :=
  is_digit c || ((97 <=? ord c)%nat && (ord c <=? 102)%nat) ||
  ((65 <=? ord c)%nat && (ord c <=? 70)%nat).
(** [n] hexadecimal digits, then [k] on the rest *)
Fixpoint hexes (n : nat) (s : string) (k : string -> bool) : bool :=
  match n, s with
  | O, _ => k s
  | Datatypes.S n', String c s' => is_hex c && hexes n' s' k
  | _, EmptyString => false
  end.
Definition dash (s : string) (k : string -> bool) : bool :=
  match s with String c s' => bool_decide (c = "-"%char) && k s' | EmptyString => false end.
(** [s] begins with a UUID *)
Definition uuid_at (s : string) : bool :=
  hexes 8 s (fun s => dash s (fun s => hexes 4 s (fun s => dash s (fun s => hexes 4 s (fun s =>
  dash s (fun s => hexes 4 s (fun s => dash s (fun s => hexes 12 s (fun _ => true))))))))).
(** [re.sub] with a pattern that starts with a slash and has [len rest] further
    characters when it matches; [skip] counts characters of a match still to drop. *)
Fixpoint re_sub (len : string -> option nat) (skip : nat) (s : string) : string :=
  match s with
  | EmptyString => EmptyString
  | String c s' =>
      match skip with
      | Datatypes.S n => re_sub len n s'
      | O =>
          if bool_decide (c = "/"%char) then
            match len s' with
            | Some n => "/{id}" +:+ re_sub len n s'
            | None => String c (re_sub len O s')
            end
          else String c (re_sub len O s')
      end
  end.
Fixpoint digits_len (s : string) : nat :=
  match s with
  | String c s' => if is_digit c then Datatypes.S (digits_len s') else O
  | EmptyString => O
  end.
Definition newline : string := String (chr 10) EmptyString.
(** [(?=/|$)]: [$] also matches before a final newline. *)
Definition at_boundary (s : string) : bool :=
  startswith s "/" || bool_decide (s = "") || bool_decide (s = newline).
Definition _UUID_RE (rest : string) : option nat := if uuid_at rest then Some 36%nat else None.
Definition _NUMERIC_ID_RE (rest : string) : option nat :=
  let n := digits_len rest in
  if (0 <? n)%nat && at_boundary (String.substring n (String.length rest - n) rest)
  then Some n else None.
Definition normalize_path (path : string) : string :=
  re_sub _NUMERIC_ID_RE 0 (re_sub _UUID_RE 0 path).

Definition rl_build_key (_key_prefix identifier endpoint scope : string) : string :=
  let normalized := if bool_decide (endpoint = "*") then "*" else normalize_path endpoint in
  join ":" (filter (fun p => p <> "") [_key_prefix; "rl"; scope; identifier; normalized]).

(** ** [RateLimiter] *)

(** Where the limiter takes its Redis client from.  A provider is the caller's
    callback; it answers whether it gave a client, and may raise. *)
Inductive redis_source (W : Type) :=
| NoRedis
| RedisClient
| RedisUrl
| RedisProvider (p : Py W bool).
Arguments NoRedis {W}.
Arguments RedisClient {W}.
Arguments RedisUrl {W}.
Arguments RedisProvider {W} p.

Definition RateLimiter_init {W} (redis_client : bool) (redis_url : string)
    (provider : option (Py W bool)) (enable_memory_fallback : bool)
    : outcome exn (redis_source W * option MemoryFallback) :=
  let has_provider := match provider with Some _ => true | None => false end in
  let sources := [redis_client; nonempty redis_url; has_provider] in
  if (1 <? length (filter (fun b : bool => b = true) sources))%nat then
    Exc (PyErr ValueError "RateLimiter takes at most one of redis_client, redis_url, redis_provider")
  else
    match (if nonempty redis_url then require_plain_redis_url redis_url else Ret tt) with   (* [LoopBoundRedis] *)
    | Exc e => Exc e
    | Ret _ =>
        Ret (match provider with
             | Some p => RedisProvider p
             | None => if nonempty redis_url then RedisUrl
                       else if redis_client then RedisClient else NoRedis
             end,
             if enable_memory_fallback then Some MemoryFallback_init else None)
    end.

Section Limiter.
Context {W S : Type} `{RedisServer S} `{RedisConn W S}.
(** Lua's rendering of a number, and the random number of the next script. *)
Variable tostring : Z -> string.
Variable random : W -> Z.

Definition FixedWindow_check (key : string) (limit window_seconds : Z) : Py W RateLimitResult :=
  let! (count, over, ttl) := rexec (FIXED_WINDOW_LUA key limit window_seconds) in
  let! t := gets wall in
  let is_over := negb (over =? 0) in
  let now := Z.quot t sec in
  ret (mkResult (negb is_over) limit (Z.max 0 (limit - count)) (now + Z.max ttl 1)
         (if is_over then Z.max 1 ttl else 0)).

Definition SlidingWindow_check (key : string) (limit window_seconds : Z) : Py W RateLimitResult :=
  let! now := gets wall in
  let! rnd := gets random in
  let! (count, over) :=
    rexec (SLIDING_WINDOW_LUA tostring rnd key now window_seconds limit) in
  let is_over := negb (over =? 0) in
  ret (mkResult (negb is_over) limit (Z.max 0 (limit - count)) (Z.quot now sec + window_seconds)
         (if is_over then window_seconds else 0)).

Definition algorithm_check (a : Algorithm) :=
  match a with FIXED_WINDOW => FixedWindow_check | SLIDING_WINDOW => SlidingWindow_check end.

Variable source : redis_source W.

Notation state := (option MemoryFallback * W)%type.

Definition _get_redis : Py state bool :=
  match source with
  | RedisProvider p => on_snd p
  | RedisUrl | RedisClient => ret true
  | NoRedis => ret false
  end.

Definition window_key (key : string) (w : WindowConfig) : string :=
  key +:+ ":" +:+ str_of_Z (window_seconds w) +:+ "s".

(** What happens once Redis gave no answer. *)
Definition fallback_check (key : string) (window : WindowConfig) (fm : FailMode)
    : Py state RateLimitResult :=
  if decide (fm = CLOSED) then
    ret (mkResult false (w_limit window) 0 0 (window_seconds window))
  else fun st =>
    match fst st with
    | Some f =>
        let (r, f') := MemoryFallback_check (wall (snd st)) (window_key key window)
                         (w_limit window) (window_seconds window) f in
        (Ret r, (Some f', snd st))
    | None => (Ret (mkResult true (w_limit window) (w_limit window) 0 0), st)
    end.

Definition _check_window (redis : bool) (a : Algorithm) (key : string) (window : WindowConfig)
    (fm : FailMode) : Py state RateLimitResult :=
  let! answer :=
    if redis then
      catch_Exception
        (let! r := on_snd (algorithm_check a (window_key key window) (w_limit window)
                             (window_seconds window)) in
         ret (Some r))
        (fun _ => ret None)
    else ret None in
  match answer with
  | Some r => ret r
  | None => fallback_check key window fm
  end.

Definition rl_check (key : string) (config : option RateLimitConfig) : Py state RateLimitInfo :=
  let cfg := default _DEFAULT_CONFIG config in
  let! redis := _get_redis in
  mfold (fun info window =>
           let! r := _check_window redis (algorithm cfg) key window (fail_mode cfg) in
           ret (mkInfo (results info ++ [r]) (if allowed r then is_blocked info else true)))
    (windows cfg) (mkInfo [] false).

Definition rl_reset (key : string) (config : option RateLimitConfig) : Py state bool :=
  let cfg := default _DEFAULT_CONFIG config in
  let! redis := _get_redis in
  if negb redis then ret false
  else catch_Exception
         (let! deleted := on_snd (rexec (cmd_del (map (window_key key) (windows cfg)))) in
          ret (0 <? deleted))
         (fun _ => ret false).

(** [int(await redis.get(key) or 0)] *)
Definition int_or_0 (v : option string) : outcome exn Z :=
  match v with
  | None => Ret 0
  | Some s => if nonempty s then
                match Z_of_str s with
                | Some z => Ret z
                | None => Exc (PyErr ValueError "invalid literal for int()")
                end
              else Ret 0
  end.

Definition status_window (key : string) (info : RateLimitInfo) (window : WindowConfig)
    : Py state RateLimitInfo :=
  catch_Exception
    (let! v := on_snd (rexec (cmd_get (window_key key window))) in
     match int_or_0 v with
     | Exc e => raise e
     | Ret count =>
         let blocked := w_limit window <? count in
         let! ttl := on_snd (rexec (cmd_ttl (window_key key window))) in
         let! t := gets (fun st => wall (snd st)) in
         let r := mkResult (negb blocked) (w_limit window) (Z.max 0 (w_limit window - count))
                    (Z.quot t sec + Z.max ttl 1) (if blocked then Z.max ttl 1 else 0) in
         ret (mkInfo (results info ++ [r]) (if blocked then true else is_blocked info))
     end)
    (fun _ => ret info).

Definition rl_status (key : string) (config : option RateLimitConfig) : Py state RateLimitInfo :=
  let cfg := default _DEFAULT_CONFIG config in
  let! redis := _get_redis in
  if negb redis then ret (mkInfo [] false)
  else mfold (status_window key) (windows cfg) (mkInfo [] false).

(** The FastAPI dependency (dependency.py): [caller] is the value of the
    identifier dependency; the result is what lands in [request.state]. *)
Definition create_rate_limit_dependency (limiter_prefix code : string) (lim window : Z)
    (a : Algorithm) (key_prefix : string) (fm : FailMode) (path caller : string)
    : Py state RateLimitInfo :=
  let config := mkRLConfig [mkWindow lim window] a fm key_prefix None in
  let key := rl_build_key limiter_prefix caller path key_prefix in
  let! info := rl_check key (Some config) in
  if is_blocked info then
    match filter (fun r => allowed r = false) (results info) ++ results info with
    | tightest :: _ =>
        let retry_after := Z.max 1 (retry_after tightest) in
        raise (ApiError (RateLimitError (JStr "Rate limit exceeded. Please try again later.")
          (JStr code) (Some retry_after)
          (Some [(HttpHeader.RATE_LIMIT_LIMIT, str_of_Z (limit tightest));
                 (HttpHeader.RATE_LIMIT_REMAINING, "0");
                 (HttpHeader.RATE_LIMIT_RESET, str_of_Z (reset_at tightest))])))
    | [] => raise (PyErr OtherException "list index out of range")
    end
  else ret info.
End Limiter.

(** ** The fixed-window counter as an abstract machine

    A window is its end and the number of requests seen in it.  [over t e] says
    whether the window that ends at [e] is over at time [t]: Redis drops a key
    at its expiry, the in-memory fallback one instant later. *)

Notation fw_window := (Z * Z)%type.
Definition fw_next (over : Z -> Z -> bool) (window t : Z) (st : option fw_window) : fw_window :=
  match st with
  | Some (e, c) => if over t e then (t + window * sec, 1) else (e, c + 1)
  | None => (t + window * sec, 1)
  end.
Fixpoint fw_run (over : Z -> Z -> bool) (window : Z) (ts : list Z) (st : option fw_window)
    : list fw_window :=
  match ts with
  | [] => []
  | t :: ts' => let x := fw_next over window t st in x :: fw_run over window ts' (Some x)
  end.
Definition fw_allowed (limit : Z) (x : fw_window) : bool := snd x <=? limit.

Definition redis_over (t e : Z) : bool := e <=? t.
Definition memory_over (t e : Z) : bool := e <? t.

(** Request times from the gaps between requests. *)
Fixpoint times (t : Z) (gaps : list Z) : list Z :=
  match gaps with
  | [] => []
  | d :: ds => (t + d) :: times (t + d) ds
  end.

Section FixedWindow.
Context {S : Type} `{RedisDoc S}.
Variables (key : string) (lim window : Z).
Hypothesis window_pos : 0 < window.

(** Requests for one key, from any number of clients, in the order Redis runs them. *)
Fixpoint script_run (gaps : list Z) (s : S) : list (outcome srv_error (Z * Z * Z)) :=
  match gaps with
  | [] => []
  | d :: ds =>
      let (o, s') := FIXED_WINDOW_LUA key lim window (srv_tick d s) in
      o :: script_run ds s'
  end.

Definition fw_reply (t : Z) (x : fw_window) : Z * Z * Z :=
  (snd x, if lim <? snd x then 1 else 0, ttl_seconds (fst x - t)).

Definition fw_rel (s : S) (st : option fw_window) : Prop :=
  srv_live s !! key =
  match st with
  | Some (e, c) => if srv_now s <? e then Some (mkEntry (RStr (str_of_Z c)) (Some e)) else None
  | None => None
  end.

Lemma fw_rel_tick d s st : 0 <= d -> fw_rel s st -> fw_rel (srv_tick d s) st.
Proof.
  intros Hd Hr. unfold fw_rel in *. rewrite tick_lookup, tick_now, Hr by done.
  destruct st as [[e c]|]; [| done]. destruct (srv_now s <? e) eqn:E1.
  - cbn. destruct (srv_now s + d <? e) eqn:E2; done.
  - by rewrite (proj2 (Z.ltb_ge _ _)) by lia.
Qed.

Lemma script_tail c e s :
  srv_live s !! key = Some (mkEntry (RStr (str_of_Z c)) (Some e)) ->
  gives (let! remaining_ttl := cmd_ttl key in
         ret (c, if lim <? c then 1 else 0, remaining_ttl)) s
    (Ret (fw_reply (srv_now s) (e, c))) (srv_live s).
Proof.
  intros Hk. eapply gives_bind; [apply ttl_doc |]. intros s' Hm Hn.
  unfold doc_ttl. rewrite Hk. cbn. rewrite <- Hm. apply gives_ret.
Qed.

Lemma incr_fresh s :
  srv_live s !! key = None ->
  gives (FIXED_WINDOW_LUA key lim window) s
    (Ret (fw_reply (srv_now s) (srv_now s + window * sec, 1)))
    (<[key := mkEntry (RStr (str_of_Z 1)) (Some (srv_now s + window * sec))]> (srv_live s)).
Proof.
  intros Hk. eapply gives_bind; [by apply incr_absent |]. intros s1 Hm1 Hn1. cbn [Z.eqb].
  eapply gives_bind.
  - eapply gives_bind; [apply expire_present; [by rewrite Hm1, lookup_insert_eq | done] |].
    intros s2 Hm2 Hn2. rewrite Hm1, insert_insert_eq, Hn1 in Hm2. by apply gives_ret_eq.
  - cbn beta. intros s3 Hm3 Hn3. cbn [e_val] in Hm3. rewrite <- Hm3, <- Hn1, <- Hn3.
    apply script_tail. by rewrite Hm3, lookup_insert_eq, Hn3, Hn1.
Qed.
Lemma incr_live s c e :
  srv_live s !! key = Some (mkEntry (RStr (str_of_Z c)) (Some e)) -> 1 <= c ->
  int64 (c + 1) = true ->
  gives (FIXED_WINDOW_LUA key lim window) s (Ret (fw_reply (srv_now s) (e, c + 1)))
    (<[key := mkEntry (RStr (str_of_Z (c + 1))) (Some e)]> (srv_live s)).
Proof.
  intros Hk Hc H64. eapply gives_bind; [by apply incr_present |]. intros s1 Hm1 Hn1. cbn beta.
  rewrite (proj2 (Z.eqb_neq _ _)) by lia. rewrite <- Hm1, <- Hn1.
  apply (script_tail (c + 1) e s1). by rewrite Hm1, lookup_insert_eq.
Qed.

Definition fw_wf (st : option fw_window) : Prop :=
  match st with Some (_, c) => 1 <= c | None => True end.
Definition fw_count (st : option fw_window) : Z :=
  match st with Some (_, c) => c | None => 0 end.

(** One request: the script answers what the abstract window says. *)
Lemma fixed_window_step s st :
  fw_rel s st -> fw_wf st -> fw_count st + 1 < 2 ^ 63 ->
  let x := fw_next redis_over window (srv_now s) st in
  exists s', FIXED_WINDOW_LUA key lim window s = (Ret (fw_reply (srv_now s) x), s') /\
    fw_rel s' (Some x) /\ fw_wf (Some x) /\ srv_now s' = srv_now s /\
    snd x <= fw_count st + 1.
Proof.
  intros Hr Hw Hc x. unfold fw_rel in Hr.
  assert (Hcase : srv_live s !! key = None /\ x = (srv_now s + window * sec, 1) \/
    exists e c, st = Some (e, c) /\ x = (e, c + 1) /\ srv_now s < e /\
      srv_live s !! key = Some (mkEntry (RStr (str_of_Z c)) (Some e))).
  { subst x. destruct st as [[e c]|]; cbn; [| by left]. unfold redis_over.
    destruct (srv_now s <? e) eqn:E.
    - rewrite (proj2 (Z.leb_gt _ _)) by lia. right. exists e, c. repeat split; [lia | done].
    - rewrite (proj2 (Z.leb_le _ _)) by lia. by left. }
  assert (Hsec : 0 < window * sec) by (unfold sec; lia).
  destruct Hcase as [[Hn ->] | (e & c & -> & -> & He & Hn)].
  - destruct (gives_run _ _ _ _ (incr_fresh s Hn)) as (s' & E & Hm & Hnow).
    exists s'. unfold fw_rel. rewrite E, Hm, Hnow, lookup_insert_eq, (proj2 (Z.ltb_lt _ _)) by lia.
    repeat split; cbn; destruct st as [[??]|]; cbn in *; lia.
  - cbn in Hw, Hc. destruct (gives_run _ _ _ _ (incr_live s c e Hn Hw ltac:(unfold int64; lia)))
      as (s' & E & Hm & Hnow).
    exists s'. unfold fw_rel. rewrite E, Hm, Hnow, lookup_insert_eq, (proj2 (Z.ltb_lt _ _)) by lia.
    repeat split; cbn; lia.
Qed.

Lemma fixed_window_run gaps : forall s st,
  fw_rel s st -> fw_wf st -> Forall (fun d => 0 <= d) gaps ->
  fw_count st + Z.of_nat (length gaps) < 2 ^ 63 ->
  script_run gaps s =
  zip_with (fun t x => Ret (fw_reply t x)) (times (srv_now s) gaps)
    (fw_run redis_over window (times (srv_now s) gaps) st).
Proof.
  induction gaps as [|d gaps IH]; intros s st Hr Hw Hd Hlen; [done |].
  apply Forall_cons in Hd as [Hd Hds]. cbn [length] in Hlen.
  destruct (fixed_window_step (srv_tick d s) st) as (s' & E & Hr' & Hw' & Hn' & Hc');
    [by apply fw_rel_tick | done | lia |].
  cbn [script_run times fw_run zip_with]. rewrite tick_now in * by done. rewrite E. f_equal.
  rewrite (IH s' _ Hr' Hw' Hds); [by rewrite Hn' | cbn [fw_count snd] in *; destruct (fw_next _ _ _ _); cbn in *; lia].
Qed.
End FixedWindow.

Section WindowBound.
Variables (over : Z -> Z -> bool) (lim window : Z).
Hypothesis window_pos : 0 < window.
Hypothesis over_past : forall t e, over t e = true -> e <= t.

(** Requests let through in the window that ends at [e]. *)
Definition admitted_in (e : Z) (xs : list fw_window) : list fw_window :=
  filter (fun x => fst x = e /\ fw_allowed lim x = true) xs.
Definition seen_in (e : Z) (st : option fw_window) : Z :=
  match st with Some (e', c) => if bool_decide (e' = e) then c else 0 | None => 0 end.

Lemma fw_next_cases t st :
  (exists e c, st = Some (e, c) /\ fw_next over window t st = (e, c + 1)) \/
  fw_next over window t st = (t + window * sec, 1) /\
  (forall e c, st = Some (e, c) -> e < t + window * sec).
Proof.
  unfold fw_next. destruct st as [[e c]|]; [| by right].
  destruct (over t e) eqn:E; [right | left; eauto].
  split; [done |]. intros ? ? [= <- <-]. apply over_past in E. unfold sec. lia.
Qed.
Lemma fw_run_ends ts : forall e c x, x ∈ fw_run over window ts (Some (e, c)) -> e <= fst x.
Proof.
  induction ts as [|t ts IH]; intros e c x; cbn [fw_run]; [set_solver |].
  destruct (fw_next_cases t (Some (e, c))) as [(e' & c' & [= <- <-] & ->) | [-> Hlt]];
    rewrite elem_of_cons; (intros [-> | Hx]; [cbn | apply IH in Hx]); try lia.
  - specialize (Hlt e c eq_refl). lia.
  - specialize (Hlt e c eq_refl). lia.
Qed.
(** Later windows end later, so at most [lim] requests pass in each. *)
Lemma fw_run_bound e ts : forall st, 0 <= seen_in e st ->
  Z.of_nat (length (admitted_in e (fw_run over window ts st))) <= Z.max 0 (lim - seen_in e st).
Proof.
  unfold admitted_in.
  induction ts as [|t ts IH]; intros st Hseen; cbn [fw_run]; [cbn; lia |].
  rewrite filter_cons. unfold fw_allowed in *.
  destruct (fw_next_cases t st) as [(e' & c' & -> & ->) | [-> Hlt]]; cbn [fst snd].
  - specialize (IH (Some (e', c' + 1))). cbn [seen_in] in *. unfold seen_in in *.
    case_bool_decide; case_decide as Hd; cbn [length] in *; lia.
  - specialize (IH (Some (t + window * sec, 1))). unfold seen_in in IH at 1 2.
    case_bool_decide as He.
    + assert (seen_in e st = 0) as ->.
      { destruct st as [[e' c']|]; cbn; [| done]. specialize (Hlt e' c' eq_refl).
        rewrite bool_decide_false by lia. done. }
      case_decide as Hd; cbn [length] in *; lia.
    + rewrite decide_False by tauto.
      destruct st as [[e' c']|]; cbn in *; [| lia].
      case_bool_decide; [subst e' | lia]. specialize (Hlt e c' eq_refl).
      rewrite filter_none; [cbn; lia |]. intros x Hx%fw_run_ends. lia.
Qed.
End WindowBound.

(** A request always falls inside the window it is counted in. *)
Lemma fw_run_inside window gaps : 0 < window -> forall t0 st,
  Forall (fun d => 0 <= d) gaps ->
  match st with Some (e, _) => e <= t0 + window * sec | None => True end ->
  Forall2 (fun t x => t < fst x <= t + window * sec)
    (times t0 gaps) (fw_run redis_over window (times t0 gaps) st).
Proof.
  intros Hw. assert (Hs : 0 < window * sec) by (unfold sec; lia).
  induction gaps as [|d gaps IH]; intros t0 st Hg Hst; cbn [times fw_run]; [constructor |].
  apply Forall_cons in Hg as [Hd Hg].
  assert (Hx : t0 + d < fst (fw_next redis_over window (t0 + d) st) <= t0 + d + window * sec).
  { unfold fw_next, redis_over. destruct st as [[e c]|]; [| cbn; lia].
    destruct (e <=? t0 + d) eqn:E; cbn; lia. }
  constructor; [exact Hx |]. apply IH; [done |].
  destruct (fw_next redis_over window (t0 + d) st). cbn in *. lia.
Qed.

(** C10. The fixed-window script on any Redis that keeps its documentation.  For
    requests on one key from any number of clients, with any gaps between them,
    the replies are those of the abstract window counter; in every window at
    most [limit] requests are answered "not over", and the TTL that becomes
    [Retry-After] is never negative nor longer than the window. *)
Theorem fixed_window_limiter {S} `{RedisDoc S} key lim window gaps (s : S) :
  0 < window -> srv_live s !! key = None -> Forall (fun d => 0 <= d) gaps ->
  Z.of_nat (length gaps) < 2 ^ 63 ->
  let ts := times (srv_now s) gaps in
  let xs := fw_run redis_over window ts None in
  script_run key lim window gaps s = zip_with (fun t x => Ret (fw_reply lim t x)) ts xs /\
  (forall e, Z.of_nat (length (admitted_in lim e xs)) <= Z.max 0 lim) /\
  Forall2 (fun t x => 0 <= ttl_seconds (fst x - t) <= window) ts xs.
Proof.
  intros Hw Hk Hg Hlen ts xs. split; [| split].
  - apply (fixed_window_run key lim window Hw gaps s None); [done | done | done | cbn; lia].
  - intros e. pose proof (fw_run_bound redis_over lim window Hw) as Hb.
    specialize (Hb ltac:(unfold redis_over; lia) e ts None). cbn in Hb. rewrite Z.sub_0_r in Hb.
    apply Hb. lia.
  - eapply Forall2_impl; [by apply fw_run_inside |]. cbn. intros t x Hx.
    apply ttl_bounds. lia.
Qed.


(** Four requests under a limit of 2 per 60 s: two pass, one is refused, and the
    last, a minute later, opens a new window. *)
Lemma fixed_window_limiter_witness :
  script_run "k" 2 60 [0; sec; sec; 60 * sec] mem0 =
  [Ret (1, 0, 60); Ret (2, 0, 59); Ret (3, 1, 58); Ret (1, 0, 60)].
Proof.
  destruct (fixed_window_limiter "k" 2 60 [0; sec; sec; 60 * sec] mem0) as (E & _ & _);
    [lia | reflexivity | repeat constructor; unfold sec; lia | cbn; lia |].
  etransitivity; [exact E | vm_compute; reflexivity].
Defined.

(** ** The in-memory fallback keeps the same contract *)

Section Memory.
Variables (lim win : string -> Z).
Hypothesis lim_pos : forall k, 1 <= lim k.
Hypothesis win_nonneg : forall k, 0 <= win k.

(** Requests for any keys, in the order the lock admits them. *)
Fixpoint memory_run (reqs : list (Z * string)) (f : MemoryFallback) : list (string * bool) :=
  match reqs with
  | [] => []
  | (t, k) :: reqs' =>
      let (r, f') := MemoryFallback_check t k (lim k) (win k) f in
      (k, allowed r) :: memory_run reqs' f'
  end.

(** At time [now] the bucket of [k] stands for the abstract window [st]. *)
Definition mem_rel (now : Z) (f : MemoryFallback) (k : string) (st : option fw_window) : Prop :=
  match st with
  | None => _buckets f !! k = None
  | Some (e, c) =>
      1 <= c /\
      (_buckets f !! k = Some (mkBucket (Z.min c (lim k)) e) \/
       _buckets f !! k = None /\ e < now)
  end.

Lemma mem_rel_later now now' f k st : now <= now' -> mem_rel now f k st -> mem_rel now' f k st.
Proof. destruct st as [[e c]|]; cbn; [| done]. intuition lia. Qed.
Lemma mem_rel_cleanup now f k st : mem_rel now f k st -> mem_rel now (_cleanup_expired now f) k st.
Proof.
  unfold _cleanup_expired. destruct st as [[e c]|]; cbn.
  - intros (Hc & [Hb | [Hb He]]); (split; [done |]).
    + destruct (decide (e < now)) as [He | He].
      * right. split; [| done]. apply map_lookup_filter_None. right.
        intros b Hb'. rewrite Hb in Hb'. simplify_eq/=. tauto.
      * left. apply map_lookup_filter_Some. by split.
    + right. split; [| done]. apply map_lookup_filter_None. by left.
  - intros Hb. apply map_lookup_filter_None. by left.
Qed.

(** One request for [k]: the decision is the abstract one, and the buckets of the
    other keys still stand for their windows. *)
Lemma memory_step now f k st :
  mem_rel now f k st ->
  let x := fw_next memory_over (win k) now st in
  let (r, f') := MemoryFallback_check now k (lim k) (win k) f in
  allowed r = fw_allowed (lim k) x /\ mem_rel now f' k (Some x) /\
  (forall k' st', k' <> k -> mem_rel now f k' st' -> mem_rel now f' k' st').
Proof.
  intros Hr x. unfold MemoryFallback_check.
  set (f1 := if _cleanup_threshold f <? _ then _ else _).
  assert (Hr1 : forall k' st', mem_rel now f k' st' -> mem_rel now f1 k' st').
  { intros k' st' H. subst f1. case_match; [by apply mem_rel_cleanup | done]. }
  assert (Hput : forall b k' st', k' <> k -> mem_rel now f k' st' ->
    mem_rel now (mkFallback (<[k := b]> (_buckets f1)) (_cleanup_threshold f1)) k' st').
  { intros b k' st' Hne H%Hr1. unfold mem_rel in *. cbn. rewrite lookup_insert_ne by done. done. }
  specialize (Hr1 k st Hr) as Hk. pose proof (lim_pos k).
  unfold fw_allowed, mem_rel in *. subst x. unfold fw_next, memory_over.
  destruct st as [[e c]|]; [destruct Hk as (Hc & [Hb | [Hb He]]) |]; rewrite ?Hb, ?Hk.
  - cbn [reset_time count]. destruct (e <? now) eqn:E; cbn [fst snd allowed _buckets].
    + rewrite lookup_insert_eq, Z.min_l by lia. repeat split; [lia | lia | by left | by apply Hput].
    + destruct (lim k <=? Z.min c (lim k)) eqn:E2; cbn [fst snd allowed _buckets].
      * repeat split; [lia | lia | | intros k' st' _; apply Hr1].
        left. rewrite Hb. do 2 f_equal. lia.
      * rewrite lookup_insert_eq. repeat split; [lia | lia | | by apply Hput].
        left. do 2 f_equal. lia.
  - rewrite (proj2 (Z.ltb_lt e now)) by lia. cbn [fst snd allowed _buckets].
    rewrite lookup_insert_eq, Z.min_l by lia. repeat split; [lia | lia | by left | by apply Hput].
  - cbn [fst snd allowed _buckets]. rewrite lookup_insert_eq, Z.min_l by lia.
    repeat split; [lia | lia | by left | by apply Hput].
Qed.

Lemma memory_run_decisions k reqs : forall now f st,
  mem_rel now f k st -> (forall k', exists st', mem_rel now f k' st') ->
  Sorted Z.le (now :: map fst reqs) ->
  map snd (filter (fun x => fst x = k) (memory_run reqs f)) =
  map (fw_allowed (lim k)) (fw_run memory_over (win k) (map fst (filter (fun x => snd x = k) reqs)) st).
Proof.
  induction reqs as [|[t k1] reqs IH]; intros now f st Hk Hall Hs; [done |].
  cbn [map fst] in Hs. apply Sorted_inv in Hs as [Hs Ht].
  assert (Hle : now <= t) by (by inversion Ht).
  cbn [memory_run]. apply (mem_rel_later now t) in Hk; [| done].
  assert (Hall' : forall k', exists st', mem_rel t f k' st').
  { intros k'. destruct (Hall k') as [st' H]. exists st'. by eapply mem_rel_later. }
  destruct (Hall' k1) as [st1 Hk1]. pose proof (memory_step t f k1 st1 Hk1) as Hstep.
  destruct (decide (k1 = k)) as [-> | Hne].
  - pose proof (memory_step t f k st Hk) as Hst.
    destruct (MemoryFallback_check t k (lim k) (win k) f) as [r f'].
    destruct Hst as (Ha & Hk' & Ho).
    rewrite !filter_cons_True by done. cbn [map fw_run fst snd]. f_equal; [done |].
    apply (IH t f' _ Hk'); [| done]. intros k'. destruct (decide (k' = k)) as [-> | Hn]; [eauto |].
    destruct (Hall' k') as [st' H]. eauto.
  - destruct (MemoryFallback_check t k1 (lim k1) (win k1) f) as [r f'].
    destruct Hstep as (Ha & Hk' & Ho).
    rewrite !filter_cons_False by done. apply (IH t f' st); [by apply Ho | | done].
    intros k'. destruct (decide (k' = k1)) as [-> | Hn]; [eauto |].
    destruct (Hall' k') as [st' H]. eauto.
Qed.
End Memory.

(** C20. The in-memory fallback implements the same window counter.  For requests
    on any keys at non-decreasing times, with limits of at least 1, the decisions
    for each key are those of the abstract counter of that key alone (neither the
    clean-up of expired buckets nor the traffic of other keys changes one), so at
    most [limit] requests of a key pass in each window. *)
Theorem memory_fallback_limiter lim win k reqs now :
  (forall k, 1 <= lim k) -> Sorted Z.le (now :: map fst reqs) -> 0 < win k ->
  let ts := map fst (filter (fun x => snd x = k) reqs) in
  let xs := fw_run memory_over (win k) ts None in
  map snd (filter (fun x => fst x = k) (memory_run lim win reqs MemoryFallback_init)) =
    map (fw_allowed (lim k)) xs /\
  forall e, Z.of_nat (length (admitted_in (lim k) e xs)) <= lim k.
Proof.
  intros Hl Hs Hw ts xs. split.
  - apply (memory_run_decisions lim win Hl k reqs now _ None); [done | | done].
    intros k'. by exists None.
  - intros e. pose proof (fw_run_bound memory_over (lim k) (win k) Hw
      ltac:(unfold memory_over; lia) e ts None) as Hb. cbn in Hb. specialize (Hl k).
    rewrite Z.sub_0_r, Z.max_r in Hb by lia. apply Hb. lia.
Qed.
Lemma memory_fallback_limiter_witness :
  map snd (filter (fun x => fst x = "a")
    (memory_run (fun _ => 2) (fun _ => 1)
       [(0, "a"); (5, "b"); (7, "a"); (9, "a"); (sec + 1, "a")] MemoryFallback_init)) =
  [true; true; false; true].
Proof.
  destruct (memory_fallback_limiter (fun _ => 2) (fun _ => 1) "a"
    [(0, "a"); (5, "b"); (7, "a"); (9, "a"); (sec + 1, "a")] 0) as [E _];
    [lia | repeat constructor; cbn; unfold sec; lia | lia |].
  etransitivity; [exact E | vm_compute; reflexivity].
Defined.

(** ** The sliding window against its log

    The reference keeps every request of the key; a request at [now] is number
    [1 + (requests in (now - window, now])]. *)

Section Sliding.
Context {S : Type} `{RedisDoc S}.
Variables (tostring : Z -> string) (key : string) (lim window : Z).
Hypothesis window_pos : 0 < window.

Definition sw_member (now random : Z) : string := tostring now +:+ ":" +:+ str_of_Z random.

(** Requests as (gap, random number of the script run). *)
Fixpoint sliding_run (reqs : list (Z * Z)) (s : S) : list (outcome srv_error (Z * Z)) :=
  match reqs with
  | [] => []
  | (d, rnd) :: reqs' =>
      let s1 := srv_tick d s in
      let (o, s') := SLIDING_WINDOW_LUA tostring rnd key (srv_now s1) window lim s1 in
      o :: sliding_run reqs' s'
  end.
Definition recent (now : Z) (x : string * Z) : Prop := now - window * sec < snd x.
#[global] Instance recent_dec now x : Decision (recent now x).
Proof. unfold recent. apply _. Defined.
Definition sw_count (now : Z) (log : list (string * Z)) : Z :=
  Z.of_nat (length (filter (recent now) log)) + 1.
Fixpoint log_run (t : Z) (reqs : list (Z * Z)) (log : list (string * Z)) : list (Z * Z) :=
  match reqs with
  | [] => []
  | (d, rnd) :: reqs' =>
      let now := t + d in
      let n := sw_count now log in
      (n, if lim <? n then 1 else 0) :: log_run now reqs' ((sw_member now rnd, now) :: log)
  end.
Fixpoint sw_members (t : Z) (reqs : list (Z * Z)) : list string :=
  match reqs with
  | [] => []
  | (d, rnd) :: reqs' => sw_member (t + d) rnd :: sw_members (t + d) reqs'
  end.

(** The sorted set and the log agree on the recent requests. *)
Record sw_rel (s : S) (log : list (string * Z)) (z : gmap string Z) : Prop := {
  sw_entry : srv_live s !! key = None /\ z = ∅ \/
    exists x, srv_live s !! key = Some (mkEntry (RZset z) (Some x)) /\
      forall m t, (m, t) ∈ log -> t + window * sec <= x;
  sw_agree m t : recent (srv_now s) (m, t) -> z !! m = Some t <-> (m, t) ∈ log;
  sw_scores m t : z !! m = Some t -> 0 <= t;
}.

Lemma sw_rel_tick d s log z :
  0 <= d -> sw_rel s log z -> exists z', sw_rel (srv_tick d s) log z'.
Proof.
  intros Hd [He Ha Hs]. unfold recent in *. cbn [snd] in *.
  assert (Hkeep : forall z', (srv_live (srv_tick d s) !! key = None /\ z' = ∅ \/
    exists x, srv_live (srv_tick d s) !! key = Some (mkEntry (RZset z') (Some x)) /\
      forall m t, (m, t) ∈ log -> t + window * sec <= x) -> z' = z -> sw_rel (srv_tick d s) log z').
  { intros z' He' ->. split; [done | | done]. intros m t. unfold recent. cbn.
    rewrite tick_now by done. intros Ht. apply Ha. lia. }
  rewrite tick_lookup in Hkeep by done.
  destruct He as [[Hn ->] | (x & Hx & Hlog)]; [exists ∅; apply Hkeep; rewrite ?Hn; auto |].
  rewrite Hx in Hkeep. unfold unexpired in Hkeep. cbn [e_exp] in Hkeep.
  destruct (srv_now s + d <? x) eqn:E; [exists z; apply Hkeep; eauto |].
  exists ∅. split; [left; rewrite tick_lookup, Hx by done; cbn; by rewrite E | | set_solver].
  intros m t. unfold recent. cbn. rewrite tick_now by done. intros Ht.
  split; [set_solver |]. intros Hm. specialize (Hlog m t Hm). lia.
Qed.

(** The set after trimming holds exactly the recent part of the log. *)
Lemma sw_trim s log z :
  sw_rel s log z -> NoDup (log.*1) -> 0 <= srv_now s ->
  filter (fun x => ~ in_scores 0 (srv_now s - window * sec) x) z =
  list_to_map (filter (recent (srv_now s)) log).
Proof.
  intros [_ Ha Hs] Hnd Hnow.
  assert (Hnd' : NoDup ((filter (recent (srv_now s)) log).*1)).
  { eapply sublist_NoDup; [exact Hnd |]. apply fmap_sublist, sublist_filter. }
  apply map_eq. intros m. apply option_eq. intros t.
  rewrite map_lookup_filter_Some, <- elem_of_list_to_map by done.
  rewrite list_elem_of_filter. unfold in_scores, recent. cbn [snd].
  split.
  - intros [Hm Hr]. pose proof (Hs m t Hm). assert (srv_now s - window * sec < t) by lia.
    split; [lia |]. apply Ha; [unfold recent; cbn; lia | done].
  - intros [Ht Hm]. split; [apply Ha; [unfold recent; cbn; lia | done] | lia].
Qed.

Lemma sw_zset s log z : sw_rel s log z -> exists exp, zset_of (srv_live s) key = Some (z, exp).
Proof.
  intros [[[Hn ->] | (x & Hx & _)] _ _]; unfold zset_of; [rewrite Hn | rewrite Hx]; cbn; eauto.
Qed.

(** The script on a key that holds [z]: reply and final entry. *)
Lemma sliding_gives s z exp rnd :
  zset_of (srv_live s) key = Some (z, exp) ->
  let now := srv_now s in
  let z' := <[sw_member now rnd := now]>
              (filter (fun x => ~ in_scores 0 (now - window * sec) x) z) in
  let n := Z.of_nat (size z') in
  exists m, gives (SLIDING_WINDOW_LUA tostring rnd key now window lim) s
    (Ret (n, if lim <? n then 1 else 0)) m /\
    m !! key = Some (mkEntry (RZset z') (Some (now + window * sec))).
Proof.
  intros Hz now z' n. pose proof (zremrangebyscore_doc key 0 (now - window * sec) s) as Hr.
  unfold doc_zremrangebyscore in Hr. rewrite Hz in Hr. cbn in Hr.
  destruct (gives_run _ _ _ _ Hr) as (s1 & E1 & Hm1 & Hn1).
  destruct (zset_of_put (srv_live s) key
    (filter (fun x => ~ in_scores 0 (now - window * sec) x) z) exp) as [exp1 Hz1].
  rewrite <- Hm1 in Hz1.
  destruct (zadd_one key (sw_member now rnd) now s1 _ _ Hz1) as (r & m2 & Hadd & Hm2).
  destruct (gives_run _ _ _ _ Hadd) as (s2 & E2 & Hs2 & Hn2). rewrite <- Hs2 in Hm2.
  destruct (gives_run _ _ _ _ (zcard_doc key s2)) as (s3 & E3 & Hs3 & Hn3).
  unfold doc_zcard, zset_of in E3. rewrite Hm2 in E3. cbn [e_val] in E3.
  rewrite <- Hs3 in Hm2.
  destruct (gives_run _ _ _ _ (expire_present key s3 _ window Hm2 window_pos))
    as (s4 & E4 & Hs4 & Hn4).
  exists (srv_live s4). split; [| rewrite Hs4, lookup_insert_eq; cbn; do 3 f_equal; subst now; lia].
  unfold gives, SLIDING_WINDOW_LUA. fold (sw_member now rnd).
  rewrite !(bind_Ret _ _ _ _ _ E1), !(bind_Ret _ _ _ _ _ E2), !(bind_Ret _ _ _ _ _ E3),
    !(bind_Ret _ _ _ _ _ E4). cbn. repeat split. congruence.
Qed.

Lemma sliding_step s log z rnd :
  sw_rel s log z -> NoDup (log.*1) -> sw_member (srv_now s) rnd ∉ log.*1 ->
  0 <= srv_now s -> (forall m t, (m, t) ∈ log -> t <= srv_now s) ->
  let n := sw_count (srv_now s) log in
  exists s' z', SLIDING_WINDOW_LUA tostring rnd key (srv_now s) window lim s =
      (Ret (n, if lim <? n then 1 else 0), s') /\
    sw_rel s' ((sw_member (srv_now s) rnd, srv_now s) :: log) z' /\ srv_now s' = srv_now s.
Proof.
  intros Hr Hnd Hfresh Hnow Hpast n. destruct (sw_zset s log z Hr) as [exp Hz].
  destruct (sliding_gives s z exp rnd Hz) as (m & Hg & Hm).
  rewrite (sw_trim s log z Hr Hnd Hnow) in Hg, Hm.
  assert (Hnd' : NoDup ((filter (recent (srv_now s)) log).*1)).
  { eapply sublist_NoDup; [exact Hnd |]. apply fmap_sublist, sublist_filter. }
  assert (Hmem : sw_member (srv_now s) rnd ∉ (filter (recent (srv_now s)) log).*1).
  { rewrite !list_elem_of_fmap in *. intros (y & Hy & [_ Hin]%list_elem_of_filter). eauto. }
  assert (Hsz : Z.of_nat (size (<[sw_member (srv_now s) rnd := srv_now s]>
      (list_to_map (M := gmap string Z) (filter (recent (srv_now s)) log)))) = n).
  { rewrite map_size_insert_None by (by apply not_elem_of_list_to_map).
    rewrite map_size_list_to_map by done. subst n. unfold sw_count. lia. }
  rewrite Hsz in Hg. destruct (gives_run _ _ _ _ Hg) as (s' & E & Hs' & Hn').
  exists s'. eexists. split; [exact E |]. split; [| done]. rewrite <- Hs' in Hm.
  split.
  - right. eexists. split; [exact Hm |]. intros m' t'. rewrite elem_of_cons.
    intros [[= -> ->] | Hin]; [lia |]. specialize (Hpast _ _ Hin). lia.
  - intros m' t'. rewrite Hn', elem_of_cons. intros Hrec.
    destruct (decide (m' = sw_member (srv_now s) rnd)) as [-> | Hne].
    + rewrite lookup_insert_eq. split; [intros [= <-]; by left |].
      intros [[= ->] | Hin]; [done |]. destruct Hfresh. rewrite list_elem_of_fmap.
      by exists (sw_member (srv_now s) rnd, t').
    + rewrite lookup_insert_ne, <- elem_of_list_to_map, list_elem_of_filter by done.
      split; [tauto |]. by intros [[= ? ?] | Hin].
  - intros m' t'. rewrite lookup_insert_Some, <- elem_of_list_to_map, list_elem_of_filter by done.
    intros [[_ <-] | (_ & Hrec & Hin)]; [done |].
    apply (sw_scores _ _ _ Hr m'). by apply (sw_agree _ _ _ Hr).
Qed.

Lemma sliding_run_log reqs : forall s log z,
  sw_rel s log z -> NoDup (log.*1) -> 0 <= srv_now s ->
  (forall m t, (m, t) ∈ log -> t <= srv_now s) -> Forall (fun r => 0 <= fst r) reqs ->
  NoDup (sw_members (srv_now s) reqs) ->
  (forall m, m ∈ sw_members (srv_now s) reqs -> m ∉ log.*1) ->
  sliding_run reqs s = map Ret (log_run (srv_now s) reqs log).
Proof.
  induction reqs as [|[d rnd] reqs IH]; intros s log z Hr Hnd Hnow Hpast Hd Hmem Hdis; [done |].
  apply Forall_cons in Hd as [Hd Hds]. cbn [fst] in Hd.
  cbn [sw_members] in Hmem, Hdis. apply NoDup_cons in Hmem as [Hm1 Hmem].
  destruct (sw_rel_tick d s log z Hd Hr) as [z1 Hr1].
  destruct (sliding_step (srv_tick d s) log z1 rnd Hr1 Hnd) as (s' & z' & E & Hr' & Hn');
    rewrite ?tick_now in * by done; [apply Hdis; left | lia | intros m t Hin; specialize (Hpast m t Hin); lia |].
  cbn [sliding_run log_run map]. rewrite tick_now by done. rewrite E. f_equal.
  rewrite <- Hn'. apply (IH s' _ z'); rewrite ?Hn'; [done | | lia | | done | done |].
  - cbn. apply NoDup_cons. split; [apply Hdis; left | done].
  - intros m t. rewrite elem_of_cons. intros [[= -> ->] | Hin]; [lia |].
    specialize (Hpast m t Hin). lia.
  - intros m Hm. cbn. rewrite elem_of_cons. intros [-> | Hin]; [done |].
    by apply (Hdis m); [right |].
Qed.
End Sliding.

(** C19. The sliding-window script refines the request log.  On any Redis that
    keeps its documentation, for requests of one key with any gaps between them
    whose sorted-set members are distinct, the count the script returns is the
    number of requests, refused ones included, in the window that ends now, and
    a request is refused exactly when that number exceeds the limit. *)
Theorem sliding_window_refines_log {S} `{RedisDoc S} tostring key lim window reqs (s : S) :
  0 < window -> srv_live s !! key = None -> 0 <= srv_now s ->
  Forall (fun r => 0 <= fst r) reqs -> NoDup (sw_members tostring (srv_now s) reqs) ->
  sliding_run tostring key lim window reqs s =
    map Ret (log_run tostring lim window (srv_now s) reqs []).
Proof.
  intros Hw Hk Hn Hd Hm.
  apply (sliding_run_log tostring key lim window Hw reqs s [] ∅);
    [| constructor | done | set_solver | done | done | set_solver].
  split; [by left | | set_solver]. intros m t _. set_solver.
Qed.
Lemma sliding_window_refines_log_witness :
  sliding_run str_of_Z "k" 2 10 [(1, 7); (sec, 7); (8 * sec, 7); (2 * sec, 7)] mem0 =
  [Ret (1, 0); Ret (2, 0); Ret (3, 1); Ret (2, 0)].
Proof.
  etransitivity; [apply (sliding_window_refines_log str_of_Z "k" 2 10
    [(1, 7); (sec, 7); (8 * sec, 7); (2 * sec, 7)] mem0) | vm_compute; reflexivity];
    [lia | reflexivity | reflexivity | repeat constructor; unfold sec; cbn; lia |].
  apply (bool_decide_unpack _). vm_compute. exact I.
Defined.

(** Two requests whose member strings coincide (the same rendered timestamp and
    the same random number) are one member: both pass under a limit of 1. *)
Lemma sliding_window_same_member :
  sliding_run (fun t => str_of_Z (t / 100)) "k" 1 10 [(1000, 7); (3, 7)] mem0 =
  [Ret (1, 0); Ret (1, 0)].
Proof. vm_compute. reflexivity. Qed.

(** ** The limiter over a connection that may fail *)

Section Check.
Context {W S : Type} `{RedisServer S} `{RedisConn W S}.
Variables (tostring : Z -> string) (random : W -> Z) (source : redis_source W).

(** redis-py raises exceptions of its own, and the caller is not cancelled. *)
Definition redis_raises_Exception : Prop :=
  forall A (c : Srv S A), raises_only (fun e => is_Exception e = true) (rexec (W := W) c).
Definition source_never_raises : Prop :=
  match source with RedisProvider p => never_raises p | _ => True end.
(** Every command fails. *)
Definition redis_down : Prop :=
  forall A (c : Srv S A) w, exists e w', rexec (W := W) c w = (Exc e, w') /\ is_Exception e = true.
Definition any_blocked (rs : list RateLimitResult) : bool := existsb (fun r => negb (allowed r)) rs.

Lemma algorithm_raises a k l win :
  redis_raises_Exception -> raises_only (fun e => is_Exception e = true)
    (algorithm_check tostring random a k l win).
Proof.
  intros Hr. destruct a; cbn; unfold FixedWindow_check, SlidingWindow_check.
  - apply raises_only_bind; [apply Hr |]. intros [[n o] t]. auto with py.
  - apply raises_only_bind; [auto with py | intros now].
    apply raises_only_bind; [auto with py | intros rnd].
    apply raises_only_bind; [apply Hr | intros [n o]]. auto with py.
Qed.

Lemma fallback_returns k window fm st : exists r st', fallback_check k window fm st = (Ret r, st').
Proof.
  unfold fallback_check. case_decide; [by eexists _, _ |].
  destruct (fst st); [| by eexists _, _]. destruct (MemoryFallback_check _ _ _ _ _). by eexists _, _.
Qed.

Lemma check_window_returns redis a k window fm st :
  redis_raises_Exception ->
  exists r st', _check_window tostring random redis a k window fm st = (Ret r, st').
Proof.
  intros Hr. unfold _check_window. destruct redis; cbn [bind ret].
  - unfold bind at 1, catch_Exception, catch.
    match goal with |- context [bind ?c ?f st] => destruct (bind c f st) as [[r|e] st1] eqn:E end.
    + destruct r; [by eexists _, _ | apply fallback_returns].
    + assert (is_Exception e = true) as ->.
      { revert E. apply (raises_only_bind (fun e => is_Exception e = true)); [| auto with py].
        intros [v w] e' w' E'. unfold on_snd in E'. cbn in E'.
        destruct (algorithm_check _ _ _ _ _ _ w) as [o w1] eqn:Ea. simplify_eq.
        by eapply algorithm_raises. }
      apply fallback_returns.
  - apply fallback_returns.
Qed.

(** Without an answer from Redis the decision is the fallback's. *)
Lemma check_window_outage redis a k window fm st :
  redis = false \/ redis_down ->
  exists w, _check_window tostring random redis a k window fm st =
            fallback_check k window fm (fst st, w).
Proof.
  intros Ho. unfold _check_window. destruct redis.
  - destruct Ho as [Ho | Ho]; [done |]. unfold bind, catch_Exception, catch, on_snd.
    assert (Ha : exists e w', algorithm_check tostring random a (window_key k window)
      (w_limit window) (window_seconds window) (snd st) = (Exc e, w') /\ is_Exception e = true).
    { destruct a; cbn; unfold FixedWindow_check, SlidingWindow_check, bind, gets;
        match goal with |- context [rexec ?c ?w] => destruct (Ho _ c w) as (e & w' & -> & He) end;
        eauto. }
    destruct Ha as (e & w' & -> & He). rewrite He. by exists w'.
  - exists (snd st). by destruct st.
Qed.

Section Fold.
Variables (redis : bool) (a : Algorithm) (k : string) (fm : FailMode).
Variables (I : option MemoryFallback * W -> Prop) (P : RateLimitResult -> Prop).
Hypothesis window_ok : forall w st, I st -> exists r st',
  _check_window tostring random redis a k w fm st = (Ret r, st') /\ P r /\ I st'.

Lemma check_fold_returns ws : forall rs st, I st ->
  exists rs' st', mfold (fun info window =>
      let! r := _check_window tostring random redis a k window fm in
      ret (mkInfo (results info ++ [r]) (if allowed r then is_blocked info else true)))
    ws (mkInfo rs (any_blocked rs)) st = (Ret (mkInfo (rs ++ rs') (any_blocked (rs ++ rs'))), st')
    /\ length rs' = length ws /\ Forall P rs'.
Proof.
  induction ws as [|w ws IH]; intros rs st Hi; cbn [mfold].
  - exists [], st. by rewrite app_nil_r.
  - destruct (window_ok w st Hi) as (r & st1 & E & Hp & Hi1).
    rewrite bind_assoc, (bind_Ret _ _ _ _ _ E). unfold bind, ret at 1. cbn [results is_blocked].
    destruct (IH (rs ++ [r]) st1 Hi1) as (rs' & st' & E' & Hl & HP).
    exists (r :: rs'), st'. rewrite <- app_assoc in E'. cbn [app] in E'.
    split; [| split; [cbn; lia | by constructor]].
    rewrite <- E'. do 2 f_equal. unfold any_blocked. rewrite existsb_app. cbn.
    destruct (allowed r), (existsb _ rs); done.
Qed.
End Fold.

Lemma get_redis_returns st : source_never_raises ->
  exists b st', _get_redis source st = (Ret b, st') /\ fst st' = fst st /\
    (source = NoRedis -> b = false).
Proof.
  unfold source_never_raises, _get_redis. destruct source as [| | |p]; intros Hp;
    try (by eexists _, _).
  unfold on_snd. destruct (never_raises_returns p (snd st) Hp) as (b & w' & ->). by eexists _, _.
Qed.

(** A run of [rl_check] whose windows all satisfy [P], started in [I]. *)
Lemma check_returns key config (I : bool -> option MemoryFallback * W -> Prop) P st :
  let cfg := default _DEFAULT_CONFIG config in
  source_never_raises ->
  (forall b w, (source = NoRedis -> b = false) -> I b (fst st, w)) ->
  (forall b win st, I b st -> exists r st',
     _check_window tostring random b (algorithm cfg) key win (fail_mode cfg) st = (Ret r, st') /\
     P r /\ I b st') ->
  exists rs st', rl_check tostring random source key config st =
      (Ret (mkInfo rs (any_blocked rs)), st') /\
    length rs = length (windows cfg) /\ Forall P rs.
Proof.
  intros cfg Hs Hi Hw. destruct (get_redis_returns st Hs) as (b & [f w] & E & Hf & Hb).
  unfold rl_check. rewrite (bind_Ret _ _ _ _ _ E). cbn in Hf. subst f.
  apply (check_fold_returns b (algorithm cfg) key (fail_mode cfg) (I b) P (Hw b) (windows cfg) []).
  by apply Hi.
Qed.
End Check.

(** C16. [RateLimiter.check] under any behaviour of Redis, for a source (a provider, say) that itself
    never raises: it returns (no Redis error reaches the caller), with one result per window, blocked
    exactly when some window refused.  When there is no Redis, or its commands all fail, [CLOSED]
    refuses every window and [OPEN] without the memory fallback admits every window. *)
Theorem rl_check_contract {W S} `{RedisServer S} `{RedisConn W S} tostring random
    (source : redis_source W) key config st :
  let cfg := default _DEFAULT_CONFIG config in
  redis_raises_Exception (W := W) (S := S) -> source_never_raises source ->
  exists rs st', rl_check tostring random source key config st =
      (Ret (mkInfo rs (any_blocked rs)), st') /\
    length rs = length (windows cfg) /\
    (source = NoRedis \/ redis_down (W := W) (S := S) ->
       (fail_mode cfg = CLOSED -> Forall (fun r => allowed r = false) rs) /\
       (fail_mode cfg = OPEN -> fst st = None -> Forall (fun r => allowed r = true) rs)).
Proof.
  intros cfg Hr Hs.
  destruct (decide (fail_mode cfg = CLOSED)) as [Hc | Hc];
    [| destruct (decide (fst st = None)) as [Hn | Hn]].
  - destruct (check_returns tostring random source key config
      (fun b _ => source = NoRedis -> b = false)
      (fun r => source = NoRedis \/ redis_down (W := W) (S := S) -> allowed r = false) st Hs)
      as (rs & st' & E & Hl & HF); [naive_solver | |].
    + fold cfg. intros b win st1 Hb. destruct (check_window_returns tostring random b (algorithm cfg) key win
        (fail_mode cfg) st1 Hr) as (r & st2 & E). exists r, st2. repeat split; [done | | done].
      intros Ho. destruct (check_window_outage tostring random b (algorithm cfg) key win
        (fail_mode cfg) st1) as [w Ew]; [naive_solver |].
      rewrite Ew in E. unfold fallback_check in E. rewrite decide_True in E by done.
      unfold ret in E. by simplify_eq/=.
    + exists rs, st'. repeat split; [done | done | | intros; congruence].
      intros _. eapply Forall_impl; [exact HF | auto].
  - destruct (check_returns tostring random source key config
      (fun b st => (source = NoRedis -> b = false) /\
         (source = NoRedis \/ redis_down (W := W) (S := S) -> fst st = None))
      (fun r => source = NoRedis \/ redis_down (W := W) (S := S) -> allowed r = true) st Hs)
      as (rs & st' & E & Hl & HF); [naive_solver | |].
    + fold cfg. intros b win st1 [Hb Hf]. destruct (check_window_returns tostring random b (algorithm cfg) key
        win (fail_mode cfg) st1 Hr) as (r & st2 & E). exists r, st2.
      assert (Hout : source = NoRedis \/ redis_down (W := W) (S := S) ->
        allowed r = true /\ fst st2 = None).
      { intros Ho. destruct (check_window_outage tostring random b (algorithm cfg) key win
          (fail_mode cfg) st1) as [w Ew]; [naive_solver |].
        rewrite Ew in E. unfold fallback_check in E. rewrite decide_False in E by done.
        cbn [fst] in E. rewrite (Hf Ho) in E. by simplify_eq/=. }
      naive_solver.
    + exists rs, st'. repeat split; [done | done | intros; congruence |].
      intros _ _. eapply Forall_impl; [exact HF | auto].
  - destruct (check_returns tostring random source key config (fun _ _ => True) (fun _ => True) st Hs)
      as (rs & st' & E & Hl & _); [done | |].
    + fold cfg. intros b win st1 _. destruct (check_window_returns tostring random b (algorithm cfg) key win
        (fail_mode cfg) st1 Hr) as (r & st2 & E). eauto.
    + exists rs, st'. done.
Qed.

Lemma conn_raises_Exception : redis_raises_Exception (W := conn mem) (S := mem).
Proof.
  intros A c [s t ls] e w'. cbn. unfold lift_reply, link_down.
  destruct ls as [|[| | |] ls]; destruct (c s) as [[a|e1] s1];
    try destruct (c s1) as [[b|e2] s2]; intros E; inversion E; reflexivity.
Qed.
Definition closed_config : RateLimitConfig :=
  mkRLConfig [mkWindow 5 60; mkWindow 100 3600] FIXED_WINDOW CLOSED "rl" None.
Lemma rl_check_contract_witness :
  exists rs st', rl_check str_of_Z (fun _ => 7) (@NoRedis (conn mem)) "k" (Some closed_config)
      (None, mkConn mem0 0 []) = (Ret (mkInfo rs true), st') /\ length rs = 2%nat.
Proof.
  destruct (rl_check_contract str_of_Z (fun _ => 7) (@NoRedis (conn mem)) "k" (Some closed_config)
    (None, mkConn mem0 0 [])) as (rs & st' & E & Hl & Ho);
    [apply conn_raises_Exception | exact I |].
  destruct (Ho (or_introl eq_refl)) as [Hc _]. specialize (Hc eq_refl).
  exists rs, st'. rewrite E. split; [| exact Hl]. do 2 f_equal.
  destruct rs as [|r rs]; [discriminate Hl |]. apply Forall_cons in Hc as [Hr _].
  cbn. rewrite Hr. reflexivity.
Defined.

(** The FastAPI dependency either admits the request and returns the limiter's
    unblocked verdict, or raises the 429 API error with a [Retry-After] of at
    least one second; nothing else reaches the route. *)
Theorem dependency_limits {W S} `{RedisServer S} `{RedisConn W S} tostring random
    (source : redis_source W) prefix code lim window a key_prefix fm path caller st :
  redis_raises_Exception (W := W) (S := S) -> source_never_raises source ->
  let r := fst (create_rate_limit_dependency tostring random source prefix code lim window a
                  key_prefix fm path caller st) in
  (exists info, r = Ret info /\ is_blocked info = false) \/
  (exists e hs n, r = Exc (ApiError e) /\ status_code e = 429 /\ headers e = Some hs /\
     dget HttpHeader.RETRY_AFTER hs = Some (str_of_Z n) /\ 1 <= n).
Proof.
  intros Hr Hs. cbv zeta. unfold create_rate_limit_dependency.
  set (cfg := mkRLConfig _ _ _ _ _). set (key := rl_build_key _ _ _ _).
  destruct (check_returns tostring random source key (Some cfg) (fun _ _ => True) (fun _ => True) st Hs)
    as (rs & st' & E & Hl & _); [done | |].
  { intros b win st1 _. destruct (check_window_returns tostring random b (algorithm cfg) key win
      (fail_mode cfg) st1 Hr) as (r & st2 & E). eauto. }
  rewrite (bind_Ret _ _ _ _ _ E). cbn [is_blocked results].
  destruct (any_blocked rs) eqn:Eb; [| left; by eexists].
  right. destruct rs as [|r0 rs]; [discriminate Eb |].
  destruct (filter _ _ ++ _) as [|t ts] eqn:Ef; [by destruct (filter _ _) |].
  eexists _, _, (Z.max 1 (retry_after t)). split; [done |]. split; [done |]. split; [done |].
  split; [by rewrite dget_dset_eq | lia].
Qed.
Lemma dependency_limits_witness :
  (exists info, fst (create_rate_limit_dependency str_of_Z (fun _ => 7) (@RedisClient (conn mem)) "svc"
     "RL_001" 1 60 FIXED_WINDOW "api" OPEN "/x" "u" (None, mkConn mem0 0 [])) = Ret info
     /\ is_blocked info = false) \/
  (exists e hs n, fst (create_rate_limit_dependency str_of_Z (fun _ => 7) (@RedisClient (conn mem)) "svc"
     "RL_001" 1 60 FIXED_WINDOW "api" OPEN "/x" "u" (None, mkConn mem0 0 [])) = Exc (ApiError e)
     /\ status_code e = 429 /\ headers e = Some hs /\
     dget HttpHeader.RETRY_AFTER hs = Some (str_of_Z n) /\ 1 <= n).
Proof.
  apply (dependency_limits str_of_Z (fun _ => 7) (@RedisClient (conn mem)) "svc" "RL_001" 1 60
    FIXED_WINDOW "api" OPEN "/x" "u" (None, mkConn mem0 0 [])).
  - apply conn_raises_Exception.
  - exact I.
Defined.

(** ** Keys *)

Lemma re_sub_nonempty len c s : re_sub len 0 (String c s) <> "".
Proof. cbn. repeat case_match; discriminate. Qed.
Lemma normalize_nonempty path : path <> "" -> normalize_path path <> "".
Proof.
  intros Hp. unfold normalize_path. destruct path as [|c s]; [done |].
  destruct (re_sub _UUID_RE 0 (String c s)) eqn:E; [by apply re_sub_nonempty in E |].
  apply re_sub_nonempty.
Qed.
Definition endpoint_class (endpoint : string) : string :=
  if bool_decide (endpoint = "*") then "*" else normalize_path endpoint.

(** Rate-limit keys do not collide: for non-empty scopes and identifiers without
    a colon, two requests share a counter only when scope, identifier and
    normalised endpoint all agree. *)
Theorem build_key_inj prefix i1 e1 s1 i2 e2 s2 :
  Forall (fun s => s <> "" /\ free_of ":" s = true) [s1; i1; s2; i2] -> e1 <> "" -> e2 <> "" ->
  rl_build_key prefix i1 e1 s1 = rl_build_key prefix i2 e2 s2 ->
  s1 = s2 /\ i1 = i2 /\ endpoint_class e1 = endpoint_class e2.
Proof.
  intros HF He1 He2. rewrite !Forall_cons in HF.
  destruct HF as ([Hs1 Fs1] & [Hi1 Fi1] & [Hs2 Fs2] & [Hi2 Fi2] & _).
  assert (Hn : forall e, e <> "" -> endpoint_class e <> "").
  { intros e He. unfold endpoint_class. case_bool_decide; [done | by apply normalize_nonempty]. }
  unfold rl_build_key. fold (endpoint_class e1) (endpoint_class e2).
  assert (Hf : forall s i e, s <> "" -> i <> "" -> e <> "" ->
    filter (fun p => p <> "") [prefix; "rl"; s; i; endpoint_class e] =
    filter (fun p => p <> "") [prefix; "rl"] ++ [s; i; endpoint_class e]).
  { intros s i e H1 H2 H3. specialize (Hn e H3). rewrite !filter_cons.
    repeat case_decide; done. }
  rewrite !Hf by done.
  assert (Hj : forall l s i e, join ":" (l ++ [s; i; e]) =
    join ":" (l ++ [""]) +:+ s +:+ ":" +:+ i +:+ ":" +:+ e).
  { induction l as [|x l IH]; intros s i e; [done |].
    destruct l as [|y l]; cbn [app join] in *; rewrite ?append_assoc; [done |].
    by rewrite IH. }
  rewrite !Hj. intros H%append_inj_l.
  apply (free_of_split ":" s1 s2) in H as [-> H]; [| done | done].
  by apply (free_of_split ":" i1 i2) in H as [-> H].
Qed.
Lemma build_key_inj_witness :
  rl_build_key "svc" "u1" "/leads/12" "api" = rl_build_key "svc" "u1" "/leads/99" "api" /\
  endpoint_class "/leads/12" = endpoint_class "/leads/99".
Proof.
  assert (E : rl_build_key "svc" "u1" "/leads/12" "api" = rl_build_key "svc" "u1" "/leads/99" "api")
    by reflexivity.
  split; [exact E |].
  apply (build_key_inj "svc" "u1" "/leads/12" "api" "u1" "/leads/99" "api");
    [repeat constructor; done | done | done | exact E].
Defined.
