(* ===== verification/Streams.v ===== *)
(** * Redis Streams as the event code sees them

    The stream commands of the server are parameters ([StreamServer]); the laws
    [StreamDoc] state what the code relies on, in terms of the entries of a
    stream and of the pending entries list (PEL) of a consumer group: only
    XREADGROUP puts an entry into the PEL, only XACK of its id takes it out, and
    XAUTOCLAIM only changes owners, dropping entries that were trimmed away.
    Streams and plain keys are kept apart: no key is used as both. *)

From S2P Require Import Prelude Json Errors Redis.
From stdpp Require Import infinite.
Local Open Scope Z_scope.

Notation fields := (list (string * string)).

Record consumer_info := mkConsumerInfo { ci_name : string; ci_pending : Z; ci_idle : Z }.
Record group_info := mkGroupInfo {
  gi_name : string; gi_consumers : Z; gi_pending : Z; gi_lag : option Z }.

Class StreamServer (S : Type) `{RedisServer S} := {
  srv_entries : S -> string -> list (string * fields);
  srv_pel : S -> string -> string -> gmap string string;     (* stream, group: id -> owner *)
  cmd_xadd : string -> fields -> option Z -> Srv S string;
  cmd_xgroup_create : string -> string -> Srv S unit;
  cmd_xreadgroup : string -> string -> string -> Z -> Srv S (list (string * fields));
  cmd_xack : string -> string -> string -> Srv S Z;
  cmd_xautoclaim : string -> string -> string -> Z -> Z ->
                   Srv S (list (string * fields) * list string);
  cmd_xinfo_consumers : string -> string -> Srv S (list consumer_info);
  cmd_xinfo_groups : string -> Srv S (list group_info);
  cmd_xgroup_delconsumer : string -> string -> string -> Srv S Z;
  cmd_xpending_range : string -> string -> string -> Z -> Srv S (list string);
}.

Section Frames.
Context {S : Type} `{StreamServer S}.
(** A command leaves the streams, or the plain keys, as they are. *)
Definition same_streams (s s' : S) : Prop :=
  (forall st, srv_entries s' st = srv_entries s st) /\
  (forall st g, srv_pel s' st g = srv_pel s st g).
Definition same_keys (s s' : S) : Prop := srv_live s' = srv_live s /\ srv_now s' = srv_now s.
Definition keeps_streams {A} (c : Srv S A) : Prop := forall s, same_streams s (snd (c s)).
Definition keeps_pel {A} (c : Srv S A) : Prop :=
  forall s st g, srv_pel (snd (c s)) st g = srv_pel s st g.
Definition keeps_keys {A} (c : Srv S A) : Prop := forall s, same_keys s (snd (c s)).
End Frames.

Class StreamDoc (S : Type) `{StreamServer S} : Prop := {
  keys_frame :
    (forall k f n, keeps_streams (cmd_hincrby k f n)) /\ (forall k f, keeps_streams (cmd_hdel k f)) /\
    (forall k n, keeps_streams (cmd_expire k n)) /\ (forall ks, keeps_streams (cmd_exists ks)) /\
    (forall k v ex nx, keeps_streams (cmd_set k v ex nx));
  xadd_frame st f m : keeps_keys (cmd_xadd st f m) /\ keeps_pel (cmd_xadd st f m);
  xadd_appends st f m s id s' : cmd_xadd st f m s = (Ret id, s') ->
    id ∉ (srv_entries s st).*1 /\
    (forall st', st' <> st -> srv_entries s' st' = srv_entries s st') /\
    exists trimmed, srv_entries s st ++ [(id, f)] = trimmed ++ srv_entries s' st /\
      (id, f) ∈ srv_entries s' st;
  xack_frame st g id : keeps_keys (cmd_xack st g id);
  xack_removes st g id s n s' : cmd_xack st g id s = (Ret n, s') ->
    srv_pel s' st g = base.delete id (srv_pel s st g);
  xack_error st g id s e s' : cmd_xack st g id s = (Exc e, s') -> same_streams s s';
  xreadgroup_frame st g c n : keeps_keys (cmd_xreadgroup g c st n);
  xreadgroup_pending st g c n s ms s' : cmd_xreadgroup g c st n s = (Ret ms, s') ->
    (forall id f, (id, f) ∈ ms -> (id, f) ∈ srv_entries s st /\ srv_pel s' st g !! id = Some c) /\
    (forall id, id ∉ ms.*1 -> srv_pel s' st g !! id = srv_pel s st g !! id);
  xreadgroup_error st g c n s e s' : cmd_xreadgroup g c st n s = (Exc e, s') -> same_streams s s';
  xautoclaim_frame st g c idle n : keeps_keys (cmd_xautoclaim st g c idle n);
  xautoclaim_entries st g c idle n s st' :
    srv_entries (snd (cmd_xautoclaim st g c idle n s)) st' = srv_entries s st';
  xautoclaim_claims st g c idle n s ms del s' : cmd_xautoclaim st g c idle n s = (Ret (ms, del), s') ->
    (forall id f, (id, f) ∈ ms -> (id, f) ∈ srv_entries s st /\ id ∈ dom (srv_pel s st g) /\
       srv_pel s' st g !! id = Some c) /\
    (forall id, id ∉ ms.*1 -> id ∉ del -> srv_pel s' st g !! id = srv_pel s st g !! id) /\
    (forall id, id ∈ del -> id ∉ (srv_entries s st).*1);
  xautoclaim_error st g c idle n s e s' : cmd_xautoclaim st g c idle n s = (Exc e, s') ->
    same_streams s s';
  info_frame :
    (forall st g, keeps_streams (cmd_xinfo_consumers st g)) /\
    (forall st, keeps_streams (cmd_xinfo_groups st)) /\
    (forall st g c n, keeps_streams (cmd_xpending_range st g c n));
  delconsumer_error st g c s e s' : cmd_xgroup_delconsumer st g c s = (Exc e, s') -> same_streams s s';
  xinfo_consumers_doc st g s cs s' : cmd_xinfo_consumers st g s = (Ret cs, s') ->
    same_streams s s' /\ same_keys s s' /\
    forall ci, ci ∈ cs -> ci_pending ci = Z.of_nat (size (filter (fun x => snd x = ci_name ci) (srv_pel s st g)));
  delconsumer_doc st g c s n s' : cmd_xgroup_delconsumer st g c s = (Ret n, s') ->
    same_keys s s' /\ (forall st', srv_entries s' st' = srv_entries s st') /\
    forall st' g', srv_pel s' st' g' =
      if bool_decide (st' = st /\ g' = g) then filter (fun x => snd x <> c) (srv_pel s st g)
      else srv_pel s st' g';
  xpending_doc st g c n s ids s' : 0 < n -> cmd_xpending_range st g c n s = (Ret ids, s') ->
    same_streams s s' /\ same_keys s s' /\
    (ids = [] <-> forall id, srv_pel s st g !! id <> Some c);
}.

(** ** The reference implementation: nothing is ever trimmed *)

Record sgroup := mkGroup { sg_read : nat; sg_pel : gmap string (string * Z); sg_names : gmap string Z }.
Record sstream := mkStream { ss_entries : list (string * fields); ss_groups : gmap string sgroup }.
Record smem := mkSmem { sm_mem : mem; sm_streams : gmap string sstream }.
Definition no_stream : sstream := mkStream [] ∅.
Definition no_group : sgroup := mkGroup 0 ∅ ∅.
Definition stream_of (s : smem) (st : string) : sstream := default no_stream (sm_streams s !! st).
Definition group_of (s : smem) (st g : string) : sgroup :=
  default no_group (ss_groups (stream_of s st) !! g).
Definition on_mem {A} (c : Srv mem A) : Srv smem A :=
  fun s => let (o, m) := c (sm_mem s) in (o, mkSmem m (sm_streams s)).
Definition set_group (st g : string) (x : sgroup) (s : smem) : smem :=
  mkSmem (sm_mem s)
    (<[st := mkStream (ss_entries (stream_of s st)) (<[g := x]> (ss_groups (stream_of s st)))]>
       (sm_streams s)).

#[export] Instance smem_server : RedisServer smem := {
  srv_live s := srv_live (sm_mem s);
  srv_now s := srv_now (sm_mem s);
  srv_tick d s := mkSmem (srv_tick d (sm_mem s)) (sm_streams s);
  ttl_seconds := ttl_seconds (S := mem);
  cmd_get k := on_mem (cmd_get k);
  cmd_set k v ex nx := on_mem (cmd_set k v ex nx);
  cmd_del ks := on_mem (cmd_del ks);
  cmd_exists ks := on_mem (cmd_exists ks);
  cmd_incrby k n := on_mem (cmd_incrby k n);
  cmd_expire k n := on_mem (cmd_expire k n);
  cmd_ttl k := on_mem (cmd_ttl k);
  cmd_mget ks := on_mem (cmd_mget ks);
  cmd_zremrangebyscore k lo hi := on_mem (cmd_zremrangebyscore k lo hi);
  cmd_zadd k ms := on_mem (cmd_zadd k ms);
  cmd_zcard k := on_mem (cmd_zcard k);
  cmd_hincrby k f n := on_mem (cmd_hincrby k f n);
  cmd_hget k f := on_mem (cmd_hget k f);
  cmd_hdel k f := on_mem (cmd_hdel k f);
}.

Lemma on_mem_gives {A} (c : Srv mem A) s o m :
  gives c (sm_mem s) o m -> gives (on_mem c) s o m.
Proof. unfold gives, on_mem. by destruct (c (sm_mem s)). Qed.
#[export] Instance smem_doc : RedisDoc smem.
Proof.
  split; intros; try (apply on_mem_gives; cbn; apply doc_cmd_gives); try reflexivity.
  apply (ttl_rounds (S := mem)).
Qed.

Definition own (c : string) (now : Z) (ms : list (string * fields)) (pel : gmap string (string * Z))
    : gmap string (string * Z) := foldr (fun m p => <[fst m := (c, now)]> p) pel ms.
Definition in_entries (es : list (string * fields)) (x : string * (string * Z)) : Prop := fst x ∈ es.*1.
#[global] Instance in_entries_dec es x : Decision (in_entries es x).
Proof. unfold in_entries. apply _. Defined.
Definition claimable (now idle : Z) (pel : gmap string (string * Z)) (m : string * fields) : bool :=
  match pel !! fst m with Some (_, t) => idle <=? (now - t) / 1000 | None => false end.

#[export] Instance smem_streams : StreamServer smem := {
  srv_entries s st := ss_entries (stream_of s st);
  srv_pel s st g := fst <$> sg_pel (group_of s st g);
  cmd_xadd st f _ s :=
    let es := ss_entries (stream_of s st) in
    let id := fresh es.*1 in
    (Ret id, mkSmem (sm_mem s)
       (<[st := mkStream (es ++ [(id, f)]) (ss_groups (stream_of s st))]> (sm_streams s)));
  cmd_xgroup_create st g s :=
    match ss_groups (stream_of s st) !! g with
    | Some _ => (Exc (SrvError "BUSYGROUP Consumer Group name already exists"), s)
    | None => (Ret tt, set_group st g no_group s)
    end;
  cmd_xreadgroup g c st n s :=
    let x := group_of s st g in
    let ms := take (Z.to_nat n) (drop (sg_read x) (ss_entries (stream_of s st))) in
    (Ret ms, set_group st g (mkGroup (sg_read x + length ms) (own c (srv_now s) ms (sg_pel x))
                               (<[c := srv_now s]> (sg_names x))) s);
  cmd_xack st g id s :=
    let x := group_of s st g in
    (Ret (if bool_decide (is_Some (sg_pel x !! id)) then 1 else 0),
     set_group st g (mkGroup (sg_read x) (base.delete id (sg_pel x)) (sg_names x)) s);
  cmd_xautoclaim st g c idle n s :=
    let x := group_of s st g in
    let es := ss_entries (stream_of s st) in
    let ms := take (Z.to_nat n) (filter (fun m => claimable (srv_now s) idle (sg_pel x) m = true) es) in
    let gone := filter (fun e => ~ in_entries es e) (sg_pel x) in
    (Ret (ms, (map_to_list gone).*1),
     set_group st g (mkGroup (sg_read x) (own c (srv_now s) ms (filter (in_entries es) (sg_pel x)))
                       (<[c := srv_now s]> (sg_names x))) s);
  cmd_xinfo_consumers st g s :=
    let x := group_of s st g in
    (Ret (map (fun '(c, t) => mkConsumerInfo c
                 (Z.of_nat (size (filter (fun x => snd x = c) (fst <$> sg_pel x))))
                 ((srv_now s - t) / 1000)) (map_to_list (sg_names x))), s);
  cmd_xinfo_groups st s :=
    (Ret (map (fun '(g, x) => mkGroupInfo g (Z.of_nat (size (sg_names x))) (Z.of_nat (size (sg_pel x)))
                 (Some (Z.of_nat (length (ss_entries (stream_of s st)) - sg_read x))))
            (map_to_list (ss_groups (stream_of s st)))), s);
  cmd_xgroup_delconsumer st g c s :=
    let x := group_of s st g in
    (Ret (Z.of_nat (size (filter (fun e => fst (snd e) = c) (sg_pel x)))),
     set_group st g (mkGroup (sg_read x) (filter (fun e => fst (snd e) <> c) (sg_pel x))
                       (base.delete c (sg_names x))) s);
  cmd_xpending_range st g c n s :=
    (Ret (take (Z.to_nat n) ((map_to_list (filter (fun e => fst (snd e) = c) (sg_pel (group_of s st g)))).*1)), s);
}.

Lemma stream_of_set st g x s st' :
  stream_of (set_group st g x s) st' =
  if bool_decide (st' = st) then mkStream (ss_entries (stream_of s st)) (<[g := x]> (ss_groups (stream_of s st)))
  else stream_of s st'.
Proof.
  unfold set_group, stream_of at 1. cbn. case_bool_decide; subst.
  - by rewrite lookup_insert_eq.
  - by rewrite lookup_insert_ne.
Qed.
Lemma group_of_set st g x s st' g' :
  group_of (set_group st g x s) st' g' =
  if bool_decide (st' = st /\ g' = g) then x else group_of s st' g'.
Proof.
  unfold group_of at 1. rewrite stream_of_set. do 2 case_bool_decide; cbn; destruct_and?; subst;
    rewrite ?lookup_insert_eq; try done.
  rewrite lookup_insert_ne by naive_solver. done.
Qed.
Lemma entries_set st g x s st' :
  ss_entries (stream_of (set_group st g x s) st') = ss_entries (stream_of s st').
Proof. rewrite stream_of_set. case_bool_decide; by subst. Qed.
Lemma own_in c now ms pel id :
  id ∈ ms.*1 -> own c now ms pel !! id = Some (c, now).
Proof.
  induction ms as [|[i f] ms IH]; cbn; [set_solver |]. rewrite elem_of_cons. intros Hid.
  destruct (decide (i = id)) as [-> | Hne]; [by rewrite lookup_insert_eq |].
  rewrite lookup_insert_ne by done. apply IH. naive_solver.
Qed.
Lemma own_notin c now ms pel id : id ∉ ms.*1 -> own c now ms pel !! id = pel !! id.
Proof.
  induction ms as [|[i f] ms IH]; cbn; [done |]. rewrite not_elem_of_cons. intros [Hne Hid].
  rewrite lookup_insert_ne by done. auto.
Qed.

Lemma pel_set st g x s st' g' :
  fst <$> sg_pel (group_of (set_group st g x s) st' g') =
  if bool_decide (st' = st /\ g' = g) then fst <$> sg_pel x else fst <$> sg_pel (group_of s st' g').
Proof. rewrite group_of_set. by case_bool_decide. Qed.

(** The two laws with more to check. *)
Lemma smem_claims st g c idle n (s : smem) ms del s' :
  cmd_xautoclaim st g c idle n s = (Ret (ms, del), s') ->
  (forall id f, (id, f) ∈ ms -> (id, f) ∈ srv_entries s st /\ id ∈ dom (srv_pel s st g) /\
     srv_pel s' st g !! id = Some c) /\
  (forall id, id ∉ ms.*1 -> id ∉ del -> srv_pel s' st g !! id = srv_pel s st g !! id) /\
  (forall id, id ∈ del -> id ∉ (srv_entries s st).*1).
Proof.
  cbn. intros [= <- <- <-].
  rewrite pel_set, bool_decide_true by done. cbn. split; [| split].
  + intros id f Hin. rewrite lookup_fmap, own_in by (apply list_elem_of_fmap; by exists (id, f)).
    apply subseteq_take, list_elem_of_filter in Hin as [Hc Hin].
    split; [done |]. split; [| done]. unfold claimable in Hc. cbn in Hc.
    rewrite dom_fmap. apply elem_of_dom. destruct (sg_pel _ !! id); [eauto | done].
  + intros id Hid Hdel. rewrite !lookup_fmap, own_notin by done. f_equal.
    destruct (sg_pel (group_of s st g) !! id) as [x|] eqn:E.
    * apply map_lookup_filter_Some. split; [done |]. apply dec_stable. intros Hn.
      apply Hdel. apply list_elem_of_fmap. exists (id, x). split; [done |].
      apply elem_of_map_to_list, map_lookup_filter_Some. done.
    * apply map_lookup_filter_None. by left.
  + intros id (x & -> & Hx)%list_elem_of_fmap. destruct x as [i x]. cbn in *.
    apply elem_of_map_to_list, map_lookup_filter_Some in Hx as [_ Hx]. done.
Qed.
Lemma smem_pending st g c n (s : smem) ids s' : 0 < n -> cmd_xpending_range st g c n s = (Ret ids, s') ->
  same_streams s s' /\ same_keys s s' /\ (ids = [] <-> forall id, srv_pel s st g !! id <> Some c).
Proof.
  intros Hn. cbn. intros [= <- <-]. split; [done |]. split; [done |].
  destruct (Z.to_nat n) as [|k] eqn:Ek; [lia |].
  set (l := map_to_list _). assert (Hl : take (S k) l.*1 = [] <-> l = []) by (by destruct l).
  rewrite Hl. subst l. rewrite map_to_list_empty_iff. split.
  + intros Hf id. rewrite lookup_fmap. intros ([o t] & Ho & ->)%fmap_Some_1.
    eapply map_empty_filter in Hf. by apply (Hf id (o, t)).
  + intros Hall. apply map_empty_filter. intros id [o t] Ho. cbn. intros ->.
    apply (Hall id). by rewrite lookup_fmap, Ho.
Qed.

#[export] Instance smem_streams_doc : StreamDoc smem.
Proof.
  split.
  - repeat split; intros; cbn; unfold on_mem;
      match goal with |- context [let (_, _) := ?c in _] => by destruct c end.
  - intros st f m. split; [done |]. intros s st' g. cbn. unfold group_of, stream_of. cbn.
    destruct (decide (st' = st)) as [-> | Hne]; [by rewrite lookup_insert_eq | by rewrite lookup_insert_ne].
  - intros st f m s id s'. cbn. intros [= <- <-]. split; [apply infinite_is_fresh |].
    unfold stream_of. cbn. split.
    + intros st' Hne. by rewrite lookup_insert_ne.
    + exists []. rewrite lookup_insert_eq. cbn. split; [done |]. apply elem_of_app. right. left.
  - done.
  - intros st g id s n s'. cbn. intros [= <- <-]. rewrite pel_set, bool_decide_true by done. cbn.
    by rewrite fmap_delete.
  - done.
  - done.
  - intros st g c n s ms s'. cbn. intros [= <- <-]. rewrite pel_set, bool_decide_true by done.
    cbn. split.
    + intros id f Hin. split; [by eapply subseteq_drop, subseteq_take |].
      rewrite lookup_fmap, own_in; [done |]. apply list_elem_of_fmap. by exists (id, f).
    + intros id Hid. by rewrite lookup_fmap, own_notin, lookup_fmap.
  - done.
  - done.
  - intros. apply entries_set.
  - apply smem_claims.
  - done.
  - done.
  - done.
  - intros st g s cs s'. cbn. intros [= <- <-]. split; [done |]. split; [done |].
    intros ci ((c & t) & -> & _)%list_elem_of_fmap. done.
  - intros st g c s n s'. cbn. intros [= <- <-]. split; [done |].
    split; [intros; apply entries_set |]. intros st' g'. rewrite pel_set. case_bool_decide; [| done].
    cbn. destruct_and?. subst. apply map_eq. intros i. rewrite lookup_fmap.
    apply option_eq. intros o. rewrite fmap_Some, map_lookup_filter_Some, lookup_fmap, fmap_Some.
    setoid_rewrite map_lookup_filter_Some. naive_solver.
  - apply smem_pending.
Qed.
