(* ===== verification/Events.v ===== *)
(** * Events: envelope, producer, retry bookkeeping, dead letters

    Models src/tr_shared/events/: envelope.py, producer.py, helpers.py,
    exceptions.py, retry_policy.py, retry_state.py, dead_letter.py and the
    [InMemoryIdempotencyChecker] of consumer.py.  [uuid4], the wall clock's
    rendering and pydantic's validation are parameters. *)

From S2P Require Import Prelude Json Errors Redis Streams.
Local Open Scope Z_scope.

(** ** The envelope *)

(** Fields of a payload-wrapped message may hold any JSON value, so all fields are [json]. *)
Record EventEnvelope := mkEnvelope {
  event_id : json;
  event_type : json;
  version : json;
  tenant_id : json;
  timestamp : json;
  source_service : json;
  actor_id : json;
  data : json;
  metadata : json;
  raw_message_id : string;
}.

(** [json.loads], a decoding error being a [ValueError] *)
Definition json_loads (s : string) : outcome exn json :=
  match loads s with
  | Some v => Ret v
  | None => Exc (PyErr ValueError "Expecting value")
  end.

Definition from_flat (message_id : string) (f : fields) : outcome exn EventEnvelope :=
  let get k d := JStr (default d (dget k f)) in
  outcome_bind (json_loads (default "{}" (dget "data" f))) (fun data =>
  outcome_bind (json_loads (default "{}" (dget "metadata" f))) (fun metadata =>
  Ret (mkEnvelope (get "event_id" "") (get "event_type" "") (get "version" "1.0")
         (get "tenant_id" "") (get "timestamp" "") (get "source_service" "")
         (match dget "actor_id" f with
          | Some a => if nonempty a then JStr a else JNull
          | None => JNull
          end) data metadata message_id))).

Definition from_payload_wrapper (message_id : string) (f : fields) : outcome exn EventEnvelope :=
  let payload_str := default "" (dget "payload" f) in
  if negb (nonempty payload_str) then Exc (PyErr ValueError "Message missing 'payload' field")
  else outcome_bind (json_loads payload_str) (fun payload =>
    match payload with
    | JObj o =>
        let get k d := default d (dget k o) in
        Ret (mkEnvelope (get "event_id" (JStr "")) (get "event_type" (JStr ""))
               (get "version" (JStr "1.0")) (get "tenant_id" (JStr "")) (get "timestamp" (JStr ""))
               (get "source" (get "source_service" (JStr ""))) (get "actor_id" JNull)
               (get "data" (JObj [])) (get "metadata" (JObj [])) message_id)
    | _ => Exc (PyErr AttributeError "object has no attribute 'get'")
    end).

(** ** The Feature vocabulary (contracts/taxonomy.py) *)

Inductive Feature :=
| F_AUTH | F_LEAD | F_DEAL | F_CONTACT | F_PROPERTY | F_LISTING | F_CMS | F_LMS | F_TASK
| F_ACTIVITY | F_NOTIFICATION | F_HR | F_FINANCE | F_ADMIN | F_MEDIA | F_DLD | F_WAM
| F_RECRUITMENT | F_SCRAPING.
#[export] Instance Feature_eq_dec : EqDecision Feature.
Proof. solve_decision. Defined.
Definition features : list Feature :=
  [F_AUTH; F_LEAD; F_DEAL; F_CONTACT; F_PROPERTY; F_LISTING; F_CMS; F_LMS; F_TASK; F_ACTIVITY;
   F_NOTIFICATION; F_HR; F_FINANCE; F_ADMIN; F_MEDIA; F_DLD; F_WAM; F_RECRUITMENT; F_SCRAPING].
Definition feature_value (f : Feature) : string :=
  match f with
  | F_AUTH => "auth" | F_LEAD => "lead" | F_DEAL => "deal" | F_CONTACT => "contact"
  | F_PROPERTY => "property" | F_LISTING => "listing" | F_CMS => "cms" | F_LMS => "lms"
  | F_TASK => "task" | F_ACTIVITY => "activity" | F_NOTIFICATION => "notification"
  | F_HR => "hr" | F_FINANCE => "finance" | F_ADMIN => "admin" | F_MEDIA => "media"
  | F_DLD => "dld" | F_WAM => "wam" | F_RECRUITMENT => "recruitment" | F_SCRAPING => "scraping"
  end.
(** [Feature(s)] *)
Definition feature_of (s : string) : option Feature :=
  list_find (fun f => feature_value f = s) features ≫= fun x => Some (snd x).
Definition ENTITLEMENT_MODULES : list Feature :=
  [F_LISTING; F_CMS; F_LEAD; F_LMS; F_HR; F_FINANCE; F_DLD; F_SCRAPING].
Definition ensure_entitlement_module (value : Feature) : outcome exn Feature :=
  if bool_decide (value ∈ ENTITLEMENT_MODULES) then Ret value
  else Exc (PyErr ValueError (feature_value value +:+ " is not a tenant-toggleable module; valid: " +:+
         py_repr (JList (map (fun kv => JStr (fst kv))
           (sorting.merge_sort key_le (map (fun m => (feature_value m, JNull)) ENTITLEMENT_MODULES)))))).

(** ** The producer *)

Definition _normalize_source (source : string) : outcome exn string :=
  match feature_of source with
  | Some f => Ret (feature_value f)
  | None => Exc (PyErr ValueError "EventProducer source_service must be a Feature value")
  end.

Record EventProducer := mkProducer {
  pr_redis_url : option string;
  pr_stream_name : string;
  pr_source_service : string;
  pr_maxlen : Z;
  pr_max_data_bytes : Z;
}.
Definition STREAM_MAXLEN : Z := 100000.
Definition DEFAULT_MAX_DATA_BYTES : Z := 1048576.

Definition EventProducer_init (redis_url : option string) (stream_name source_service : string)
    (maxlen : option Z) (max_data_bytes : Z) : outcome exn EventProducer :=
  outcome_bind (_normalize_source source_service) (fun src =>
  Ret (mkProducer redis_url stream_name src
         (match maxlen with
          | Some n => if n =? 0 then STREAM_MAXLEN else n
          | None => STREAM_MAXLEN
          end) max_data_bytes)).

Class EventEnv (W : Type) := {
  uuid4 : Py W string;
  now_iso : W -> string;            (* [datetime.now(UTC).isoformat()] *)
}.

(** The fields XADDed for an event; [tenant] and the rest are the caller's. *)
Definition envelope_fields (eid etype tenant ts source : string) (actor : option string)
    (data : json) (metadata : list (string * json)) : fields :=
  [("event_id", eid); ("event_type", etype); ("version", "1.0"); ("tenant_id", tenant);
   ("timestamp", ts); ("source_service", source); ("actor_id", default "" actor);
   ("data", dumps data); ("metadata", dumps (JObj metadata))].

(** [None] for metadata is the empty dict, for the correlation id [JNull]. *)
Definition event_metadata (metadata : list (string * json)) (correlation_id : json)
    : list (string * json) :=
  if truthy correlation_id then dset "correlation_id" correlation_id metadata else metadata.

(** [field in data], which raises on a number, a boolean or [None] *)
Definition py_in (field : string) (data : json) : outcome exn bool :=
  match data with
  | JObj o => Ret (match dget field o with Some _ => true | None => false end)
  | JList l => Ret (bool_decide (JStr field ∈ l))
  | JStr s => Ret (contains field s)
  | _ => Exc (PyErr TypeError "argument is not iterable")
  end.

Section Producer.
Context {W S : Type} `{StreamServer S} `{RedisConn W S} `{EventEnv W}.
Variable p : EventProducer.

(** The world with the producer's own flag: is [self._redis] set? *)
Definition pr_connect : Py (bool * W) unit := fun '(connected, w) =>
  match connected, pr_redis_url p with
  | false, Some u =>
      if nonempty u then
        match require_plain_redis_url u with
        | Ret _ => (Ret tt, (true, w))
        | Exc e => (Exc e, (false, w))
        end
      else (Ret tt, (false, w))
  | _, _ => (Ret tt, (connected, w))
  end.
Definition pr_disconnect : Py (bool * W) unit := fun st =>
  (if fst st then do! on_snd (aclose (S := S)) in modify (fun st => (false, snd st)) else ret tt) st.

Definition publish (etype tenant : string) (data : json) (actor : option string)
    (metadata : list (string * json)) (correlation_id : json) (strict_mode : bool) : Py (bool * W) string :=
  do! (if strict_mode then
         mfor ["entity_id"; "entity_type"; "action"] (fun field =>
           match py_in field data with
           | Ret true => ret tt
           | Ret false => raise (PyErr ValueError ("data must contain '" +:+ field +:+ "'"))
           | Exc e => raise e
           end)
       else ret tt) in
  do! (let data_size := Z.of_nat (String.length (dumps data)) in
       if negb (pr_max_data_bytes p =? 0) && (pr_max_data_bytes p <? data_size)
       then raise (PyErr ValueError ("Event data is " +:+ str_of_Z data_size +:+
              " bytes, exceeds limit of " +:+ str_of_Z (pr_max_data_bytes p) +:+ " bytes"))
       else ret tt) in
  let! eid := on_snd uuid4 in
  let! ts := gets (fun st => now_iso (snd st)) in
  let envelope := envelope_fields eid etype tenant ts (pr_source_service p) actor data
    (event_metadata metadata correlation_id) in
  let! connected := gets fst in
  do! (if (connected : bool) then ret tt else pr_connect) in
  let! connected := gets fst in
  if negb connected then raise (PyErr RuntimeError "Redis connection not available")
  else
    do! catch (on_snd (let! _ := rexec (cmd_xadd (pr_stream_name p) envelope (Some (pr_maxlen p))) in ret tt))
          (fun e => if isinstance e RedisError
                    then raise (PyErr EventPublishTransportError ("Failed to publish '" +:+ etype +:+
                           "' to '" +:+ pr_stream_name p +:+ "': " +:+ str_exn e))
                    else raise e) in
    ret eid.

(** helpers.py: the payload is a pydantic model; [model_dump] is its JSON form. *)
Definition make_event_producer (source : Feature) (redis_url : option string)
    (stream_name : string) (maxlen : option Z) : outcome exn EventProducer :=
  EventProducer_init redis_url stream_name (feature_value source) maxlen DEFAULT_MAX_DATA_BYTES.
Definition publish_event {P : Type} (model_dump : P -> json) (etype : string)
    (payload : P) (tenant : string) (actor : option string)
    (metadata : list (string * json)) (correlation_id : json)
    : Py (bool * W) string :=
  publish etype tenant (model_dump payload) actor metadata correlation_id false.
End Producer.
Definition parse_payload {P : Type} (model_validate : json -> outcome exn P) (e : EventEnvelope)
    : outcome exn P := model_validate (data e).

(** ** Retry policy and retry counter *)

Record RetryPolicy := mkRetryPolicy { max_retries : Z; backoff_base : Z; max_backoff : Z }.
Definition delay_for (p : RetryPolicy) (attempt : Z) : Z :=
  Z.min (backoff_base p ^ attempt) (max_backoff p).

Record RetryStateStore := mkRetryState { rs_key : string; rs_ttl : Z }.
Definition RetryStateStore_init (stream_name consumer_group : string) : RetryStateStore :=
  mkRetryState (stream_name +:+ ":" +:+ consumer_group +:+ ":retries") 86400.

Section RetryState.
Context {W S : Type} `{RedisServer S} `{RedisConn W S}.
Variable st : RetryStateStore.
Definition rs_increment (message_id : string) : Py W Z :=
  let! count := rexec (cmd_hincrby (rs_key st) message_id 1) in
  do! rexec (cmd_expire (rs_key st) (rs_ttl st)) in
  ret count.
Definition rs_get (message_id : string) : Py W Z :=
  let! value := rexec (cmd_hget (rs_key st) message_id) in
  match value with
  | None => ret 0
  | Some v => match Z_of_str v with
              | Some n => ret n
              | None => raise (PyErr ValueError "invalid literal for int()")
              end
  end.
Definition rs_clear (message_id : string) : Py W unit :=
  do! rexec (cmd_hdel (rs_key st) message_id) in ret tt.
End RetryState.

(** ** Dead letters *)

Definition DEAD_LETTER_SUFFIX := "_dead_letter".
Definition dead_letter_stream_name (source_stream : string) : string :=
  source_stream +:+ DEAD_LETTER_SUFFIX.
Definition fields_json (f : fields) : json := JObj (map (fun kv => (fst kv, JStr (snd kv))) f).
Definition dlq_entry (now message_id source_stream consumer_group reason : string) (f : fields)
    : fields :=
  [("original_message_id", message_id); ("original_stream", source_stream);
   ("consumer_group", consumer_group); ("failure_reason", reason); ("timestamp", now);
   ("original_data", dumps (fields_json f))].
(** [DeadLetterHandler.move]; [now] is [str(time.time())] *)
Definition dlq_move {W S : Type} `{StreamServer S} `{RedisConn W S} (clock : W -> string)
    (source_stream consumer_group : string) (message_id : string) (f : fields) (reason : string)
    : Py W unit :=
  let! now := gets clock in
  do! rexec (cmd_xadd (dead_letter_stream_name source_stream)
               (dlq_entry now message_id source_stream consumer_group reason f) (Some 10000)) in
  ret tt.

(** ** Duplicate detection *)

(** The protocol the consumer uses; a checker may keep state in [W].  The id is what
    the message carried: a string, or any JSON value in payload mode. *)
Record IdempotencyChecker (W : Type) := mkChecker {
  is_processed : json -> Py W bool;
  mark_processed : json -> Py W unit;
}.
Arguments mkChecker {W}.
Arguments is_processed {W}.
Arguments mark_processed {W}.

(** The key of a Python dict that [v] is: [True] and [1] are one key, lists and
    dicts are not hashable. *)
Definition hash_key (v : json) : outcome exn json :=
  match v with
  | JList _ => Exc (PyErr TypeError "unhashable type: 'list'")
  | JObj _ => Exc (PyErr TypeError "unhashable type: 'dict'")
  | JBool b => Ret (JInt (if b then 1 else 0))
  | _ => Ret v
  end.
(** How an f-string writes a hashable value. *)
Definition str_json (v : json) : string :=
  match v with
  | JStr s => s
  | JInt z => str_of_Z z
  | JBool true => "True"
  | JBool false => "False"
  | _ => "None"
  end.

(** [InMemoryIdempotencyChecker]: the ordered dict of ids (oldest first). *)
Definition remember (eid : json) (ids : list json) : list json :=
  if bool_decide (eid ∈ ids) then ids else ids ++ [eid].
Definition evict (ids : list json) : list json :=
  if (10000 <? Z.of_nat (length ids)) then drop (Z.to_nat 5000) ids else ids.

Section InMemory.
Context {W S : Type} `{RedisServer S} `{RedisConn W S}.
Variables (use_redis : bool) (group_name : string) (ttl_days : Z).
Definition checker_key (eid : json) : string := group_name +:+ ":processed:" +:+ str_json eid.
Definition im_is_processed (eid : json) : Py (list json * W) bool :=
  match hash_key eid with
  | Exc e => raise e
  | Ret k =>
      let! ids := gets fst in
      if bool_decide (k ∈ ids) then ret true
      else if use_redis then
        let! n := on_snd (rexec (cmd_exists [checker_key eid])) in ret (negb (n =? 0))
      else ret false
  end.
Definition im_mark_processed (eid : json) : Py (list json * W) unit :=
  match hash_key eid with
  | Exc e => raise e
  | Ret k =>
      do! modify (fun st => (evict (remember k (fst st)), snd st)) in
      if use_redis then
        do! on_snd (rexec (cmd_set (checker_key eid) "1" (Some (ttl_days * 86400)) false)) in ret tt
      else ret tt
  end.
Definition InMemoryIdempotencyChecker : IdempotencyChecker (list json * W) :=
  mkChecker im_is_processed im_mark_processed.
End InMemory.

(** ** What is published is what is parsed *)

(** The envelope a consumer should see. *)
Definition sent_envelope (id eid etype tenant ts source : string) (actor : option string)
    (data : json) (metadata : list (string * json)) : EventEnvelope :=
  mkEnvelope (JStr eid) (JStr etype) (JStr "1.0") (JStr tenant) (JStr ts) (JStr source)
    (match actor with Some a => if nonempty a then JStr a else JNull | None => JNull end)
    data (JObj metadata) id.

Lemma from_flat_envelope id eid etype tenant ts source actor data metadata :
  json_wf data = true -> json_wf (JObj metadata) = true ->
  from_flat id (envelope_fields eid etype tenant ts source actor data metadata) =
  Ret (sent_envelope id eid etype tenant ts source actor data metadata).
Proof.
  intros Hd Hm. unfold from_flat. set (f := envelope_fields _ _ _ _ _ _ _ _).
  assert (E1 : dget "data" f = Some (dumps data)) by reflexivity.
  assert (E2 : dget "metadata" f = Some (dumps (JObj metadata))) by reflexivity.
  assert (E3 : dget "actor_id" f = Some (default "" actor)) by reflexivity.
  rewrite E1, E2, E3. rewrite !default_Some. unfold json_loads. rewrite !loads_dumps by done.
  cbn [outcome_bind]. unfold sent_envelope. by destruct actor.
Qed.

Section Published.
Context {W S : Type} `{RedisDoc S, !StreamServer S, !StreamDoc S} `{RedisConn W S, !RedisConnDoc W S}
        `{EventEnv W}.

(** A call to Redis that returned has its command's effect on the server it left. *)
Lemma xadd_returned st f m w id w' :
  rexec (cmd_xadd st f m) w = (Ret id, w') -> (id, f) ∈ srv_entries (srv w') st.
Proof.
  intros (n & E)%rexec_ret. apply xadd_appends in E as (_ & _ & trimmed & _ & Hin). done.
Qed.

(** A publish that returned left the event's entry on the stream, with the id it returned. *)
Lemma publish_on_stream (p : EventProducer) etype tenant data actor metadata cid strict c w eid c' w' :
  publish p etype tenant data actor metadata cid strict (c, w) = (Ret eid, (c', w')) ->
  exists id ts, (id, envelope_fields eid etype tenant ts (pr_source_service p) actor data
      (event_metadata metadata cid)) ∈ srv_entries (srv w') (pr_stream_name p).
Proof.
  intros E. unfold publish in E.
  apply bind_Ret_inv in E as (_ & w1 & _ & E). apply bind_Ret_inv in E as (_ & w2 & _ & E).
  apply bind_Ret_inv in E as (eid' & w3 & _ & E). apply bind_Ret_inv in E as (ts & w4 & _ & E).
  apply bind_Ret_inv in E as (b & w5 & _ & E). apply bind_Ret_inv in E as (_ & w6 & _ & E).
  apply bind_Ret_inv in E as (b' & w7 & _ & E). destruct b'; cbn [negb] in E; [| discriminate E].
  apply bind_Ret_inv in E as ([] & w8 & Ex & E). injection E as <- ->.
  set (f := envelope_fields _ _ _ _ _ _ _ _) in Ex.
  unfold catch, on_snd in Ex. destruct w7 as [b7 v7]. cbn [fst snd] in Ex.
  unfold bind in Ex. destruct (rexec (cmd_xadd (pr_stream_name p) f (Some (pr_maxlen p))) v7)
    as [[id|e] v8] eqn:Er; [| destruct (isinstance e RedisError); discriminate Ex].
  injection Ex as <- <-. exists id, ts. by eapply xadd_returned.
Qed.
End Published.

(** C23. Publish and parse.  When [EventProducer.publish] returns an id, the stream holds
    an entry that every consumer in flat parse mode parses into the event that was published: same id,
    type, tenant, actor, data and metadata (with the correlation id), and the
    producer's Feature as its source. *)
Theorem publish_parses {W S} `{RedisDoc S, !StreamServer S, !StreamDoc S}
    `{RedisConn W S, !RedisConnDoc W S} `{EventEnv W}
    (p : EventProducer) etype tenant data actor metadata cid strict c w eid c' w' :
  json_wf data = true -> json_wf (JObj (event_metadata metadata cid)) = true ->
  publish p etype tenant data actor metadata cid strict (c, w) = (Ret eid, (c', w')) ->
  exists id f ts, (id, f) ∈ srv_entries (srv w') (pr_stream_name p) /\
    from_flat id f = Ret (sent_envelope id eid etype tenant ts (pr_source_service p) actor data
                            (event_metadata metadata cid)).
Proof.
  intros Hd Hm (id & ts & Hin)%publish_on_stream. eexists id, _, ts. split; [exact Hin |].
  by apply from_flat_envelope.
Qed.

(** ** Witnesses *)

#[export] Instance conn_events {S} : EventEnv (conn S) := {
  uuid4 w := (Ret ("event-" +:+ str_of_Z (cn_wall w)), w);
  now_iso w := str_of_Z (cn_wall w);
}.
Definition smem0 : smem := mkSmem (mkMem ∅ 0) ∅.
Definition demo_producer : EventProducer := mkProducer (Some "redis://bus") "tr_event_bus" "lead" 100000 1048576.
Definition demo_data : json := JObj [("entity_id", JStr "7"); ("n", JInt 3)].
Lemma publish_parses_witness :
  exists w' id f ts,
    publish demo_producer "lead.created" "t1" demo_data (Some "u1") [] (JStr "c1") false
      (false, mkConn smem0 5 []) = (Ret "event-5", (true, w')) /\
    (id, f) ∈ srv_entries (srv w') "tr_event_bus" /\
    from_flat id f = Ret (sent_envelope id "event-5" "lead.created" "t1" ts "lead" (Some "u1")
                            demo_data [("correlation_id", JStr "c1")]).
Proof.
  assert (E : exists w', publish demo_producer "lead.created" "t1" demo_data (Some "u1") []
    (JStr "c1") false (false, mkConn smem0 5 []) = (Ret "event-5", (true, w')))
    by (eexists; vm_compute; reflexivity).
  destruct E as [w' E]. exists w'.
  destruct (publish_parses demo_producer "lead.created" "t1" demo_data (Some "u1") [] (JStr "c1")
    false false (mkConn smem0 5 []) "event-5" true w') as (id & f & ts & Hin & Hf);
    [reflexivity | reflexivity | exact E |].
  exists id, f, ts. auto.
Defined.

(** ** The duplicate checker's memory *)

Section Checker.
Context {W S : Type} `{RedisServer S} `{RedisConn W S}.
Variables (use_redis : bool) (group_name : string) (ttl_days : Z).

(** The checker after marking [es] in turn, whatever Redis answered. *)
Definition after_marks (es : list string) (st : list json * W) : list json * W :=
  foldl (fun st e => snd (im_mark_processed use_redis group_name ttl_days (JStr e) st)) st es.

Lemma mark_ids e st :
  fst (snd (im_mark_processed use_redis group_name ttl_days (JStr e) st)) = evict (remember (JStr e) (fst st)).
Proof.
  unfold im_mark_processed, bind, modify. cbn [hash_key]. destruct use_redis; [| done].
  unfold on_snd. cbn [fst snd]. by destruct (rexec _ (snd st)) as [[?|?] ?].
Qed.
Lemma evict_bound e ids : (length ids <= Z.to_nat 10000)%nat ->
  (length (evict (remember e ids)) <= Z.to_nat 10000)%nat.
Proof.
  intros Hl. unfold evict, remember.
  case_bool_decide; (case_match eqn:E; [apply Z.ltb_lt in E | apply Z.ltb_ge in E]);
    rewrite ?length_drop; rewrite ?length_app in *; cbn [length] in *; lia.
Qed.
(** An id with at most 5000 younger ones survives an eviction. *)
Lemma evict_keeps e e' ids pre post : (length ids <= Z.to_nat 10000)%nat ->
  ids = pre ++ e :: post -> (length post < Z.to_nat 5000)%nat ->
  exists pre' post', evict (remember e' ids) = pre' ++ e :: post' /\ (length post' <= length post + 1)%nat.
Proof.
  intros Hl -> Hp. unfold remember. case_bool_decide.
  - unfold evict. rewrite (proj2 (Z.ltb_ge _ _)) by lia.
    exists pre, post. split; [done | lia].
  - rewrite <- app_assoc. cbn [app]. rewrite length_app in Hl. cbn [length] in Hl.
    unfold evict. case_match eqn:E; [apply Z.ltb_lt in E | exists pre, (post ++ [e']); rewrite length_app; cbn; split; [done | lia]].
    rewrite !length_app in E. cbn [length] in E. rewrite length_app in E. cbn [length] in E.
    exists (drop (Z.to_nat 5000) pre), (post ++ [e']). rewrite drop_app_le by lia.
    rewrite length_app. cbn. split; [done | lia].
Qed.

Lemma after_marks_keep e es : forall st pre post,
  fst st = pre ++ JStr e :: post -> (length (fst st) <= Z.to_nat 10000)%nat ->
  (length post + length es <= Z.to_nat 5000)%nat ->
  JStr e ∈ fst (after_marks es st) /\ (length (fst (after_marks es st)) <= Z.to_nat 10000)%nat.
Proof.
  induction es as [|e' es IH]; intros st pre post Hs Hl Hn; cbn [after_marks foldl].
  - rewrite Hs in *. split; [set_solver | done].
  - cbn [length] in Hn. destruct (evict_keeps (JStr e) (JStr e') (fst st) pre post Hl Hs) as (pre' & post' & E & Hp); [lia |].
    apply (IH (snd (im_mark_processed use_redis group_name ttl_days (JStr e') st)) pre' post');
      rewrite ?mark_ids; [done | by apply evict_bound | lia].
Qed.
End Checker.

(** The in-memory duplicate checker keeps at most 10,000 ids, and an event that was
    newly marked is recognised as a duplicate after up to 5,000 further marks, without
    asking Redis and whatever Redis answered to the marks. *)
Theorem checker_remembers {W S} `{RedisServer S} `{RedisConn W S} use_redis group ttl e es
    (ids : list json) (w : W) :
  JStr e ∉ ids -> (length ids <= Z.to_nat 10000)%nat -> (length es <= Z.to_nat 5000)%nat ->
  let st := after_marks use_redis group ttl (e :: es) (ids, w) in
  (length (fst st) <= Z.to_nat 10000)%nat /\
  im_is_processed use_redis group (JStr e) st = (Ret true, st).
Proof.
  intros He Hl Hn st.
  assert (Hk : JStr e ∈ fst st /\ (length (fst st) <= Z.to_nat 10000)%nat).
  { subst st. cbn [after_marks foldl].
    assert (E : exists pre, evict (remember (JStr e) ids) = pre ++ [JStr e]).
    { unfold remember. rewrite bool_decide_false by done. unfold evict. case_match eqn:E; [apply Z.ltb_lt in E | eauto].
      exists (drop (Z.to_nat 5000) ids). rewrite length_app in *. cbn [length] in *.
      by rewrite drop_app_le by lia. }
    destruct E as [pre E].
    apply (after_marks_keep use_redis group ttl e es
      (snd (im_mark_processed use_redis group ttl (JStr e) (ids, w))) pre []); rewrite ?mark_ids; cbn [fst];
      [done | by apply evict_bound | cbn; lia]. }
  destruct Hk as [Hin Hlen]. split; [done |].
  unfold im_is_processed, bind, gets. cbn [hash_key]. by rewrite bool_decide_true.
Qed.
Lemma checker_remembers_witness :
  im_is_processed true "g" (JStr "a") (after_marks true "g" 7 ["a"; "b"; "c"] ([JStr "z"], mkConn mem0 0 [Down])) =
  (Ret true, after_marks true "g" 7 ["a"; "b"; "c"] ([JStr "z"], mkConn mem0 0 [Down])).
Proof.
  apply (checker_remembers true "g" 7 "a" ["b"; "c"] [JStr "z"] (mkConn mem0 0 [Down]));
    [set_solver | cbn; lia | cbn; lia].
Defined.
