(* ===== verification/Consumer.v ===== *)
(** * The event consumer

    Models src/tr_shared/events/consumer.py ([EventConsumer]).  Handlers are
    the service's code, so they are parameters; the duplicate checker is any
    implementation of the protocol [IdempotencyChecker].  A consumer's own
    attributes are the record [cstate]; Redis is reached through the connection
    of [RedisConn].  The blocking loops are given by their iterations
    ([consume_once], [_claim_once]). *)

From S2P Require Import Prelude Json Errors Redis Streams Events.
Local Open Scope Z_scope.

Notation handler W := (EventEnvelope -> Py W unit).

Record consumer_config (W : Type) := mkConsumer {
  cs_stream : string;
  cs_group : string;
  cs_name : string;
  cs_batch_size : Z;
  cs_policy : RetryPolicy;
  cs_idempotency : option (IdempotencyChecker W);
  cs_payload_mode : bool;                    (* [parse_mode == "payload"] *)
  cs_claim_min_idle_ms : Z;
  cs_claim_count : Z;
  cs_zombie_idle_ms : Z;
  cs_handlers : list (string * handler W);
}.
Arguments mkConsumer {W}.
Arguments cs_stream {W}.
Arguments cs_group {W}.
Arguments cs_name {W}.
Arguments cs_batch_size {W}.
Arguments cs_policy {W}.
Arguments cs_idempotency {W}.
Arguments cs_payload_mode {W}.
Arguments cs_claim_min_idle_ms {W}.
Arguments cs_claim_count {W}.
Arguments cs_zombie_idle_ms {W}.
Arguments cs_handlers {W}.

(** [self._redis], [self._dlq] and [self._retry_state] are set? [self._running] *)
Record cstate := mkCstate { c_redis : bool; c_dlq : bool; c_retry : bool; c_running : bool }.
Definition cstate_init : cstate := mkCstate false false false false.

Definition register_handler {W} (event_type : string) (h : handler W) (c : consumer_config W)
    : consumer_config W :=
  mkConsumer (cs_stream c) (cs_group c) (cs_name c) (cs_batch_size c) (cs_policy c)
    (cs_idempotency c) (cs_payload_mode c) (cs_claim_min_idle_ms c) (cs_claim_count c)
    (cs_zombie_idle_ms c) (dset event_type h (cs_handlers c)).

(** The first wildcard pattern that matches, in registration order; [event_type] has
    no [startswith] unless it is a string. *)
Fixpoint match_wildcard {W} (event_type : json) (hs : list (string * handler W))
    : outcome exn (option (handler W)) :=
  match hs with
  | [] => Ret None
  | (pattern, h) :: hs' =>
      if endswith pattern ".*" then
        match event_type with
        | JStr t => if startswith t (strip_suffix_len 2 pattern) then Ret (Some h)
                    else match_wildcard event_type hs'
        | _ => Exc (PyErr AttributeError "object has no attribute 'startswith'")
        end
      else match_wildcard event_type hs'
  end.
Definition _resolve_handler {W} (hs : list (string * handler W)) (event_type : json)
    : outcome exn (option (handler W)) :=
  outcome_bind (hash_key event_type) (fun _ =>
    match event_type with
    | JStr t => match dget t hs with Some h => Ret (Some h) | None => match_wildcard event_type hs end
    | _ => match_wildcard event_type hs
    end).

Section Consumer.
Context {W S : Type} `{StreamServer S} `{RedisConn W S}.
Variable clock : W -> string.          (* [str(time.time())] *)
Variable cfg : consumer_config W.

Notation world := (cstate * W)%type.
Definition command {A} (c : Srv S A) : Py world A := on_snd (rexec c).
Definition retry_store : RetryStateStore := RetryStateStore_init (cs_stream cfg) (cs_group cfg).

Definition _parse (message_id : string) (d : fields) : option EventEnvelope :=
  match (if cs_payload_mode cfg then from_payload_wrapper message_id d else from_flat message_id d) with
  | Ret e => Some e
  | Exc _ => None
  end.

Definition move_to_dlq (message_id : string) (d : fields) (reason : string) : Py world unit :=
  on_snd (dlq_move clock (cs_stream cfg) (cs_group cfg) message_id d reason).

Definition _handle_failure (message_id : string) (d : fields) (e : exn) : Py world (bool * bool) :=
  let! attempts :=
    catch_Exception
      (fun st => (if c_retry (fst st) then on_snd (rs_increment retry_store message_id) else ret 1) st)
      (fun _ => ret (max_retries (cs_policy cfg))) in
  if max_retries (cs_policy cfg) <=? attempts then
    do! (fun st => (if c_dlq (fst st)
                    then catch_Exception (move_to_dlq message_id d ("Max retries exceeded: " +:+ str_exn e))
                           (fun _ => ret tt)
                    else ret tt) st) in
    do! (fun st => (if c_retry (fst st) then on_snd (rs_clear retry_store message_id) else ret tt) st) in
    ret (false, true)
  else ret (false, false).

(** The handler and what follows it, [(handler_ok, should_ack)]. *)
Definition run_handler (message_id : string) (d : fields) (envelope : EventEnvelope) (h : handler W)
    : Py world (bool * bool) :=
  let! failed := catch_Exception (do! on_snd (h envelope) in ret None) (fun e => ret (Some e)) in
  match failed with
  | Some e => _handle_failure message_id d e
  | None =>
      do! (match cs_idempotency cfg with
           | Some ck => on_snd (mark_processed ck (event_id envelope))
           | None => ret tt
           end) in
      do! (fun st => (if c_retry (fst st) then on_snd (rs_clear retry_store message_id) else ret tt) st) in
      ret (true, true)
  end.

Definition _process_message (message_id : string) (d : fields) : Py world (bool * bool) :=
  match _parse message_id d with
  | None =>
      do! (fun st => (if c_dlq (fst st)
                      then catch_Exception (move_to_dlq message_id d "Malformed message") (fun _ => ret tt)
                      else ret tt) st) in
      ret (true, true)
  | Some envelope =>
      let! duplicate := match cs_idempotency cfg with
                        | Some ck => on_snd (is_processed ck (event_id envelope))
                        | None => ret false
                        end in
      if (duplicate : bool) then ret (true, true)
      else match _resolve_handler (cs_handlers cfg) (event_type envelope) with
           | Exc e => raise e
           | Ret None => ret (true, true)
           | Ret (Some h) => run_handler message_id d envelope h
           end
  end.

Definition _ack (message_id : string) : Py world unit := fun st =>
  if c_redis (fst st) then
    (let! _ := command (cmd_xack (cs_stream cfg) (cs_group cfg) message_id) in ret tt) st
  else (Ret tt, st).

Definition process_and_ack (m : string * fields) : Py world unit :=
  let! r := _process_message (fst m) (snd m) in
  if snd r then _ack (fst m) else ret tt.

(** The [try] body of one iteration of [_consume_loop]. *)
Definition consume_once : Py world unit :=
  let! messages := command (cmd_xreadgroup (cs_group cfg) (cs_name cfg) (cs_stream cfg) (cs_batch_size cfg)) in
  mfor messages process_and_ack.

Definition _claim_once : Py world Z := fun st =>
  if negb (c_redis (fst st)) then (Ret 0, st)
  else
    (let! r := command (cmd_xautoclaim (cs_stream cfg) (cs_group cfg) (cs_name cfg)
                          (cs_claim_min_idle_ms cfg) (cs_claim_count cfg)) in
     do! mfor (fst r) process_and_ack in
     ret (Z.of_nat (length (fst r)))) st.

(** ** Life cycle *)

Definition _ensure_consumer_group : Py world unit := fun st =>
  if negb (c_redis (fst st)) then (Ret tt, st)
  else catch (command (cmd_xgroup_create (cs_stream cfg) (cs_group cfg)))
         (fun e => if isinstance e RedisResponseError && contains "BUSYGROUP" (str_exn e)
                   then ret tt else raise e) st.

Definition sweep_consumer (ci : consumer_info) : Py world unit :=
  if negb (nonempty (ci_name ci)) || bool_decide (ci_name ci = cs_name cfg) then ret tt
  else if (ci_pending ci =? 0) && (cs_zombie_idle_ms cfg <=? ci_idle ci) then
    catch (let! _ := command (cmd_xgroup_delconsumer (cs_stream cfg) (cs_group cfg) (ci_name ci)) in ret tt)
      (fun e => if isinstance e RedisResponseError then ret tt else raise e)
  else ret tt.
Definition _sweep_zombie_consumers : Py world unit := fun st =>
  if negb (c_redis (fst st)) then (Ret tt, st)
  else
    (let! cs := catch (let! cs := command (cmd_xinfo_consumers (cs_stream cfg) (cs_group cfg)) in ret (Some cs))
                  (fun e => if isinstance e RedisResponseError then ret None else raise e) in
     match cs with
     | Some cs => mfor cs sweep_consumer
     | None => ret tt
     end) st.

Definition connect : Py world unit := fun '(c, w) =>
  (do! _ensure_consumer_group in _sweep_zombie_consumers)
    (mkCstate true true true (c_running c), w).
(** [await aclose(close_connection_pool=True)], which may raise, and [self._redis = None] after it. *)
Definition close_client : Py world unit :=
  do! on_snd (aclose (S := S)) in
  modify (fun st => (mkCstate false (c_dlq (fst st)) (c_retry (fst st)) (c_running (fst st)), snd st)).
Definition disconnect : Py world unit := fun st =>
  (if c_redis (fst st) then close_client else ret tt) st.
Definition set_running (b : bool) : Py world unit := fun '(c, w) =>
  (Ret tt, (mkCstate (c_redis c) (c_dlq c) (c_retry c) b, w)).
Definition stop : Py world unit := do! set_running false in disconnect.

(** [_deregister_consumer]: its own client, errors of Redis and the socket swallowed; what
    closing that client raises is not. *)
Definition _deregister_consumer : Py world unit :=
  finally
    (catch
      (let! pending := command (cmd_xpending_range (cs_stream cfg) (cs_group cfg) (cs_name cfg) 1) in
       match pending with
       | _ :: _ => ret tt
       | [] => let! _ := command (cmd_xgroup_delconsumer (cs_stream cfg) (cs_group cfg) (cs_name cfg)) in ret tt
       end)
      (fun e => if isinstance e RedisError || isinstance e OSError then ret tt else raise e))
    (on_snd (aclose (S := S))).

(** What one iteration of [_consume_loop] does with the outcome of its body. *)
Inductive loop_action := Continue | Reconnect | Break | Pause (seconds : Z) | Propagate (e : exn).
Definition loop_reaction (running : bool) (o : outcome exn unit) : loop_action :=
  match o with
  | Ret _ => Continue
  | Exc e =>
      if isinstance e RedisTimeoutError then Continue
      else if isinstance e RedisConnectionError then (if running then Reconnect else Break)
      else match e with
           | PyErr CancelledError _ => Break
           | _ => if is_Exception e then Pause 1 else Propagate e
           end
  end.
Definition reconnect : Py world unit :=
  catch_Exception (do! disconnect in connect) (fun _ => ret tt).
(** One pass through the loop body and its handlers: go on? *)
Definition consume_iteration : Py world bool := fun st =>
  if negb (c_running (fst st)) then (Ret false, st)
  else
    let (o, st1) := consume_once st in
    match loop_reaction (c_running (fst st1)) o with
    | Continue | Pause _ => (Ret true, st1)
    | Break => (Ret false, st1)
    | Propagate e => (Exc e, st1)
    | Reconnect => (do! reconnect in ret true) st1
    end.
End Consumer.

(** ** Every branch of [_process_message] *)

Section Cases.
Context {W S : Type} `{RedisDoc S, !StreamServer S, !StreamDoc S} `{RedisConn W S, !RedisConnDoc W S}.
Variables (clock : W -> string) (cfg : consumer_config W).

(** The dead-letter write: the command that [w] saw, spelled out.  It raised, or its entry
    is on the dead-letter stream of [w']. *)
Definition dead_lettered (id : string) (d : fields) (reason : string) (w w' : W) : Prop :=
  let stream := cs_stream cfg +:+ "_dead_letter" in
  let letter := [("original_message_id", id); ("original_stream", cs_stream cfg);
    ("consumer_group", cs_group cfg); ("failure_reason", reason); ("timestamp", clock w);
    ("original_data", dumps (JObj (map (fun kv => (fst kv, JStr (snd kv))) d)))] in
  exists o, rexec (cmd_xadd stream letter (Some 10000)) w = (o, w') /\
    forall dl, o = Ret dl -> (dl, letter) ∈ srv_entries (srv w') stream.

(** The failed attempt was counted in the group's retry hash, or could not be. *)
Definition counted (c : cstate) (id : string) (w : W) (attempts : Z) (w' : W) : Prop :=
  let key := cs_stream cfg +:+ ":" +:+ cs_group cfg +:+ ":retries" in
  if c_retry c then
    exists o w1, rexec (cmd_hincrby key id 1) w = (o, w1) /\
    match o with
    | Ret n => exists o', rexec (cmd_expire key 86400) w1 = (o', w') /\
        attempts = match o' with Ret _ => n | Exc _ => max_retries (cs_policy cfg) end
    | Exc _ => w' = w1 /\ attempts = max_retries (cs_policy cfg)
    end
  else attempts = 1 /\ w' = w.
(** The message's attempts were forgotten. *)
Definition forgotten (c : cstate) (id : string) (w w' : W) : Prop :=
  if c_retry c then exists n, rexec (cmd_hdel (cs_stream cfg +:+ ":" +:+ cs_group cfg +:+ ":retries") id) w
    = (Ret n, w') else w' = w.
(** The duplicate checker's two answers; without one nothing is a duplicate. *)
Definition checked (e : EventEnvelope) (w : W) (duplicate : bool) (w' : W) : Prop :=
  match cs_idempotency cfg with
  | Some ck => is_processed ck (event_id e) w = (Ret duplicate, w')
  | None => duplicate = false /\ w' = w
  end.
Definition marked (e : EventEnvelope) (w w' : W) : Prop :=
  match cs_idempotency cfg with
  | Some ck => mark_processed ck (event_id e) w = (Ret tt, w')
  | None => w' = w
  end.

(** What the verdict [(handler_ok, should_ack)] on a message stands for: the calls that led from the
    world [w] it was delivered in to the world [w'] after it, each from the world the one before left. *)
Inductive verdict (c : cstate) (id : string) (d : fields) (w : W) : bool * bool -> W -> Prop :=
| Malformed w' : _parse cfg id d = None ->
    (if c_dlq c then dead_lettered id d "Malformed message" w w' else w' = w) ->
    verdict c id d w (true, true) w'
| Duplicate e w' : _parse cfg id d = Some e -> checked e w true w' -> verdict c id d w (true, true) w'
| Unhandled e w' : _parse cfg id d = Some e -> checked e w false w' ->
    _resolve_handler (cs_handlers cfg) (event_type e) = Ret None -> verdict c id d w (true, true) w'
| Handled e h w1 w2 w3 w' : _parse cfg id d = Some e -> checked e w false w1 ->
    _resolve_handler (cs_handlers cfg) (event_type e) = Ret (Some h) ->
    h e w1 = (Ret tt, w2) -> marked e w2 w3 -> forgotten c id w3 w' ->
    verdict c id d w (true, true) w'
| Exhausted e h w1 w2 err attempts w3 w4 w' : _parse cfg id d = Some e -> checked e w false w1 ->
    _resolve_handler (cs_handlers cfg) (event_type e) = Ret (Some h) ->
    h e w1 = (Exc err, w2) -> counted c id w2 attempts w3 ->
    max_retries (cs_policy cfg) <= attempts ->
    (if c_dlq c then dead_lettered id d ("Max retries exceeded: " +:+ str_exn err) w3 w4 else w4 = w3) ->
    forgotten c id w4 w' -> verdict c id d w (false, true) w'
| Retry e h w1 w2 err attempts w' : _parse cfg id d = Some e -> checked e w false w1 ->
    _resolve_handler (cs_handlers cfg) (event_type e) = Ret (Some h) ->
    h e w1 = (Exc err, w2) -> counted c id w2 attempts w' ->
    attempts < max_retries (cs_policy cfg) -> verdict c id d w (false, false) w'.

Lemma on_snd_inv {A} (k : Py W A) (st : cstate * W) o st' :
  on_snd k st = (o, st') -> k (snd st) = (o, snd st') /\ fst st' = fst st.
Proof. unfold on_snd. destruct (k (snd st)). by intros [= <- <-]. Qed.

Lemma move_dead_letters id d reason (st : cstate * W) o st' :
  catch_Exception (move_to_dlq clock cfg id d reason) (fun _ => ret tt) st = (o, st') ->
  fst st' = fst st /\ dead_lettered id d reason (snd st) (snd st').
Proof.
  unfold catch_Exception, catch, move_to_dlq, dlq_move, dead_lettered.
  destruct (on_snd _ st) as [o1 st1] eqn:E. apply on_snd_inv in E as [E Hc].
  unfold bind, gets in E. cbn beta iota in E.
  change (dead_letter_stream_name (cs_stream cfg)) with (cs_stream cfg +:+ "_dead_letter") in E.
  change (dlq_entry _ _ _ _ _ _) with
    [("original_message_id", id); ("original_stream", cs_stream cfg);
     ("consumer_group", cs_group cfg); ("failure_reason", reason); ("timestamp", clock (snd st));
     ("original_data", dumps (JObj (map (fun kv => (fst kv, JStr (snd kv))) d)))] in E.
  destruct (rexec _ (snd st)) as [[dl|e] w'] eqn:Er; injection E as <- ->.
  - intros [= <- <-]. split; [done |]. exists (Ret dl). split; [done |].
    intros ? [= <-]. by apply xadd_returned in Er.
  - intros Hh. assert (st' = st1) as -> by (destruct (is_Exception e); by injection Hh).
    split; [done |]. exists (Exc e). by split.
Qed.

Lemma increment_counted id (st : cstate * W) o st' :
  catch_Exception
    (fun st => (if c_retry (fst st) then on_snd (rs_increment (retry_store cfg) id) else ret 1) st)
    (fun _ => ret (max_retries (cs_policy cfg))) st = (Ret o, st') ->
  fst st' = fst st /\ counted (fst st) id (snd st) o (snd st').
Proof.
  unfold catch_Exception, catch, counted. destruct (c_retry (fst st)); [| intros [= <- <-]; auto].
  destruct (on_snd _ st) as [o1 st1] eqn:E. apply on_snd_inv in E as [E Hc].
  unfold rs_increment, bind, ret in E.
  change (rs_key (retry_store cfg)) with (cs_stream cfg +:+ ":" +:+ cs_group cfg +:+ ":retries") in E.
  change (rs_ttl (retry_store cfg)) with 86400 in E.
  destruct (rexec (cmd_hincrby _ id 1) (snd st)) as [[n|e] w1] eqn:Eh.
  - destruct (rexec (cmd_expire _ 86400) w1) as [[b|e] w2] eqn:Ee; injection E as <- ->.
    + intros [= <- <-]. split; [done |]. exists (Ret n), w1. split; [done |]. by exists (Ret b).
    + destruct (is_Exception e); intros [= <- <-]. split; [done |].
      exists (Ret n), w1. split; [done |]. by exists (Exc e).
  - injection E as <- ->. destruct (is_Exception e); intros [= <- <-]. split; [done |].
    by exists (Exc e), (snd st1).
Qed.
Lemma clear_forgets id (st : cstate * W) st' :
  (fun st => (if c_retry (fst st) then on_snd (rs_clear (retry_store cfg) id) else ret tt) st) st
    = (Ret tt, st') -> fst st' = fst st /\ forgotten (fst st) id (snd st) (snd st').
Proof.
  unfold forgotten. cbn beta. destruct (c_retry (fst st)); [| by intros [= <-]].
  intros [E Hc]%on_snd_inv. split; [done |]. unfold rs_clear in E.
  apply bind_Ret_inv in E as (n & w1 & E & [= <-]). by exists n.
Qed.

Lemma failure_verdict id d e h w0 w1 err (st : cstate * W) r st' :
  _parse cfg id d = Some e -> checked e w0 false w1 ->
  _resolve_handler (cs_handlers cfg) (event_type e) = Ret (Some h) ->
  h e w1 = (Exc err, snd st) ->
  _handle_failure clock cfg id d err st = (Ret r, st') ->
  fst st' = fst st /\ verdict (fst st) id d w0 r (snd st').
Proof.
  intros Hp Hk Hr Hh E. unfold _handle_failure in E.
  apply bind_Ret_inv in E as (n & st1 & Ei & E).
  apply increment_counted in Ei as [Hc1 Hcnt].
  destruct (_ <=? n) eqn:En.
  - apply bind_Ret_inv in E as ([] & st2 & Ed & E). apply bind_Ret_inv in E as ([] & st3 & Ec & E).
    injection E as <- <-. apply clear_forgets in Ec as [Hc3 Hf].
    assert (fst st2 = fst st1 /\ if c_dlq (fst st1)
      then dead_lettered id d ("Max retries exceeded: " +:+ str_exn err) (snd st1) (snd st2)
      else snd st2 = snd st1) as [Hc2 Hd].
    { destruct (c_dlq (fst st1)); [by apply move_dead_letters in Ed | by injection Ed as <-]. }
    split; [congruence |]. rewrite Hc2, Hc1 in Hf. rewrite Hc1 in Hd.
    eapply (Exhausted _ _ _ _ e h w1 _ err n); [exact Hp | exact Hk | exact Hr | exact Hh | exact Hcnt | lia | exact Hd | exact Hf].
  - injection E as <- <-. split; [done |].
    eapply Retry; [exact Hp | exact Hk | exact Hr | exact Hh | exact Hcnt | lia].
Qed.

Lemma process_verdict id d c w r st' :
  _process_message clock cfg id d (c, w) = (Ret r, st') ->
  fst st' = c /\ verdict c id d w r (snd st').
Proof.
  unfold _process_message. destruct (_parse cfg id d) as [e|] eqn:Hp.
  - intros E. apply bind_Ret_inv in E as (dup & st1 & Ed & E).
    assert (Hd : fst st1 = c /\ checked e w dup (snd st1)).
    { unfold checked. destruct (cs_idempotency cfg) as [ck|]; [| by injection Ed as <- <-].
      by apply on_snd_inv in Ed as [Ed Hf]. }
    destruct Hd as [Hc Hd]. destruct dup.
    { injection E as <- <-. split; [done |]. by eapply Duplicate. }
    destruct (_resolve_handler _ _) as [[h|]|x] eqn:Hr; [| injection E as <- <-; split; [done |]; by eapply Unhandled | done].
    unfold run_handler in E. apply bind_Ret_inv in E as (failed & st2 & Ef & E).
    unfold catch_Exception, catch, bind in Ef.
    destruct (on_snd (h e) st1) as [o st3] eqn:Eh. apply on_snd_inv in Eh as [Eh Hc3].
    destruct o as [[]|err].
    + injection Ef as <- <-. apply bind_Ret_inv in E as ([] & st4 & Em & E).
      assert (fst st4 = fst st3 /\ marked e (snd st3) (snd st4)) as [Hc4 Hm].
      { unfold marked. destruct (cs_idempotency cfg) as [ck|]; [| by injection Em as <-].
        by apply on_snd_inv in Em as [Em Hf]. }
      apply bind_Ret_inv in E as ([] & st5 & Ec & E). apply clear_forgets in Ec as [Hc5 Hf].
      injection E as <- <-. split; [congruence |]. rewrite Hc4, Hc3, Hc in Hf.
      eapply Handled; [exact Hp | exact Hd | exact Hr | exact Eh | exact Hm | exact Hf].
    + destruct (is_Exception err); [| done]. injection Ef as <- <-.
      rewrite Hc in Hc3. rewrite <- Hc3. eapply failure_verdict; eauto.
  - intros E. apply bind_Ret_inv in E as ([] & st1 & Ed & E). injection E as <- <-.
    cbn [fst] in Ed. destruct (c_dlq c) eqn:Hq.
    + apply move_dead_letters in Ed as [Hc Hd]. split; [done |]. apply Malformed; [done |]. by rewrite Hq.
    + injection Ed as <-. split; [done |]. apply Malformed; [done |]. by rewrite Hq.
Qed.
End Cases.

(** C28. What the consumer's verdict on a message means.  Whenever [_process_message]
    returns from a world, one of the documented outcomes took place in that run, each of its calls made
    in the world the call before left, the last of them leaving the world the run ends in:
    malformed (the dead-letter command ran with the message, the reason and the clock of that moment,
    and its entry is on the dead-letter stream unless it raised); duplicate according to the checker;
    no handler for its type; handler returned, then the event marked and its attempts forgotten; handler
    raised with the attempts used up (counted, dead-lettered with the reason, attempts forgotten);
    or handler raised with attempts left, the failure counted -- the only verdict without
    acknowledgement.  The consumer's own attributes do not change. *)
Theorem process_message_verdict {W S} `{RedisDoc S, !StreamServer S, !StreamDoc S}
    `{RedisConn W S, !RedisConnDoc W S} clock (cfg : consumer_config W) id d c w r c' w' :
  _process_message clock cfg id d (c, w) = (Ret r, (c', w')) ->
  c' = c /\ verdict clock cfg c id d w r w' /\
  (snd r = false -> r = (false, false) /\ exists e h w1 err w2 attempts,
     _parse cfg id d = Some e /\ checked cfg e w false w1 /\
     _resolve_handler (cs_handlers cfg) (event_type e) = Ret (Some h) /\ h e w1 = (Exc err, w2) /\
     counted cfg c id w2 attempts w' /\ attempts < max_retries (cs_policy cfg)).
Proof.
  intros E. apply process_verdict in E as [Hc E]. split; [done |]. split; [done |]. cbn in *.
  destruct E; cbn; try discriminate. intros _. split; [done | eauto 20].
Qed.

(** ** Nothing leaves the pending list unsettled *)

Section Pending.
Context {W S : Type} `{RedisDoc S, !StreamServer S, !StreamDoc S} `{RedisConn W S, !RedisConnDoc W S}.
Variables (clock : W -> string) (cfg : consumer_config W) (id : string).

Definition pending (w : W) : Prop := id ∈ dom (srv_pel (srv w) (cs_stream cfg) (cs_group cfg)).
Definition st_pending (st : cstate * W) : Prop := pending (snd st).

(** The service's handlers and the checker leave the group's pending list alone. *)
Definition quiet : Prop :=
  (forall p h e, (p, h) ∈ cs_handlers cfg -> preserves pending (h e)) /\
  (forall ck e, cs_idempotency cfg = Some ck ->
     preserves pending (is_processed ck e) /\ preserves pending (mark_processed ck e)).
Hypothesis Hquiet : quiet.

Definition keeps_id {A} (c : Srv S A) : Prop := forall s,
  id ∈ dom (srv_pel s (cs_stream cfg) (cs_group cfg)) ->
  id ∈ dom (srv_pel (snd (c s)) (cs_stream cfg) (cs_group cfg)).

Lemma rexec_keeps {A} (c : Srv S A) : keeps_id c -> preserves pending (rexec c).
Proof.
  intros Hk w Hw. unfold pending in *.
  assert (Hruns : forall n, id ∈ dom (srv_pel (runs n c (srv w)) (cs_stream cfg) (cs_group cfg))).
  { intros n. by apply (runs_fix c (srv w)
      (fun s => id ∈ dom (srv_pel s (cs_stream cfg) (cs_group cfg)))). }
  destruct (rexec c w) as [[a|e] w'] eqn:E; cbn.
  - apply rexec_ret in E as [n E]. specialize (Hk _ (Hruns n)). by rewrite E in Hk.
  - apply rexec_exc in E as [n ->]. done.
Qed.
Lemma keeps_streams_id {A} (c : Srv S A) : keeps_streams c -> keeps_id c.
Proof. intros Hc s. destruct (Hc s) as [_ ->]. done. Qed.
Lemma on_snd_keeps {A} (k : Py W A) : preserves pending k -> preserves st_pending (on_snd (V := cstate) k).
Proof.
  intros Hk [c w] Hw. unfold on_snd, st_pending in *. cbn in *. specialize (Hk w Hw).
  by destruct (k w).
Qed.

Lemma retry_keeps mid : preserves pending (rs_increment (retry_store cfg) mid) /\
  preserves pending (rs_clear (retry_store cfg) mid).
Proof.
  destruct keys_frame as (Hi & Hd & He & _).
  split; unfold rs_increment, rs_clear.
  - apply preserves_bind; [apply rexec_keeps, keeps_streams_id, Hi | intros n].
    apply preserves_bind; [apply rexec_keeps, keeps_streams_id, He | auto with py].
  - apply preserves_bind; [apply rexec_keeps, keeps_streams_id, Hd | auto with py].
Qed.
Lemma dlq_keeps mid d reason : preserves st_pending
  (catch_Exception (move_to_dlq clock cfg mid d reason) (fun _ => ret tt)).
Proof.
  unfold catch_Exception, move_to_dlq. apply preserves_catch.
  - apply on_snd_keeps. unfold dlq_move. apply preserves_bind; [auto with py | intros now].
    apply preserves_bind; [apply rexec_keeps | auto with py].
    intros s Hs. destruct (xadd_frame (dead_letter_stream_name (cs_stream cfg))
      (dlq_entry now mid (cs_stream cfg) (cs_group cfg) reason d) (Some 10000)) as [_ ->]. done.
  - intros e. case_match; auto with py.
Qed.
Lemma clear_keeps mid : preserves st_pending (fun st => (if c_retry (fst st)
  then on_snd (rs_clear (retry_store cfg) mid) else ret tt) st).
Proof.
  apply (preserves_read _ (fun st => c_retry (fst st))
    (fun b => if (b : bool) then on_snd (rs_clear (retry_store cfg) mid) else ret tt)).
  intros [|]; [apply on_snd_keeps, retry_keeps | auto with py].
Qed.
Lemma failure_keeps mid d e : preserves st_pending (_handle_failure clock cfg mid d e).
Proof.
  unfold _handle_failure. apply preserves_bind.
  - unfold catch_Exception. apply preserves_catch; [| intros x; case_match; auto with py].
    apply (preserves_read _ (fun st => c_retry (fst st)) (fun b => if (b : bool)
      then on_snd (rs_increment (retry_store cfg) mid) else ret 1)).
    intros [|]; [apply on_snd_keeps, retry_keeps | auto with py].
  - intros n. case_match; [| auto with py]. apply preserves_bind.
    + apply (preserves_read _ (fun st => c_dlq (fst st)) (fun b => if (b : bool)
        then catch_Exception _ (fun _ => ret tt) else ret tt)).
      intros [|]; [apply dlq_keeps | auto with py].
    + intros _. apply preserves_bind; [apply clear_keeps | auto with py].
Qed.

Lemma wildcard_registered e hs h :
  match_wildcard (W := W) e hs = Ret (Some h) -> exists p, (p, h) ∈ hs.
Proof.
  induction hs as [|[p h'] hs IH]; cbn; [done |].
  destruct (endswith p ".*"); [destruct e; try done; case_match |]; intros E;
    try (injection E as ->; exists p; left); destruct (IH E) as [q Hq]; exists q; by right.
Qed.
Lemma resolve_registered e hs h :
  _resolve_handler (W := W) hs e = Ret (Some h) -> exists p, (p, h) ∈ hs.
Proof.
  unfold _resolve_handler. destruct (hash_key e); cbn; [| done].
  destruct e; try apply wildcard_registered. destruct (dget s hs) eqn:E; [| apply wildcard_registered].
  intros [= ->]. exists s. by apply dget_in.
Qed.

Lemma process_keeps mid d : preserves st_pending (_process_message clock cfg mid d).
Proof.
  destruct Hquiet as [Hh Hck]. unfold _process_message. destruct (_parse cfg mid d) as [e|].
  - apply preserves_bind.
    + destruct (cs_idempotency cfg) as [ck|] eqn:Eck; [| auto with py].
      apply on_snd_keeps. by apply Hck.
    + intros [|]; [auto with py |].
      destruct (_resolve_handler _ _) as [[h|]|x] eqn:Er; [| auto with py | auto with py].
      apply resolve_registered in Er as [p Hp]. unfold run_handler. apply preserves_bind.
      * unfold catch_Exception. apply preserves_catch; [| intros x; case_match; auto with py].
        apply preserves_bind; [apply on_snd_keeps; eauto | auto with py].
      * intros [err|]; [apply failure_keeps |]. apply preserves_bind.
        -- destruct (cs_idempotency cfg) as [ck|] eqn:Eck; [| auto with py].
           apply on_snd_keeps. by apply Hck.
        -- intros _. apply preserves_bind; [apply clear_keeps | auto with py].
  - apply preserves_bind; [| auto with py].
    apply (preserves_read _ (fun st => c_dlq (fst st)) (fun b => if (b : bool)
      then catch_Exception _ (fun _ => ret tt) else ret tt)).
    intros [|]; [apply dlq_keeps | auto with py].
Qed.

Lemma ack_keeps mid : mid <> id -> preserves st_pending (_ack cfg mid).
Proof.
  intros Hne. unfold _ack.
  apply (preserves_read _ (fun st => c_redis (fst st)) (fun b st => if (b : bool)
    then (let! _ := command (cmd_xack (cs_stream cfg) (cs_group cfg) mid) in ret tt) st
    else (Ret tt, st))).
  intros [|]; [| by intros st Hst]. apply (preserves_bind st_pending); [| auto with py].
  apply on_snd_keeps, rexec_keeps. intros s Hs.
  destruct (cmd_xack (cs_stream cfg) (cs_group cfg) mid s) as [[n|e] s'] eqn:E; cbn.
  - rewrite (xack_removes _ _ _ _ _ _ E). set_solver.
  - destruct (xack_error _ _ _ _ _ _ E) as [_ ->]. done.
Qed.

(** The pass over the delivered messages [ms] settled the message: it went through those before it, and
    [_process_message], run where they left off, gave it a verdict with acknowledgement. *)
Definition settled_in (ms : list (string * fields)) (st : cstate * W) : Prop :=
  exists pre d post st1 ok st2, ms = pre ++ (id, d) :: post /\
    mfor pre (process_and_ack clock cfg) st = (Ret tt, st1) /\
    _process_message clock cfg id d st1 = (Ret (ok, true), st2) /\
    verdict clock cfg (fst st1) id d (snd st1) (ok, true) (snd st2).

Lemma batch_keeps ms : forall st,
  st_pending st -> st_pending (snd (mfor ms (process_and_ack clock cfg) st)) \/ settled_in ms st.
Proof.
  induction ms as [|[mid d] ms IH]; intros st Hst; cbn [mfor]; [by left |].
  pose proof (process_keeps mid d st Hst) as Hp.
  destruct (_process_message clock cfg mid d st) as [[[ok ack]|e] st1] eqn:Ep; cbn in Hp.
  2: { left. rewrite (bind_Exc _ _ _ e st1); [done |]. by apply bind_Exc. }
  destruct (decide (mid = id /\ ack = true)) as [[-> ->] | Hne].
  { right. exists [], d, ms, st, ok, st1. split_and!; try done. destruct st. by apply process_verdict in Ep as [_ Hv]. }
  assert (st_pending (snd (process_and_ack clock cfg (mid, d) st))) as Ha.
  { unfold process_and_ack. rewrite (bind_Ret _ _ _ _ _ Ep). cbn [fst snd].
    destruct ack; [| done]. apply ack_keeps; [naive_solver | done]. }
  destruct (process_and_ack clock cfg (mid, d) st) as [[[]|e] st2] eqn:Ea; cbn [snd] in Ha.
  2: { left. by rewrite (bind_Exc _ _ _ _ _ Ea). }
  rewrite (bind_Ret _ _ _ _ _ Ea). destruct (IH st2 Ha) as [Hk | Hs]; [by left | right].
  destruct Hs as (pre & d' & post & st3 & ok' & st4 & -> & Hpre & Hrest).
  exists ((mid, d) :: pre), d', post, st3, ok', st4. split; [done |]. split; [| done].
  cbn [mfor]. by rewrite (bind_Ret _ _ _ _ _ Ea).
Qed.

Lemma readgroup_keeps : keeps_id
  (cmd_xreadgroup (cs_group cfg) (cs_name cfg) (cs_stream cfg) (cs_batch_size cfg)).
Proof.
  intros s Hs. destruct (cmd_xreadgroup _ _ _ _ s) as [[ms|e] s'] eqn:E; cbn.
  - destruct (xreadgroup_pending _ _ _ _ _ _ _ E) as [Hin Hout].
    destruct (decide (id ∈ ms.*1)) as [Hm | Hm].
    + apply list_elem_of_fmap in Hm as ([i f] & -> & Hm). apply elem_of_dom.
      cbn [fst]. destruct (Hin i f Hm) as [_ ->]. eauto.
    + apply elem_of_dom. rewrite (Hout id Hm). by apply elem_of_dom.
  - destruct (xreadgroup_error _ _ _ _ _ _ _ E) as [_ ->]. done.
Qed.
(** A delivered message is pending from the moment it is read. *)
Lemma readgroup_pending (w : W) ms w' :
  rexec (cmd_xreadgroup (cs_group cfg) (cs_name cfg) (cs_stream cfg) (cs_batch_size cfg)) w = (Ret ms, w') ->
  id ∈ ms.*1 -> pending w'.
Proof.
  intros (n & E)%rexec_ret ([i f] & Hid & Hm)%list_elem_of_fmap. unfold pending. rewrite Hid.
  destruct (xreadgroup_pending _ _ _ _ _ _ _ E) as [Hin _].
  apply elem_of_dom. destruct (Hin i f Hm) as [_ Ho]. cbn [fst]. rewrite Ho. eauto.
Qed.

Lemma autoclaim_keeps s n :
  let c := cmd_xautoclaim (cs_stream cfg) (cs_group cfg) (cs_name cfg)
             (cs_claim_min_idle_ms cfg) (cs_claim_count cfg) in
  let inv s := id ∈ dom (srv_pel s (cs_stream cfg) (cs_group cfg)) /\
               id ∈ (srv_entries s (cs_stream cfg)).*1 in
  inv s -> inv (runs n c s).
Proof.
  intros c inv Hs. apply (runs_fix c s inv n Hs). clear s Hs. intros s [Hp He].
  split; [| subst c; by rewrite xautoclaim_entries].
  destruct (c s) as [[[ms del]|e] s'] eqn:E; cbn.
  - destruct (xautoclaim_claims _ _ _ _ _ _ _ _ _ E) as (Hin & Hout & Hdel).
    destruct (decide (id ∈ ms.*1)) as [Hm | Hm].
    + apply list_elem_of_fmap in Hm as ([i f] & -> & Hm). apply elem_of_dom.
      cbn [fst]. destruct (Hin i f Hm) as (_ & _ & ->). eauto.
    + apply elem_of_dom. rewrite Hout; [by apply elem_of_dom | done |].
      intros Hd. by apply (Hdel id Hd).
  - destruct (xautoclaim_error _ _ _ _ _ _ _ _ E) as [_ ->]. done.
Qed.
Lemma claim_keeps st :
  st_pending st -> id ∈ (srv_entries (srv (snd st)) (cs_stream cfg)).*1 ->
  st_pending (snd (_claim_once clock cfg st)) \/
  exists ms del st1, command (cmd_xautoclaim (cs_stream cfg) (cs_group cfg) (cs_name cfg)
      (cs_claim_min_idle_ms cfg) (cs_claim_count cfg)) st = (Ret (ms, del), st1) /\ settled_in ms st1.
Proof.
  intros Hp He. unfold _claim_once. destruct (c_redis (fst st)); cbn [negb]; [| by left].
  unfold bind at 1, command, on_snd.
  set (c := cmd_xautoclaim _ _ _ _ _).
  assert (Hk : pending (snd (rexec c (snd st)))).
  { destruct (rexec c (snd st)) as [[r|e] w'] eqn:E; cbn.
    - apply rexec_ret in E as [n E].
      destruct (autoclaim_keeps (srv (snd st)) (1 + n)) as [Hd _]; [by split |].
      change (runs (1 + n) ?c' (srv (snd st))) with (snd (c (runs n c (srv (snd st))))) in Hd.
      by rewrite E in Hd.
    - apply rexec_exc in E as [n E].
      destruct (autoclaim_keeps (srv (snd st)) n) as [Hd _]; [by split |]. unfold pending. by rewrite E. }
  destruct (rexec c (snd st)) as [[[ms del]|e] w']; cbn [snd fst] in Hk |- *; [| by left].
  unfold bind. destruct (batch_keeps ms (fst st, w') Hk) as [Hb | Hb]; [left | right; by exists ms, del, (fst st, w')].
  by destruct (mfor ms _ _) as [[[]|e] st'].
Qed.
End Pending.

(** C1. No message is lost on the way.  Let the handlers and the checker leave the
    group's pending list alone.  Then, however a pass ends (normally or by any
    exception, after any number of lost replies), a message that was pending before a
    claim pass (and not trimmed from its stream), or that a read delivered, is still
    pending after the pass unless this very pass settled it: the read or claim returned it, the
    messages before it were gone through, and [_process_message] gave it, from there, a verdict with
    acknowledgement -- malformed, duplicate, unhandled, handled, or out of attempts. *)
Theorem pending_until_acknowledged {W S} `{RedisDoc S, !StreamServer S, !StreamDoc S}
    `{RedisConn W S, !RedisConnDoc W S} clock (cfg : consumer_config W) id st :
  quiet cfg id ->
  (st_pending cfg id st -> id ∈ (srv_entries (srv (snd st)) (cs_stream cfg)).*1 ->
     st_pending cfg id (snd (_claim_once clock cfg st)) \/
     exists ms del st1, command (cmd_xautoclaim (cs_stream cfg) (cs_group cfg) (cs_name cfg)
       (cs_claim_min_idle_ms cfg) (cs_claim_count cfg)) st = (Ret (ms, del), st1) /\
       settled_in clock cfg id ms st1) /\
  (forall read, read = command (cmd_xreadgroup (cs_group cfg) (cs_name cfg) (cs_stream cfg)
       (cs_batch_size cfg)) st ->
     st_pending cfg id st \/ (exists ms st1, read = (Ret ms, st1) /\ id ∈ ms.*1) ->
     st_pending cfg id (snd (consume_once clock cfg st)) \/
     exists ms st1, read = (Ret ms, st1) /\ settled_in clock cfg id ms st1).
Proof.
  intros Hq. split; [by apply claim_keeps |]. intros read Eread Hst. unfold consume_once.
  assert (st_pending cfg id (snd read)) as Hr.
  { destruct Hst as [Hst | (ms & st1 & E & Hin)].
    - rewrite Eread. apply (on_snd_keeps cfg id); [| done]. apply rexec_keeps, readgroup_keeps.
    - rewrite E in *. symmetry in Eread. apply on_snd_inv in Eread as [Eread _]. by eapply readgroup_pending. }
  destruct read as [[ms|e] st1]; symmetry in Eread; cbn [snd] in Hr.
  - rewrite (bind_Ret _ _ _ _ _ Eread).
    destruct (batch_keeps clock cfg id Hq ms st1 Hr) as [Hk | Hs]; [by left | right; eauto].
  - left. by rewrite (bind_Exc _ _ _ _ _ Eread).
Qed.

(** ** Bounded retries *)

Section Retries.
Context {W S : Type} `{RedisDoc S, !StreamServer S, !StreamDoc S} `{RedisConn W S, !RedisConnDoc W S}.
Variables (clock : W -> string) (cfg : consumer_config W) (id : string).

(** The attempts recorded for [id] in the group's retry hash, none if it is no number. *)
Definition counter (m : gmap string entry) : option Z :=
  match hash_of m (rs_key (retry_store cfg)) with
  | Some (h, _) => Z_of_str (default "0" (h !! id))
  | None => None
  end.
Definition at_least (z : Z) (s : S) : Prop := exists n, counter (srv_live s) = Some n /\ z <= n.

Lemma hincr_counter s : let c := cmd_hincrby (rs_key (retry_store cfg)) id 1 in
  match c s with
  | (Ret n, s') => exists n0, counter (srv_live s) = Some n0 /\ n = n0 + 1 /\
                     counter (srv_live s') = Some n
  | (Exc _, s') => srv_live s' = srv_live s
  end.
Proof.
  intros c. destruct (gives_run _ _ _ _ (hincrby_doc (rs_key (retry_store cfg)) id 1 s))
    as (s' & E & Hm & _). subst c. rewrite E. unfold doc_hincrby, counter in *.
  destruct (hash_of (srv_live s) _) as [[h exp]|]; [| cbn in *; congruence].
  destruct (Z_of_str (default "0" (h !! id))) as [n0|]; [| cbn in *; congruence].
  destruct (int64 (n0 + 1)); cbn in *; [| congruence].
  exists n0. repeat split. rewrite Hm. unfold put_hash, hash_of.
  rewrite bool_decide_false by apply insert_non_empty.
  rewrite lookup_insert_eq. cbn. rewrite lookup_insert_eq. apply Z_of_str_of_Z.
Qed.
Lemma expire_counter s :
  counter (srv_live (snd (cmd_expire (rs_key (retry_store cfg)) 86400 s))) = counter (srv_live s).
Proof.
  destruct (expire_doc (rs_key (retry_store cfg)) 86400 s) as (_ & -> & _).
  unfold doc_expire, counter, hash_of. destruct (srv_live s !! rs_key (retry_store cfg)) as [e|] eqn:E; cbn [snd]; [| by rewrite E].
  change (86400 <=? 0) with false. cbv iota. rewrite lookup_insert_eq. cbn [e_val e_exp].
  by destruct (e_val e).
Qed.

Lemma increment_progress z (w : W) n w' :
  rs_increment (retry_store cfg) id w = (Ret n, w') -> at_least z (srv w) ->
  z + 1 <= n /\ at_least n (srv w').
Proof.
  intros E Hz. apply bind_Ret_inv in E as (n' & w1 & Ei & E).
  apply bind_Ret_inv in E as (b & w2 & Ee & E). injection E as -> ->.
  apply rexec_ret in Ei as [k Ei]. apply rexec_ret in Ee as [j Ee].
  set (c := cmd_hincrby (rs_key (retry_store cfg)) id 1) in *.
  assert (Hk : at_least z (runs k c (srv w))).
  { apply (runs_fix c (srv w) (at_least z)); [done |]. intros s (m & Hm & Hle).
    pose proof (hincr_counter s) as Hc. fold c in Hc. cbv zeta in Hc. unfold at_least.
    destruct (c s) as [[r|e] s']; cbn; [destruct Hc as (n0 & Hn0 & -> & ->) | rewrite Hc; eauto].
    eexists. split; [done |]. rewrite Hm in Hn0. injection Hn0 as ->. lia. }
  destruct Hk as (m & Hm & Hle).
  pose proof (hincr_counter (runs k c (srv w))) as Hc. fold c in Hc. cbv zeta in Hc.
  rewrite Ei in Hc. destruct Hc as (n0 & Hn0 & -> & Hn1).
  rewrite Hm in Hn0. injection Hn0 as ->. split; [lia |].
  assert (Hj : counter (srv_live (runs j (cmd_expire (rs_key (retry_store cfg)) 86400) (srv w1))) = Some (n0 + 1)).
  { apply (runs_fix _ (srv w1) (fun s => counter (srv_live s) = Some (n0 + 1))); [done |].
    intros s. by rewrite expire_counter. }
  pose proof (expire_counter (runs j (cmd_expire (rs_key (retry_store cfg)) 86400) (srv w1))) as He.
  change (rs_ttl (retry_store cfg)) with 86400 in Ee. rewrite Ee, Hj in He. cbn in He.
  exists (n0 + 1). split; [done | lia].
Qed.

(** The handlers and the checker leave the retry counters alone. *)
Definition counter_quiet : Prop :=
  (forall p h e z, (p, h) ∈ cs_handlers cfg -> preserves (fun w => at_least z (srv w)) (h e)) /\
  (forall ck e z, cs_idempotency cfg = Some ck ->
     preserves (fun w => at_least z (srv w)) (is_processed ck e)).
Hypothesis Hquiet : counter_quiet.

Lemma retry_progress d (st : cstate * W) st' z :
  _process_message clock cfg id d st = (Ret (false, false), st') -> c_retry (fst st) = true ->
  at_least z (srv (snd st)) ->
  fst st' = fst st /\ at_least (z + 1) (srv (snd st')) /\ z + 1 < max_retries (cs_policy cfg).
Proof.
  destruct Hquiet as [Hh Hck]. intros E Hr Hz. unfold _process_message in E.
  destruct (_parse cfg id d) as [e|]; [| apply bind_Ret_inv in E as (? & ? & _ & E); discriminate E].
  apply bind_Ret_inv in E as (dup & st1 & Ed & E).
  assert (Hst1 : fst st1 = fst st /\ at_least z (srv (snd st1))).
  { destruct (cs_idempotency cfg) as [ck|] eqn:Eck; [| by injection Ed as <- <-].
    apply on_snd_inv in Ed as [Ed Hf]. split; [done |].
    pose proof (Hck ck (event_id e) z eq_refl (snd st) Hz) as Hp. by rewrite Ed in Hp. }
  destruct dup; [discriminate E |]. destruct Hst1 as [Hf1 Hz1].
  destruct (_resolve_handler _ _) as [[h|]|x] eqn:Er; [| discriminate E | discriminate E].
  apply resolve_registered in Er as [p Hp].
  unfold run_handler in E. apply bind_Ret_inv in E as (failed & st2 & Ef & E).
  destruct failed as [err|]; [| do 2 apply bind_Ret_inv in E as (? & ? & _ & E); discriminate E].
  assert (Hst2 : fst st2 = fst st /\ at_least z (srv (snd st2))).
  { unfold catch_Exception, catch, bind in Ef. pose proof (Hh p h e z Hp (snd st1) Hz1) as Hz2.
    destruct (on_snd (h e) st1) as [o st3] eqn:Eh. apply on_snd_inv in Eh as [Eh Hf3].
    rewrite Eh in Hz2. destruct o; [discriminate Ef |].
    destruct (is_Exception _); [| discriminate Ef]. injection Ef as <- <-. by rewrite Hf3. }
  destruct Hst2 as [Hf2 Hz2]. unfold _handle_failure in E.
  apply bind_Ret_inv in E as (n & st3 & Ei & E).
  apply (increment_counted cfg) in Ei as [Hf3 Hcnt]. unfold counted in Hcnt. rewrite Hf2, Hr in Hcnt.
  destruct (_ <=? n) eqn:En; [do 2 apply bind_Ret_inv in E as (? & ? & _ & E); discriminate E |].
  injection E as <-. destruct Hcnt as ([k|x] & w1 & Ek & Hcnt); [| lia].
  destruct Hcnt as ([b|x] & Eb & ->); [| lia].
  assert (rs_increment (retry_store cfg) id (snd st2) = (Ret k, snd st3)) as Hi
    by (unfold rs_increment; rewrite (bind_Ret _ _ _ _ _ Ek); exact (bind_Ret _ (fun _ => ret k) _ _ _ Eb)).
  destruct (increment_progress z _ _ _ Hi Hz2) as [Hn Hat]. split; [congruence |]. split; [| lia].
  destruct Hat as (m & Hm & Hle). exists m. split; [done | lia].
Qed.

(** [n] deliveries of the message that all failed and left it pending; between two of
    them anything may happen that does not lower its attempt counter. *)
Inductive failing (d : fields) : nat -> cstate * W -> cstate * W -> Prop :=
| failing_none st : failing d 0 st st
| failing_more n st st1 st2 st3 :
    failing d n st st1 -> fst st2 = fst st1 ->
    (forall z, at_least z (srv (snd st1)) -> at_least z (srv (snd st2))) ->
    _process_message clock cfg id d st2 = (Ret (false, false), st3) ->
    failing d (1 + n) st st3.

Lemma failing_counts d n st st' z :
  failing d n st st' -> c_retry (fst st) = true -> at_least z (srv (snd st)) ->
  fst st' = fst st /\ at_least (z + Z.of_nat n) (srv (snd st')) /\
  (n <> 0%nat -> z + Z.of_nat n < max_retries (cs_policy cfg)).
Proof.
  intros Hf Hr Hz. induction Hf as [st | n st st1 st2 st3 Hf IH Hc Hkeep E].
  - rewrite Z.add_0_r. done.
  - destruct (IH Hr Hz) as (Hs & Ha & _).
    destruct (retry_progress d st2 st3 (z + Z.of_nat n) E) as (Hs3 & Ha3 & Hlt);
      [congruence | by apply Hkeep |].
    replace (z + Z.of_nat (1 + n)) with (z + Z.of_nat n + 1) by lia.
    split; [congruence |]. split; [done | intros; lia].
Qed.
End Retries.

(** C12. Bounded retries.  A message whose handler fails every time is left pending
    fewer than [max_retries] times: the delivery after at most [max_retries - 1] failed
    ones (or the first, when [max_retries <= 1]) ends with an acknowledgement or
    an exception, also when Redis replies are lost and attempts are counted twice.  Between the
    deliveries anything may happen that does not lower the message's attempt counter ([failing]): its
    hash is not deleted, and it has not expired, as it does 24 hours after the last attempt; the
    handlers and the duplicate checker leave it alone ([counter_quiet]). *)
Theorem retries_bounded {W S} `{RedisDoc S, !StreamServer S, !StreamDoc S}
    `{RedisConn W S, !RedisConnDoc W S} clock (cfg : consumer_config W) id d n st st' :
  counter_quiet cfg id -> failing clock cfg id d n st st' -> c_retry (fst st) = true ->
  at_least cfg id 0 (srv (snd st)) ->
  Z.of_nat n <= Z.max 0 (max_retries (cs_policy cfg) - 1).
Proof.
  intros Hq Hf Hr Hz. destruct (failing_counts clock cfg id Hq d n st st' 0 Hf Hr Hz) as (_ & _ & Hn).
  destruct n as [|n]; [lia |]. specialize (Hn ltac:(done)). lia.
Qed.

(** ** Housekeeping *)

Section Housekeeping.
Context {W S : Type} `{RedisDoc S, !StreamServer S, !StreamDoc S} `{RedisConn W S, !RedisConnDoc W S}.
Variables (cfg : consumer_config W) (pel : string -> string -> gmap string string).

Definition srv_pel_is (s : S) : Prop := forall st g, srv_pel s st g = pel st g.
Definition pel_is (st : cstate * W) : Prop := srv_pel_is (srv (snd st)).
Definition owns_none (c : string) : Prop :=
  forall id, pel (cs_stream cfg) (cs_group cfg) !! id <> Some c.

Lemma command_pel {A} (c : Srv S A) :
  (forall s, srv_pel_is s -> srv_pel_is (snd (c s))) -> preserves pel_is (command c).
Proof.
  intros Hc [cs w] Hw. unfold command, on_snd, pel_is in *. cbn [fst snd] in *.
  assert (Hr : forall n, srv_pel_is (runs n c (srv w))) by (intros n; by apply runs_fix).
  destruct (rexec c w) as [[a|e] w'] eqn:E; cbn.
  - apply rexec_ret in E as [n E]. specialize (Hc _ (Hr n)). by rewrite E in Hc.
  - apply rexec_exc in E as [n ->]. done.
Qed.
Lemma keeps_streams_pel {A} (c : Srv S A) s : keeps_streams c -> srv_pel_is s -> srv_pel_is (snd (c s)).
Proof. intros Hk Hs st g. destruct (Hk s) as [_ ->]. apply Hs. Qed.
Lemma delconsumer_pel c : owns_none c ->
  preserves pel_is (command (cmd_xgroup_delconsumer (cs_stream cfg) (cs_group cfg) c)).
Proof.
  intros Hn. apply command_pel. intros s Hs.
  destruct (cmd_xgroup_delconsumer _ _ c s) as [[n|e] s'] eqn:E; cbn.
  - intros st g. destruct (delconsumer_doc _ _ _ _ _ _ E) as (_ & _ & ->).
    case_bool_decide as Hb; [| apply Hs]. destruct Hb as [-> ->]. rewrite Hs.
    apply map_filter_id. intros i x Hx. cbn. intros ->. by apply (Hn i).
  - intros st g. destruct (delconsumer_error _ _ _ _ _ _ E) as [_ ->]. apply Hs.
Qed.

Lemma sweep_one_pel ci :
  (ci_pending ci = 0 -> owns_none (ci_name ci)) -> preserves pel_is (sweep_consumer cfg ci).
Proof.
  intros Hci. unfold sweep_consumer. case_match; [auto with py |].
  destruct (ci_pending ci =? 0) eqn:Ep; cbn [andb]; [| auto with py].
  case_match; [| auto with py]. apply preserves_catch; [| intros e; case_match; auto with py].
  apply preserves_bind; [apply delconsumer_pel, Hci; lia | auto with py].
Qed.

Lemma sweep_pel : preserves pel_is (_sweep_zombie_consumers cfg).
Proof.
  intros st Hst. unfold _sweep_zombie_consumers. destruct (c_redis (fst st)); cbn [negb]; [| done].
  unfold bind at 1, catch, bind at 1.
  set (c := cmd_xinfo_consumers _ _).
  assert (Hk : forall s, srv_pel_is s -> srv_pel_is (snd (c s)))
    by (intros s; apply keeps_streams_pel, info_frame).
  pose proof (command_pel c Hk st Hst) as Hc.
  destruct (command c st) as [[cs|e] st1] eqn:E; cbn [snd] in Hc;
    [| by destruct (isinstance e RedisResponseError)].
  apply on_snd_inv in E as [E _]. apply rexec_ret in E as [n E].
  assert (Hr : srv_pel_is (runs n c (srv (snd st)))) by (by apply runs_fix).
  destruct (xinfo_consumers_doc _ _ _ _ _ E) as (_ & _ & Hci).
  unfold ret. apply preserves_mfor; [| done]. intros ci Hin. apply sweep_one_pel. intros H0'.
  specialize (Hci ci Hin). rewrite H0', Hr in Hci. intros id Hid.
  assert (Hf : filter (fun x => snd x = ci_name ci) (pel (cs_stream cfg) (cs_group cfg)) = ∅)
    by (apply map_size_empty_iff; lia).
  eapply map_filter_empty_not_lookup in Hf; [by apply Hf | done].
Qed.

Lemma deregister_pel : preserves pel_is (_deregister_consumer cfg).
Proof.
  unfold _deregister_consumer. apply preserves_finally;
    [| intros [cs w] Hw; unfold on_snd, pel_is in *; cbn in *; pose proof (aclose_srv w) as Ha;
       destruct (aclose w); cbn in *; by rewrite Ha].
  apply preserves_catch; [| intros e; case_match; auto with py].
  intros st Hst. unfold bind at 1. set (c := cmd_xpending_range _ _ _ _).
  assert (Hk : forall s, srv_pel_is s -> srv_pel_is (snd (c s)))
    by (intros s; apply keeps_streams_pel, info_frame).
  pose proof (command_pel c Hk st Hst) as Hc.
  destruct (command c st) as [[ids|e] st1] eqn:E; cbn [snd] in Hc; [| done].
  destruct ids as [|i ids]; [| done].
  apply on_snd_inv in E as [E _]. apply rexec_ret in E as [n E].
  assert (Hr : srv_pel_is (runs n c (srv (snd st)))) by (by apply runs_fix).
  destruct (xpending_doc _ _ _ _ _ _ _ (eq_refl : 0 < 1) E) as (_ & _ & Hnone).
  refine (preserves_bind pel_is _ _ (delconsumer_pel (cs_name cfg) _) _ st1 Hc); [| auto with py].
  intros id. rewrite <- (Hr (cs_stream cfg) (cs_group cfg)). by apply Hnone.
Qed.
End Housekeeping.

(** Housekeeping never drops a pending entry.  The start-up sweep of idle consumers
    and the deregistration at shutdown leave the pending list of every group exactly as
    it was, whatever Redis answers: only consumers that own nothing are deleted. *)
Theorem housekeeping_keeps_pending {W S} `{RedisDoc S, !StreamServer S, !StreamDoc S}
    `{RedisConn W S, !RedisConnDoc W S} (cfg : consumer_config W) (st : cstate * W) s g :
  srv_pel (srv (snd (snd (_sweep_zombie_consumers cfg st)))) s g = srv_pel (srv (snd st)) s g /\
  srv_pel (srv (snd (snd (_deregister_consumer cfg st)))) s g = srv_pel (srv (snd st)) s g.
Proof.
  split.
  - by apply (sweep_pel cfg (srv_pel (srv (snd st)))).
  - by apply (deregister_pel cfg (srv_pel (srv (snd st)))).
Qed.

(** ** Messages that can neither be handled nor dead-lettered *)

(** A payload-wrapped message whose [event_type] is a number, boolean or null makes
    [_process_message] raise [AttributeError] as soon as one wildcard handler is
    registered: it is neither acknowledged nor dead-lettered nor counted, and a claim
    pass that reclaims it stops there, before every message claimed after it. *)
Theorem poison_event_type {W S} `{StreamServer S} `{RedisConn W S} clock (cfg : consumer_config W)
    id d e st ms rest :
  _parse cfg id d = Some e -> cs_idempotency cfg = None ->
  (exists b, event_type e = JBool b) \/ (exists z, event_type e = JInt z) \/ event_type e = JNull ->
  (exists p h, (p, h) ∈ cs_handlers cfg /\ endswith p ".*" = true) ->
  ms = (id, d) :: rest ->
  exists msg, _process_message clock cfg id d st = (Exc (PyErr AttributeError msg), st) /\
    mfor ms (process_and_ack clock cfg) st = (Exc (PyErr AttributeError msg), st).
Proof.
  intros Hp Hi Ht (p & h & Hin & Hw) ->. exists "object has no attribute 'startswith'".
  assert (Hm : _resolve_handler (cs_handlers cfg) (event_type e) =
    Exc (PyErr AttributeError "object has no attribute 'startswith'")).
  { assert (Hmw : match_wildcard (event_type e) (cs_handlers cfg) =
      Exc (PyErr AttributeError "object has no attribute 'startswith'")).
    { induction (cs_handlers cfg) as [|[q k] hs IH]; [by apply not_elem_of_nil in Hin |]. cbn.
      destruct (endswith q ".*") eqn:Eq; [by destruct Ht as [[? ->] | [[? ->] | ->]] |].
      apply IH. apply elem_of_cons in Hin as [[= -> ->] | Hin]; [congruence | done]. }
    unfold _resolve_handler. by destruct Ht as [[? Et] | [[? Et] | Et]]; rewrite Et in *; cbn. }
  assert (E : _process_message clock cfg id d st =
    (Exc (PyErr AttributeError "object has no attribute 'startswith'"), st)).
  { unfold _process_message. rewrite Hp, Hi. unfold bind, ret. cbn beta iota. by rewrite Hm. }
  split; [done |]. cbn [mfor]. apply bind_Exc. unfold process_and_ack. by apply bind_Exc.
Qed.

(** ** Witnesses *)

Definition demo_clock (w : conn smem) : string := str_of_Z (cn_wall w).
Definition failing_handler : handler (conn smem) := fun _ w => (Exc (PyErr ValueError "boom"), w).
Definition demo_consumer : consumer_config (conn smem) :=
  mkConsumer "bus" "g" "c1" 10 (mkRetryPolicy 3 2 30) None false 30000 1000 86400000
    [("lead.*", failing_handler)].
Definition demo_message : fields := [("event_id", "e1"); ("event_type", "lead.created")].
(** One message, read by a consumer that has since died. *)
Definition demo_server : smem :=
  mkSmem mem0 {["bus" := mkStream [("1-0", demo_message)]
                           {["g" := mkGroup 1 {["1-0" := ("c0", 0)]} {["c0" := 0]}]}]}.
Definition demo_state : cstate * conn smem := (mkCstate true true true true, mkConn demo_server 0 []).
Definition next_attempt (st : cstate * conn smem) : cstate * conn smem :=
  snd (_process_message demo_clock demo_consumer "1-0" demo_message st).

Lemma demo_quiet : quiet demo_consumer "1-0".
Proof.
  split; [| discriminate]. intros p h e Hin. apply list_elem_of_singleton in Hin.
  injection Hin as -> ->. by intros w Hw.
Qed.
Lemma demo_counter_quiet : counter_quiet demo_consumer "1-0".
Proof.
  split; [| discriminate]. intros p h e z Hin. apply list_elem_of_singleton in Hin.
  injection Hin as -> ->. by intros w Hw.
Qed.

Lemma process_message_verdict_witness :
  exists st', _process_message demo_clock demo_consumer "1-0" demo_message demo_state =
    (Ret (false, false), st') /\
  verdict demo_clock demo_consumer (fst demo_state) "1-0" demo_message (snd demo_state) (false, false)
    (snd st').
Proof.
  assert (E : _process_message demo_clock demo_consumer "1-0" demo_message demo_state =
    (Ret (false, false), next_attempt demo_state)) by (vm_compute; reflexivity).
  exists (next_attempt demo_state). split; [exact E |].
  apply (process_message_verdict demo_clock demo_consumer "1-0" demo_message (fst demo_state)
    (snd demo_state) (false, false) (fst demo_state) (snd (next_attempt demo_state))).
  exact E.
Defined.

Lemma pending_until_acknowledged_witness :
  st_pending demo_consumer "1-0" (snd (_claim_once demo_clock demo_consumer demo_state)) \/
  exists ms del st1, command (cmd_xautoclaim "bus" "g" "c1" 30000 1000) demo_state = (Ret (ms, del), st1) /\
    settled_in demo_clock demo_consumer "1-0" ms st1.
Proof.
  destruct (pending_until_acknowledged demo_clock demo_consumer "1-0" demo_state demo_quiet) as [Hc _].
  apply Hc.
  - unfold st_pending, pending. apply elem_of_dom. exists "c0". vm_compute. reflexivity.
  - apply (bool_decide_unpack _). vm_compute. exact I.
Defined.

Lemma retries_bounded_witness :
  exists st', failing demo_clock demo_consumer "1-0" demo_message 2 demo_state st' /\
    Z.of_nat 2 <= Z.max 0 (max_retries (cs_policy demo_consumer) - 1).
Proof.
  set (st1 := next_attempt demo_state). set (st2 := next_attempt st1).
  assert (Hf : failing demo_clock demo_consumer "1-0" demo_message 2 demo_state st2).
  { apply (failing_more _ _ _ _ 1 demo_state st1 st1 st2); [| reflexivity | auto | vm_compute; reflexivity].
    apply (failing_more _ _ _ _ 0 demo_state demo_state demo_state st1);
      [constructor | reflexivity | auto | vm_compute; reflexivity]. }
  exists st2. split; [exact Hf |].
  apply (retries_bounded demo_clock demo_consumer "1-0" demo_message 2 demo_state st2);
    [exact demo_counter_quiet | exact Hf | reflexivity |].
  exists 0. split; [vm_compute; reflexivity | lia].
Defined.

Lemma housekeeping_keeps_pending_witness :
  srv_pel (srv (snd (snd (_sweep_zombie_consumers demo_consumer demo_state)))) "bus" "g" =
  {["1-0" := "c0"]}.
Proof.
  destruct (housekeeping_keeps_pending demo_consumer demo_state "bus" "g") as [E _].
  rewrite E. vm_compute. reflexivity.
Defined.

Definition payload_consumer : consumer_config (conn smem) :=
  mkConsumer "bus" "g" "c1" 10 (mkRetryPolicy 3 2 30) None true 30000 1000 86400000
    [("lead.*", failing_handler)].
Definition poison : fields := [("payload", dumps (JObj [("event_type", JInt 5)]))].
Lemma poison_event_type_witness :
  exists msg, _process_message demo_clock payload_consumer "1-0" poison demo_state =
    (Exc (PyErr AttributeError msg), demo_state).
Proof.
  destruct (poison_event_type demo_clock payload_consumer "1-0" poison
    (mkEnvelope (JStr "") (JInt 5) (JStr "1.0") (JStr "") (JStr "") (JStr "") JNull (JObj []) (JObj []) "1-0")
    demo_state [("1-0", poison)] []) as (msg & E & _).
  - vm_compute. reflexivity.
  - reflexivity.
  - right. left. by exists 5.
  - exists "lead.*", failing_handler. split; [left | reflexivity].
  - reflexivity.
  - exists msg. exact E.
Defined.
