(* ===== verification/Outbox.v ===== *)
(** * The transactional outbox

    Models src/tr_shared/events/durable_publisher.py ([DurableEventPublisher])
    and events/outbox_drainer.py ([drain_outbox]).  The table is a list of rows
    and each SQL statement of the code a function on it; the database connection,
    which runs such a function as one transaction or raises, is a parameter.
    Times are microseconds. *)

From S2P Require Import Prelude Json Errors Redis Streams Events.
From stdpp Require Import sorting.
Local Open Scope Z_scope.

(** A JSONB column as the driver returns it: an object, a string (the text of a value that is not
    decoded, or a decoded string), [None], or any other decoded value: a list, a number, a boolean. *)
Inductive json_col :=
| ColDict (o : list (string * json)) | ColText (s : string) | ColNull | ColOther (v : json).

Record outbox_row := mkRow {
  o_id : string;
  o_event_type : string;
  o_tenant_id : string;
  o_actor_id : option string;
  o_data : json_col;
  o_metadata : json_col;
  o_retry_count : Z;
  o_next_retry_at : Z;
  o_published_at : option Z;
  o_dead_letter : bool;
  o_last_error : option string;
}.
Notation table := (list outbox_row).

(** ** The SQL statements *)

Definition due (now : Z) (r : outbox_row) : Prop :=
  o_published_at r = None /\ o_dead_letter r = false /\ o_next_retry_at r <= now.
#[export] Instance due_dec now r : Decision (due now r).
Proof. unfold due. apply _. Defined.
Definition by_next_retry (r1 r2 : outbox_row) : Prop := o_next_retry_at r1 <= o_next_retry_at r2.
#[export] Instance by_next_retry_dec r1 r2 : Decision (by_next_retry r1 r2).
Proof. unfold by_next_retry. apply _. Defined.
(** [FOR UPDATE SKIP LOCKED] has no effect here: the transaction that holds the
    locks ends with the SELECT. *)
Definition sql_select_due (now batch_size : Z) (t : table) : table :=
  take (Z.to_nat batch_size) (merge_sort by_next_retry (filter (due now) t)).
Definition update_where (id : string) (f : outbox_row -> outbox_row) (t : table) : table :=
  map (fun r => if bool_decide (o_id r = id) then f r else r) t.
Definition set_published (now : Z) (r : outbox_row) : outbox_row :=
  mkRow (o_id r) (o_event_type r) (o_tenant_id r) (o_actor_id r) (o_data r) (o_metadata r)
    (o_retry_count r) (o_next_retry_at r) (Some now) (o_dead_letter r) (o_last_error r).
Definition set_dead (n : Z) (err : string) (r : outbox_row) : outbox_row :=
  mkRow (o_id r) (o_event_type r) (o_tenant_id r) (o_actor_id r) (o_data r) (o_metadata r)
    n (o_next_retry_at r) (o_published_at r) true (Some err).
Definition set_retry (n at_ : Z) (err : string) (r : outbox_row) : outbox_row :=
  mkRow (o_id r) (o_event_type r) (o_tenant_id r) (o_actor_id r) (o_data r) (o_metadata r)
    n at_ (o_published_at r) (o_dead_letter r) (Some err).

Class DbConn (W : Type) := {
  db_txn : forall {A}, (table -> A * table) -> Py W A;   (* [async with session.begin(): ...] *)
  db_table : W -> table;
  db_now : W -> Z;                                       (* SQL's [NOW()]: the server's clock *)
}.
(** A transaction that returned took effect; one that raised did so entirely or not at all. *)
Class DbDoc (W : Type) `{DbConn W} : Prop := {
  txn_ret {A} (f : table -> A * table) w a w' : db_txn f w = (Ret a, w') ->
    f (db_table w) = (a, db_table w');
  txn_exc {A} (f : table -> A * table) w e w' : db_txn f w = (Exc e, w') ->
    db_table w' = db_table w \/ db_table w' = snd (f (db_table w));
}.
Definition sql_update {W} `{DbConn W} (f : table -> table) : Py W unit := db_txn (fun t => (tt, f t)).

(** ** [DurableEventPublisher.publish]

    The caller's transaction is its working copy of the table; what
    PostgreSQL makes of the INSERT - the defaults of the columns it does not name,
    the JSONB of the two it casts - is a parameter. *)
Definition durable_publish {W} `{EventEnv W} (insert_defaults : Z -> outbox_row -> outbox_row)
    (in_transaction : bool) (now : Z) (event_type tenant_id : string) (data : json)
    (actor_id : option string) (metadata : list (string * json)) : Py (table * W) string :=
  if negb in_transaction then
    raise (PyErr RuntimeError "DurableEventPublisher.publish must be called inside an open SQLAlchemy transaction")
  else
    let! event_id := on_snd uuid4 in
    do! modify (fun st => (fst st ++ [insert_defaults now
          (mkRow event_id event_type tenant_id actor_id (ColText (dumps data))
             (ColText (dumps (JObj metadata))) 0 now None false None)], snd st)) in
    ret event_id.

(** ** [drain_outbox] *)

Record drained := mkDrained { published : Z; retried : Z; dead_lettered : Z }.
Definition row_data (r : outbox_row) : outcome exn json :=
  match o_data r with
  | ColDict o => Ret (JObj o)
  | ColText s => json_loads s
  | ColNull => Exc (PyErr TypeError "the JSON object must be str, bytes or bytearray, not NoneType")
  | ColOther _ => Exc (PyErr TypeError "the JSON object must be str, bytes or bytearray")
  end.
Definition row_metadata (r : outbox_row) : outcome exn json :=
  match o_metadata r with
  | ColDict o => Ret (JObj o)
  | ColText s => json_loads (if nonempty s then s else "{}")
  | ColNull => json_loads "{}"
  | ColOther v => if truthy v then Exc (PyErr TypeError "the JSON object must be str, bytes or bytearray")
                  else json_loads "{}"
  end.
(** Data, metadata and correlation id of a row; [metadata.get] needs a dict. *)
Definition row_args (r : outbox_row) : outcome exn (json * list (string * json) * json) :=
  outcome_bind (row_data r) (fun data =>
  outcome_bind (row_metadata r) (fun metadata =>
    match metadata with
    | JObj o => Ret (data, o, default JNull (dget "correlation_id" o))
    | _ => Exc (PyErr AttributeError "object has no attribute 'get'")
    end)).
(** [str(exc)[:500]] *)
Definition error_text (e : exn) : string := String.substring 0 500 (str_exn e).

Section Drainer.
Context {W S : Type} `{StreamServer S} `{RedisConn W S} `{EventEnv W} `{DbConn W}.
Variables (p : EventProducer) (policy : RetryPolicy).
Variable on_dead_letter : outbox_row -> Z -> string -> Py W unit.

Notation world := (bool * W)%type.

Definition publish_row (r : outbox_row) (a : json * list (string * json) * json) : Py world string :=
  let '(data, metadata, correlation_id) := a in
  publish p (o_event_type r) (o_tenant_id r) data
    (match o_actor_id r with Some x => if nonempty x then Some x else None | None => None end)
    metadata correlation_id false.

Inductive row_outcome := Published | Retried | DeadLettered.

Definition fail_row (r : outbox_row) (e : exn) : Py world row_outcome :=
  let next_count := o_retry_count r + 1 in
  if max_retries policy <=? next_count then
    do! on_snd (sql_update (update_where (o_id r) (set_dead next_count (error_text e)))) in
    do! catch_Exception (on_snd (on_dead_letter r next_count (str_exn e))) (fun _ => ret tt) in
    ret DeadLettered
  else
    let! now := gets (fun st => wall (snd st)) in
    let next_at := now + delay_for policy next_count * sec in
    do! on_snd (sql_update (update_where (o_id r) (set_retry next_count next_at (error_text e)))) in
    ret Retried.

Definition drain_row (r : outbox_row) : Py world row_outcome :=
  match row_args r with
  | Exc e => raise e
  | Ret a =>
      catch_Exception
        (do! publish_row r a in
         do! (fun st => on_snd (sql_update (update_where (o_id r) (set_published (db_now (snd st))))) st) in
         ret Published)
        (fail_row r)
  end.
Definition tally (d : drained) (o : row_outcome) : drained :=
  match o with
  | Published => mkDrained (published d + 1) (retried d) (dead_lettered d)
  | Retried => mkDrained (published d) (retried d + 1) (dead_lettered d)
  | DeadLettered => mkDrained (published d) (retried d) (dead_lettered d + 1)
  end.

Definition select_due (batch_size : Z) : Py world table := fun st =>
  on_snd (db_txn (fun t => (sql_select_due (db_now (snd st)) batch_size t, t))) st.
Definition drain_rows (rows : table) : Py world drained :=
  mfold (fun d r => let! o := drain_row r in ret (tally d o)) rows (mkDrained 0 0 0).
Definition drain_outbox (batch_size : Z) : Py world drained :=
  let! rows := select_due batch_size in
  drain_rows rows.
End Drainer.

(** ** No event is lost *)

Lemma row_unique (t : table) r r' : NoDup (map o_id t) -> r ∈ t -> r' ∈ t -> o_id r = o_id r' -> r = r'.
Proof.
  induction t as [|x l IH]; [set_solver |].
  cbn. rewrite NoDup_cons, !elem_of_cons. intros [Hx Hl] Hr1 Hr2 E.
  assert (Hin : forall y, y ∈ l -> o_id y ∈ map o_id l) by (intros; by apply list_elem_of_fmap_2).
  destruct Hr1 as [-> | Hr1], Hr2 as [-> | Hr2]; [done | | | by apply IH].
  - exfalso. apply Hx. rewrite E. auto.
  - exfalso. apply Hx. rewrite <- E. auto.
Qed.

Section Durability.
Context {W S : Type} `{RedisDoc S, !StreamServer S, !StreamDoc S} `{RedisConn W S, !RedisConnDoc W S}.
Context `{EventEnv W} `{DbConn W, !DbDoc W}.
Variables (p : EventProducer) (policy : RetryPolicy).
Variable on_dead_letter : outbox_row -> Z -> string -> Py W unit.

Notation world := (bool * W)%type.
Definition table_is (t : table) (w : W) : Prop := db_table w = t.
Definition table_kept {A} (c : Py W A) : Prop := forall t, preserves (table_is t) c.
(** Redis, the id generator and the dead-letter callback leave the outbox alone. *)
Record db_frame : Prop := {
  frame_redis {A} (c : Srv S A) : table_kept (rexec (W := W) c);
  frame_uuid : table_kept (uuid4 (W := W));
  frame_callback r n e : table_kept (on_dead_letter r n e);
}.
Hypothesis Hframe : db_frame.

Definition same_payload (r r' : outbox_row) : Prop :=
  o_id r' = o_id r /\ o_event_type r' = o_event_type r /\ o_tenant_id r' = o_tenant_id r /\
  o_actor_id r' = o_actor_id r /\ o_data r' = o_data r /\ o_metadata r' = o_metadata r.
(** The run selected [rows] in the state [st0]; [r] is one of them. *)
Variables (rows : table) (st0 : world).
(** In this run the event of row [r] was published: the rows before it had been drained, [publish]
    returned an id from where they left off, and the bus holds the row's event under that id. *)
Definition published_in (r : outbox_row) : Prop := exists pre post d st1 a eid st2 id f,
  rows = pre ++ r :: post /\
  drain_rows (S := S) p policy on_dead_letter pre st0 = (Ret d, st1) /\
  row_args r = Ret a /\ publish_row (S := S) p r a st1 = (Ret eid, st2) /\
  (id, f) ∈ srv_entries (srv (snd st2)) (pr_stream_name p) /\
  dget "event_id" f = Some eid /\ dget "event_type" f = Some (o_event_type r) /\
  dget "tenant_id" f = Some (o_tenant_id r) /\ dget "data" f = Some (dumps (fst (fst a))).
(** What the run may have made of a row: nothing at all of one that it did not select. *)
Record evolves (r r' : outbox_row) : Prop := {
  ev_payload : same_payload r r';
  ev_selected : r' = r \/ r ∈ rows;
  ev_published : o_published_at r' = o_published_at r \/ published_in r;
  ev_dead : o_dead_letter r' = o_dead_letter r \/
    max_retries policy <= o_retry_count r + 1 /\ o_retry_count r' = o_retry_count r + 1;
  ev_count : o_retry_count r' = o_retry_count r \/ o_retry_count r' = o_retry_count r + 1;
}.
Variable t0 : table.
Hypothesis ids_unique : NoDup (map o_id t0).
Definition Inv (st : world) : Prop := Forall2 evolves t0 (db_table (snd st)).

Lemma evolves_refl r : evolves r r.
Proof. split; [by repeat split | by left | by left | by left | by left]. Qed.

(** An update of row [r] that is a legal evolution keeps the invariant. *)
Lemma update_evolves r f t : r ∈ t0 ->
  (forall r', evolves r r' -> evolves r (f r')) ->
  Forall2 evolves t0 t -> Forall2 evolves t0 (update_where (o_id r) f t).
Proof.
  intros Hr Hf Ht. unfold update_where. apply Forall2_fmap_r.
  apply Forall2_same_length_lookup_2; [by eapply Forall2_length |].
  intros i x y Hx Hy. cbn. pose proof (Forall2_lookup_lr _ _ _ _ _ _ Ht Hx Hy) as He.
  case_bool_decide as Hid; [| done].
  assert (x = r) as ->; [| by apply Hf].
  apply (row_unique t0); [exact ids_unique | by eapply list_elem_of_lookup_2 | done |].
  by rewrite <- Hid, (proj1 (ev_payload _ _ He)).
Qed.
Lemma sql_update_inv r f : r ∈ t0 -> (forall r', evolves r r' -> evolves r (f r')) ->
  preserves Inv (on_snd (sql_update (update_where (o_id r) f))).
Proof.
  intros Hr Hf [b w] Hw. unfold Inv, on_snd, sql_update in *. cbn [fst snd] in *.
  destruct (db_txn _ w) as [[[]|e] w'] eqn:E; cbn.
  - apply txn_ret in E. injection E as <-. by apply update_evolves.
  - apply txn_exc in E as [-> | ->]; [done | by apply update_evolves].
Qed.

Lemma kept_inv {A} (c : Py W A) : table_kept c -> preserves Inv (on_snd (V := bool) c).
Proof.
  intros Hc [b w] Hw. unfold Inv, on_snd in *. cbn [fst snd] in *.
  specialize (Hc (db_table w) w eq_refl). destruct (c w). cbn in *. unfold table_is in Hc. by rewrite Hc.
Qed.
Lemma connect_inv : preserves Inv (pr_connect p).
Proof.
  intros [b w] Hw. unfold pr_connect, Inv in *. destruct b, (pr_redis_url p) as [u|]; try done.
  destruct (nonempty u); [| done]. by destruct (require_plain_redis_url u).
Qed.
Lemma publish_inv etype tenant data actor metadata cid strict :
  preserves Inv (publish p etype tenant data actor metadata cid strict).
Proof.
  unfold publish. apply preserves_bind.
  { destruct strict; [| auto with py]. apply preserves_mfor. intros x _. repeat case_match; auto with py. }
  intros _. apply preserves_bind; [case_match; auto with py |]. intros _.
  apply preserves_bind; [apply kept_inv, Hframe |]. intros eid.
  apply preserves_bind; [auto with py |]. intros ts.
  apply preserves_bind; [auto with py |]. intros b.
  apply preserves_bind; [case_match; [auto with py | apply connect_inv] |]. intros _.
  apply preserves_bind; [auto with py |]. intros b'. case_match; [auto with py |].
  apply preserves_bind; [| auto with py]. apply preserves_catch.
  - apply kept_inv. intros t. apply preserves_bind; [apply Hframe | auto with py].
  - intros e. case_match; auto with py.
Qed.

Lemma fail_row_inv r e : r ∈ t0 -> r ∈ rows -> preserves Inv (fail_row policy on_dead_letter r e).
Proof.
  intros Hr Hsel. unfold fail_row. case_match eqn:En.
  - apply preserves_bind; [| intros _; apply preserves_bind; [| auto with py]].
    + apply sql_update_inv; [done |]. intros r' [Hp Hs Hpub Hd Hc].
      split; cbn; [exact Hp | by right | exact Hpub | right; lia | by right].
    + unfold catch_Exception. apply preserves_catch; [apply kept_inv, Hframe |].
      intros x. case_match; auto with py.
  - apply preserves_bind; [auto with py |]. intros now.
    apply preserves_bind; [| auto with py]. apply sql_update_inv; [done |].
    intros r' [Hp Hs Hpub Hd Hc].
    split; cbn; [exact Hp | by right | exact Hpub | left; destruct Hd as [Hd | [Hd _]]; [done | lia] | by right].
Qed.

Lemma publish_row_on_bus r a st eid st' : publish_row (S := S) p r a st = (Ret eid, st') ->
  exists id f, (id, f) ∈ srv_entries (srv (snd st')) (pr_stream_name p) /\
    dget "event_id" f = Some eid /\ dget "event_type" f = Some (o_event_type r) /\
    dget "tenant_id" f = Some (o_tenant_id r) /\ dget "data" f = Some (dumps (fst (fst a))).
Proof.
  destruct a as [[data metadata] cid], st as [c w], st' as [c' w'].
  intros E. unfold publish_row in E. apply publish_on_stream in E as (id & ts & Hin).
  eexists id, _. split; [exact Hin | done].
Qed.
Lemma drain_row_inv r pre post d st : r ∈ t0 -> rows = pre ++ r :: post ->
  drain_rows (S := S) p policy on_dead_letter pre st0 = (Ret d, st) ->
  Inv st -> Inv (snd (drain_row (S := S) p policy on_dead_letter r st)).
Proof.
  intros Hr Hrows Hpre Hst. unfold drain_row. destruct (row_args r) as [a|e] eqn:Ea; [| done].
  assert (Hsel : r ∈ rows) by (rewrite Hrows; set_solver).
  unfold catch_Exception, catch, bind.
  assert (Hpi : preserves Inv (publish_row p r a)).
  { destruct a as [[data metadata] cid]. apply publish_inv. }
  pose proof (Hpi st Hst) as H1'.
  destruct (publish_row p r a st) as [[eid|e] st1] eqn:Ep; cbn in H1'.
  - assert (Hu : forall now, preserves Inv (on_snd (sql_update (update_where (o_id r) (set_published now))))).
    { intros now. apply sql_update_inv; [done |]. intros r' [Hp Hs Hpub Hd Hc].
      split; cbn; [exact Hp | by right | right | exact Hd | exact Hc].
      destruct (publish_row_on_bus r a st eid st1 Ep) as (id & f & Hbus).
      exists pre, post, d, st, a, eid, st1, id, f. done. }
    pose proof (Hu (db_now (snd st1)) st1 H1') as H2'.
    destruct (on_snd (sql_update _) st1) as [[[]|e] st2]; cbn in H2' |- *; [done |].
    destruct (is_Exception e); [by apply fail_row_inv | done].
  - destruct (is_Exception e); [by apply fail_row_inv | done].
Qed.

Lemma drain_rows_inv todo : forall pre d st, (forall r, r ∈ rows -> r ∈ t0) -> rows = pre ++ todo ->
  drain_rows (S := S) p policy on_dead_letter pre st0 = (Ret d, st) -> Inv st ->
  let res := mfold (fun d r => let! o := drain_row p policy on_dead_letter r in ret (tally d o)) todo d st in
  Inv (snd res) /\
  match fst res with
  | Ret d' => published d' + retried d' + dead_lettered d' =
              published d + retried d + dead_lettered d + Z.of_nat (length todo)
  | Exc _ => True
  end.
Proof.
  induction todo as [|r todo IH]; intros pre d st Hin Hrows Hpre Hst; cbn [mfold]; [cbn; split; [done | lia] |].
  assert (Hr0 : r ∈ t0) by (apply Hin; rewrite Hrows; set_solver).
  pose proof (drain_row_inv r pre todo d st Hr0 Hrows Hpre Hst) as Hr.
  destruct (drain_row p policy on_dead_letter r st) as [[o|e] st1] eqn:E; cbn [snd] in Hr.
  - assert (Eb : (let! o := drain_row (S := S) p policy on_dead_letter r in ret (tally d o)) st = (Ret (tally d o), st1))
      by by rewrite (bind_Ret _ _ _ _ _ E).
    rewrite (bind_Ret _ _ _ _ _ Eb).
    destruct (IH (pre ++ [r]) (tally d o) st1) as [Hi Hc]; [done | by rewrite <- app_assoc | | done |].
    + unfold drain_rows in *. rewrite mfold_app, (bind_Ret _ _ _ _ _ Hpre). cbn [mfold].
      by rewrite (bind_Ret _ _ _ _ _ Eb).
    + split; [exact Hi |]. destruct (fst (mfold _ _ _ _)); [| done].
      rewrite Hc. destruct o; cbn [tally published retried dead_lettered length]; lia.
  - rewrite (bind_Exc _ _ _ e st1); [done |]. by apply bind_Exc.
Qed.
End Durability.

(** C2. The outbox never loses an event.  Let Redis commands, the id generator and the dead-letter
    callback leave the outbox table alone, and the row ids be unique; beyond that Redis, the
    callback and the database may fail at any point.  Whether [drain_outbox] returns or raises, every
    row of the table is still there with its payload, and the rows that this run did not select are
    unchanged.  A row counts as published only if this run published it: its [publish] returned
    an id and the bus held the row's event under that id.  A row is dead-lettered only with its
    [max_retries]-th failure, and its retry count grows by at most one.  When the
    drainer returns, its three counters add up to the number of rows it selected. *)
Theorem outbox_never_loses {W S} `{RedisDoc S, !StreamServer S, !StreamDoc S} `{RedisConn W S, !RedisConnDoc W S}
    `{EventEnv W} `{DbConn W, !DbDoc W} p policy on_dead_letter batch_size (st : bool * W) :
  db_frame (S := S) on_dead_letter -> NoDup (map o_id (db_table (snd st))) ->
  let res := drain_outbox (S := S) p policy on_dead_letter batch_size st in
  match select_due batch_size st with
  | (Ret rows, st1) =>
      rows = sql_select_due (db_now (snd st)) batch_size (db_table (snd st)) /\
      Forall2 (evolves (S := S) p policy on_dead_letter rows st1) (db_table (snd st)) (db_table (snd (snd res))) /\
      match fst res with
      | Ret d => published d + retried d + dead_lettered d = Z.of_nat (length rows)
      | Exc _ => True
      end
  | (Exc e, _) => fst res = Exc e /\ db_table (snd (snd res)) = db_table (snd st)
  end.
Proof.
  intros Hf Hnd. cbv zeta. unfold drain_outbox, bind. destruct (select_due batch_size st) as [o st1] eqn:Es.
  unfold select_due, on_snd in Es. destruct (db_txn _ (snd st)) as [o1 w1] eqn:E. injection Es as <- <-.
  destruct o1 as [rows|e]; cbn [fst snd].
  - apply txn_ret in E. injection E as Er Et. split; [done |].
    destruct (drain_rows_inv (S := S) p policy on_dead_letter Hf rows (fst st, w1) (db_table (snd st)) Hnd rows
      [] (mkDrained 0 0 0) (fst st, w1)) as [Hi Hc]; [| done | done | |].
    + intros r Hr. rewrite <- Er in Hr. unfold sql_select_due in Hr.
      apply subseteq_take in Hr. rewrite merge_sort_Permutation in Hr.
      by apply list_elem_of_filter in Hr as [_ Hr].
    + unfold Inv. cbn. rewrite <- Et. apply Forall_Forall2_diag, Forall_forall. intros r _. apply evolves_refl.
    + split; [exact Hi |]. unfold drain_rows. case_match; [| done]. rewrite Hc. cbn. lia.
  - split; [done |]. by apply txn_exc in E as [-> | ->].
Qed.

(** ** A small world with Redis, the table and an id generator *)

Record oworld := mkOworld {
  ow_conn : conn smem;
  ow_table : table;
  ow_next_id : Z;
  ow_db_up : list bool;            (* the next transactions: does it commit? *)
}.
Definition on_conn {A} (c : Py (conn smem) A) : Py oworld A := fun w =>
  let (o, c') := c (ow_conn w) in (o, mkOworld c' (ow_table w) (ow_next_id w) (ow_db_up w)).
#[export] Instance oworld_redis : RedisConn oworld smem := {
  rexec A c := on_conn (rexec c);
  aclose := on_conn (aclose (S := smem));
  srv w := cn_srv (ow_conn w);
  wall w := cn_wall (ow_conn w);
}.
#[export] Instance oworld_redis_doc : RedisConnDoc oworld smem.
Proof.
  assert (Hc : forall A (c : Srv smem A) w o w', rexec (W := oworld) c w = (o, w') ->
    rexec c (ow_conn w) = (o, ow_conn w')).
  { intros A c w o w'. change (rexec c w) with (on_conn (rexec c) w). unfold on_conn.
    destruct (rexec c (ow_conn w)) as [o1 c1]. by intros [= <- <-]. }
  split.
  - intros A c w a w' E%Hc. by apply rexec_ret in E.
  - intros A c w e w' E%Hc. by apply rexec_exc in E.
  - intros A c w. pose proof (rexec_wall c (ow_conn w)) as Hw.
    change (rexec (W := oworld) c w) with (on_conn (rexec c) w). unfold on_conn. by destruct (rexec c (ow_conn w)).
  - intros w. pose proof (aclose_srv (S := smem) (ow_conn w)) as Hw.
    change (aclose (S := smem) w) with (on_conn (aclose (S := smem)) w). unfold on_conn.
    by destruct (aclose (S := smem) (ow_conn w)).
Qed.
#[export] Instance oworld_env : EventEnv oworld := {
  uuid4 w := (Ret ("event-" +:+ str_of_Z (ow_next_id w)),
              mkOworld (ow_conn w) (ow_table w) (ow_next_id w + 1) (ow_db_up w));
  now_iso w := str_of_Z (cn_wall (ow_conn w));
}.
#[export] Instance oworld_db : DbConn oworld := {
  db_txn A f w :=
    let (up, ups) := match ow_db_up w with [] => (true, []) | u :: us => (u, us) end in
    if (up : bool)
    then let (a, t) := f (ow_table w) in (Ret a, mkOworld (ow_conn w) t (ow_next_id w) ups)
    else (Exc (PyErr OSError "connection lost"), mkOworld (ow_conn w) (ow_table w) (ow_next_id w) ups);
  db_table := ow_table;
  db_now w := cn_wall (ow_conn w);
}.
#[export] Instance oworld_db_doc : DbDoc oworld.
Proof.
  split; intros A f [c t n ups]; cbn; destruct ups as [|[|] ups]; cbn;
    try (destruct (f t) as [a t'] eqn:E); intros; simplify_eq/=; auto.
Qed.

Definition demo_row : outbox_row :=
  mkRow "row-1" "lead.created" "t1" None (ColText "{}") ColNull 0 0 None false None.
Definition outbox_world (up : list bool) : bool * oworld :=
  (false, mkOworld (mkConn (mkSmem mem0 ∅) 5 []) [demo_row] 1 up).
Definition demo_bus : EventProducer := mkProducer (Some "redis://bus") "bus" "lead" 100000 1048576.
Definition demo_policy : RetryPolicy := mkRetryPolicy 10 2 30.
Definition no_callback : outbox_row -> Z -> string -> Py oworld unit := fun _ _ _ => ret tt.
Definition drain := drain_outbox (S := smem) demo_bus demo_policy no_callback 100.
(** The event ids on the bus. *)
Definition bus_ids (w : oworld) : list (option string) :=
  map (fun m => dget "event_id" (snd m)) (srv_entries (srv w) "bus").

Lemma demo_frame : db_frame (S := smem) no_callback.
Proof.
  split.
  - intros A c t w Hw. change (rexec c w) with (on_conn (rexec c) w). unfold on_conn.
    by destruct (rexec c (ow_conn w)).
  - intros t w Hw. done.
  - intros r n e t w Hw. done.
Qed.
Lemma outbox_never_loses_witness :
  fst (drain (outbox_world [])) = Ret (mkDrained 1 0 0) /\
  match select_due 100 (outbox_world []) with
  | (Ret rows, st1) => rows = [demo_row] /\
      Forall2 (evolves (S := smem) demo_bus demo_policy no_callback rows st1) [demo_row]
        (db_table (snd (snd (drain (outbox_world [])))))
  | (Exc _, _) => False
  end.
Proof.
  split; [vm_compute; reflexivity |].
  pose proof (outbox_never_loses (S := smem) demo_bus demo_policy no_callback 100 (outbox_world [])
    demo_frame ltac:(repeat constructor; set_solver)) as He.
  cbv zeta in He. fold drain in He.
  assert (E : exists st1, select_due 100 (outbox_world []) = (Ret [demo_row], st1)) by (eexists; vm_compute; reflexivity).
  destruct E as [st1 E]. rewrite E in He |- *. destruct He as (_ & He & _). split; [reflexivity | exact He].
Defined.

(** The outbox delivers an event more than once under different ids.  (1) When the
    event reached Redis but the UPDATE that marks the row fails, the row is retried and
    the next drain publishes the same event again with a fresh [event_id], which the
    consumers' duplicate check cannot recognise.  (2) The row locks of the SELECT end with
    its transaction, so two drainers that select before either updates both publish the row. *)
Theorem outbox_publishes_twice :
  (let w1 := snd (drain (outbox_world [true; false])) in
   let w2 := snd (drain (fst w1, mkOworld (mkConn (cn_srv (ow_conn (snd w1))) (60 * sec) [])
                                  (ow_table (snd w1)) (ow_next_id (snd w1)) [])) in
   bus_ids (snd w2) = [Some "event-1"; Some "event-2"]) /\
  (let s1 := select_due 100 (outbox_world []) in
   let s2 := select_due 100 (snd s1) in
   match fst s1, fst s2 with
   | Ret rows1, Ret rows2 =>
       let d1 := drain_rows (S := smem) demo_bus demo_policy no_callback rows1 (snd s2) in
       let d2 := drain_rows (S := smem) demo_bus demo_policy no_callback rows2 (snd d1) in
       rows1 = [demo_row] /\ rows2 = [demo_row] /\
       fst d1 = Ret (mkDrained 1 0 0) /\ fst d2 = Ret (mkDrained 1 0 0) /\
       bus_ids (snd (snd d2)) = [Some "event-1"; Some "event-2"]
   | _, _ => False
   end).
Proof. split; [vm_compute; reflexivity |]. vm_compute. repeat split. Qed.
