(* ===== verification/Cache.v ===== *)
(** * The cache layer

    Models src/tr_shared/cache/: interface.py ([CacheInterface], a class here),
    adapters/base.py and adapters/standard_redis.py (an instance of it over a Redis
    connection), service.py ([CacheService], written against the interface),
    helpers.py, factory.py and service_cache.py.  Values are JSON values; what
    [json.dumps] rejects or coerces with [default=str] is outside the model.
    Logging is not modelled. *)

From S2P Require Import Prelude Json Errors Redis Hash.
Local Open Scope Z_scope.

(** ** The interface *)

Class CacheInterface (W : Type) := {
  ci_get : string -> Py W (option string);
  ci_set : string -> string -> option Z -> bool -> Py W bool;      (* key value ttl nx *)
  ci_setex : string -> Z -> string -> Py W bool;
  ci_delete : list string -> Py W Z;
  ci_exists : list string -> Py W Z;
  ci_ttl : string -> Py W Z;
  ci_expire : string -> Z -> Py W bool;
  ci_mget : list string -> Py W (list (option string));
  ci_scan : Z -> string -> Z -> Py W (Z * list string);            (* cursor match count *)
  ci_incrby : string -> Z -> Py W Z;
  ci_zadd : string -> list (string * Z) -> Py W Z;
  ci_zrangebyscore : string -> Z -> Z -> bool -> Py W (list (string * Z));
  ci_zrange : string -> Z -> Z -> Py W (list string);
  ci_zrem : string -> list string -> Py W Z;
  ci_sadd : string -> list string -> Py W Z;
  ci_srem : string -> list string -> Py W Z;
  ci_pipeline : list (string * Z * string) -> Py W unit;           (* queued SETEX, then execute *)
  ci_hgetall : string -> Py W (list (string * string));
  ci_hset : string -> list (string * string) -> Py W Z;
  ci_xadd : string -> list (string * string) -> option Z -> Py W (option string);  (* stream fields maxlen *)
  ci_eval : string -> Z -> list json -> Py W json;                 (* script numkeys keys_and_args *)
}.

(** What every adapter promises: an error is an ordinary exception. *)
Definition ordinary {W A} (c : Py W A) : Prop := raises_only (fun e => is_Exception e = true) c.
Class CacheErrors (W : Type) `{CacheInterface W} : Prop := {
  get_ordinary k : ordinary (ci_get k);
  set_ordinary k v t nx : ordinary (ci_set k v t nx);
  setex_ordinary k t v : ordinary (ci_setex k t v);
  delete_ordinary ks : ordinary (ci_delete ks);
  exists_ordinary ks : ordinary (ci_exists ks);
  ttl_ordinary k : ordinary (ci_ttl k);
  expire_ordinary k n : ordinary (ci_expire k n);
  mget_ordinary ks : ordinary (ci_mget ks);
  scan_ordinary c m n : ordinary (ci_scan c m n);
  incrby_ordinary k n : ordinary (ci_incrby k n);
  zadd_ordinary k m : ordinary (ci_zadd k m);
  zrangebyscore_ordinary k lo hi ws : ordinary (ci_zrangebyscore k lo hi ws);
  zrange_ordinary k a b : ordinary (ci_zrange k a b);
  zrem_ordinary k ms : ordinary (ci_zrem k ms);
  sadd_ordinary k ms : ordinary (ci_sadd k ms);
  srem_ordinary k ms : ordinary (ci_srem k ms);
  pipeline_ordinary l : ordinary (ci_pipeline l);
  hgetall_ordinary k : ordinary (ci_hgetall k);
  hset_ordinary k m : ordinary (ci_hset k m);
  xadd_ordinary st f m : ordinary (ci_xadd st f m);
  eval_ordinary sc n l : ordinary (ci_eval sc n l);
}.
Ltac cache_op := first
  [ apply get_ordinary | apply set_ordinary | apply setex_ordinary | apply delete_ordinary
  | apply exists_ordinary | apply ttl_ordinary | apply expire_ordinary | apply mget_ordinary
  | apply scan_ordinary | apply incrby_ordinary | apply zadd_ordinary
  | apply zrangebyscore_ordinary | apply zrange_ordinary | apply zrem_ordinary
  | apply sadd_ordinary | apply srem_ordinary | apply pipeline_ordinary
  | apply hgetall_ordinary | apply hset_ordinary | apply xadd_ordinary | apply eval_ordinary ].

(** ** [CacheService] *)

Record CacheService := mkCacheService { key_prefix : string; max_value_bytes : Z }.
Definition DEFAULT_MAX_VALUE_BYTES : Z := 1048576.

(** [json.loads(cached)] inside a computation *)
Definition decode {W} (s : string) : Py W json :=
  match loads s with Some v => ret v | None => raise (PyErr ValueError "Expecting value") end.

Section Service.
Context {W : Type} `{CacheInterface W}.
Variable svc : CacheService.

(** [except Exception: log; return d] *)
Definition or_default {A} (d : A) (c : Py W A) : Py W A := catch_Exception c (fun _ => ret d).

(** [None] is [JNull]. *)
Definition svc_get (key : string) : Py W json :=
  or_default JNull
    (let! cached := ci_get key in
     match cached with Some s => decode s | None => ret JNull end).



Definition svc_set (key : string) (value : json) (ttl : Z) (nx : bool) : Py W bool :=
  catch
    (let serialized := dumps value in
     let size := Z.of_nat (String.length serialized) in
     if negb (max_value_bytes svc =? 0) && (max_value_bytes svc <? size)
     then raise (PyErr ValueError ("Cache value for '" +:+ key +:+ "' is " +:+ str_of_Z size +:+
            " bytes, exceeds limit of " +:+ str_of_Z (max_value_bytes svc) +:+ " bytes"))
     else if nx then ci_set key serialized (Some ttl) true
     else do! ci_setex key ttl serialized in ret true)
    (fun e => if isinstance e ValueError then raise e
              else if is_Exception e then ret false else raise e).

Definition svc_get_or_set (key : string) (fetch : Py W json) (ttl : Z) : Py W json :=
  let! cached := svc_get key in
  match cached with
  | JNull =>
      let! data := fetch in
      match data with
      | JNull => ret JNull
      | _ => do! catch (let! _ := svc_set key data ttl false in ret tt)
                   (fun e => if isinstance e ValueError then ret tt else raise e) in
             ret data
      end
  | v => ret v
  end.



(** [while True: cursor, keys = scan(...); ...; if cursor == 0: break], with fuel;
    [step] is what the body does with a batch. *)
Fixpoint scan_loop {A} (fuel : nat) (pattern : string) (cnt cursor : Z)
    (step : A -> list string -> Py W A) (a : A) : Py W A :=
  match fuel with
  | O => raise (PyErr RuntimeError "out of fuel")
  | S fuel' =>
      let! (next, keys) := ci_scan cursor pattern cnt in
      let! a' := step a keys in
      if next =? 0 then ret a' else scan_loop fuel' pattern cnt next step a'
  end.
Definition delete_batch (n : Z) (keys : list string) : Py W Z :=
  match keys with
  | [] => ret n
  | _ => let! d := ci_delete keys in ret (n + d)
  end.
Definition svc_delete_pattern (fuel : nat) (pattern : string) : Py W Z :=
  or_default 0 (scan_loop fuel pattern 100 0 delete_batch 0).


Definition svc_build_key (parts : list (option string)) : string :=
  join ":" (key_prefix svc :: omap (fun p => p) parts).
(** [hashlib.sha256(json.dumps(filters, sort_keys=True).encode()).hexdigest()[:8]] *)
Definition filter_hash (filters : list (string * json)) : string :=
  String.substring 0 8 (hexdigest (sha256 (bytes_of (utf8_encode (dumps (sort_keys (JObj filters))))))).
Definition svc_build_list_key (entity : string) (filters : list (string * json)) : string :=
  match filters with
  | [] => svc_build_key [Some entity; Some "list"; Some "all"]
  | _ => svc_build_key [Some entity; Some "list";
           Some ("hash_" +:+ filter_hash filters)]
  end.

(** ** Helpers (helpers.py) *)

Definition build_cache_key (parts : list (option string)) (prefix : string) : string :=
  join ":" (prefix :: omap (fun p => p) parts).
Definition build_entity_cache_key (entity identifier : string) (tenant_id : option string)
    (prefix : string) : string :=
  match tenant_id with
  | Some t => if nonempty t then build_cache_key [Some entity; Some t; Some identifier] prefix
              else build_cache_key [Some entity; Some identifier] prefix
  | None => build_cache_key [Some entity; Some identifier] prefix
  end.
Definition build_list_cache_key (entity : string)
    (filters kwargs : list (string * json)) (prefix : string) : string :=
  let all_filters := foldl (fun d kv => dset (fst kv) (snd kv) d) filters kwargs in
  match all_filters with
  | [] => build_cache_key [Some entity; Some "list"; Some "all"] prefix
  | _ => build_cache_key [Some entity; Some "list";
           Some ("hash_" +:+ filter_hash all_filters)] prefix
  end.
(** The [while] loop of [invalidate_pattern]: an error ends it with the count so far. *)
Fixpoint invalidate_loop (fuel : nat) (pattern : string) (cursor n : Z) : Py W Z :=
  match fuel with
  | O => raise (PyErr RuntimeError "out of fuel")
  | S fuel' => fun w =>
      match (let! (next, keys) := ci_scan cursor pattern 100 in
             let! n' := delete_batch n keys in ret (next, n')) w with
      | (Exc e, w') => if is_Exception e then (Ret n, w') else (Exc e, w')
      | (Ret (next, n'), w') =>
          if next =? 0 then (Ret n', w') else invalidate_loop fuel' pattern next n' w'
      end
  end.
Definition invalidate_pattern (fuel : nat) (pattern : string) : Py W Z :=
  invalidate_loop fuel pattern 0 0.
Definition entity_pattern (entity : string) (tenant_id : option string) (prefix : string) : string :=
  match tenant_id with
  | Some t => if nonempty t then build_cache_key [Some entity; Some t; Some "*"] prefix
              else build_cache_key [Some entity; Some "*"] prefix
  | None => build_cache_key [Some entity; Some "*"] prefix
  end.
Definition invalidate_entity_cache (fuel : nat) (entity : string) (identifier tenant_id : option string)
    (prefix : string) : Py W Z :=
  match identifier with
  | Some i =>
      if nonempty i then ci_delete [build_entity_cache_key entity i tenant_id prefix]
      else invalidate_pattern fuel (entity_pattern entity tenant_id prefix)
  | None => invalidate_pattern fuel (entity_pattern entity tenant_id prefix)
  end.
Definition invalidate_list_caches (fuel : nat) (entity prefix : string) : Py W Z :=
  invalidate_pattern fuel (build_cache_key [Some entity; Some "list"; Some "*"] prefix).
End Service.

(** ** The Redis adapter *)

(** Commands of the server the adapter only passes on. *)
Class RedisMore (S : Type) := {
  cmd_ping : Srv S unit;
  cmd_scan : Z -> string -> Z -> Srv S (Z * list string);
  cmd_zrangebyscore : string -> Z -> Z -> bool -> Srv S (list (string * Z));
  cmd_zrange : string -> Z -> Z -> Srv S (list string);
  cmd_zrem : string -> list string -> Srv S Z;
  cmd_sadd : string -> list string -> Srv S Z;
  cmd_srem : string -> list string -> Srv S Z;
  cmd_hgetall : string -> Srv S (option (list (string * string)));  (* the client may answer [None] *)
  cmd_hset : string -> list (string * string) -> Srv S Z;
  cmd_xappend : string -> list (string * string) -> option Z -> Srv S (option string);  (* XADD, ~ trimmed *)
  cmd_eval : string -> Z -> list json -> Srv S json;
}.
(** [_redis] is set, [_available] *)
Record adapter := mkAdapter { ad_redis : bool; ad_available : bool }.

Section Adapter.
Context {W S : Type} `{RedisServer S} `{RedisMore S} `{RedisConn W S}.
Notation world := (adapter * W)%type.

Definition _check_initialized (op : string) : Py world unit := fun st =>
  if negb (ad_redis (fst st)) || negb (ad_available (fst st)) then
    (Exc (PyErr CacheConnectionError ("Cache not initialized — call initialize() before " +:+ op +:+ "()")), st)
  else (Ret tt, st).
(** Guard, delegate and wrap: the pattern of every adapter operation. *)
Definition wrapped {A} (op name : string) (c : Srv S A) : Py world A :=
  do! _check_initialized op in
  catch_Exception (on_snd (rexec c))
    (fun e => raise (PyErr CacheOperationError (name +:+ " failed: " +:+ str_exn e))).

Definition a_get (k : string) : Py world (option string) := wrapped "get" "GET" (cmd_get k).
Definition a_setex (k : string) (ttl : Z) (v : string) : Py world bool :=
  wrapped "setex" "SETEX" (let! _ := cmd_set k v (Some ttl) false in ret true).
(** [delete], [exists] and [mget] answer an empty argument list themselves. *)
Definition a_delete (ks : list string) : Py world Z :=
  match ks with
  | [] => do! _check_initialized "delete" in ret 0
  | _ => wrapped "delete" "DELETE" (cmd_del ks)
  end.
Definition a_exists (ks : list string) : Py world Z :=
  match ks with
  | [] => do! _check_initialized "exists" in ret 0
  | _ => wrapped "exists" "EXISTS" (cmd_exists ks)
  end.
Definition a_ttl (k : string) : Py world Z := wrapped "ttl" "TTL" (cmd_ttl k).
Definition a_expire (k : string) (n : Z) : Py world bool := wrapped "expire" "EXPIRE" (cmd_expire k n).
Definition a_mget (ks : list string) : Py world (list (option string)) :=
  match ks with
  | [] => do! _check_initialized "mget" in ret []
  | _ => wrapped "mget" "MGET" (cmd_mget ks)
  end.
Definition a_scan (cursor : Z) (m : string) (cnt : Z) : Py world (Z * list string) :=
  wrapped "scan" "SCAN" (cmd_scan cursor m cnt).
Definition a_incrby (k : string) (n : Z) : Py world Z := wrapped "incrby" "INCRBY" (cmd_incrby k n).
Definition a_zadd (k : string) (m : list (string * Z)) : Py world Z := wrapped "zadd" "ZADD" (cmd_zadd k m).
Definition a_zrangebyscore (k : string) (lo hi : Z) (ws : bool) : Py world (list (string * Z)) :=
  wrapped "zrangebyscore" "ZRANGEBYSCORE" (cmd_zrangebyscore k lo hi ws).
Definition a_zrange (k : string) (a b : Z) : Py world (list string) := wrapped "zrange" "ZRANGE" (cmd_zrange k a b).
Definition a_zrem (k : string) (ms : list string) : Py world Z := wrapped "zrem" "ZREM" (cmd_zrem k ms).
Definition a_sadd (k : string) (ms : list string) : Py world Z := wrapped "sadd" "SADD" (cmd_sadd k ms).
Definition a_srem (k : string) (ms : list string) : Py world Z := wrapped "srem" "SREM" (cmd_srem k ms).
(** [result if result else {}] *)
Definition a_hgetall (k : string) : Py world (list (string * string)) :=
  wrapped "hgetall" "HGETALL" (let! r := cmd_hgetall k in ret (default [] r)).
Definition a_hset (k : string) (m : list (string * string)) : Py world Z := wrapped "hset" "HSET" (cmd_hset k m).
Definition a_eval (script : string) (numkeys : Z) (l : list json) : Py world json :=
  wrapped "eval" "EVAL" (cmd_eval script numkeys l).
(** [StandardRedisAdapter.xadd] *)
Definition a_xadd (stream : string) (f : list (string * string)) (maxlen : option Z) : Py world (option string) :=
  wrapped "xadd" "XADD" (cmd_xappend stream f maxlen).
(** [StandardRedisAdapter.set] *)
Definition a_set (k v : string) (ttl : option Z) (nx : bool) : Py world bool :=
  wrapped "set" "SET" (cmd_set k v ttl nx).

(** [initialize]: build the client, then ping. *)
Definition initialize : Py world bool := fun st =>
  match rexec cmd_ping (snd st) with
  | (Ret _, w) => (Ret true, (mkAdapter true true, w))
  | (Exc e, w) => if is_Exception e then (Ret false, (mkAdapter true false, w))
                  else (Exc e, (mkAdapter true (ad_available (fst st)), w))
  end.
Definition a_close : Py world unit := fun st =>
  if ad_redis (fst st) then
    let (o, w') := aclose (snd st) in
    (match o with Exc e => if is_Exception e then Ret tt else Exc e | Ret _ => Ret tt end,
     (mkAdapter false false, w'))
  else (Ret tt, st).
Definition ping : Py world bool := fun st =>
  if negb (ad_redis (fst st)) || negb (ad_available (fst st)) then (Ret false, st)
  else catch_Exception (let! _ := on_snd (rexec cmd_ping) in ret true) (fun _ => ret false) st.

(** [async with adapter:]: the outcome of [__aenter__]'s [initialize] is dropped; the body
    runs whatever it answered, and [__aexit__] closes without swallowing an exception. *)
Definition with_adapter {A} (body : Py world A) : Py world A :=
  let! _ := initialize in
  fun st => let (o, st1) := body st in
    match a_close st1 with
    | (Ret _, st2) => (o, st2)
    | (Exc e, st2) => (Exc e, st2)
    end.

(** [StandardPipeline]: the queued SETEX commands are sent together on [execute];
    nothing queued sends nothing.  A missing client is an error at [pipeline()]. *)
Definition pipeline_script (l : list (string * Z * string)) : Srv S unit :=
  mfor l (fun x => let! _ := cmd_set (fst (fst x)) (snd x) (Some (snd (fst x))) false in ret tt).
Definition a_pipeline (l : list (string * Z * string)) : Py world unit := fun st =>
  if negb (ad_redis (fst st)) then (Exc (PyErr CacheConnectionError "Redis not initialized"), st)
  else match l with
       | [] => (Ret tt, st)
       | _ => on_snd (rexec (pipeline_script l)) st
       end.

#[export] Instance StandardRedisAdapter : CacheInterface world := {
  ci_get := a_get; ci_set := a_set; ci_setex := a_setex; ci_delete := a_delete;
  ci_exists := a_exists; ci_ttl := a_ttl; ci_expire := a_expire; ci_mget := a_mget;
  ci_scan := a_scan; ci_incrby := a_incrby; ci_zadd := a_zadd;
  ci_zrangebyscore := a_zrangebyscore; ci_zrange := a_zrange; ci_zrem := a_zrem;
  ci_sadd := a_sadd; ci_srem := a_srem; ci_pipeline := a_pipeline;
  ci_hgetall := a_hgetall; ci_hset := a_hset; ci_xadd := a_xadd; ci_eval := a_eval;
}.

(** ** Factory and process-wide cache *)

Inductive provider := STANDARD | UPSTASH.
(** [CacheProviderFactory.create]: which adapter to build. *)
Definition factory_create (upstash_available : bool) (name : string) : outcome exn provider :=
  if bool_decide (lower name = "upstash") then
    if upstash_available then Ret UPSTASH
    else Exc (PyErr OtherException "upstash-redis is required for the upstash provider.")
  else if bool_decide (lower name = "standard") then Ret STANDARD
  else Exc (PyErr ValueError ("Unsupported cache provider: " +:+ name)).
(** [create_and_initialize] for the standard provider *)
Definition create_and_initialize (redis_url : string) : Py world unit :=
  match require_plain_redis_url redis_url with
  | Exc e => raise e
  | Ret _ =>
      let! success := initialize in
      if (success : bool) then ret tt
      else do! a_close in
           raise (PyErr CacheConnectionError "Cache adapter failed to initialize — Redis may be unreachable")
  end.
(** [ServiceCache.service]: [sc] tells whether [self._service] is set. *)
Definition service (redis_url : string) : Py (bool * world) bool := fun '(sc, st) =>
  if (sc : bool) then (Ret true, (true, st))
  else match create_and_initialize redis_url st with
       | (Ret _, st') => (Ret true, (true, st'))
       | (Exc e, st') => if is_Exception e then (Ret false, (false, st')) else (Exc e, (false, st'))
       end.
Definition service_cache_close : Py (bool * world) unit := fun '(sc, st) =>
  if (sc : bool) then let (o, st') := a_close st in (o, (false, st')) else (Ret tt, (false, st)).
End Adapter.

(** ** Silent failure *)

Section Silent.
Context {W : Type} `{CacheErrors W}.

Lemma or_default_never {A} (d : A) (c : Py W A) : ordinary c -> never_raises (or_default d c).
Proof.
  intros Hc. unfold or_default, catch_Exception. eapply raises_only_catch_except; [exact Hc |].
  intros e ->. apply raises_only_ret.
Qed.
Lemma decode_ordinary (s : string) : ordinary (W := W) (decode s).
Proof. unfold decode. destruct (loads s); [apply raises_only_ret | by apply raises_only_raise]. Qed.
Lemma set_raises svc k v ttl nx : raises_only (fun e => isinstance e ValueError = true) (svc_set svc k v ttl nx).
Proof.
  unfold svc_set. eapply (raises_only_catch_except _ (fun e => is_Exception e = true)).
  - case_match; [by apply raises_only_raise |]. case_match; [apply set_ordinary |].
    apply raises_only_bind; [apply setex_ordinary | intros; apply raises_only_ret].
  - intros e He. rewrite He. case_match; [by apply raises_only_raise | apply raises_only_ret].
Qed.
Lemma get_never k : never_raises (svc_get (W := W) k).
Proof.
  apply or_default_never. apply raises_only_bind; [cache_op |].
  intros [s|]; [apply decode_ordinary | apply raises_only_ret].
Qed.
End Silent.


Section Answers.
Context {W : Type} `{CacheErrors W}.
End Answers.


(** Cache-aside.  A hit is returned without running the fetch; on a miss, or when
    the cache cannot be read, the fetch runs exactly once and its outcome is the
    result, value or exception, whatever the cache write does. *)
Theorem get_or_set_contract {W} `{CacheErrors W} svc k (fetch : Py W json) ttl w :
  exists v w1, svc_get k w = (Ret v, w1) /\
    (v <> JNull -> svc_get_or_set svc k fetch ttl w = (Ret v, w1)) /\
    (v = JNull -> fst (svc_get_or_set svc k fetch ttl w) = fst (fetch w1)).
Proof.
  destruct (never_raises_returns (svc_get k) w (get_never k)) as (v & w1 & E).
  exists v, w1. split; [exact E |]. unfold svc_get_or_set. rewrite (bind_Ret _ _ _ _ _ E).
  split; [by destruct v |]. intros ->. unfold bind at 1.
  destruct (fetch w1) as [[d|e] w2] eqn:Ef; [| done]. cbn [fst].
  assert (Hset : exists w3, catch (let! _ := svc_set svc k d ttl false in ret tt)
    (fun e => if isinstance e ValueError then ret tt else raise e) w2 = (Ret tt, w3)).
  { unfold catch, bind. destruct (svc_set svc k d ttl false w2) as [[b|e] w3] eqn:Es; [by eexists |].
    pose proof (set_raises svc k d ttl false w2 e w3 Es) as He. cbn in He. rewrite He. by eexists. }
  destruct Hset as [w3 Hset]. destruct d; try done; by rewrite (bind_Ret _ _ _ _ _ Hset).
Qed.

(** ** The adapter keeps the interface's promise *)

Section AdapterLaws.
Context {W S : Type} `{RedisServer S} `{RedisMore S} `{RedisConn W S}.

(** redis-py raises exceptions of its own, and the caller is not cancelled. *)
Definition link_ordinary : Prop := forall A (c : Srv S A), ordinary (rexec (W := W) c).
Hypothesis Hlink : link_ordinary.

Lemma check_ordinary op : ordinary (_check_initialized (W := W) op).
Proof. intros st e st'. unfold _check_initialized. case_match; [by intros [= <- _] | discriminate]. Qed.
Lemma wrapped_ordinary {A} op name (c : Srv S A) : ordinary (wrapped (W := W) op name c).
Proof.
  apply raises_only_bind; [apply check_ordinary |]. intros _. unfold catch_Exception.
  eapply (raises_only_catch_except _ (fun e => is_Exception e = true)).
  - intros st e st'. unfold on_snd. destruct (rexec c (snd st)) as [o w'] eqn:E.
    intros [= -> _]. by eapply Hlink.
  - intros e ->. by apply raises_only_raise.
Qed.
Lemma adapter_errors : CacheErrors (adapter * W).
Proof.
  split; intros; cbn; try apply wrapped_ordinary;
    try (unfold a_delete, a_exists, a_mget; destruct ks;
         [apply raises_only_bind; [apply check_ordinary | intros; apply raises_only_ret]
         | apply wrapped_ordinary]).
  intros st e st'. unfold a_pipeline. case_match; [by intros [= <- _] |].
  destruct l; [discriminate |]. unfold on_snd. destruct (rexec _ (snd st)) as [o w'] eqn:E.
  intros [= -> _]. by eapply Hlink.
Qed.
End AdapterLaws.

(** ** Round trip and invalidation over the Redis adapter *)

Definition ready : adapter := mkAdapter true true.

Section RoundTrip.
Context {W S : Type} `{RedisDoc S} `{RedisMore S} `{RedisConn W S}.
Variable up : W -> Prop.
Hypothesis Hexact : exact_link up.

Lemma wrapped_run {A} op name (c : Srv S A) w a m :
  up w -> gives c (srv w) (Ret a) m ->
  exists w', wrapped op name c (ready, w) = (Ret a, (ready, w')) /\ srv_live (srv w') = m /\
    srv_now (srv w') = srv_now (srv w) /\ up w'.
Proof.
  intros Hup Hg. destruct (exact_run up c w _ _ Hexact Hup Hg) as (w' & E & Hm & Hn & Hup').
  exists w'. unfold wrapped, bind, _check_initialized, catch_Exception, catch, on_snd. cbn [fst snd ad_redis ad_available ready negb orb].
  by rewrite E.
Qed.
End RoundTrip.

(** Write and read back.  Over a connection without faults, a value stored through
    the service and the Redis adapter is read back unchanged until its TTL has passed,
    and is gone from then on. *)
Theorem cache_roundtrip {W S} `{RedisDoc S} `{RedisMore S} `{RedisConn W S} (up : W -> Prop) svc k v ttl w :
  exact_link up -> up w -> json_wf v = true -> 0 < ttl ->
  max_value_bytes svc = 0 \/ Z.of_nat (String.length (dumps v)) <= max_value_bytes svc ->
  exists w1, svc_set svc k v ttl false (ready, w) = (Ret true, (ready, w1)) /\
    forall w2 d, up w2 -> 0 <= d -> srv w2 = srv_tick d (srv w1) ->
      fst (svc_get k (ready, w2)) = Ret (if d <? ttl * sec then v else JNull).
Proof.
  intros Hx Hup Hwf Httl Hsize.
  pose proof (set_doc k (dumps v) (Some ttl) false (srv w)) as Hs. unfold doc_set in Hs.
  rewrite (proj2 (Z.leb_gt ttl 0)) in Hs by lia. cbn in Hs.
  assert (Hs' : gives (let! _ := cmd_set k (dumps v) (Some ttl) false in ret true) (srv w) (Ret true)
    (<[k := mkEntry (RStr (dumps v)) (Some (srv_now (srv w) + ttl * sec))]> (srv_live (srv w)))).
  { eapply gives_bind; [exact Hs |]. intros s' Hm _. by apply gives_ret_eq. }
  destruct (wrapped_run up Hx "setex" "SETEX" _ w _ _ Hup Hs') as (w1 & E & Hm & Hn & Hup1).
  exists w1. split.
  - unfold svc_set, catch. rewrite (proj2 (andb_false_iff _ _)).
    + unfold bind. cbn [ci_setex StandardRedisAdapter]. unfold a_setex. by rewrite E.
    + destruct Hsize as [-> | Hs2]; [by left | right; lia].
  - intros w2 d Hup2 Hd Hw2.
    assert (Hl : srv_live (srv w2) !! k = if d <? ttl * sec
      then Some (mkEntry (RStr (dumps v)) (Some (srv_now (srv w) + ttl * sec))) else None).
    { rewrite Hw2, tick_lookup, Hm, lookup_insert_eq, Hn by done. unfold unexpired. cbn [e_exp].
      destruct (d <? ttl * sec) eqn:Ed; [rewrite (proj2 (Z.ltb_lt _ _)) by lia | rewrite (proj2 (Z.ltb_ge _ _)) by lia]; done. }
    pose proof (get_doc k (srv w2)) as Hg. unfold doc_get in Hg. rewrite Hl in Hg.
    unfold svc_get, or_default, catch_Exception, catch, bind. cbn [ci_get StandardRedisAdapter]. unfold a_get.
    destruct (d <? ttl * sec); cbn [e_val] in Hg;
      destruct (wrapped_run up Hx "get" "GET" _ w2 _ _ Hup2 Hg) as (w3 & -> & _); [| done].
    unfold decode. by rewrite loads_dumps.
Qed.

(** What the documentation guarantees of a full SCAN iteration: [ahead c k] says that an
    iteration at cursor [c] has not passed [k] yet; [scan_rank] bounds the calls left. *)
Class ScanDoc (S : Type) `{RedisServer S} `{RedisMore S} := {
  key_matches : string -> string -> bool;
  ahead : Z -> string -> Prop;
  scan_rank : Z -> nat;
  ahead_start k : ahead 0 k;
  scan_doc c p n s : exists next ks, gives (cmd_scan c p n) s (Ret (next, ks)) (srv_live s) /\
    (forall k, k ∈ ks -> key_matches p k = true) /\
    (forall k, is_Some (srv_live s !! k) -> key_matches p k = true -> ahead c k ->
       k ∈ ks \/ next <> 0 /\ ahead next k) /\
    (next <> 0 -> (scan_rank next < scan_rank c)%nat);
}.

Section Invalidation.
Context {W S : Type} `{RedisDoc S} `{!RedisMore S} `{!ScanDoc S} `{RedisConn W S}.
Variable up : W -> Prop.
Hypothesis Hexact : exact_link up.
Variable p : string.

Definition only_ahead (c : Z) (w : W) : Prop := forall k,
  key_matches p k = true -> srv_live (srv w) !! k = None \/ ahead c k.
Definition others_kept (w w' : W) : Prop := forall k,
  key_matches p k = false -> srv_live (srv w') !! k = srv_live (srv w) !! k.

(** One round: scan a batch and delete it. *)
Lemma delete_round c n w : up w -> only_ahead c w ->
  exists next ks n' w', ci_scan c p 100 (ready, w) = (Ret (next, ks), (ready, w')) /\
    exists w'', delete_batch n ks (ready, w') = (Ret n', (ready, w'')) /\ up w'' /\ others_kept w w'' /\
    (if next =? 0 then forall k, key_matches p k = true -> srv_live (srv w'') !! k = None
     else only_ahead next w'' /\ (scan_rank next < scan_rank c)%nat).
Proof.
  intros Hup Hahead. destruct (scan_doc c p 100 (srv w)) as (next & ks & Hg & Hmatch & Hcover & Hrank).
  destruct (wrapped_run up Hexact "scan" "SCAN" _ w _ _ Hup Hg) as (w1 & E1 & Hm1 & _ & Hup1).
  exists next, ks.
  assert (Hdel : exists n' w'', delete_batch n ks (ready, w1) = (Ret n', (ready, w'')) /\ up w'' /\
    forall k, srv_live (srv w'') !! k = if bool_decide (k ∈ ks) then None else srv_live (srv w) !! k).
  { unfold delete_batch. destruct ks as [|k0 ks].
    - exists n, w1. split; [done |]. split; [done |]. intros k. by rewrite bool_decide_false, Hm1 by set_solver.
    - destruct (wrapped_run up Hexact "delete" "DELETE" _ w1 _ _ Hup1 (del_doc (k0 :: ks) (srv w1)))
        as (w2 & E2 & Hm2 & _ & Hup2).
      eexists _, w2. split; [unfold bind; cbn [ci_delete StandardRedisAdapter]; unfold a_delete; by rewrite E2 |].
      split; [done |]. intros k. by rewrite Hm2, doc_del_lookup, Hm1. }
  destruct Hdel as (n' & w'' & E2 & Hup2 & Hlook). exists n', w1. split; [exact E1 |].
  exists w''. split; [exact E2 |]. split; [done |]. split.
  - intros k Hk. rewrite Hlook, bool_decide_false; [done |]. intros Hin%Hmatch. congruence.
  - assert (Hnew : forall k, key_matches p k = true ->
      srv_live (srv w'') !! k = None \/ next <> 0 /\ ahead next k).
    { intros k Hk. rewrite Hlook. case_bool_decide as Hin; [by left |].
      destruct (srv_live (srv w) !! k) as [e|] eqn:Ek; [right | by left].
      destruct (Hahead k Hk) as [Hn | Ha]; [congruence |].
      destruct (Hcover k) as [? | ?]; [by rewrite Ek | done | done | done | done]. }
    destruct (next =? 0) eqn:Enext.
    + intros k Hk. destruct (Hnew k Hk) as [? | [? _]]; [done | lia].
    + split; [intros k Hk; destruct (Hnew k Hk) as [? | [_ ?]]; auto | apply Hrank; lia].
Qed.

Lemma delete_loop fuel : forall c n w, up w -> only_ahead c w -> (scan_rank c < fuel)%nat ->
  exists n' w', scan_loop fuel p 100 c delete_batch n (ready, w) = (Ret n', (ready, w')) /\
    others_kept w w' /\ forall k, key_matches p k = true -> srv_live (srv w') !! k = None.
Proof.
  induction fuel as [|fuel IH]; intros c n w Hup Ha Hf; [lia |].
  destruct (delete_round c n w Hup Ha) as (next & ks & n1 & w1 & E1 & w2 & E2 & Hup2 & Hk & Hnext).
  cbn [scan_loop]. rewrite (bind_Ret _ _ _ _ _ E1). cbn beta iota. rewrite (bind_Ret _ _ _ _ _ E2).
  destruct (next =? 0); [by exists n1, w2 |]. destruct Hnext as [Ha2 Hr].
  destruct (IH next n1 w2 Hup2 Ha2 ltac:(lia)) as (n' & w' & E & Hk' & Hdone).
  exists n', w'. split; [exact E |]. split; [| done]. intros k Hm. rewrite Hk', Hk by done. done.
Qed.
End Invalidation.

(** C31. Pattern invalidation.  Over a connection without faults, [delete_pattern] returns
    after at most [scan_rank 0 + 1] rounds, no key that matches the pattern is left, and no
    other key is touched. *)
Theorem delete_pattern_complete {W S} `{RedisDoc S} `{!RedisMore S} `{!ScanDoc S} `{RedisConn W S}
    (up : W -> Prop) p w :
  exact_link up -> up w ->
  exists n w', svc_delete_pattern (1 + scan_rank 0) p (ready, w) = (Ret n, (ready, w')) /\
    forall k, srv_live (srv w') !! k =
      if key_matches p k then None else srv_live (srv w) !! k.
Proof.
  intros Hx Hup. destruct (delete_loop up Hx p (1 + scan_rank 0) 0 0 w) as (n & w' & E & Hk & Hd);
    [done | intros k _; right; apply ahead_start | lia |].
  exists n, w'. split.
  - unfold svc_delete_pattern, or_default, catch_Exception, catch. by rewrite E.
  - intros k. destruct (key_matches p k) eqn:Em; [by apply Hd | by apply Hk].
Qed.

(** ** List keys *)

Lemma filter_hash_perm f1 f2 : f1 ≡ₚ f2 -> NoDup f1.*1 -> filter_hash f1 = filter_hash f2.
Proof. intros P N. unfold filter_hash. by rewrite (sort_keys_perm f1 f2). Qed.
(** The pattern of [invalidate_list_caches], without its final star. *)
Lemma list_pattern entity prefix (x : string) :
  exists t, build_cache_key [Some entity; Some "list"; Some x] prefix = t +:+ x /\
    build_cache_key [Some entity; Some "list"; Some "*"] prefix = t +:+ "*".
Proof.
  exists (prefix +:+ ":" +:+ entity +:+ ":" +:+ "list" +:+ ":").
  unfold build_cache_key. cbn [omap list_omap join]. by rewrite !append_assoc.
Qed.

(** List cache keys.  The order in which a client puts its filters does not change the key
    of the list query, in the service and in the helper, and every list key of an entity extends the
    literal part of the pattern that [invalidate_list_caches] scans for. *)
Theorem list_cache_key svc entity prefix f1 f2 :
  f1 ≡ₚ f2 -> NoDup f1.*1 ->
  svc_build_list_key svc entity f1 = svc_build_list_key svc entity f2 /\
  build_list_cache_key entity f1 [] prefix = build_list_cache_key entity f2 [] prefix /\
  exists t x, build_cache_key [Some entity; Some "list"; Some "*"] prefix = t +:+ "*" /\
    build_list_cache_key entity f1 [] prefix = t +:+ x.
Proof.
  intros P N. unfold svc_build_list_key, build_list_cache_key. cbn [foldl].
  destruct f1 as [|x f1], f2 as [|y f2];
    [| by apply Permutation_nil in P | by apply Permutation_sym, Permutation_nil in P |].
  - destruct (list_pattern entity prefix "all") as (t & E1 & E2). split_and!; [done | done | by exists t, "all"].
  - rewrite (filter_hash_perm _ _ P N).
    destruct (list_pattern entity prefix ("hash_" +:+ filter_hash (y :: f2))) as (t & E1 & E2).
    split_and!; [done | done | by eexists t, _].
Qed.

(** ** Witnesses *)

(** Globs with [*] only; the other metacharacters stand for themselves. *)
Fixpoint glob (p s : string) : bool :=
  match p with
  | EmptyString => bool_decide (s = "")
  | String c p' =>
      if bool_decide (c = Ascii.ascii_of_nat 42) then
        (fix star (s : string) : bool :=
           glob p' s || match s with EmptyString => false | String _ s' => star s' end) s
      else match s with
           | String d s' => bool_decide (c = d) && glob p' s'
           | EmptyString => false
           end
  end.
Definition scan_all (p : string) (m : gmap string entry) : list string :=
  filter (fun k => glob p k = true) (map_to_list m).*1.
#[export] Instance mem_more : RedisMore mem := {
  cmd_ping s := (Ret tt, s);
  cmd_scan _ p _ := doc_cmd (fun _ m => (Ret (0, scan_all p m), m));
  cmd_zrangebyscore _ _ _ _ s := (Ret [], s);
  cmd_zrange _ _ _ s := (Ret [], s);
  cmd_zrem _ _ s := (Ret 0, s);
  cmd_sadd _ _ s := (Ret 0, s);
  cmd_srem _ _ s := (Ret 0, s);
  cmd_hgetall _ s := (Ret None, s);
  cmd_hset _ _ s := (Ret 0, s);
  cmd_xappend _ _ _ s := (Ret None, s);
  cmd_eval _ _ _ s := (Ret JNull, s);
}.
#[export] Instance mem_scan : ScanDoc mem.
Proof.
  refine {| key_matches := glob; ahead := fun _ _ => True; scan_rank := fun _ => O |}; [done |].
  intros c p n s. exists 0, (scan_all p (mem_map s)). split; [apply doc_cmd_gives |].
  unfold scan_all. split; [| split; [| done]].
  - by intros k [Hk _]%list_elem_of_filter.
  - intros k [e He] Hk _. left. apply list_elem_of_filter. split; [done |].
    apply list_elem_of_fmap. exists (k, e). split; [done |]. by apply elem_of_map_to_list.
Defined.

Lemma conn_ordinary : link_ordinary (W := conn mem) (S := mem).
Proof.
  intros A c [s t ls] e w'. cbn. unfold lift_reply, link_down.
  destruct ls as [|[| | |] ls]; destruct (c s) as [[a|e1] s1];
    try destruct (c s1) as [[b|e2] s2]; intros E; inversion E; reflexivity.
Qed.
Definition demo_cache : CacheService := mkCacheService "dev:svc" DEFAULT_MAX_VALUE_BYTES.


Lemma get_or_set_contract_witness :
  fst (svc_get_or_set demo_cache "k" (ret (JInt 7)) 60 (ready, mkConn mem0 0 [Down; Down])) =
  Ret (JInt 7).
Proof.
  destruct (get_or_set_contract (H0 := adapter_errors conn_ordinary) demo_cache "k" (ret (JInt 7)) 60
    (ready, mkConn mem0 0 [Down; Down])) as (v & w1 & E & _ & Hm).
  vm_compute in E. injection E as <- <-. exact (Hm eq_refl).
Defined.

Lemma cache_roundtrip_witness :
  exists w1, svc_set demo_cache "k" (JObj [("n", JInt 1)]) 60 false (ready, mkConn mem0 0 []) =
    (Ret true, (ready, w1)) /\
  fst (svc_get "k" (ready, mkConn (srv_tick (59 * sec) (srv w1)) 0 [])) = Ret (JObj [("n", JInt 1)]) /\
  fst (svc_get "k" (ready, mkConn (srv_tick (60 * sec) (srv w1)) 0 [])) = Ret JNull.
Proof.
  destruct (cache_roundtrip conn_up demo_cache "k" (JObj [("n", JInt 1)]) 60 (mkConn mem0 0 []))
    as (w1 & E & Hget);
    [apply conn_exact | reflexivity | reflexivity | lia | right; vm_compute; discriminate |].
  exists w1. split; [exact E |]. split.
  - apply (Hget (mkConn (srv_tick (59 * sec) (srv w1)) 0 []) (59 * sec)); [reflexivity | unfold sec; lia | reflexivity].
  - apply (Hget (mkConn (srv_tick (60 * sec) (srv w1)) 0 []) (60 * sec)); [reflexivity | unfold sec; lia | reflexivity].
Defined.

Definition two_keys : mem :=
  mkMem {["dev:a:1" := mkEntry (RStr "1") None; "dev:b:1" := mkEntry (RStr "2") None]} 0.
Lemma delete_pattern_complete_witness :
  exists n w', svc_delete_pattern 1 "dev:a:*" (ready, mkConn two_keys 0 []) = (Ret n, (ready, w')) /\
    srv_live (srv w') !! "dev:a:1" = None /\ is_Some (srv_live (srv w') !! "dev:b:1").
Proof.
  destruct (delete_pattern_complete conn_up "dev:a:*" (mkConn two_keys 0 [])) as (n & w' & E & Hk);
    [apply conn_exact | reflexivity |].
  exists n, w'. split; [exact E |]. rewrite !Hk. split; [reflexivity | vm_compute; eexists; reflexivity].
Defined.

Lemma list_cache_key_witness :
  build_list_cache_key "blog" [("page", JInt 1); ("lang", JStr "en")] [] "cms" =
  build_list_cache_key "blog" [("lang", JStr "en"); ("page", JInt 1)] [] "cms".
Proof.
  destruct (list_cache_key demo_cache "blog" "cms" [("page", JInt 1); ("lang", JStr "en")]
    [("lang", JStr "en"); ("page", JInt 1)]) as (_ & E & _);
    [apply perm_swap | vm_compute; repeat constructor; set_solver | exact E].
Defined.
