(* ===== verification/Upstash.v ===== *)
(** * The Upstash cache adapter

    Models src/tr_shared/cache/adapters/upstash.py: the operations that UpstashAdapter defines
    itself, over the base adapter's (Cache, section Adapter).  The REST client is a parameter
    ([UpstashSdk]); its commands act on the same server as redis-py's. *)

From S2P Require Import Prelude Json Errors Redis Cache.
Local Open Scope Z_scope.

(** What the SDK answers: to SET and SETEX (the server wrote or not), to PING; its batch request. *)
Class UpstashSdk (S : Type) := {
  sdk_new : string -> string -> outcome exn unit;    (* [AsyncUpstashRedis(url, token)] *)
  sdk_set_reply : bool -> json;
  sdk_ping_reply : json;
  sdk_exec : list (string * Z * string) -> Srv S (list json);   (* SETEX key ttl value, one request *)
}.
(** The behaviour that [set] relies on: [None] exactly when nothing was written. *)
Class UpstashSdkDoc (S : Type) `{UpstashSdk S} : Prop :=
  set_reply_doc b : sdk_set_reply b = JNull <-> b = false.

Definition not_None (v : json) : bool := match v with JNull => false | _ => true end.

Section Upstash.
Context {W S : Type} `{RedisServer S} `{RedisMore S} `{UpstashSdk S} `{RedisConn W S}.
Notation world := (adapter * W)%type.
Variables rest_url rest_token : string.

(** The client is built inside the [try]: when that fails, an older one stays. *)
Definition u_initialize : Py world bool := fun st =>
  match sdk_new rest_url rest_token with
  | Exc e => if is_Exception e then (Ret false, (mkAdapter (ad_redis (fst st)) false, snd st)) else (Exc e, st)
  | Ret _ =>
      match rexec cmd_ping (snd st) with
      | (Ret _, w) => (Ret true, (mkAdapter true true, w))
      | (Exc e, w) => if is_Exception e then (Ret false, (mkAdapter true false, w))
                      else (Exc e, (mkAdapter true (ad_available (fst st)), w))
      end
  end.
Definition u_close : Py world unit := fun st => (Ret tt, (mkAdapter false false, snd st)).
Definition u_ping : Py world bool := fun st =>
  if negb (ad_redis (fst st)) || negb (ad_available (fst st)) then (Ret false, st)
  else catch_Exception
         (let! _ := on_snd (rexec cmd_ping) in
          ret (match sdk_ping_reply with JStr r => bool_decide (r = "PONG") | _ => false end))
         (fun _ => ret false) st.
(** [elif ttl:] takes a TTL of 0 for none. *)
Definition u_set (k v : string) (ttl : option Z) (nx : bool) : Py world bool :=
  wrapped "set" "SET"
    (if nx then let! r := cmd_set k v ttl true in ret (not_None (sdk_set_reply r))
     else match ttl with
          | Some t => if t =? 0 then let! r := cmd_set k v None false in ret (not_None (sdk_set_reply r))
                      else let! r := cmd_set k v (Some t) false in ret (not_None (sdk_set_reply r))
          | None => let! r := cmd_set k v None false in ret (not_None (sdk_set_reply r))
          end).
(** [approximate=True] is also redis-py's default. *)
Definition u_xadd (stream : string) (f : list (string * string)) (maxlen : option Z) : Py world (option string) :=
  wrapped "xadd" "XADD" (cmd_xappend stream f maxlen).
(** [UpstashPipeline]: [execute] sends the batch also when nothing was queued, and does not wrap
    its errors. *)
Definition u_pipeline (l : list (string * Z * string)) : Py world unit := fun st =>
  if negb (ad_redis (fst st)) then (Exc (PyErr CacheConnectionError "Upstash not initialized"), st)
  else (let! _ := on_snd (rexec (sdk_exec l)) in ret tt) st.

(** [CacheProviderFactory.create_and_initialize] with provider "upstash" *)
Definition upstash_create_and_initialize : Py world unit :=
  let! success := u_initialize in
  if (success : bool) then ret tt
  else do! u_close in
       raise (PyErr CacheConnectionError "Cache adapter failed to initialize — Redis may be unreachable").

Definition UpstashAdapter : CacheInterface world := {|
  ci_get := a_get; ci_set := u_set; ci_setex := a_setex; ci_delete := a_delete;
  ci_exists := a_exists; ci_ttl := a_ttl; ci_expire := a_expire; ci_mget := a_mget;
  ci_scan := a_scan; ci_incrby := a_incrby; ci_zadd := a_zadd;
  ci_zrangebyscore := a_zrangebyscore; ci_zrange := a_zrange; ci_zrem := a_zrem;
  ci_sadd := a_sadd; ci_srem := a_srem; ci_pipeline := u_pipeline;
  ci_hgetall := a_hgetall; ci_hset := a_hset; ci_xadd := u_xadd; ci_eval := a_eval;
|}.

(** The adapter keeps the interface's promise, so the theorems on the cache service
    (silent failure, cache-aside) hold for it as well. *)
Lemma upstash_errors : link_ordinary (W := W) -> CacheErrors world (H := UpstashAdapter).
Proof.
  intros Hlink. pose proof (adapter_errors (W := W) Hlink) as He. split; intros; cbn.
  all: try solve [apply He | apply wrapped_ordinary, Hlink].
  intros st e st'. unfold u_pipeline. case_match; [by intros [= <- _] |].
  unfold bind, on_snd. destruct (rexec _ (snd st)) as [[x|x] w'] eqn:E; [discriminate |].
  intros [= -> _]. by eapply Hlink.
Qed.
End Upstash.

(** ** The two adapters agree *)

Section Agree.
Context {W S : Type} `{RedisServer S} `{RedisMore S} `{UpstashSdk S, !UpstashSdkDoc S} `{RedisConn W S}.
(** A command on the connection is a function of what it does to the server. *)
Hypothesis rexec_ext : forall A (c c' : Srv S A) w, (forall s, c s = c' s) -> rexec (W := W) c w = rexec c' w.

Lemma not_None_reply b : not_None (sdk_set_reply (S := S) b) = b.
Proof.
  pose proof (set_reply_doc (S := S) b) as Hd. destruct b; cbn.
  - destruct (sdk_set_reply true); try done. by discriminate (proj1 Hd eq_refl).
  - by rewrite (proj2 Hd eq_refl).
Qed.
Lemma sdk_set k v ttl nx (s : S) :
  (let! r := cmd_set k v ttl nx in ret (not_None (sdk_set_reply (S := S) r))) s = cmd_set k v ttl nx s.
Proof. unfold bind, ret. destruct (cmd_set k v ttl nx s) as [[b|e] s']; [by rewrite not_None_reply | done]. Qed.
Lemma wrapped_ext {A} op name (c c' : Srv S A) (st : adapter * W) :
  (forall s, c s = c' s) -> wrapped op name c st = wrapped op name c' st.
Proof.
  intros E. unfold wrapped, bind, catch_Exception, catch, on_snd, _check_initialized.
  destruct (negb _ || negb _); cbn [fst snd]; [done |]. by rewrite (rexec_ext _ c c').
Qed.

(** [set] is the same on both adapters, except that Upstash's takes a TTL of 0 without NX for no
    TTL. *)
Theorem adapters_agree k v ttl nx (st : adapter * W) :
  u_set k v ttl nx st =
  a_set k v (match ttl with Some 0 => if nx then ttl else None | _ => ttl end) nx st.
Proof.
  unfold u_set, a_set. apply wrapped_ext. intros s. destruct nx.
  - rewrite sdk_set. by destruct ttl as [[| |]|].
  - destruct ttl as [[| |]|]; cbn [Z.eqb]; apply sdk_set.
Qed.
(** The cache service cannot tell: it never sets a TTL of 0 without NX through [set]. *)
Theorem service_agrees svc key value ttl nx (st : adapter * W) :
  svc_set (H := UpstashAdapter) svc key value ttl nx st = svc_set svc key value ttl nx st.
Proof.
  unfold svc_set, catch. destruct (negb _ && _); [done |]. destruct nx; [| done].
  change (ci_set (CacheInterface := UpstashAdapter)) with (u_set (S := S) (W := W)).
  rewrite adapters_agree. by destruct ttl.
Qed.
End Agree.

(** A TTL of 0: the Redis adapter reports the server's refusal and writes nothing, the Upstash
    adapter answers success and stores the value for ever. *)
Theorem ttl_zero_diverges {W S} `{RedisDoc S} `{RedisMore S} `{UpstashSdk S, !UpstashSdkDoc S} `{RedisConn W S}
    (up : W -> Prop) k v (w : W) :
  exact_link up -> up w ->
  (exists m w1, a_set k v (Some 0) false (Cache.ready, w) = (Exc (PyErr CacheOperationError m), (Cache.ready, w1)) /\
     srv_live (srv w1) = srv_live (srv w)) /\
  exists w2, u_set k v (Some 0) false (Cache.ready, w) = (Ret true, (Cache.ready, w2)) /\
    srv_live (srv w2) = <[k := mkEntry (RStr v) None]> (srv_live (srv w)).
Proof.
  intros Hx Hup. split.
  - pose proof (set_doc k v (Some 0) false (srv w)) as Hs. unfold doc_set in Hs. cbn in Hs.
    destruct (exact_run up _ w _ _ Hx Hup Hs) as (w1 & E & Hm & _). eexists _, w1. split; [| exact Hm].
    unfold a_set, wrapped, bind, _check_initialized, catch_Exception, catch, on_snd. cbn [fst snd ad_redis ad_available Cache.ready negb orb].
    by rewrite E.
  - pose proof (set_doc k v None false (srv w)) as Hs. unfold doc_set in Hs. cbn in Hs.
    assert (Hs' : gives (let! r := cmd_set k v None false in ret (not_None (sdk_set_reply (S := S) r))) (srv w)
              (Ret true) (<[k := mkEntry (RStr v) None]> (srv_live (srv w)))).
    { eapply gives_bind; [exact Hs |]. intros s' Hm _. rewrite not_None_reply. by apply gives_ret_eq. }
    destruct (wrapped_run up Hx "set" "SET" _ w _ _ Hup Hs') as (w2 & E & Hm & _).
    exists w2. split; [exact E | exact Hm].
Qed.

(** An SDK that answers as documented, over the in-memory server *)
#[export] Instance mem_sdk : UpstashSdk mem := {
  sdk_new _ _ := Ret tt;
  sdk_set_reply b := if (b : bool) then JBool true else JNull;
  sdk_ping_reply := JStr "PONG";
  sdk_exec l := let! _ := pipeline_script l in ret (map (fun _ => JBool true) l);
}.
#[export] Instance mem_sdk_doc : UpstashSdkDoc mem.
Proof. intros [|]; cbn; split; congruence. Qed.
Lemma ttl_zero_diverges_witness :
  exists w2, u_set (S := mem) "k" "v" (Some 0) false (Cache.ready, mkConn mem0 0 []) =
    (Ret true, (Cache.ready, w2)) /\
  srv_live (srv w2) = {["k" := mkEntry (RStr "v") None]}.
Proof.
  destruct (ttl_zero_diverges conn_up "k" "v" (mkConn mem0 0 [])) as (_ & w2 & E & Hm);
    [apply conn_exact | reflexivity |].
  exists w2. split; [exact E |]. rewrite Hm. reflexivity.
Defined.
Lemma service_agrees_witness :
  fst (svc_set (H := UpstashAdapter (S := mem)) demo_cache "k" (JInt 1) 60 true (Cache.ready, mkConn mem0 0 [])) = Ret true.
Proof.
  rewrite service_agrees; [reflexivity |].
  intros A c c' [s t ls] E. cbn. rewrite E. destruct ls as [|[| | |] ls]; try done.
  all: destruct (c' s) as [o s1]; by rewrite E.
Defined.
