(* ===== verification/Idempotency.v ===== *)
(** * Request idempotency

    Models src/tr_shared/middleware/idempotency.py ([APIIdempotencyMiddleware]).
    The rest of the application is [call_next], an arbitrary computation that may
    raise; it may change the world in any way, concurrent requests included.
    UTF-8 decoding with replacement is a parameter. *)

From S2P Require Import Prelude Json Errors Redis.
Local Open Scope Z_scope.

Record http_request := mkHttpRequest {
  q_method : string;
  q_headers : list (string * string);
  q_state_tenant : option string;         (* [request.state.tenant_id] *)
}.
(** [p_content_type] is the header the code reads and the [media_type] it gives to Starlette's
    [Response], which on the wire appends its charset to a [text/*] type that names none. *)
Record http_response := mkHttpResponse {
  p_status : Z;
  p_content_type : option string;
  p_headers : list (string * string);     (* other headers *)
  p_body : string;
}.

Definition _PROCESSING_SENTINEL : string := dumps (JObj [("s", JStr "processing")]).
Definition _PROCESSING_TTL_SECONDS : Z := 300.
Definition _UNCACHED_STATUSES : list Z := [401; 403; 429].

Record idem_config := mkIdem {
  i_redis_url : string;
  i_service_name : string;
  i_ttl : Z;
  i_max_response_size : Z;
  i_app : option string;                  (* the app's error code prefix *)
}.

Section Middleware.
Context {W S : Type} `{RedisServer S} `{RedisConn W S}.
Variable utf8 : string -> string.
Variable cfg : idem_config.
Variable call_next : http_request -> Py W http_response.

(** [_get_redis]: is there a client? *)
Definition idem_get_redis : bool :=
  nonempty (i_redis_url cfg) &&
  match require_plain_redis_url (i_redis_url cfg) with Ret _ => true | Exc _ => false end.

Definition _build_key (tenant_id idempotency_key : string) : string :=
  join ":" (filter (fun p => p <> "") [i_service_name cfg; "idempotency"; tenant_id; idempotency_key]).

Definition _conflict (message : string) : Py W http_response :=
  match framework_error_code (i_app cfg) CONFLICT_CODE with
  | Exc e => raise e
  | Ret code => ret (mkHttpResponse 409 (Some "application/json") []
                       (dumps (build_error_envelope message (JStr code) JNull [])))
  end.

(** The stored response, if [cached] is one. *)
Definition completed_response (data : json) : Py W (option http_response) :=
  match data with
  | JObj o =>
      match dget "s" o with
      | Some (JStr "completed") =>
          match dget "b" o, dget "sc" o, dget "ct" o with
          | None, _, _ => raise (PyErr KeyError "b")
          | _, None, _ => raise (PyErr KeyError "sc")
          | Some (JStr b), Some (JInt sc), None =>
              ret (Some (mkHttpResponse sc (Some "application/json")
                     [(HttpHeader.IDEMPOTENCY_REPLAYED, "true")] b))
          | Some (JStr b), Some (JInt sc), Some (JStr ct) =>
              ret (Some (mkHttpResponse sc (Some ct) [(HttpHeader.IDEMPOTENCY_REPLAYED, "true")] b))
          | _, _, _ => raise (PyErr TypeError "not a value this middleware stores")
          end
      | _ => ret None
      end
  | _ => raise (PyErr AttributeError "object has no attribute 'get'")
  end.

Definition _handle_duplicate (cache_key : string) : Py W http_response :=
  catch_Exception
    (let! cached := rexec (cmd_get cache_key) in
     let! replay :=
       match cached with
       | Some s =>
           if nonempty s then
             match loads s with
             | Some data => completed_response data
             | None => raise (PyErr ValueError "Expecting value")
             end
           else ret None
       | None => ret None
       end in
     match replay with
     | Some r => ret r
     | None => _conflict "A request with this idempotency key is currently being processed"
     end)
    (fun _ => _conflict "Unable to verify idempotency status").

Definition _release (cache_key : string) : Py W unit :=
  catch_Exception (let! _ := rexec (cmd_del [cache_key]) in ret tt) (fun _ => ret tt).

Definition completed_value (status_code : Z) (body content_type : string) : json :=
  JObj [("s", JStr "completed"); ("sc", JInt status_code); ("b", JStr (utf8 body));
        ("ct", JStr content_type)].
Definition cacheable (status_code : Z) (body : string) : bool :=
  (status_code <? 500) && negb (bool_decide (status_code ∈ _UNCACHED_STATUSES)) &&
  (Z.of_nat (String.length body) <=? i_max_response_size cfg).
Definition _store_completed (cache_key : string) (status_code : Z) (body content_type : string)
    : Py W bool :=
  if negb (cacheable status_code body) then ret false
  else catch_Exception
         (let! _ := rexec (cmd_set cache_key (dumps (completed_value status_code body content_type))
                             (Some (i_ttl cfg)) false) in ret true)
         (fun _ => ret false).

(** The response rebuilt from the streamed one. *)
Definition rebuilt (r : http_response) : http_response :=
  mkHttpResponse (p_status r) (Some (default "application/json" (p_content_type r)))
    (filter (fun kv => lower (fst kv) ∉ ["content-length"; "content-type"]) (p_headers r)) (p_body r).

Definition _process_and_cache (request : http_request) (cache_key : string) : Py W http_response :=
  let! response := catch (call_next request) (fun e => do! _release cache_key in raise e) in
  let! stored := _store_completed cache_key (p_status response) (p_body response)
                   (default "application/json" (p_content_type response)) in
  do! (if (stored : bool) then ret tt else _release cache_key) in
  ret (rebuilt response).

Definition dispatch (request : http_request) : Py W http_response :=
  if negb (bool_decide (q_method request = "POST")) then call_next request
  else match header_get HttpHeader.IDEMPOTENCY_KEY (q_headers request) with
       | None => call_next request
       | Some idempotency_key =>
           if negb (nonempty idempotency_key) then call_next request
           else
             let tenant_id :=
               match q_state_tenant request with
               | Some t => if nonempty t then t
                           else default "global" (header_get HttpHeader.TENANT_ID (q_headers request))
               | None => default "global" (header_get HttpHeader.TENANT_ID (q_headers request))
               end in
             if negb idem_get_redis then call_next request
             else
               let cache_key := _build_key tenant_id idempotency_key in
               let! was_set :=
                 catch_Exception
                   (let! b := rexec (cmd_set cache_key _PROCESSING_SENTINEL
                                       (Some _PROCESSING_TTL_SECONDS) true) in ret (Some b))
                   (fun _ => ret None) in
               match was_set with
               | None => call_next request
               | Some false => _handle_duplicate cache_key
               | Some true => _process_and_cache request cache_key
               end
       end.
End Middleware.

(** The Redis key under which a request is deduplicated, if it is at all. *)
Definition idem_key (cfg : idem_config) (request : http_request) : option string :=
  match header_get HttpHeader.IDEMPOTENCY_KEY (q_headers request) with
  | Some k =>
      if bool_decide (q_method request = "POST") && nonempty k && idem_get_redis cfg then
        Some (_build_key cfg
          (match q_state_tenant request with
           | Some t => if nonempty t then t
                       else default "global" (header_get HttpHeader.TENANT_ID (q_headers request))
           | None => default "global" (header_get HttpHeader.TENANT_ID (q_headers request))
           end) k)
      else None
  | None => None
  end.

Section Behaviour.
Context {W S : Type} `{RedisDoc S} `{RedisConn W S}.
Variables (utf8 : string -> string) (cfg : idem_config).
Variable up : W -> Prop.
Hypothesis Hexact : exact_link up.

Lemma dispatch_keyed call_next request key :
  idem_key cfg request = Some key ->
  dispatch utf8 cfg call_next request =
  (let! was_set := catch_Exception
      (let! b := rexec (cmd_set key _PROCESSING_SENTINEL (Some _PROCESSING_TTL_SECONDS) true) in
       ret (Some b)) (fun _ => ret None) in
   match was_set with
   | None => call_next request
   | Some false => _handle_duplicate cfg key
   | Some true => _process_and_cache utf8 cfg call_next request key
   end).
Proof.
  unfold idem_key, dispatch. destruct (header_get _ _) as [k|]; [| done].
  destruct (bool_decide _); cbn [negb andb]; [| done]. destruct (nonempty k); cbn [negb andb]; [| done].
  destruct (idem_get_redis cfg); cbn [negb]; [| done]. by intros [= ->].
Qed.
(** Requests the middleware does not touch. *)
Lemma dispatch_unkeyed call_next request :
  idem_key cfg request = None -> dispatch utf8 cfg call_next request = call_next request.
Proof.
  unfold idem_key, dispatch. destruct (bool_decide _); cbn [negb andb]; [| done].
  destruct (header_get _ _) as [k|]; [| done]. destruct (nonempty k); cbn [negb andb]; [| done].
  by destruct (idem_get_redis cfg).
Qed.

Lemma claim_taken key w : up w -> is_Some (srv_live (srv w) !! key) ->
  exists w', rexec (cmd_set key _PROCESSING_SENTINEL (Some _PROCESSING_TTL_SECONDS) true) w = (Ret false, w') /\
    srv_live (srv w') = srv_live (srv w) /\ srv_now (srv w') = srv_now (srv w) /\ up w'.
Proof.
  intros Hup [e Hk]. pose proof (set_doc key _PROCESSING_SENTINEL (Some _PROCESSING_TTL_SECONDS) true (srv w)) as Hs.
  unfold doc_set in Hs. rewrite Hk in Hs.
  destruct (exact_run up _ w _ _ Hexact Hup Hs) as (w' & E & Hm & Hn & Hup'). exists w'.
  rewrite E, Hm. done.
Qed.

Lemma conflict_reply message w prefix : i_app cfg = Some prefix ->
  exists r, _conflict (W := W) cfg message w = (Ret r, w) /\ p_status r = 409.
Proof. intros Ha. unfold _conflict. rewrite Ha. by eexists. Qed.

(** A duplicate reads the stored string: a completed response is replayed, the
    processing sentinel is a conflict. *)
Lemma duplicate_read key w v exp : up w ->
  srv_live (srv w) !! key = Some (mkEntry (RStr v) exp) ->
  exists w', rexec (cmd_get key) w = (Ret (Some v), w') /\ srv_live (srv w') = srv_live (srv w) /\ up w'.
Proof.
  intros Hup Hk. pose proof (get_doc key (srv w)) as Hg. unfold doc_get in Hg. rewrite Hk in Hg.
  destruct (exact_run up _ w _ _ Hexact Hup Hg) as (w' & E & Hm & _ & Hup'). by exists w'.
Qed.
Lemma dumps_nonempty o : nonempty (dumps (JObj o)) = true.
Proof. by apply nonempty_spec. Qed.
Lemma duplicate_replay key w sc b ct exp : up w ->
  srv_live (srv w) !! key = Some (mkEntry (RStr (dumps (completed_value utf8 sc b ct))) exp) ->
  exists w', _handle_duplicate cfg key w =
      (Ret (mkHttpResponse sc (Some ct) [(HttpHeader.IDEMPOTENCY_REPLAYED, "true")] (utf8 b)), w') /\
    srv_live (srv w') = srv_live (srv w) /\ up w'.
Proof.
  intros Hup Hk. destruct (duplicate_read key w _ exp Hup Hk) as (w' & E & Hm & Hup').
  exists w'. split; [| done]. unfold _handle_duplicate, catch_Exception, catch.
  rewrite (bind_Ret _ _ _ _ _ E). cbn beta iota. unfold completed_value.
  rewrite dumps_nonempty, loads_dumps by done. reflexivity.
Qed.
Lemma duplicate_conflict key w exp prefix : up w -> i_app cfg = Some prefix ->
  srv_live (srv w) !! key = Some (mkEntry (RStr _PROCESSING_SENTINEL) exp) ->
  exists r w', _handle_duplicate cfg key w = (Ret r, w') /\ p_status r = 409 /\
    srv_live (srv w') = srv_live (srv w) /\ up w'.
Proof.
  intros Hup Ha Hk. destruct (duplicate_read key w _ exp Hup Hk) as (w' & E & Hm & Hup').
  unfold _handle_duplicate, catch_Exception, catch. rewrite (bind_Ret _ _ _ _ _ E). cbn beta iota.
  unfold _PROCESSING_SENTINEL. rewrite dumps_nonempty, loads_dumps by done.
  destruct (conflict_reply "A request with this idempotency key is currently being processed" w' prefix Ha)
    as (r & Ec & Hr).
  assert (Hc : completed_response (W := W) (JObj [("s", JStr "processing")]) = ret None) by reflexivity.
  exists r, w'. split; [| done]. rewrite Hc. unfold bind, ret. by rewrite Ec.
Qed.

End Behaviour.

(** C6. A duplicate never runs the application.  While the key of an idempotent POST is
    live in Redis (and the connection works), the middleware's answer does not depend on
    [call_next]: during processing it is 409, after completion it is the stored
    response (same status, body and content type) marked as replayed; Redis is left unchanged. *)
Theorem duplicate_never_executes {W S} `{RedisDoc S} `{RedisConn W S} utf8 cfg (up : W -> Prop)
    request key w v exp prefix :
  exact_link up -> up w -> idem_key cfg request = Some key -> i_app cfg = Some prefix ->
  srv_live (srv w) !! key = Some (mkEntry (RStr v) exp) ->
  (forall next next', dispatch utf8 cfg next request w = dispatch utf8 cfg next' request w) /\
  (v = _PROCESSING_SENTINEL -> forall next, exists r w', dispatch utf8 cfg next request w = (Ret r, w') /\
     p_status r = 409 /\ srv_live (srv w') = srv_live (srv w)) /\
  (forall sc b ct, v = dumps (completed_value utf8 sc b ct) -> forall next, exists w',
     dispatch utf8 cfg next request w =
       (Ret (mkHttpResponse sc (Some ct) [(HttpHeader.IDEMPOTENCY_REPLAYED, "true")] (utf8 b)), w') /\
     srv_live (srv w') = srv_live (srv w)).
Proof.
  intros Hx Hup Hkey Ha Hk.
  destruct (claim_taken up Hx key w Hup (ex_intro _ _ Hk)) as (w1 & E & Hm & Hn & Hup1).
  assert (Hd : forall next, dispatch utf8 cfg next request w = _handle_duplicate cfg key w1).
  { intros next. rewrite (dispatch_keyed utf8 cfg next request key Hkey).
    unfold bind at 1, catch_Exception, catch. by rewrite (bind_Ret _ _ _ _ _ E). }
  rewrite <- Hm in Hk. split; [intros; by rewrite !Hd |]. split.
  - intros -> next. rewrite Hd.
    destruct (duplicate_conflict cfg up Hx key w1 exp prefix Hup1 Ha Hk) as (r & w' & Er & Hr & Hm' & _).
    exists r, w'. rewrite Hm'. done.
  - intros sc b ct -> next. rewrite Hd.
    destruct (duplicate_replay utf8 cfg up Hx key w1 sc b ct exp Hup1 Hk) as (w' & Er & Hm' & _).
    exists w'. rewrite Hm'. done.
Qed.



(** ** Witnesses *)

Definition demo_idem : idem_config := mkIdem "redis://cache" "lead" 86400 1048576 (Some "LEAD").
Definition demo_post : http_request :=
  mkHttpRequest "POST" [(HttpHeader.IDEMPOTENCY_KEY, "abc"); (HttpHeader.TENANT_ID, "t1")] None.
Definition created : http_response := mkHttpResponse 201 (Some "application/json") [] "{}".
Definition demo_app : http_request -> Py (conn mem) http_response := fun _ => ret created.
Definition demo_id (s : string) : string := s.


Definition after_first : conn mem :=
  snd (dispatch demo_id demo_idem demo_app demo_post (mkConn mem0 0 [])).
(** The same request again, to an application that would now fail. *)
Lemma duplicate_never_executes_witness :
  exists w', dispatch demo_id demo_idem (fun _ => raise (PyErr RuntimeError "ran twice")) demo_post after_first =
    (Ret (mkHttpResponse 201 (Some "application/json") [(HttpHeader.IDEMPOTENCY_REPLAYED, "true")] "{}"), w').
Proof.
  destruct (duplicate_never_executes demo_id demo_idem conn_up demo_post "lead:idempotency:t1:abc" after_first
    (dumps (completed_value demo_id 201 "{}" "application/json")) (Some (86400 * sec)) "LEAD")
    as (_ & _ & Hr);
    [apply conn_exact | reflexivity | reflexivity | reflexivity | vm_compute; reflexivity |].
  destruct (Hr 201 "{}" "application/json" eq_refl (fun _ => raise (PyErr RuntimeError "ran twice")))
    as (w' & E & _).
  exists w'. exact E.
Defined.

(** redis-py resends a command whose reply was lost: the second SET NX finds the key set by
    the first, so the only request with this key is answered 409 and never executed. *)
Lemma resent_claim_conflicts :
  exists r w', dispatch demo_id demo_idem demo_app demo_post (mkConn mem0 0 [Resent]) = (Ret r, w') /\
    p_status r = 409.
Proof. eexists _, _. split; vm_compute; reflexivity. Qed.
