(* ===== verification/Webhooks.v ===== *)
(** * Incoming webhooks

    Models src/tr_shared/webhooks/ (verifier.py, providers/, idempotency.py, router.py,
    schemas.py, endpoint.py), client_ip.py and security.py.  A request body is a
    string of bytes; a [str] has code points below 256.  The rate limiter, the
    event producer and the tenant resolver are the objects a service passes in: fields of
    [webhook_deps]; handlers and verifiers of a service's own are arbitrary.
    FastAPI's routing is not modelled beyond the table of routes; logging is not modelled. *)

From S2P Require Import Prelude Json Hash Errors Redis RateLimiter.
From Stdlib Require Import Ascii.
Local Open Scope Z_scope.

(** ** client_ip.py and security.py *)

Record http_conn := mkHttpConn {
  resolved_client_ip : option string;       (* [connection.state.resolved_client_ip] *)
  gateway_verified : bool;                  (* [connection.state.gateway_verified] *)
  client_host : option string;              (* [connection.client.host] *)
  hc_headers : list (string * string);
  hc_body : string;
  hc_query : list (string * string);        (* [dict(request.query_params)] *)
}.
Definition or_else (o : option string) (d : string) : string :=
  match o with Some s => if nonempty s then s else d | None => d end.
Definition client_ip (c : http_conn) : string :=
  or_else (resolved_client_ip c)
    (let edge := match header_get HttpHeader.REAL_IP (hc_headers c) with
                 | Some e => if nonempty e then strip e else default "unknown" (client_host c)
                 | None => default "unknown" (client_host c)
                 end in
     if gateway_verified c then
       match header_get HttpHeader.ORIGINAL_IP (hc_headers c) with
       | Some o => if nonempty o then strip o else edge
       | None => edge
       end
     else edge).
(** [hmac.compare_digest] on the UTF-8 forms. *)
Definition constant_time_equals (a b : string) : bool := bool_decide (utf8_encode a = utf8_encode b).

(** ** Verifiers (verifier.py, providers/) *)

Notation headers_map := (list (string * string)).

Definition hmac_hex (secret raw_body : string) : string :=
  hexdigest (hmac_sha256 (bytes_of (utf8_encode secret)) (bytes_of raw_body)).

Inductive verifier :=
| HMACVerifier (signature_header signature_format : string)
| BayutMD5Verifier
| MetaWebhookVerifier (verify_token : string)
| OtherVerifier (verify : string -> headers_map -> string -> outcome exn bool).
Definition HMACVerifier_init (signature_header signature_format : string) : verifier :=
  HMACVerifier (lower signature_header) signature_format.
Definition PropertyFinderVerifier : verifier := HMACVerifier_init "x-signature" "hex".

(** A signature header that is present and not empty, compared by [f]. *)
Definition with_signature (header : string) (headers : headers_map) (f : string -> bool) : bool :=
  match dget header headers with
  | Some signature => if nonempty signature then f signature else false
  | None => false
  end.
Definition hmac_verify (signature_header signature_format raw_body : string) (headers : headers_map)
    (secret : string) : bool :=
  if negb (nonempty secret) then true
  else with_signature signature_header headers (fun signature =>
         let expected := hmac_hex secret raw_body in
         constant_time_equals
           (if bool_decide (signature_format = "sha256={hex}") then "sha256=" +:+ expected else expected)
           signature).
Definition bayut_verify (raw_body : string) (headers : headers_map) (secret : string) : bool :=
  if negb (nonempty secret) then true
  else with_signature "x-bayut-signature" headers (fun received =>
         constant_time_equals
           (hexdigest (md5 (bytes_of (utf8_encode secret +:+ raw_body)))) (lower received)).
Definition meta_verify (raw_body : string) (headers : headers_map) (secret : string) : bool :=
  if negb (nonempty secret) then true
  else with_signature "x-hub-signature-256" headers (fun signature =>
         constant_time_equals ("sha256=" +:+ hmac_hex secret raw_body) signature).
Definition verify (v : verifier) (raw_body : string) (headers : headers_map) (secret : string)
    : outcome exn bool :=
  match v with
  | HMACVerifier h f => Ret (hmac_verify h f raw_body headers secret)
  | BayutMD5Verifier => Ret (bayut_verify raw_body headers secret)
  | MetaWebhookVerifier _ => Ret (meta_verify raw_body headers secret)
  | OtherVerifier f => f raw_body headers secret
  end.

(** Python's [int(s)]: white space around, a sign, digits with single underscores
    between them, at most 4300 digits. *)
Fixpoint int_digits (s : string) (prev_digit : bool) : option (list nat) :=
  match s with
  | EmptyString => if prev_digit then Some [] else None
  | String c s' =>
      if Json.is_digit c then cons (ord c - 48)%nat <$> int_digits s' true
      else if bool_decide (c = chr 95) && prev_digit then int_digits s' false
      else None
  end.
Definition py_int (s : string) : option Z :=
  let s := strip s in
  let '(neg, s) :=
    match s with
    | String c s' => if bool_decide (c = chr 45) then (true, s')
                     else if bool_decide (c = chr 43) then (false, s') else (false, s)
    | EmptyString => (false, s)
    end in
  match int_digits s false with
  | Some ds => if (4300 <? length ds)%nat then None
               else let n := fold_left (fun a d => 10 * a + Z.of_nat d) ds 0 in
                    Some (if (neg : bool) then - n else n)
  | None => None
  end.
Definition handle_handshake (verify_token : string) (query_params : headers_map) : option Z :=
  if bool_decide (dget "hub.mode" query_params = Some "subscribe") then
    if nonempty verify_token && bool_decide (dget "hub.verify_token" query_params = Some verify_token) then
      match dget "hub.challenge" query_params with
      | Some challenge => if nonempty challenge then py_int challenge else None
      | None => None
      end
    else None
  else None.

(** ** Schemas *)

Record WebhookEvent := mkEvent {
  provider : string;
  event_id : string;
  event_type : string;
  raw_body : string;
  payload : json;
  ev_headers : headers_map;
  tenant_id : option string;
  correlation_id : option string;
  received_at : string;
  ip_address : option string;
}.
Record ProviderConfig := mkProvider {
  pc_name : string;
  pc_secret : string;
  pc_signature_header : string;
  pc_signature_format : string;
  event_id_fields : list string;
  event_type_fields : list string;
  idempotency_ttl_seconds : Z;
  dynamic_secret : bool;
}.
Definition default_provider (name : string) : ProviderConfig :=
  mkProvider name "" "X-Signature" "hex" ["eventId"; "event_id"; "id"]
    ["type"; "event"; "eventType"; "event_type"] 86400 false.
Definition WebhookResult (status event_id message : string) : json :=
  JObj [("status", JStr status); ("event_id", JStr event_id); ("message", JStr message)].

(** ** [WebhookRouter] *)

Notation webhook_handler W := (WebhookEvent -> Py W unit).
Record WebhookRouter (W : Type) := mkRouter {
  _handlers : gmap string (gmap string (webhook_handler W));
  _default_handlers : gmap string (webhook_handler W);
}.
Arguments mkRouter {W}.
Arguments _handlers {W}.
Arguments _default_handlers {W}.
Definition new_router {W} : WebhookRouter W := mkRouter ∅ ∅.
Definition register {W} (pn etype : string) (h : webhook_handler W) (r : WebhookRouter W) : WebhookRouter W :=
  mkRouter (<[pn := <[etype := h]> (default ∅ (_handlers r !! pn))]> (_handlers r)) (_default_handlers r).
Definition register_default {W} (pn : string) (h : webhook_handler W) (r : WebhookRouter W) : WebhookRouter W :=
  mkRouter (_handlers r) (<[pn := h]> (_default_handlers r)).
Definition lookup_handler {W} (r : WebhookRouter W) (pn etype : string) : option (webhook_handler W) :=
  match default ∅ (_handlers r !! pn) !! etype with
  | Some h => Some h
  | None => _default_handlers r !! pn
  end.
Definition router_dispatch {W} (r : WebhookRouter W) (event : WebhookEvent) : Py W unit :=
  match lookup_handler r (provider event) (event_type event) with
  | Some h => h event
  | None => ret tt
  end.

(** ** [WebhookIdempotencyGuard] *)

Record guard_config := mkGuard {
  g_redis_client : bool;                    (* was a client passed in? *)
  g_redis_url : string;
  g_key_prefix : string;
  g_default_ttl : Z;
}.
Definition guard_key (g : guard_config) (pn eid : string) : string :=
  join ":" (filter (fun p => p <> "") [g_key_prefix g; "webhook"; pn; eid; "processed"]).

Section Guard.
Context {W S : Type} `{RedisServer S} `{RedisConn W S}.
Variable g : guard_config.
(** [get_redis_client] only fails on a URL the pool rejects. *)
Definition guard_get_redis : bool :=
  g_redis_client g ||
  nonempty (g_redis_url g) &&
  match require_plain_redis_url (g_redis_url g) with Ret _ => true | Exc _ => false end.
Definition effective_ttl (ttl : option Z) : Z :=
  match ttl with Some t => if t =? 0 then g_default_ttl g else t | None => g_default_ttl g end.
Definition is_duplicate (pn eid : string) (ttl : option Z) : Py W bool :=
  if negb (nonempty eid) then ret false
  else if negb guard_get_redis then ret false
  else
    catch_Exception
      (let! was_set := rexec (cmd_set (guard_key g pn eid) "1" (Some (effective_ttl ttl)) true) in
       ret (negb was_set))
      (fun _ => ret false).
Definition guard_mark_processed (pn eid : string) (ttl : option Z) : Py W unit :=
  if negb (nonempty eid) then ret tt
  else if negb guard_get_redis then ret tt
  else
    catch_Exception
      (let! _ := rexec (cmd_set (guard_key g pn eid) "1" (Some (effective_ttl ttl)) false) in ret tt)
      (fun _ => ret tt).
End Guard.

(** ** endpoint.py *)

(** What a service passes to [create_webhook_router]. *)
Record webhook_deps (W : Type) := mkDeps {
  d_verifiers : gmap string verifier;
  d_guard : option guard_config;
  (* [event_producer.publish(event_type, tenant_id, data, correlation_id)] *)
  d_publish : option (string -> string -> json -> option string -> Py W unit);
  d_router : option (WebhookRouter W);
  (* [rate_limiter.build_key] of identifier, endpoint and scope, and [rate_limiter.check(key, config)] *)
  d_rate : option ((string -> string -> string -> string) * (string -> Py W RateLimitInfo));
  d_tenant_resolver : option (string -> headers_map -> json -> outcome exn (option string));
  d_status : Z;
}.
Arguments mkDeps {W}.
Arguments d_verifiers {W}.
Arguments d_guard {W}.
Arguments d_publish {W}.
Arguments d_router {W}.
Arguments d_rate {W}.
Arguments d_tenant_resolver {W}.
Arguments d_status {W}.

Fixpoint _extract_field (payload : json) (field_names : list string) : outcome exn string :=
  match field_names with
  | [] => Ret ""
  | name :: names =>
      match payload with
      | JObj o => match dget name o with
                  | Some JNull | None => _extract_field payload names
                  | Some v => Ret (py_str v)
                  end
      | _ => Exc (PyErr AttributeError "object has no attribute 'get'")
      end
  end.
Definition _correlation_id (request : http_conn) : json :=
  jopt (header_get HttpHeader.CORRELATION_ID (hc_headers request)).
(** [{k.lower(): v for k, v in request.headers.items()}] *)
Definition lower_headers (hs : headers_map) : headers_map :=
  fold_left (fun d kv => dset (lower (fst kv)) (snd kv) d) hs [].
(** [json.loads] of bytes: UTF-8, then JSON; both errors are [ValueError]s.  (UTF-16 and
    UTF-32 bodies, which Python recognises by their zero bytes, are outside the model.) *)
Definition loads_body (raw_body : string) : option json :=
  match utf8_decode raw_body with Some s => loads s | None => None end.
Definition error_reply (status : Z) (message code : string) (request : http_conn)
    (hs : option headers_map) : http_reply :=
  mkReply status (build_error_envelope message (JStr code) (_correlation_id request) []) hs.

Section Endpoint.
Context {W S : Type} `{RedisServer S} `{RedisConn W S}.
Variable now_iso : W -> string.             (* [datetime.now(UTC).isoformat()] *)
Variable deps : webhook_deps W.

(** The answer of the rate limit, if it blocks. *)
Definition rate_limited (pn : string) (request : http_conn) : Py W (option http_reply) :=
  match d_rate deps with
  | None => ret None
  | Some (build_key, check) =>
      let! info :=
        catch (let! i := check (build_key (client_ip request) ("webhook_" +:+ pn) "webhook") in ret (Some i))
          (fun e => if isinstance e RedisError || isinstance e OSError then ret None else raise e) in
      match info with
      | None => ret None
      | Some i =>
          if is_blocked i then
            match filter (fun r => allowed r = false) (results i) with
            | blocked :: _ =>
                ret (Some (error_reply 429 "Rate limit exceeded" "WEBHOOK_RATE_LIMIT_001" request
                  (Some [(HttpHeader.RATE_LIMIT_LIMIT, str_of_Z (limit blocked));
                         (HttpHeader.RATE_LIMIT_REMAINING, str_of_Z (remaining blocked));
                         (HttpHeader.RATE_LIMIT_RESET, str_of_Z (reset_at blocked))])))
            | [] => raise (PyErr RuntimeError "coroutine raised StopIteration")
            end
          else ret None
      end
  end.

(** [vrf and (cfg.secret or cfg.dynamic_secret)] and then [verify]: may the request pass? *)
Definition authentic (cfg : ProviderConfig) (pn raw_body : string) (headers : headers_map)
    : outcome exn bool :=
  match d_verifiers deps !! pn with
  | Some vrf => if nonempty (pc_secret cfg) || dynamic_secret cfg
                then verify vrf raw_body headers (pc_secret cfg) else Ret true
  | None => Ret true
  end.

Definition event_id_of (cfg : ProviderConfig) (raw_body : string) (payload : json) : outcome exn string :=
  match _extract_field payload (event_id_fields cfg) with
  | Ret e => Ret (if nonempty e then e else "sha256:" +:+ hexdigest (sha256 (bytes_of raw_body)))
  | Exc x => Exc x
  end.
Definition event_type_of (cfg : ProviderConfig) (payload : json) : outcome exn string :=
  match _extract_field payload (event_type_fields cfg) with
  | Ret t => Ret (if nonempty t then t else "unknown")
  | Exc x => Exc x
  end.
Definition tenant_of (pn : string) (headers : headers_map) (payload : json)
    : outcome exn (option string) :=
  let from_header := dget (lower HttpHeader.TENANT_ID) headers in
  match d_tenant_resolver deps with
  | None => Ret from_header
  | Some resolve =>
      match resolve pn headers payload with
      | Ret (Some t) => Ret (if nonempty t then Some t else from_header)
      | Ret None => Ret from_header
      | Exc e => Exc e
      end
  end.

(** Publishing and handling: both only logged when they fail. *)
Definition publish_received (event : WebhookEvent) : Py W unit :=
  match d_publish deps with
  | None => ret tt
  | Some publish =>
      catch_Exception
        (publish ("webhook." +:+ provider event +:+ ".received") (default "" (tenant_id event))
           (JObj [("provider", JStr (provider event)); ("event_id", JStr (event_id event));
                  ("event_type", JStr (event_type event)); ("payload", payload event)])
           (correlation_id event))
        (fun _ => ret tt)
  end.
Definition run_handlers (event : WebhookEvent) : Py W unit :=
  match d_router deps with
  | None => ret tt
  | Some r => catch_Exception (router_dispatch r event) (fun _ => ret tt)
  end.
Definition duplicate (cfg : ProviderConfig) (pn eid : string) : Py W bool :=
  match d_guard deps with
  | None => ret false
  | Some g => is_duplicate g pn eid (Some (idempotency_ttl_seconds cfg))
  end.

Definition receive_webhook (cfg : ProviderConfig) (pn : string) (request : http_conn) : Py W http_reply :=
  let! blocked := rate_limited pn request in
  match blocked with
  | Some reply => ret reply
  | None =>
      let raw_body := hc_body request in
      let headers := lower_headers (hc_headers request) in
      let! ok := lift_out (authentic cfg pn raw_body headers) in
      if negb ok then ret (error_reply 401 "Invalid webhook signature" "WEBHOOK_AUTH_001" request None)
      else
        match loads_body raw_body with
        | None => ret (error_reply 400 "Invalid JSON payload" "WEBHOOK_VALIDATION_001" request None)
        | Some payload =>
            let! eid := lift_out (event_id_of cfg raw_body payload) in
            let! etype := lift_out (event_type_of cfg payload) in
            let! tenant := lift_out (tenant_of pn headers payload) in
            let! is_dup := duplicate cfg pn eid in
            if (is_dup : bool) then
              ret (mkReply 200 (WebhookResult "duplicate" eid "Duplicate webhook — already processed") None)
            else
              let! now := gets now_iso in
              let event := mkEvent pn eid etype raw_body payload headers tenant
                (dget (lower HttpHeader.CORRELATION_ID) headers) now (Some (client_ip request)) in
              do! publish_received event in
              do! run_handlers event in
              ret (mkReply (d_status deps)
                     (WebhookResult "accepted" eid "Webhook queued for processing") None)
        end
  end.

Definition health_check (pn : string) : json :=
  JObj [("status", JStr "healthy"); ("provider", JStr pn); ("endpoint", JStr ("webhook_" +:+ pn))].
(** The text of the reply to a handshake, or the error. *)
Definition meta_handshake (verify_token : string) (request : http_conn) : string + http_reply :=
  match handle_handshake verify_token (hc_query request) with
  | Some challenge => inl (str_of_Z challenge)
  | None => inr (error_reply 403 "Verification failed" "WEBHOOK_AUTH_002" request None)
  end.

(** The routes of one provider, and of all; [config_map] keeps the last
    configuration of a name. *)
Inductive route :=
| ReceiveRoute (path : string) (handler : http_conn -> Py W http_reply)
| HealthRoute (path : string) (reply : json)
| HandshakeRoute (path : string) (handler : http_conn -> string + http_reply).
Definition config_map (configs : list ProviderConfig) : list (string * ProviderConfig) :=
  fold_left (fun d c => dset (pc_name c) c d) configs [].
Definition _register_provider_endpoints (configs : list ProviderConfig) (config : ProviderConfig) : list route :=
  let pn := pc_name config in
  [ReceiveRoute ("/" +:+ pn) (fun request =>
     match dget pn (config_map configs) with
     | Some cfg => receive_webhook cfg pn request
     | None => raise (PyErr KeyError pn)
     end);
   HealthRoute ("/" +:+ pn +:+ "/health") (health_check pn)] ++
  match d_verifiers deps !! pn with
  | Some (MetaWebhookVerifier token) => [HandshakeRoute ("/" +:+ pn) (meta_handshake token)]
  | _ => []
  end.
Definition create_webhook_router (configs : list ProviderConfig) : list route :=
  concat (map (_register_provider_endpoints configs) configs).
End Endpoint.

(** ** Signatures *)

(** The header a built-in verifier reads, and what it must hold. *)
Definition signature_header (v : verifier) : option string :=
  match v with
  | HMACVerifier h _ => Some h
  | BayutMD5Verifier => Some "x-bayut-signature"
  | MetaWebhookVerifier _ => Some "x-hub-signature-256"
  | OtherVerifier _ => None
  end.
Definition good_signature (v : verifier) (secret body signature : string) : Prop :=
  match v with
  | HMACVerifier _ f => signature = (if bool_decide (f = "sha256={hex}") then "sha256=" else "") +:+ hmac_hex secret body
  | BayutMD5Verifier => lower signature = hexdigest (md5 (bytes_of (utf8_encode secret +:+ body)))
  | MetaWebhookVerifier _ => signature = "sha256=" +:+ hmac_hex secret body
  | OtherVerifier _ => False
  end.
Definition signed (v : verifier) (secret body : string) (headers : headers_map) : Prop :=
  exists h signature, signature_header v = Some h /\ dget h headers = Some signature /\
    signature <> "" /\ good_signature v secret body signature.

Lemma constant_time_equals_spec a b : constant_time_equals a b = true <-> a = b.
Proof.
  unfold constant_time_equals. rewrite bool_decide_eq_true. split; [apply utf8_encode_inj | by intros ->].
Qed.
Lemma with_signature_spec header headers f :
  with_signature header headers f = true <->
  exists signature, dget header headers = Some signature /\ signature <> "" /\ f signature = true.
Proof.
  unfold with_signature. destruct (dget header headers) as [x|]; [| naive_solver].
  destruct (nonempty x) eqn:E.
  - apply nonempty_spec in E. naive_solver.
  - apply nonempty_false in E. naive_solver.
Qed.
Lemma verify_spec v body headers secret : secret <> "" -> is_Some (signature_header v) ->
  exists b, verify v body headers secret = Ret b /\ (b = true <-> signed v secret body headers).
Proof.
  intros Hs%nonempty_spec [h Hv].
  assert (Hx : forall f, (forall x, f x = true <-> good_signature v secret body x) ->
    with_signature h headers f = true <-> signed v secret body headers).
  { intros f Hf. rewrite with_signature_spec. unfold signed. split.
    - intros (x & E & N & G%Hf). by exists h, x.
    - intros (h' & x & Eh & E & N & G). rewrite Hv in Eh. simplify_eq. exists x. by rewrite Hf. }
  destruct v as [h' f| |t|f]; cbn in Hv; simplify_eq; cbn [verify].
  all: eexists; split; [reflexivity |]; unfold hmac_verify, bayut_verify, meta_verify; rewrite Hs; cbn [negb].
  all: apply Hx; intros x; cbn [good_signature]; rewrite constant_time_equals_spec.
  all: try (destruct (bool_decide (f = "sha256={hex}"))); by split.
Qed.

Section EndpointFacts.
Context {W S : Type} `{RedisServer S} `{RedisConn W S}.
Variables (now_iso : W -> string) (deps : webhook_deps W) (cfg : ProviderConfig) (pn : string).

(** What follows the signature check and the parsing. *)
Definition process_event (request : http_conn) (payload : json) (eid etype : string)
    (tenant : option string) : Py W http_reply :=
  let! now := gets now_iso in
  let event := mkEvent pn eid etype (hc_body request) payload (lower_headers (hc_headers request)) tenant
    (dget (lower HttpHeader.CORRELATION_ID) (lower_headers (hc_headers request))) now
    (Some (client_ip request)) in
  do! publish_received deps event in
  do! run_handlers deps event in
  ret (mkReply (d_status deps) (WebhookResult "accepted" eid "Webhook queued for processing") None).

(** The request passed the checks up to the deduplication. *)
Record admitted (request : http_conn) (payload : json) (eid etype : string) (tenant : option string) : Prop := {
  adm_authentic : authentic deps cfg pn (hc_body request) (lower_headers (hc_headers request)) = Ret true;
  adm_payload : loads_body (hc_body request) = Some payload;
  adm_id : event_id_of cfg (hc_body request) payload = Ret eid;
  adm_type : event_type_of cfg payload = Ret etype;
  adm_tenant : tenant_of deps pn (lower_headers (hc_headers request)) payload = Ret tenant;
}.
Lemma receive_admitted request payload eid etype tenant w w1 :
  rate_limited deps pn request w = (Ret None, w1) -> admitted request payload eid etype tenant ->
  receive_webhook now_iso deps cfg pn request w =
  (let! is_dup := duplicate deps cfg pn eid in
   if (is_dup : bool) then
     ret (mkReply 200 (WebhookResult "duplicate" eid "Duplicate webhook — already processed") None)
   else process_event request payload eid etype tenant) w1.
Proof.
  intros Hr [Ha Hp Hi Ht Hn]. unfold receive_webhook. rewrite (bind_Ret _ _ _ _ _ Hr).
  cbn zeta. rewrite Ha. unfold bind at 1, lift_out at 1, ret at 1. cbn [negb]. rewrite Hp.
  unfold bind at 1. rewrite Hi. cbn [lift_out ret]. unfold bind at 1. rewrite Ht. cbn [lift_out ret].
  unfold bind at 1. rewrite Hn. reflexivity.
Qed.
Lemma receive_rejected request w w1 :
  rate_limited deps pn request w = (Ret None, w1) ->
  authentic deps cfg pn (hc_body request) (lower_headers (hc_headers request)) = Ret false ->
  receive_webhook now_iso deps cfg pn request w =
  (Ret (error_reply 401 "Invalid webhook signature" "WEBHOOK_AUTH_001" request None), w1).
Proof.
  intros Hr Ha. unfold receive_webhook. rewrite (bind_Ret _ _ _ _ _ Hr). cbn zeta. by rewrite Ha.
Qed.
End EndpointFacts.

(** The same dependencies without verifiers. *)
Definition unverified {W} (d : webhook_deps W) : webhook_deps W :=
  mkDeps ∅ (d_guard d) (d_publish d) (d_router d) (d_rate d) (d_tenant_resolver d) (d_status d).

(** C8. Authentication of webhooks.  With one of the library's verifiers and a secret configured, a
    request whose signature header is not the expected digest (HMAC-SHA256 or, for
    Bayut and Dubizzle, MD5 of the body under the secret) is answered 401, and nothing
    beyond the rate limiter ran: the deduplication key is not claimed, nothing is published, no handler
    is called.  A signed request is treated as if there were no verifier. *)
Theorem webhook_authenticated {W S} `{RedisServer S} `{RedisConn W S} now_iso (deps : webhook_deps W) cfg pn
    request v w w1 :
  d_verifiers deps !! pn = Some v -> is_Some (signature_header v) -> pc_secret cfg <> "" ->
  rate_limited deps pn request w = (Ret None, w1) ->
  (~ signed v (pc_secret cfg) (hc_body request) (lower_headers (hc_headers request)) ->
   receive_webhook now_iso deps cfg pn request w =
   (Ret (error_reply 401 "Invalid webhook signature" "WEBHOOK_AUTH_001" request None), w1)) /\
  (signed v (pc_secret cfg) (hc_body request) (lower_headers (hc_headers request)) ->
   receive_webhook now_iso deps cfg pn request w = receive_webhook now_iso (unverified deps) cfg pn request w).
Proof.
  intros Hv Hb Hs Hr.
  destruct (verify_spec v (hc_body request) (lower_headers (hc_headers request)) _ Hs Hb) as (b & Eb & Hspec).
  assert (Ha : authentic deps cfg pn (hc_body request) (lower_headers (hc_headers request)) = Ret b).
  { unfold authentic. apply nonempty_spec in Hs. by rewrite Hv, Hs. }
  split.
  - intros Hn. assert (b = false) as -> by (destruct b; [exfalso; tauto | done]).
    by apply receive_rejected.
  - intros Hy%Hspec. subst b. unfold receive_webhook.
    change (rate_limited (unverified deps) pn request) with (rate_limited deps pn request).
    rewrite !(bind_Ret _ _ _ _ _ Hr). cbn zeta. rewrite Ha.
    unfold authentic at 1. cbn [d_verifiers unverified]. rewrite lookup_empty. reflexivity.
Qed.

(** ** Deduplication *)

Lemma event_id_nonempty cfg body payload eid : event_id_of cfg body payload = Ret eid -> nonempty eid = true.
Proof.
  unfold event_id_of. destruct (_extract_field _ _) as [e|]; [| done]. intros [= <-].
  destruct (nonempty e) eqn:E; [done | reflexivity].
Qed.

Section Dedup.
Context {W S : Type} `{RedisDoc S} `{RedisConn W S}.
Variables (now_iso : W -> string) (deps : webhook_deps W) (cfg : ProviderConfig) (pn : string).
Variables (g : guard_config) (up : W -> Prop).
Hypothesis Hexact : exact_link up.
Hypothesis Hguard : d_guard deps = Some g.
Hypothesis Hredis : guard_get_redis g = true.
Hypothesis Httl : 0 < effective_ttl g (Some (idempotency_ttl_seconds cfg)).
Notation key eid := (guard_key g pn eid).
Notation ttl := (effective_ttl g (Some (idempotency_ttl_seconds cfg))).

Lemma duplicate_run eid w b m : nonempty eid = true -> up w ->
  gives (cmd_set (key eid) "1" (Some ttl) true) (srv w) (Ret b) m ->
  exists w', duplicate deps cfg pn eid w = (Ret (negb b), w') /\ srv_live (srv w') = m /\ up w'.
Proof.
  intros He Hup Hs. unfold duplicate. rewrite Hguard. unfold is_duplicate. rewrite He, Hredis. cbn [negb].
  destruct (exact_run up _ w _ _ Hexact Hup Hs) as (w' & E & Hm & Hn & Hup').
  exists w'. unfold catch_Exception, catch. by rewrite (bind_Ret _ _ _ _ _ E).
Qed.
Lemma duplicate_taken eid w : nonempty eid = true -> up w -> is_Some (srv_live (srv w) !! key eid) ->
  exists w', duplicate deps cfg pn eid w = (Ret true, w') /\ srv_live (srv w') = srv_live (srv w) /\ up w'.
Proof.
  intros He Hup Hk. apply (duplicate_run eid w false); [done | done |].
  pose proof (set_doc (key eid) "1" (Some ttl) true (srv w)) as Hs.
  unfold doc_set in Hs. rewrite (proj2 (Z.leb_gt _ 0) Httl), (bool_decide_true _ Hk) in Hs. exact Hs.
Qed.
Lemma duplicate_free eid w : nonempty eid = true -> up w -> srv_live (srv w) !! key eid = None ->
  exists w', duplicate deps cfg pn eid w = (Ret false, w') /\ up w' /\
    srv_live (srv w') = <[key eid := mkEntry (RStr "1") (Some (srv_now (srv w) + ttl * sec))]> (srv_live (srv w)).
Proof.
  intros He Hup Hk. destruct (duplicate_run eid w true
    (<[key eid := mkEntry (RStr "1") (Some (srv_now (srv w) + ttl * sec))]> (srv_live (srv w))))
    as (w' & E & Hm & Hu); [done | done | | by exists w'].
  pose proof (set_doc (key eid) "1" (Some ttl) true (srv w)) as Hs.
  unfold doc_set in Hs. rewrite (proj2 (Z.leb_gt _ 0) Httl), Hk in Hs. exact Hs.
Qed.
End Dedup.

(** One delivery.  Behind the signature check, with a working Redis: if the event's key is live, the
    answer is 200 [duplicate] whatever the producer and the handlers are, and Redis is unchanged;
    if it is free, the key is claimed for the configured TTL first, and only then is the event
    published and handled (so a handler that fails later leaves the key claimed). *)
Theorem webhook_deduplicated {W S} `{RedisDoc S} `{RedisConn W S} now_iso (deps : webhook_deps W) cfg pn g up
    request payload eid etype tenant w w1 :
  exact_link up -> d_guard deps = Some g -> guard_get_redis g = true ->
  0 < effective_ttl g (Some (idempotency_ttl_seconds cfg)) ->
  rate_limited deps pn request w = (Ret None, w1) -> up w1 ->
  admitted deps cfg pn request payload eid etype tenant ->
  match srv_live (srv w1) !! guard_key g pn eid with
  | Some _ => exists w2, receive_webhook now_iso deps cfg pn request w =
      (Ret (mkReply 200 (WebhookResult "duplicate" eid "Duplicate webhook — already processed") None), w2) /\
      srv_live (srv w2) = srv_live (srv w1) /\ up w2
  | None => exists w2, receive_webhook now_iso deps cfg pn request w =
      process_event now_iso deps pn request payload eid etype tenant w2 /\ up w2 /\
      srv_live (srv w2) = <[guard_key g pn eid := mkEntry (RStr "1")
        (Some (srv_now (srv w1) + effective_ttl g (Some (idempotency_ttl_seconds cfg)) * sec))]> (srv_live (srv w1))
  end.
Proof.
  intros Hx Hg Hr Ht Hl Hup Ha. rewrite (receive_admitted now_iso deps cfg pn _ _ _ _ _ _ _ Hl Ha).
  pose proof (event_id_nonempty _ _ _ _ (adm_id _ _ _ _ _ _ _ _ Ha)) as He.
  destruct (srv_live (srv w1) !! guard_key g pn eid) eqn:Hk.
  - destruct (duplicate_taken deps cfg pn g up Hx Hg Hr Ht eid w1 He Hup) as (w2 & E & Hm & Hu); [by rewrite Hk |].
    exists w2. by rewrite (bind_Ret _ _ _ _ _ E).
  - destruct (duplicate_free deps cfg pn g up Hx Hg Hr Ht eid w1 He Hup Hk) as (w2 & E & Hu & Hm).
    exists w2. by rewrite (bind_Ret _ _ _ _ _ E).
Qed.

(** ** What the objects of a service may do *)

Notation ordinary_exception := (fun e => is_Exception e = true).
(** [except Exception: pass] turns ordinary exceptions into nothing. *)
Lemma swallowed {W A} (c : Py W A) (h : exn -> Py W A) :
  raises_only ordinary_exception c -> (forall e, never_raises (h e)) -> never_raises (catch_Exception c h).
Proof.
  intros Hc Hh. apply (raises_only_catch_except _ _ _ _ Hc). intros e He. rewrite He. apply Hh.
Qed.

(** The producer and the handlers raise ordinary exceptions only, and keep [I]. *)
Record well_behaved {W} (I : W -> Prop) (deps : webhook_deps W) : Prop := {
  publish_raises f et tn d c : d_publish deps = Some f -> raises_only ordinary_exception (f et tn d c);
  publish_keeps f et tn d c : d_publish deps = Some f -> preserves I (f et tn d c);
  handler_raises r pn et h e : d_router deps = Some r -> lookup_handler r pn et = Some h ->
    raises_only ordinary_exception (h e);
  handler_keeps r pn et h e : d_router deps = Some r -> lookup_handler r pn et = Some h -> preserves I (h e);
}.

Section WellBehaved.
Context {W S : Type} `{RedisServer S} `{RedisConn W S}.
Variables (now_iso : W -> string) (I : W -> Prop) (deps : webhook_deps W).
Hypothesis Hok : well_behaved I deps.

Lemma publish_received_silent e : never_raises (publish_received deps e) /\ preserves I (publish_received deps e).
Proof.
  unfold publish_received. destruct (d_publish deps) as [f|] eqn:E; [| split; auto with py].
  split.
  - apply swallowed; [by apply (publish_raises I deps Hok) | auto with py].
  - apply preserves_catch; [by apply (publish_keeps I deps Hok) |]. intros x. case_match; auto with py.
Qed.
Lemma run_handlers_silent e : never_raises (run_handlers deps e) /\ preserves I (run_handlers deps e).
Proof.
  unfold run_handlers. destruct (d_router deps) as [r|] eqn:E; [| split; auto with py].
  unfold router_dispatch. destruct (lookup_handler r _ _) as [h|] eqn:Eh.
  - split.
    + apply swallowed; [by eapply (handler_raises I deps Hok) | auto with py].
    + apply preserves_catch; [by eapply (handler_keeps I deps Hok) |]. intros x. case_match; auto with py.
  - split; [apply swallowed; auto with py | apply preserves_catch; auto with py].
    intros x. case_match; auto with py.
Qed.
Lemma process_event_accepts pn request payload eid etype tenant w : I w ->
  exists w', process_event now_iso deps pn request payload eid etype tenant w =
    (Ret (mkReply (d_status deps) (WebhookResult "accepted" eid "Webhook queued for processing") None), w') /\ I w'.
Proof.
  intros Hw. unfold process_event, bind at 1, gets. cbn zeta.
  set (e := mkEvent _ _ _ _ _ _ _ _ _ _).
  destruct (publish_received_silent e) as [Hp Hpi]. destruct (run_handlers_silent e) as [Hh Hhi].
  destruct (never_raises_returns _ w Hp) as ([] & w1 & E1). specialize (Hpi w Hw). rewrite E1 in Hpi.
  destruct (never_raises_returns _ w1 Hh) as ([] & w2 & E2). specialize (Hhi w1 Hpi). rewrite E2 in Hhi.
  exists w2. rewrite (bind_Ret _ _ _ _ _ E1), (bind_Ret _ _ _ _ _ E2). done.
Qed.
End WellBehaved.

(** ** Redelivery *)

Definition accepted (status : Z) (eid : string) : http_reply :=
  mkReply status (WebhookResult "accepted" eid "Webhook queued for processing") None.
Definition deduplicated (eid : string) : http_reply :=
  mkReply 200 (WebhookResult "duplicate" eid "Duplicate webhook — already processed") None.

(** Deliveries one after the other; in between, other activity changes the world. *)
Fixpoint deliver {W S} `{RedisServer S} `{RedisConn W S} (now_iso : W -> string) (deps : webhook_deps W)
    (cfg : ProviderConfig) (pn : string) (between : W -> W) (requests : list http_conn)
    : Py W (list http_reply) :=
  match requests with
  | [] => ret []
  | r :: rs =>
      let! x := receive_webhook now_iso deps cfg pn r in
      do! modify between in
      let! xs := deliver now_iso deps cfg pn between rs in
      ret (x :: xs)
  end.

Section Redelivery.
Context {W S : Type} `{RedisDoc S} `{RedisConn W S}.
Variables (now_iso : W -> string) (deps : webhook_deps W) (cfg : ProviderConfig) (pn eid : string).
Variables (g : guard_config) (up : W -> Prop) (between : W -> W).
Hypothesis Hexact : exact_link up.
Hypothesis Hguard : d_guard deps = Some g.
Hypothesis Hredis : guard_get_redis g = true.
Hypothesis Httl : 0 < effective_ttl g (Some (idempotency_ttl_seconds cfg)).
(** The connection works and the event's key is live. *)
Definition claimed (w : W) : Prop := up w /\ is_Some (srv_live (srv w) !! guard_key g pn eid).
(** There is no rate limiter, or it admits these requests and leaves the connection and the event's key
    as they are. *)
Definition limiter_admits : Prop := forall r w, up w -> exists w',
  rate_limited deps pn r w = (Ret None, w') /\ up w' /\
  srv_live (srv w') !! guard_key g pn eid = srv_live (srv w) !! guard_key g pn eid.
Hypothesis Hrate : limiter_admits.
Hypothesis Hbetween : forall w, claimed w -> claimed (between w).
Definition same_event (r : http_conn) : Prop :=
  exists payload etype tenant, admitted deps cfg pn r payload eid etype tenant.

Lemma receive_again r w : same_event r -> claimed w ->
  exists w', receive_webhook now_iso deps cfg pn r w = (Ret (deduplicated eid), w') /\ claimed w'.
Proof.
  intros (p & t & tn & Ha) [Hup Hk]. destruct (Hrate r w Hup) as (w0 & El & Hup0 & Hk0).
  rewrite (receive_admitted now_iso deps cfg pn _ _ _ _ _ _ _ El Ha). rewrite <- Hk0 in Hk.
  pose proof (event_id_nonempty _ _ _ _ (adm_id _ _ _ _ _ _ _ _ Ha)) as He.
  destruct (duplicate_taken deps cfg pn g up Hexact Hguard Hredis Httl eid w0 He Hup0 Hk) as (w' & E & Hm & Hu).
  exists w'. rewrite (bind_Ret _ _ _ _ _ E). unfold claimed. by rewrite Hm.
Qed.
Lemma deliver_again rs w : Forall same_event rs -> claimed w ->
  exists w', deliver now_iso deps cfg pn between rs w = (Ret (replicate (length rs) (deduplicated eid)), w').
Proof.
  intros Hrs. revert w. induction Hrs as [|r rs Hr _ IH]; intros w Hc; [by exists w |].
  destruct (receive_again r w Hr Hc) as (w1 & E & Hc1).
  destruct (IH (between w1) (Hbetween w1 Hc1)) as (w2 & E2).
  exists w2. cbn [deliver]. rewrite (bind_Ret _ _ _ _ _ E). unfold bind at 1, modify.
  by rewrite (bind_Ret _ _ _ _ _ E2).
Qed.
Lemma receive_first r w : well_behaved claimed deps -> same_event r -> up w ->
  srv_live (srv w) !! guard_key g pn eid = None ->
  exists w', receive_webhook now_iso deps cfg pn r w = (Ret (accepted (d_status deps) eid), w') /\ claimed w'.
Proof.
  intros Hok (p & t & tn & Ha) Hup Hk. destruct (Hrate r w Hup) as (w0 & El & Hup0 & Hk0).
  rewrite (receive_admitted now_iso deps cfg pn _ _ _ _ _ _ _ El Ha). rewrite <- Hk0 in Hk.
  pose proof (event_id_nonempty _ _ _ _ (adm_id _ _ _ _ _ _ _ _ Ha)) as He.
  destruct (duplicate_free deps cfg pn g up Hexact Hguard Hredis Httl eid w0 He Hup0 Hk) as (w' & E & Hu & Hm).
  rewrite (bind_Ret _ _ _ _ _ E). apply (process_event_accepts now_iso claimed deps Hok).
  split; [done |]. rewrite Hm, lookup_insert_eq. eauto.
Qed.
End Redelivery.

(** C18. Redeliveries collapse.  Let the guard have a working connection to Redis throughout (without one
    it fails open), the endpoint have no rate limiter or one that admits these requests, and the
    publisher and the handlers raise nothing but ordinary exceptions and keep the event's key.  However
    often a provider then delivers one event while its key lives, and whatever happens in between
    that keeps the key and the connection, the first delivery is accepted (also when publishing or the
    handler fails) and every other one is answered as a duplicate; none raises. *)
Theorem redeliveries_collapse {W S} `{RedisDoc S} `{RedisConn W S} now_iso (deps : webhook_deps W) cfg pn eid g
    up between r rs w :
  exact_link up -> d_guard deps = Some g -> guard_get_redis g = true ->
  0 < effective_ttl g (Some (idempotency_ttl_seconds cfg)) -> limiter_admits deps pn eid g up ->
  (forall w, claimed pn eid g up w -> claimed pn eid g up (between w)) ->
  well_behaved (claimed pn eid g up) deps -> Forall (same_event deps cfg pn eid) (r :: rs) ->
  up w -> srv_live (srv w) !! guard_key g pn eid = None ->
  exists w', deliver now_iso deps cfg pn between (r :: rs) w =
    (Ret (accepted (d_status deps) eid :: replicate (length rs) (deduplicated eid)), w').
Proof.
  intros Hx Hg Hr Ht Hn Hb Hok Hrs Hup Hk. inversion Hrs as [|? ? Hr1 Hr2]; subst.
  destruct (receive_first now_iso deps cfg pn eid g up Hx Hg Hr Ht Hn r w Hok Hr1 Hup Hk) as (w1 & E & Hc).
  destruct (deliver_again now_iso deps cfg pn eid g up between Hx Hg Hr Ht Hn Hb rs (between w1) Hr2 (Hb w1 Hc))
    as (w2 & E2).
  exists w2. cbn [deliver]. rewrite (bind_Ret _ _ _ _ _ E). unfold bind at 1, modify.
  by rewrite (bind_Ret _ _ _ _ _ E2).
Qed.

(** ** Every request is answered *)

(** What the endpoint relies on besides the producer and the handlers: the limiter fails only as
    Redis or the network does and blocks with a reason, the verifier is one of the library's,
    the tenant resolver does not raise. *)
Record answerable {W} (deps : webhook_deps W) (pn : string) : Prop := {
  limiter_raises f chk k : d_rate deps = Some (f, chk) ->
    raises_only (fun e => isinstance e RedisError || isinstance e OSError = true) (chk k);
  limiter_blocks f chk k w i w' : d_rate deps = Some (f, chk) -> chk k w = (Ret i, w') ->
    is_blocked i = true -> any_blocked (results i) = true;
  verifier_builtin v : d_verifiers deps !! pn = Some v -> is_Some (signature_header v);
  resolver_returns f hs p : d_tenant_resolver deps = Some f -> exists t, f pn hs p = Ret t;
}.

Section Answers.
Context {W S : Type} `{RedisServer S} `{RedisConn W S}.
Variables (now_iso : W -> string) (deps : webhook_deps W) (cfg : ProviderConfig) (pn : string).
Hypothesis Hans : answerable deps pn.

Lemma rate_limited_answers request w :
  exists o w', rate_limited deps pn request w = (Ret o, w') /\ forall r, o = Some r -> reply_status r = 429.
Proof.
  unfold rate_limited. destruct (d_rate deps) as [[f chk]|] eqn:E; [| by eexists _, _].
  set (k := f _ _ _). pose proof (limiter_raises deps pn Hans f chk k E) as Hc.
  unfold bind, catch. destruct (chk k w) as [[i|e] w1] eqn:Ec.
  - cbn. destruct (is_blocked i) eqn:Eb; [| by eexists _, _].
    pose proof (limiter_blocks deps pn Hans f chk k w i w1 E Ec Eb) as Hb. unfold any_blocked in Hb.
    apply existsb_exists in Hb as (r & Hr & Ha%negb_true_iff).
    destruct (filter (fun r => allowed r = false) (results i)) as [|x l] eqn:Ef.
    + exfalso. assert (Hm : r ∈ filter (fun r => allowed r = false) (results i))
        by (apply list_elem_of_filter; split; [done | by apply list_elem_of_In]).
      rewrite Ef in Hm. by apply not_elem_of_nil in Hm.
    + eexists _, _. split; [reflexivity |]. by intros y [= <-].
  - rewrite (Hc _ _ _ Ec). by eexists _, _.
Qed.
Lemma authentic_answers body headers : exists b, authentic deps cfg pn body headers = Ret b.
Proof.
  unfold authentic. destruct (d_verifiers deps !! pn) as [v|] eqn:E; [| eauto].
  destruct (verifier_builtin deps pn Hans v E) as [h Hh].
  destruct (nonempty (pc_secret cfg) || dynamic_secret cfg); [| eauto].
  destruct v; cbn in *; [eauto | eauto | eauto | discriminate].
Qed.
Lemma tenant_answers headers payload : exists t, tenant_of deps pn headers payload = Ret t.
Proof.
  unfold tenant_of. destruct (d_tenant_resolver deps) as [f|] eqn:E; [| eauto].
  destruct (resolver_returns deps pn Hans f headers payload E) as [[t|] ->]; eauto.
Qed.
Lemma extract_field_object o names : exists x, _extract_field (JObj o) names = Ret x.
Proof. induction names as [|n names [x IH]]; cbn; [eauto |]. destruct (dget n o) as [[]|]; eauto. Qed.
Lemma object_admitted request o :
  authentic deps cfg pn (hc_body request) (lower_headers (hc_headers request)) = Ret true ->
  loads_body (hc_body request) = Some (JObj o) ->
  exists eid etype tenant, admitted deps cfg pn request (JObj o) eid etype tenant.
Proof.
  intros Ha Hl. destruct (extract_field_object o (event_id_fields cfg)) as [i Ei].
  destruct (extract_field_object o (event_type_fields cfg)) as [t Et].
  destruct (tenant_answers (lower_headers (hc_headers request)) (JObj o)) as [n En].
  eexists _, _, _. split; [exact Ha | exact Hl | unfold event_id_of; by rewrite Ei |
    unfold event_type_of; by rewrite Et | exact En].
Qed.
Lemma duplicate_silent eid : redis_raises_Exception (W := W) (S := S) -> never_raises (duplicate deps cfg pn eid).
Proof.
  intros Hr. unfold duplicate. destruct (d_guard deps) as [g|]; [| auto with py].
  unfold is_duplicate. destruct (nonempty eid), (guard_get_redis g); cbn [negb]; auto with py.
  apply swallowed; [| auto with py]. apply raises_only_bind; [apply Hr | auto with py].
Qed.
End Answers.

(** Every request is answered.  As long as the dependencies raise ordinary exceptions only, a request
    whose body is not JSON, or a JSON object, gets a reply: 429, 401, 400, 200 for a duplicate, or
    the configured status.  A JSON body that is not an object passes the checks and then raises
    [AttributeError] while the event id is looked up (an unhandled 500). *)
Theorem webhook_answers {W S} `{RedisServer S} `{RedisConn W S} now_iso (deps : webhook_deps W) cfg pn request w :
  redis_raises_Exception (W := W) (S := S) -> answerable deps pn -> well_behaved (fun _ => True) deps ->
  match loads_body (hc_body request) with
  | None | Some (JObj _) => exists r w', receive_webhook now_iso deps cfg pn request w = (Ret r, w') /\
      reply_status r ∈ [429; 401; 400; 200; d_status deps]
  | Some _ => event_id_fields cfg <> [] -> forall w1, rate_limited deps pn request w = (Ret None, w1) ->
      authentic deps cfg pn (hc_body request) (lower_headers (hc_headers request)) = Ret true ->
      receive_webhook now_iso deps cfg pn request w =
      (Exc (PyErr AttributeError "object has no attribute 'get'"), w1)
  end.
Proof.
  intros Hr Ha Hok. destruct (rate_limited_answers deps pn Ha request w) as (o & w1 & El & Hst).
  destruct (authentic_answers deps cfg pn Ha (hc_body request) (lower_headers (hc_headers request))) as [b Eb].
  assert (Hearly : o <> None \/ b = false -> exists r w',
    receive_webhook now_iso deps cfg pn request w = (Ret r, w') /\ reply_status r ∈ [429; 401; 400; 200; d_status deps]).
  { intros Ho. destruct o as [r|].
    - exists r, w1. unfold receive_webhook. rewrite (bind_Ret _ _ _ _ _ El), (Hst r eq_refl). split; [done | left].
    - destruct Ho as [| ->]; [done |]. eexists _, w1. split; [by apply receive_rejected | right; left]. }
  destruct (loads_body (hc_body request)) as [p|] eqn:Ep.
  - destruct p as [| | | | |obj]; try (intros Hf w2 El2 Eb2; unfold receive_webhook;
      rewrite (bind_Ret _ _ _ _ _ El2); cbn zeta; rewrite Eb2, Ep; unfold event_id_of, bind;
      by destruct (event_id_fields cfg)).
    destruct o; [apply Hearly; by left |]. destruct b; [| apply Hearly; by right].
    destruct (object_admitted deps cfg pn Ha request obj Eb Ep) as (eid & et & tn & Hadm).
    rewrite (receive_admitted now_iso deps cfg pn _ _ _ _ _ _ _ El Hadm).
    destruct (never_raises_returns _ w1 (duplicate_silent deps cfg pn eid Hr)) as (d & w2 & Ed).
    rewrite (bind_Ret _ _ _ _ _ Ed). destruct d; [eexists _, _; split; [reflexivity | set_solver] |].
    destruct (process_event_accepts now_iso _ deps Hok pn request (JObj obj) eid et tn w2 I) as (w3 & E3 & _).
    eexists _, _. split; [exact E3 | set_solver].
  - destruct o; [apply Hearly; by left |]. destruct b; [| apply Hearly; by right].
    eexists _, w1. unfold receive_webhook. rewrite (bind_Ret _ _ _ _ _ El). cbn zeta. rewrite Eb, Ep.
    split; [reflexivity | set_solver].
Qed.

(** Deduplication keys do not collide.  Two events get one key only if they are the same event of the
    same provider; ids may contain colons (the derived ones do), provider names may not. *)
Theorem guard_key_inj g pn1 pn2 e1 e2 :
  free_of ":" pn1 = true -> free_of ":" pn2 = true -> pn1 <> "" -> pn2 <> "" -> e1 <> "" -> e2 <> "" ->
  guard_key g pn1 e1 = guard_key g pn2 e2 -> pn1 = pn2 /\ e1 = e2.
Proof.
  intros F1 F2 P1 P2 E1 E2.
  assert (Hk : forall pn e, pn <> "" -> e <> "" -> guard_key g pn e =
    (if nonempty (g_key_prefix g) then g_key_prefix g +:+ ":" else "") +:+
    "webhook:" +:+ pn +:+ String ":" (e +:+ ":processed")).
  { intros pn e Hp He. unfold guard_key, nonempty.
    case_bool_decide as Hg; cbn [negb].
    - rewrite filter_cons_False by (rewrite Hg; naive_solver).
      rewrite !filter_cons_True, filter_nil by done. reflexivity.
    - rewrite !filter_cons_True, filter_nil by done. cbn [join]. by rewrite !append_assoc. }
  rewrite !Hk by done. intros H%append_inj_l%append_inj_l.
  destruct (free_of_split ":" pn1 pn2 _ _ F1 F2 H) as [-> He]. split; [done |]. by apply append_inj_r in He.
Qed.

(** ** Witnesses *)

Definition demo_body : string := dumps (JObj [("id", JStr "e1"); ("type", JStr "lead")]).
Definition demo_request (signature : string) : http_conn :=
  mkHttpConn None false (Some "10.0.0.7") [("X-Signature", signature)] demo_body [].
Definition demo_provider : ProviderConfig :=
  mkProvider "pf" "s3cret" "X-Signature" "hex" ["eventId"; "event_id"; "id"]
    ["type"; "event"; "eventType"; "event_type"] 86400 false.
Definition demo_guard : guard_config := mkGuard true "" "lead" 86400.
Definition broken_handler : webhook_handler (conn mem) := fun _ => raise (PyErr ValueError "handler failed").
Definition demo_deps : webhook_deps (conn mem) :=
  mkDeps {["pf" := PropertyFinderVerifier]} (Some demo_guard) None
    (Some (register_default "pf" broken_handler new_router)) None None 202.
Definition demo_now (w : conn mem) : string := "2025-01-01T00:00:00+00:00".
Definition demo_world : conn mem := mkConn mem0 0 [].
Definition demo_signed : http_conn := demo_request (hmac_hex "s3cret" demo_body).

Lemma webhook_authenticated_witness :
  receive_webhook demo_now demo_deps demo_provider "pf" (demo_request "deadbeef") demo_world =
  (Ret (error_reply 401 "Invalid webhook signature" "WEBHOOK_AUTH_001" (demo_request "deadbeef") None), demo_world).
Proof.
  destruct (webhook_authenticated demo_now demo_deps demo_provider "pf" (demo_request "deadbeef")
    PropertyFinderVerifier demo_world demo_world) as [Hn _];
    [reflexivity | by eexists | done | reflexivity |].
  apply Hn. intros (h & x & [= <-] & E & _ & G). vm_compute in E. simplify_eq. vm_compute in G. discriminate G.
Defined.

Lemma demo_admitted :
  admitted demo_deps demo_provider "pf" demo_signed (JObj [("id", JStr "e1"); ("type", JStr "lead")]) "e1" "lead" None.
Proof. split; vm_compute; reflexivity. Qed.
Lemma webhook_deduplicated_witness :
  exists w2, receive_webhook demo_now demo_deps demo_provider "pf" demo_signed demo_world =
    process_event demo_now demo_deps "pf" demo_signed (JObj [("id", JStr "e1"); ("type", JStr "lead")])
      "e1" "lead" None w2.
Proof.
  assert (H := webhook_deduplicated demo_now demo_deps demo_provider "pf" demo_guard conn_up demo_signed
    _ _ _ _ demo_world demo_world conn_exact eq_refl eq_refl eq_refl eq_refl eq_refl demo_admitted).
  destruct H as (w2 & E & _). by exists w2.
Defined.

Lemma lookup_only_default {W} pn (h : webhook_handler W) pn' et h' :
  lookup_handler (register_default pn h new_router) pn' et = Some h' -> h' = h.
Proof.
  unfold lookup_handler. cbn. rewrite lookup_empty. cbn. rewrite lookup_empty.
  destruct (decide (pn = pn')) as [<- | Hne]; [rewrite lookup_insert_eq; congruence |].
  by rewrite lookup_insert_ne, lookup_empty by done.
Qed.
Lemma demo_well_behaved I : well_behaved I demo_deps.
Proof.
  split; [discriminate | discriminate | |]; intros r pn et h e [= <-] ->%lookup_only_default.
  - by apply raises_only_raise.
  - apply preserves_raise.
Qed.
(** The handler fails on the first delivery; the second one is a duplicate all the same. *)
Lemma redeliveries_collapse_witness :
  exists w', deliver demo_now demo_deps demo_provider "pf" (fun w => w) [demo_signed; demo_signed] demo_world =
    (Ret [accepted 202 "e1"; deduplicated "e1"], w').
Proof.
  apply (redeliveries_collapse demo_now demo_deps demo_provider "pf" "e1" demo_guard conn_up (fun w => w)
    demo_signed [demo_signed] demo_world);
    [apply conn_exact | reflexivity | reflexivity | reflexivity | intros r w Hw; by exists w | done
    | apply demo_well_behaved | | reflexivity | reflexivity].
  repeat constructor; eexists _, _, _; apply demo_admitted.
Defined.

Lemma webhook_answers_witness :
  (exists r w', receive_webhook demo_now demo_deps demo_provider "pf" demo_signed (mkConn mem0 0 [Down]) = (Ret r, w') /\
     reply_status r ∈ [429; 401; 400; 200; 202]).
Proof.
  apply (webhook_answers demo_now demo_deps demo_provider "pf" demo_signed (mkConn mem0 0 [Down]) conn_raises_Exception);
    [| apply demo_well_behaved].
  split; try discriminate. intros v Hv. vm_compute in Hv. simplify_eq. by eexists.
Defined.
Lemma guard_key_inj_witness :
  guard_key demo_guard "pf" "sha256:ab" <> guard_key demo_guard "meta" "ab".
Proof. intros H. by destruct (guard_key_inj demo_guard "pf" "meta" "sha256:ab" "ab") as [H1 _]. Defined.
