(* ===== verification/Integrations.v ===== *)
(** * The integration configuration client

    Models src/tr_shared/integrations/config_client.py ([IntegrationConfigClient]), models.py and
    the registry of registry.py.  The admin panel is the class [HttpEnv]; pydantic's validation of
    [IntegrationConfig] is a parameter.  The cache is insertion-ordered, as a Python [dict];
    times are readings of [time.monotonic()].  The per-key locks matter only between
    coroutines: they are in the step relation of the last part, where one step is what a coroutine does
    between two suspensions.  Logging (the audit line included) is not modelled. *)

From S2P Require Import Prelude Json Hash Errors CircuitBreaker HttpClient.
From Stdlib Require Import Ascii.
Local Open Scope Z_scope.

Record IntegrationConfig := mkIntegration {
  platform_id : string;
  ig_tenant_id : string;
  platform_name : string;
  platform_type : string;
  ig_config : list (string * json);
  is_enabled : bool;
}.
Definition get_secret (c : IntegrationConfig) (key dflt : string) : string :=
  match dget key (ig_config c) with
  | None => dflt
  | Some JNull => dflt
  | Some v => py_str v
  end.

(** ** The local cache *)

Notation config_cache := (list (string * (Z * IntegrationConfig))).

Record ic_config := mkIcConfig {
  ic_service_token : string;
  local_cache_ttl : Z;
  local_cache_max_size : Z;
}.

Definition _cache_key (tenant platform : string) (include_secrets : bool) : string :=
  tenant +:+ ":" +:+ platform +:+ ":" +:+ (if include_secrets then "1" else "0").

(** [s.rsplit(c, 1)] when [c] occurs *)
Fixpoint split_last (c : ascii) (s : string) : option (string * string) :=
  match s with
  | EmptyString => None
  | String d s' =>
      match split_last c s' with
      | Some (a, b) => Some (String d a, b)
      | None => if bool_decide (d = c) then Some (EmptyString, s') else None
      end
  end.
Definition opt_differs (o : option string) (x : string) : bool :=
  match o with Some y => negb (bool_decide (x = y)) | None => false end.
Definition _key_matches (key : string) (tenant platform : option string) : bool :=
  match split_last ":" key with
  | Some (rest, _) =>
      match split_last ":" rest with
      | Some (key_tenant, key_platform) =>
          if opt_differs tenant key_tenant then false
          else if opt_differs platform key_platform then false else true
      | None => false
      end
  | None => false
  end.

Definition _get_from_cache (now : Z) (key : string) (c : config_cache)
    : option IntegrationConfig * config_cache :=
  match dget key c with
  | None => (None, c)
  | Some (expires_at, config) =>
      if expires_at <? now then (None, ddel key c) else (Some config, c)
  end.
(** With a size of 0 (or less) the empty cache has no oldest entry: [next] raises [StopIteration], which
    a coroutine turns into [RuntimeError]. *)
Definition _put_in_cache (cfg : ic_config) (now : Z) (key : string) (config : IntegrationConfig)
    (c : config_cache) : outcome exn config_cache :=
  let entry := (now + local_cache_ttl cfg, config) in
  if local_cache_max_size cfg <=? Z.of_nat (length c) then
    match c with
    | [] => Exc (PyErr RuntimeError "coroutine raised StopIteration")
    | _ :: c' => Ret (dset key entry c')
    end
  else Ret (dset key entry c).
Definition invalidate_cache (tenant platform : option string) (c : config_cache) : config_cache :=
  match tenant, platform with
  | None, None => []
  | _, _ => filter (fun kv => _key_matches (fst kv) tenant platform = false) c
  end.

(** ** The client *)

Record ic_state := mkIc { ic_circuit : CircuitBreaker; ic_cache : config_cache }.
Definition ic_init (circuit_failure_threshold circuit_recovery_timeout : Z) : ic_state :=
  mkIc (new_breaker circuit_failure_threshold circuit_recovery_timeout) [].

(** [urllib.parse.quote(s, safe=''): percent-encode all but letters, digits and [_.-~] *)
Definition hex_upper (n : nat) : ascii := if (n <? 10)%nat then chr (48 + n) else chr (55 + n).
Definition unreserved (c : ascii) : bool :=
  let n := ord c in
  ((48 <=? n) && (n <=? 57) || (65 <=? n) && (n <=? 90) || (97 <=? n) && (n <=? 122) ||
   (n =? 95) || (n =? 46) || (n =? 45) || (n =? 126))%nat.
Fixpoint quote_bytes (s : string) : string :=
  match s with
  | EmptyString => EmptyString
  | String c s' =>
      if unreserved c then String c (quote_bytes s')
      else String (chr 37) (String (hex_upper (ord c / 16)) (String (hex_upper (ord c mod 16)) (quote_bytes s')))
  end.
Definition quote (s : string) : string := quote_bytes (utf8_encode s).

Definition config_error {V A} (msg : string) : Py V A := raise (PyErr IntegrationConfigError msg).

Section ConfigClient.
Context {W : Type} `{HttpEnv W}.
Variable validate : list (string * json) -> outcome exn IntegrationConfig.  (* [IntegrationConfig( **data)] *)
Variable cfg : ic_config.
Variable correlation_id : option string.

Definition ic_circuit_is_open : Py (ic_state * W) bool := fun '(c, w) =>
  let (o, b) := is_open (monotonic w) (ic_circuit c) in (Ret o, (mkIc b (ic_cache c), w)).
Definition ic_record_success : Py (ic_state * W) unit := fun '(c, w) =>
  (Ret tt, (mkIc (record_success (ic_circuit c)) (ic_cache c), w)).
Definition ic_record_failure : Py (ic_state * W) unit := fun '(c, w) =>
  (Ret tt, (mkIc (record_failure (monotonic w) (ic_circuit c)) (ic_cache c), w)).

Definition ic_request (url : string) (params : option json) : request :=
  mkRequest "GET" url params None
    (dict_merge [(HttpHeader.SERVICE_TOKEN, ic_service_token cfg)] (correlation_headers correlation_id)).
Definition ic_get (url : string) (params : option json) : Py (ic_state * W) response :=
  on_snd (http_send (ic_request url params)).

Definition config_url (tenant platform : string) : string :=
  "/api/v1/internal/integrations/platforms/" +:+ quote platform +:+ "/tenants/" +:+ quote tenant.
Definition config_params (include_secrets : bool) : json :=
  JObj [("include_secrets", JStr (if include_secrets then "true" else "false"))].

(** The body of a 200 answer. *)
Definition parse_config (r : response) : outcome exn IntegrationConfig :=
  match loads (r_text r) with
  | None => Exc (PyErr ValueError "Expecting value")
  | Some payload =>
      match (match payload with JObj o => default payload (dget "data" o) | _ => payload end) with
      | JObj data =>
          match validate data with
          | Ret c => Ret c
          | Exc e => if is_Exception e
                     then Exc (PyErr IntegrationConfigError
                            ("admin panel response failed IntegrationConfig validation: " +:+ str_exn e))
                     else Exc e
          end
      | _ => Exc (PyErr IntegrationConfigError "admin panel returned malformed response (not a dict)")
      end
  end.

Definition _fetch_config (tenant platform : string) (include_secrets : bool)
    : Py (ic_state * W) IntegrationConfig :=
  let! o := ic_circuit_is_open in
  if (o : bool) then config_error "Circuit open: admin panel unavailable"
  else
    let! r := catch (ic_get (config_url tenant platform) (Some (config_params include_secrets)))
      (fun e =>
         if isinstance e HttpxTimeoutException then
           do! ic_record_failure in
           config_error ("admin panel timeout for tenant=" +:+ tenant +:+ " platform=" +:+ platform)
         else if isinstance e HttpxHTTPError then
           do! ic_record_failure in config_error ("admin panel network error: " +:+ class_name e)
         else raise e) in
    if r_status r =? 404 then
      raise (PyErr IntegrationConfigNotFound
        ("No active integration for tenant=" +:+ tenant +:+ " platform=" +:+ platform))
    else if negb (r_status r =? 200) then
      do! ic_record_failure in
      config_error ("admin panel returned HTTP " +:+ str_of_Z (r_status r) +:+ " for tenant=" +:+ tenant +:+
                    " platform=" +:+ platform)
    else
      do! ic_record_success in lift_outcome (parse_config r).

Definition cached (key : string) : Py (ic_state * W) (option IntegrationConfig) := fun '(c, w) =>
  let (o, cache) := _get_from_cache (monotonic w) key (ic_cache c) in (Ret o, (mkIc (ic_circuit c) cache, w)).
Definition store (key : string) (config : IntegrationConfig) : Py (ic_state * W) unit := fun '(c, w) =>
  match _put_in_cache cfg (monotonic w) key config (ic_cache c) with
  | Ret cache => (Ret tt, (mkIc (ic_circuit c) cache, w))
  | Exc e => (Exc e, (c, w))
  end.
(** One coroutine that finds the lock free. *)
Definition get_config (tenant platform : string) (include_secrets : bool)
    : Py (ic_state * W) IntegrationConfig :=
  let key := _cache_key tenant platform include_secrets in
  let! hit := cached key in
  match hit with
  | Some c => ret c
  | None =>
      let! hit := cached key in
      match hit with
      | Some c => ret c
      | None =>
          let! config := _fetch_config tenant platform include_secrets in
          do! store key config in
          ret config
      end
  end.

(** [[str(t) for t in tenants]] *)
Fixpoint chars (s : string) : list string :=
  match s with EmptyString => [] | String c s' => String c "" :: chars s' end.
Definition str_each (tenants : json) : outcome exn (list string) :=
  match tenants with
  | JList l => Ret (map py_str l)
  | JStr s => Ret (chars s)
  | JObj o => Ret (map fst o)
  | _ => Exc (PyErr TypeError "object is not iterable")
  end.
Definition get_enabled_tenants (platform : string) : Py (ic_state * W) (list string) :=
  let! o := ic_circuit_is_open in
  if (o : bool) then config_error "Circuit open: admin panel unavailable"
  else
    let! r := catch (ic_get ("/api/v1/internal/integrations/platforms/" +:+ quote platform +:+ "/tenants") None)
      (fun e =>
         if isinstance e HttpxHTTPError then
           do! ic_record_failure in config_error ("get_enabled_tenants network error: " +:+ class_name e)
         else raise e) in
    if negb (r_status r =? 200) then
      do! ic_record_failure in config_error ("get_enabled_tenants returned HTTP " +:+ str_of_Z (r_status r))
    else
      do! ic_record_success in
      match loads (r_text r) with
      | None => raise (PyErr ValueError "Expecting value")
      | Some payload =>
          let data := match payload with JObj o => default payload (dget "data" o) | _ => JObj [] end in
          let tenants := match data with JObj o => default (JList []) (dget "tenant_ids" o) | _ => JList [] end in
          lift_outcome (str_each tenants)
      end.
(** The tasks of [asyncio.gather], run one after the other. *)
Definition warm_all (platform : string) : Py (ic_state * W) Z :=
  let! tenant_ids := get_enabled_tenants platform in
  mfold (fun n tid =>
           let! ok := catch_Exception (do! get_config tid platform true in ret true) (fun _ => ret false) in
           ret (if (ok : bool) then n + 1 else n)) tenant_ids 0.
Definition ic_close : Py (ic_state * W) unit := fun '(c, w) => (Ret tt, (mkIc (ic_circuit c) [], w)).
End ConfigClient.

(** ** The registry *)

Definition registry_set {C} (client : C) (_ : option C) : option C := Some client.
Definition registry_get {C} (r : option C) : outcome exn C :=
  match r with
  | Some c => Ret c
  | None => Exc (PyErr RuntimeError
      "IntegrationConfigClient not initialized. Call init_integration_config_client() during app startup.")
  end.
Definition registry_reset {C} (_ : option C) : option C := None.

(** ** What the cache can return *)

Lemma dget_ddel_Some {V} (k k' : string) (d : list (string * V)) v :
  dget k' (ddel k d) = Some v -> k' <> k /\ dget k' d = Some v.
Proof.
  destruct (decide (k' = k)) as [-> | Hne]; [by rewrite dget_ddel_eq | by rewrite dget_ddel_ne].
Qed.
Lemma ddel_keys {V} k (d : list (string * V)) : NoDup d.*1 -> NoDup (ddel k d).*1.
Proof. intros N. eapply sublist_NoDup; [exact N | apply fmap_sublist, sublist_filter]. Qed.
Lemma dget_tail {V} k x (d : list (string * V)) v : NoDup (x :: d).*1 -> dget k d = Some v -> dget k (x :: d) = Some v.
Proof.
  destruct x as [k' v']. cbn. rewrite NoDup_cons. intros [Hn _] Hk. case_bool_decide as E; [| done].
  subst. apply dget_None_notin in Hn. congruence.
Qed.

(** What a process does with the cache. *)
Inductive cache_op :=
| OpGet (now : Z) (key : string)
| OpPut (now : Z) (key : string) (config : IntegrationConfig)
| OpInvalidate (tenant platform : option string).
Definition cache_step (cfg : ic_config) (op : cache_op) (c : config_cache) : config_cache :=
  match op with
  | OpGet now key => snd (_get_from_cache now key c)
  | OpPut now key config => match _put_in_cache cfg now key config c with Ret c' => c' | Exc _ => c end
  | OpInvalidate t p => invalidate_cache t p c
  end.
Definition cache_run (cfg : ic_config) (ops : list cache_op) : config_cache :=
  fold_left (fun c op => cache_step cfg op c) ops [].
Definition puts_key (key : string) (op : cache_op) : Prop :=
  match op with OpPut _ k _ => k = key | _ => False end.
(** The last time [ops] stored [key]: when and what. *)
Definition last_put (key : string) (ops : list cache_op) (t : Z) (c : IntegrationConfig) : Prop :=
  exists pre post, ops = pre ++ OpPut t key c :: post /\ Forall (fun op => ~ puts_key key op) post.

Lemma last_put_other key ops t c op : ~ puts_key key op -> last_put key ops t c -> last_put key (ops ++ [op]) t c.
Proof.
  intros Hn (pre & post & -> & Hp). exists pre, (post ++ [op]). rewrite <- app_assoc. split; [done |].
  apply Forall_app. split; [done | by constructor].
Qed.

Section CacheOps.
Variable cfg : ic_config.
Hypothesis Hsize : 1 <= local_cache_max_size cfg.

Record cache_ok (ops : list cache_op) (c : config_cache) : Prop := {
  ok_keys : NoDup c.*1;
  ok_size : Z.of_nat (length c) <= local_cache_max_size cfg;
  ok_entry key e config : dget key c = Some (e, config) ->
    exists t, last_put key ops t config /\ e = t + local_cache_ttl cfg;
}.

(** Removing entries keeps the invariant. *)
Lemma cache_ok_shrink ops op c c' : (forall key, ~ puts_key key op) -> c' `sublist_of` c ->
  (forall key x, dget key c' = Some x -> dget key c = Some x) -> cache_ok ops c -> cache_ok (ops ++ [op]) c'.
Proof.
  intros Hop Hs Hd [Hk Hl He]. split.
  - eapply sublist_NoDup; [exact Hk | by apply fmap_sublist].
  - apply sublist_length in Hs. lia.
  - intros key e config E. destruct (He key e config (Hd _ _ E)) as (t & Ht & ->).
    exists t. split; [by apply last_put_other | done].
Qed.
Lemma cache_ok_put ops now key config c rest : cache_ok ops c -> rest `sublist_of` c ->
  (forall k x, dget k rest = Some x -> dget k c = Some x) ->
  Z.of_nat (length rest) < local_cache_max_size cfg ->
  cache_ok (ops ++ [OpPut now key config]) (dset key (now + local_cache_ttl cfg, config) rest).
Proof.
  intros [Hk Hl He] Hs Hd Hr. split.
  - apply NoDup_dset. eapply sublist_NoDup; [exact Hk | by apply fmap_sublist].
  - rewrite length_dset. case_match; lia.
  - intros k e x. destruct (decide (k = key)) as [-> | Hne].
    + rewrite dget_dset_eq. intros [= <- <-]. exists now. split; [| done]. by exists ops, [].
    + rewrite dget_dset_ne by done. intros E. destruct (He k e x (Hd _ _ E)) as (t & Ht & ->).
      exists t. split; [| done]. apply last_put_other; [| done]. cbn. congruence.
Qed.
Lemma dget_filter {V} (P : string * V -> Prop) `{forall x, Decision (P x)} k (d : list (string * V)) v :
  NoDup d.*1 -> dget k (filter P d) = Some v -> dget k d = Some v.
Proof.
  induction d as [|[k' v'] d IH]; [done |]. intros N. cbn in N. rewrite filter_cons.
  apply NoDup_cons in N as [Hn N]. case_decide; cbn.
  - case_bool_decide; [done | auto].
  - intros E. pose proof (IH N E) as E'. case_bool_decide as Ek; [| done]. subst.
    apply dget_None_notin in Hn. congruence.
Qed.
Lemma cache_step_ok ops op c : cache_ok ops c -> cache_ok (ops ++ [op]) (cache_step cfg op c).
Proof.
  intros Hc. pose proof (ok_keys _ _ Hc) as Hk. pose proof (ok_size _ _ Hc) as Hl.
  destruct op as [now key | now key config | t p]; cbn [cache_step].
  - unfold _get_from_cache. destruct (dget key c) as [[e x]|] eqn:E; [destruct (e <? now) |]; cbn [snd].
    + apply (cache_ok_shrink ops _ c); [by intros ? [] | apply sublist_filter | | done].
      intros k v Hv. apply dget_ddel_Some in Hv as [_ Hv]. exact Hv.
    + by apply (cache_ok_shrink ops _ c); [intros ? [] | | |].
    + by apply (cache_ok_shrink ops _ c); [intros ? [] | | |].
  - unfold _put_in_cache. destruct (local_cache_max_size cfg <=? Z.of_nat (length c)) eqn:El.
    + destruct c as [|x c]; [apply Z.leb_le in El; cbn in El; lia |]. cbn [length] in *.
      apply (cache_ok_put ops now key config (x :: c)); [done | by apply sublist_cons | | lia].
      intros k v. by apply dget_tail.
    + apply Z.leb_gt in El. by apply (cache_ok_put ops now key config c).
  - assert (Hinv : invalidate_cache t p c `sublist_of` c /\
      forall k x, dget k (invalidate_cache t p c) = Some x -> dget k c = Some x).
    { unfold invalidate_cache. destruct t, p; (split; [try apply sublist_filter; apply sublist_nil_l |]); intros k x;
        try done; by apply dget_filter. }
    destruct Hinv. by apply (cache_ok_shrink ops _ c); [intros ? [] | | |].
Qed.
Lemma cache_run_ok ops : cache_ok ops (cache_run cfg ops).
Proof.
  induction ops as [|op ops IH] using rev_ind.
  - split; cbn; [apply NoDup_nil_2 | lia | done].
  - unfold cache_run. rewrite fold_left_app. by apply cache_step_ok.
Qed.
End CacheOps.

(** The local cache.  After any sequence of reads, writes and invalidations the cache holds at most
    [local_cache_max_size] entries, and what it returns for a key is the configuration that was stored
    last under that key, no longer than [local_cache_ttl] ago. *)
Theorem config_cache_fresh cfg ops now key config c' :
  1 <= local_cache_max_size cfg ->
  Z.of_nat (length (cache_run cfg ops)) <= local_cache_max_size cfg /\
  (_get_from_cache now key (cache_run cfg ops) = (Some config, c') ->
   exists t, last_put key ops t config /\ now <= t + local_cache_ttl cfg).
Proof.
  intros Hs. destruct (cache_run_ok cfg Hs ops) as [Hk Hl He]. split; [done |].
  unfold _get_from_cache. destruct (dget key _) as [[e x]|] eqn:E; [| done].
  destruct (e <? now) eqn:En; [done |]. intros [= -> _].
  destruct (He key e config E) as (t & Ht & ->). exists t. apply Z.ltb_ge in En. done.
Qed.

(** ** Invalidation *)

Lemma split_last_free c s : free_of c s = true -> split_last c s = None.
Proof.
  induction s as [|d s IH]; cbn; [done |]. rewrite andb_true_iff, negb_true_iff. intros [Hd Hs].
  by rewrite IH, Hd.
Qed.
Lemma split_last_app c a b : free_of c b = true -> split_last c (a +:+ String c b) = Some (a, b).
Proof.
  intros Hb. induction a as [|d a IH].
  { change ("" +:+ String c b) with (String c b). cbn [split_last]. by rewrite split_last_free, bool_decide_true. }
  change (String d a +:+ String c b) with (String d (a +:+ String c b)). cbn [split_last]. by rewrite IH.
Qed.
Lemma key_parts t p s : free_of ":" p = true ->
  exists flag, split_last ":" (_cache_key t p s) = Some (t +:+ String ":" p, flag) /\
    flag = (if s then "1" else "0") /\ split_last ":" (t +:+ String ":" p) = Some (t, p).
Proof.
  intros Hp. exists (if s then "1" else "0"). split; [| split; [done | by apply split_last_app]].
  unfold _cache_key. replace (t +:+ ":" +:+ p +:+ ":" +:+ (if s then "1" else "0"))
    with ((t +:+ String ":" p) +:+ String ":" (if s then "1" else "0")) by by rewrite append_assoc.
  apply split_last_app. by destruct s.
Qed.
Lemma dget_filter_key {V} (f : string -> bool) k (d : list (string * V)) :
  dget k (filter (fun kv => f (fst kv) = false) d) = if f k then None else dget k d.
Proof.
  induction d as [|[k' v'] d IH]; [by destruct (f k) |]. rewrite filter_cons. cbn [fst dget].
  case_decide as Hf; cbn [dget]; rewrite IH; case_bool_decide as E; subst; try done; [by rewrite Hf |].
  by destruct (f k').
Qed.

(** [o] is not given, or is [x]. *)
Definition selects (o : option string) (x : string) : bool :=
  match o with None => true | Some y => bool_decide (x = y) end.

(** Cache keys and invalidation.  For platform names without a colon (tenant ids may have one), two
    requests share an entry only if tenant, platform and the secrets flag agree, so an entry without
    secrets never answers a request for them; and [invalidate_cache] removes the entries of the
    given tenant and platform, and no others. *)
Theorem config_invalidation t p s tenant platform c :
  free_of ":" p = true ->
  (forall t' p' s', free_of ":" p' = true -> _cache_key t p s = _cache_key t' p' s' -> t = t' /\ p = p' /\ s = s') /\
  dget (_cache_key t p s) (invalidate_cache tenant platform c) =
    if selects tenant t && selects platform p then None else dget (_cache_key t p s) c.
Proof.
  intros Hp. destruct (key_parts t p s Hp) as (f & E1 & Ef & E2). split.
  - intros t' p' s' Hp' Heq. destruct (key_parts t' p' s' Hp') as (f' & E1' & Ef' & E2').
    rewrite Heq in E1. rewrite E1 in E1'. injection E1' as Er Efl. rewrite Er, E2' in E2. injection E2 as -> ->.
    split; [done |]. split; [done |]. subst. destruct s, s'; congruence.
  - assert (Hm : _key_matches (_cache_key t p s) tenant platform = selects tenant t && selects platform p).
    { unfold _key_matches. rewrite E1, E2. destruct tenant as [x|], platform as [y|]; cbn;
        repeat case_bool_decide; done. }
    unfold invalidate_cache. rewrite <- Hm.
    destruct tenant, platform; try (rewrite (dget_filter_key (fun k => _key_matches k _ _)); done).
    rewrite Hm. done.
Qed.

(** ** Coroutines and the per-key locks *)

(** A call of [get_config] that missed the cache: it waits for its lock, or it holds the lock and its
    request to the admin panel is in flight. *)
Inductive coroutine := Waiting (key : string) (lock : nat) | Fetching (key : string) (lock : nat).
Definition co_key (c : coroutine) : string := match c with Waiting k _ | Fetching k _ => k end.
Definition co_lock (c : coroutine) : nat := match c with Waiting _ l | Fetching _ l => l end.

Record loop_state := mkLoop {
  lp_cache : config_cache;
  lp_locks : gmap string nat;             (* [self._locks] *)
  lp_owner : gmap nat nat;                (* which coroutine holds a lock *)
  lp_next : nat;                          (* the next lock object *)
  lp_calls : gmap nat coroutine;
}.
Definition loop0 : loop_state := mkLoop [] ∅ ∅ 0 ∅.

(** What one coroutine does between two suspensions. *)
Inductive loop_event :=
| Call (now : Z) (key : string) (id : nat)          (* up to waiting for the lock *)
| Acquire (now : Z) (id : nat)                      (* the lock, the second look, the request *)
| Answered (now : Z) (id : nat) (config : IntegrationConfig)
| Failed (id : nat)                                 (* an exception, or cancellation *)
| Invalidate (tenant platform : option string).

(** A coroutine that leaves: the lock it held is released. *)
Definition leave (cache : config_cache) (locks : gmap string nat) (id lock : nat) (s : loop_state) : loop_state :=
  mkLoop cache locks (base.delete lock (lp_owner s)) (lp_next s) (base.delete id (lp_calls s)).
Definition loop_apply (cfg : ic_config) (ev : loop_event) (s : loop_state) : option loop_state :=
  match ev with
  | Call now key id =>
      match lp_calls s !! id with
      | Some _ => None
      | None =>
          match _get_from_cache now key (lp_cache s) with
          | (Some _, c) => Some (mkLoop c (lp_locks s) (lp_owner s) (lp_next s) (lp_calls s))
          | (None, c) =>
              let lock := default (lp_next s) (lp_locks s !! key) in
              Some (mkLoop c (<[key := lock]> (lp_locks s)) (lp_owner s)
                      (match lp_locks s !! key with Some _ => lp_next s | None => S (lp_next s) end)
                      (<[id := Waiting key lock]> (lp_calls s)))
          end
      end
  | Acquire now id =>
      match lp_calls s !! id with
      | Some (Waiting key lock) =>
          match lp_owner s !! lock with
          | Some _ => None
          | None =>
              match _get_from_cache now key (lp_cache s) with
              | (Some _, c) => Some (leave c (lp_locks s) id lock s)
              | (None, c) => Some (mkLoop c (lp_locks s) (<[lock := id]> (lp_owner s)) (lp_next s)
                                     (<[id := Fetching key lock]> (lp_calls s)))
              end
          end
      | _ => None
      end
  | Answered now id config =>
      match lp_calls s !! id with
      | Some (Fetching key lock) =>
          match _put_in_cache cfg now key config (lp_cache s) with
          | Ret c => Some (leave c (base.delete key (lp_locks s)) id lock s)
          | Exc _ => Some (leave (lp_cache s) (lp_locks s) id lock s)
          end
      | _ => None
      end
  | Failed id =>
      match lp_calls s !! id with
      | Some (Fetching _ lock) => Some (leave (lp_cache s) (lp_locks s) id lock s)
      | Some (Waiting _ _) =>
          Some (mkLoop (lp_cache s) (lp_locks s) (lp_owner s) (lp_next s) (base.delete id (lp_calls s)))
      | None => None
      end
  | Invalidate t p =>
      Some (mkLoop (invalidate_cache t p (lp_cache s)) (lp_locks s) (lp_owner s) (lp_next s) (lp_calls s))
  end.

(** Steps that do not drop the entry of [key] (by expiry, eviction or invalidation). *)
Inductive keeping_step (cfg : ic_config) (key : string) (s s' : loop_state) : Prop :=
| keeping ev : loop_apply cfg ev s = Some s' ->
    (is_Some (dget key (lp_cache s)) -> is_Some (dget key (lp_cache s'))) -> keeping_step cfg key s s'.

Record single_flight (key : string) (s : loop_state) : Prop := {
  sf_owner id k l : lp_calls s !! id = Some (Fetching k l) -> lp_owner s !! l = Some id;
  sf_lock id c : dget key (lp_cache s) = None -> lp_calls s !! id = Some c -> co_key c = key ->
    lp_locks s !! key = Some (co_lock c);
  sf_done id l : is_Some (dget key (lp_cache s)) -> lp_calls s !! id <> Some (Fetching key l);
}.

Section Flight.
Variables (cfg : ic_config) (key : string).

Lemma one_fetch s id1 id2 l1 l2 : single_flight key s ->
  lp_calls s !! id1 = Some (Fetching key l1) -> lp_calls s !! id2 = Some (Fetching key l2) -> id1 = id2.
Proof.
  intros [Ho Hl Hd] E1 E2. destruct (dget key (lp_cache s)) as [x|] eqn:Ec.
  - exfalso. by apply (Hd id1 l1).
  - pose proof (Hl _ _ eq_refl E1 eq_refl) as K1. pose proof (Hl _ _ eq_refl E2 eq_refl) as K2.
    cbn in *. rewrite K1 in K2. injection K2 as <-.
    apply Ho in E1. apply Ho in E2. congruence.
Qed.

(** Looking up [k] leaves the other entries, and tells whether [k] has one. *)
Lemma get_cases now k c o c' : _get_from_cache now k c = (o, c') ->
  (is_Some (dget key c) -> is_Some (dget key c')) ->
  dget key c' = dget key c /\ (k = key -> is_Some o <-> is_Some (dget key c)).
Proof.
  unfold _get_from_cache. destruct (dget k c) as [[e x]|] eqn:E; [destruct (e <? now) |]; intros [= <- <-] Hk.
  - destruct (decide (k = key)) as [-> | Hne].
    + rewrite dget_ddel_eq, E in Hk. destruct (Hk (ex_intro _ _ eq_refl)) as [? [=]].
    + rewrite dget_ddel_ne by done. done.
  - split; [done |]. intros ->. rewrite E. split; eauto.
  - split; [done |]. intros ->. rewrite E. done.
Qed.
Lemma put_cases now k config c c' : _put_in_cache cfg now k config c = Ret c' ->
  (k = key -> is_Some (dget key c')) /\ (k <> key -> dget key c = None -> dget key c' = None).
Proof.
  unfold _put_in_cache. intros H.
  assert (Hr : exists rest e, c' = dset k e rest /\ (dget key c = None -> dget key rest = None)).
  { destruct (_ <=? _); [destruct c as [|[k' v'] c]; [discriminate H |] |]; injection H as <-; eexists _, _;
      (split; [reflexivity |]); [| done]. cbn. by case_bool_decide. }
  destruct Hr as (rest & e & -> & Hn). split.
  - intros ->. rewrite dget_dset_eq. eauto.
  - intros Hne Hc. rewrite dget_dset_ne by done. auto.
Qed.
Lemma invalidate_none t p c : dget key c = None -> dget key (invalidate_cache t p c) = None.
Proof.
  intros Hc. unfold invalidate_cache. destruct t, p; try done;
    rewrite (dget_filter_key (fun k => _key_matches k _ _)); by case_match.
Qed.

(** Steps after which every call was there before. *)
Lemma sf_shrink s s' : single_flight key s ->
  (forall id c, lp_calls s' !! id = Some c -> lp_calls s !! id = Some c) ->
  (forall id k l, lp_calls s' !! id = Some (Fetching k l) -> lp_owner s' !! l = lp_owner s !! l) ->
  (dget key (lp_cache s') = None -> dget key (lp_cache s) = None /\ lp_locks s' !! key = lp_locks s !! key) ->
  (is_Some (dget key (lp_cache s')) -> is_Some (dget key (lp_cache s)) \/
     forall id l, lp_calls s' !! id <> Some (Fetching key l)) ->
  single_flight key s'.
Proof.
  intros [Ho Hl Hd] Hc Hw Hn Hs. split.
  - intros id k l E. rewrite (Hw _ _ _ E). apply (Ho id k l). by apply Hc.
  - intros id c E1 E2 E3. destruct (Hn E1) as [E4 ->]. eauto.
  - intros id l E1 E2. destruct (Hs E1) as [E3 | E3]; [| by apply (E3 id l)]. apply (Hd id l E3). by apply Hc.
Qed.
(** The same for a coroutine that leaves, whose lock is its own or free. *)
Lemma sf_leave s cache locks id lock : single_flight key s ->
  (lp_owner s !! lock = None \/ lp_owner s !! lock = Some id) ->
  (dget key cache = None -> dget key (lp_cache s) = None /\ locks !! key = lp_locks s !! key) ->
  (is_Some (dget key cache) -> is_Some (dget key (lp_cache s)) \/
     forall id' l, id' <> id -> lp_calls s !! id' <> Some (Fetching key l)) ->
  single_flight key (leave cache locks id lock s).
Proof.
  intros Hs Hlock Hn Hd. apply (sf_shrink s); cbn; [done | | | done |].
  - intros id' c [_ E]%lookup_delete_Some. done.
  - intros id' k l [Hne E]%lookup_delete_Some. apply lookup_delete_ne. intros ->.
    apply (sf_owner _ _ Hs) in E. destruct Hlock; congruence.
  - intros E. destruct (Hd E) as [E' | E']; [by left | right]. intros id' l [Hne Hc]%lookup_delete_Some.
    by apply (E' id' l).
Qed.
(** A call that misses, and one that gets its lock and misses again. *)
Lemma sf_wait s id k cache next : single_flight key s -> lp_calls s !! id = None ->
  dget key cache = dget key (lp_cache s) -> let lock := default (lp_next s) (lp_locks s !! k) in
  single_flight key (mkLoop cache (<[k := lock]> (lp_locks s)) (lp_owner s) next
    (<[id := Waiting k lock]> (lp_calls s))).
Proof.
  intros [Ho Hl Hd] Hid Hc lock. split; cbn; rewrite ?Hc.
  - intros id' k' l [[? [=]] | [Hne E]]%lookup_insert_Some. eauto.
  - intros id' c E1 [[<- <-] | [Hne E]]%lookup_insert_Some Ek; cbn in *.
    + subst. apply lookup_insert_eq.
    + pose proof (Hl _ _ E1 E Ek) as Hk. destruct (decide (k = key)) as [-> | Hk2].
      * rewrite lookup_insert_eq. subst lock. by rewrite Hk.
      * by rewrite lookup_insert_ne.
  - intros id' l E1 [[? [=]] | [Hne E]]%lookup_insert_Some. by apply (Hd id' l).
Qed.
Lemma sf_fetch s id k lock cache : single_flight key s -> lp_calls s !! id = Some (Waiting k lock) ->
  lp_owner s !! lock = None -> dget key cache = dget key (lp_cache s) ->
  (k = key -> dget key (lp_cache s) = None) ->
  single_flight key (mkLoop cache (lp_locks s) (<[lock := id]> (lp_owner s)) (lp_next s)
    (<[id := Fetching k lock]> (lp_calls s))).
Proof.
  intros [Ho Hl Hd] Hid Hw Hc Hk. split; cbn; rewrite ?Hc.
  - intros id' k' l [[<- [= <- <-]] | [Hne E]]%lookup_insert_Some; [apply lookup_insert_eq |].
    rewrite lookup_insert_ne; [eauto |]. intros <-. apply Ho in E. congruence.
  - intros id' c E1 [[<- <-] | [Hne E]]%lookup_insert_Some Ek; cbn in *; [| eauto].
    apply (Hl id (Waiting k lock)); done.
  - intros id' l E1 [[<- [= -> <-]] | [Hne E]]%lookup_insert_Some; [| by apply (Hd id' l)].
    rewrite (Hk eq_refl) in E1. by destruct E1.
Qed.

Lemma single_flight_step s s' : keeping_step cfg key s s' -> single_flight key s -> single_flight key s'.
Proof.
  intros [ev Hev Hk] Hs. destruct ev as [now k id | now id | now id config | id | t p]; cbn in Hev.
  - destruct (lp_calls s !! id) eqn:Hid; [done |].
    destruct (_get_from_cache now k (lp_cache s)) as [[x|] c] eqn:Eg; injection Hev as <-; cbn in Hk;
      destruct (get_cases _ _ _ _ _ Eg Hk) as [Hc _].
    + apply (sf_shrink s); cbn; rewrite ?Hc; auto.
    + by apply sf_wait.
  - destruct (lp_calls s !! id) as [[k lock|]|] eqn:Hid; [| done | done].
    destruct (lp_owner s !! lock) eqn:Hw; [done |].
    destruct (_get_from_cache now k (lp_cache s)) as [[x|] c] eqn:Eg; injection Hev as <-; cbn in Hk;
      destruct (get_cases _ _ _ _ _ Eg Hk) as [Hc Hx].
    + apply sf_leave; rewrite ?Hc; auto.
    + apply sf_fetch; try done. intros ->. specialize (Hx eq_refl).
      destruct (dget key (lp_cache s)); [| done]. destruct (proj2 Hx) as [? [=]]; eauto.
  - destruct (lp_calls s !! id) as [[|k lock]|] eqn:Hid; [done | | done].
    pose proof (sf_owner _ _ Hs _ _ _ Hid) as Hw.
    destruct (_put_in_cache cfg now k config (lp_cache s)) as [c|e] eqn:Ep; injection Hev as <-; cbn in Hk.
    + destruct (put_cases _ _ _ _ _ Ep) as [Hp Hn]. destruct (decide (k = key)) as [-> | Hne].
      * apply sf_leave; [done | by right | |].
        -- intros E. specialize (Hp eq_refl). rewrite E in Hp. by destruct Hp.
        -- intros _. right. intros id' l Hne Hid'. apply Hne. by eapply one_fetch.
      * apply sf_leave; [done | by right | |].
        -- intros E. rewrite lookup_delete_ne by done. split; [| done].
           destruct (dget key (lp_cache s)); [| done]. rewrite E in Hk. by destruct (Hk (ex_intro _ _ eq_refl)).
        -- intros E. left. destruct (dget key (lp_cache s)); [eauto |]. rewrite Hn in E by done. by destruct E.
    + apply sf_leave; auto.
  - destruct (lp_calls s !! id) as [[k lock|k lock]|] eqn:Hid; [| | done]; injection Hev as <-.
    + apply (sf_shrink s); cbn; auto. intros id' c [_ E]%lookup_delete_Some. done.
    + apply sf_leave; auto. right. by apply (sf_owner _ _ Hs _ k).
  - injection Hev as <-. cbn in Hk. apply (sf_shrink s); cbn; auto.
    + intros E. split; [| done]. destruct (dget key (lp_cache s)); [| done].
      rewrite E in Hk. by destruct (Hk (ex_intro _ _ eq_refl)).
    + intros E. left. destruct (dget key (lp_cache s)) eqn:Ec; [eauto |].
      rewrite (invalidate_none t p _ Ec) in E. by destruct E.
Qed.
End Flight.

(** C21. Stampede protection.  However the coroutines of a process interleave, with failures, cancellations and
    traffic on other keys, at most one request for a key is in flight at the admin panel, as
    long as the cache does not lose the key's entry (by expiry, eviction or invalidation). *)
Theorem one_fetch_in_flight cfg key s id1 id2 l1 l2 :
  star (keeping_step cfg key) loop0 s ->
  lp_calls s !! id1 = Some (Fetching key l1) -> lp_calls s !! id2 = Some (Fetching key l2) -> id1 = id2.
Proof.
  intros Hr. apply (one_fetch key s). apply (star_invariant _ (single_flight key) _ _) in Hr; [done | |].
  - intros s1 s2. apply single_flight_step.
  - split; cbn; [done | done |]. intros ? ? [? [=]].
Qed.

(** ** Every branch of [get_config] *)

Section Branches.
Context {W : Type} `{HttpEnv W}.
Variables (validate : list (string * json) -> outcome exn IntegrationConfig) (cfg : ic_config).
Variables (cid : option string) (tenant platform : string) (secrets : bool).
Notation key := (_cache_key tenant platform secrets).
Notation rq := (ic_request cfg cid (config_url tenant platform) (Some (config_params secrets))).

Lemma cached_miss st w : fst (_get_from_cache (monotonic w) key (ic_cache st)) = None ->
  exists cache, cached key (st, w) = (Ret None, (mkIc (ic_circuit st) cache, w)) /\ dget key cache = None.
Proof.
  unfold cached, _get_from_cache. destruct (dget key (ic_cache st)) as [[e c]|] eqn:E.
  - destruct (e <? monotonic w); cbn; intros Hn; [| done]. eexists. split; [done | apply dget_ddel_eq].
  - intros _. eexists. split; [done | exact E].
Qed.
(** After the two looks into the cache. *)
Lemma get_config_miss st w : fst (_get_from_cache (monotonic w) key (ic_cache st)) = None ->
  exists cache, dget key cache = None /\
  get_config validate cfg cid tenant platform secrets (st, w) =
  (let! config := _fetch_config validate cfg cid tenant platform secrets in
   do! store cfg key config in ret config) (mkIc (ic_circuit st) cache, w).
Proof.
  intros Hm. destruct (cached_miss st w Hm) as (cache & E & Hc).
  destruct (cached_miss (mkIc (ic_circuit st) cache) w) as (cache2 & E2 & Hc2);
    [unfold _get_from_cache; cbn; by rewrite Hc |].
  exists cache2. split; [done |]. unfold get_config. cbn zeta. rewrite (bind_Ret _ _ _ _ _ E).
  by rewrite (bind_Ret _ _ _ _ _ E2).
Qed.
(** Past the breaker and the request. *)
Lemma fetch_answer c w b : is_open (monotonic w) (ic_circuit c) = (false, b) ->
  forall r w1, http_send rq w = (Ret r, w1) ->
  _fetch_config validate cfg cid tenant platform secrets (c, w) =
  (if r_status r =? 404 then
      raise (PyErr IntegrationConfigNotFound
        ("No active integration for tenant=" +:+ tenant +:+ " platform=" +:+ platform))
   else if negb (r_status r =? 200) then
      do! ic_record_failure in
      config_error ("admin panel returned HTTP " +:+ str_of_Z (r_status r) +:+ " for tenant=" +:+ tenant +:+
                    " platform=" +:+ platform)
   else do! ic_record_success in lift_outcome (parse_config validate r)) (mkIc b (ic_cache c), w1).
Proof.
  intros Ho r w1 Hs. unfold _fetch_config.
  rewrite (bind_Ret _ _ (c, w) false (mkIc b (ic_cache c), w)) by (unfold ic_circuit_is_open; by rewrite Ho).
  cbn iota. erewrite bind_Ret; [reflexivity |]. unfold catch, ic_get, on_snd. cbn. by rewrite Hs.
Qed.
Lemma fetch_transport c w b : is_open (monotonic w) (ic_circuit c) = (false, b) ->
  forall e w1, http_send rq w = (Exc e, w1) -> isinstance e HttpxHTTPError = true ->
  exists msg, _fetch_config validate cfg cid tenant platform secrets (c, w) =
  (Exc (PyErr IntegrationConfigError msg), (mkIc (record_failure (monotonic w1) b) (ic_cache c), w1)).
Proof.
  intros Ho e w1 Hs He. unfold _fetch_config.
  rewrite (bind_Ret _ _ (c, w) false (mkIc b (ic_cache c), w)) by (unfold ic_circuit_is_open; by rewrite Ho).
  cbn iota. unfold bind at 1, catch, ic_get, on_snd. cbn. rewrite Hs.
  destruct (isinstance e HttpxTimeoutException); [by eexists |]. rewrite He. by eexists.
Qed.
End Branches.

(** Fetching a configuration.  When the cache has no live entry: with the breaker open nothing is sent;
    otherwise one request is sent, and a transport error or a status other than 200 and 404 is an
    [IntegrationConfigError] counted by the breaker, a 404 is [IntegrationConfigNotFound] and leaves the breaker
    as [is_open] left it, and a 200 counts as a success, its configuration being
    cached for [local_cache_ttl] if the body is valid.  A 200 whose body is not JSON escapes as a plain
    [ValueError]. *)
Theorem get_config_branches {W} `{HttpEnv W} validate cfg cid tenant platform secrets st w :
  let key := _cache_key tenant platform secrets in
  let rq := ic_request cfg cid (config_url tenant platform) (Some (config_params secrets)) in
  let run := get_config validate cfg cid tenant platform secrets (st, w) in
  1 <= local_cache_max_size cfg ->
  fst (_get_from_cache (monotonic w) key (ic_cache st)) = None ->
  match is_open (monotonic w) (ic_circuit st) with
  | (true, b) => exists cache,
      run = (Exc (PyErr IntegrationConfigError "Circuit open: admin panel unavailable"), (mkIc b cache, w))
  | (false, b) =>
      match http_send rq w with
      | (Exc e, w1) => isinstance e HttpxHTTPError = true -> exists msg cache,
          run = (Exc (PyErr IntegrationConfigError msg), (mkIc (record_failure (monotonic w1) b) cache, w1))
      | (Ret r, w1) =>
          if r_status r =? 404 then exists msg cache,
            run = (Exc (PyErr IntegrationConfigNotFound msg), (mkIc b cache, w1))
          else if negb (r_status r =? 200) then exists msg cache,
            run = (Exc (PyErr IntegrationConfigError msg), (mkIc (record_failure (monotonic w1) b) cache, w1))
          else match parse_config validate r with
               | Exc e => exists cache, run = (Exc e, (mkIc (record_success b) cache, w1)) /\
                   (loads (r_text r) = None -> e = PyErr ValueError "Expecting value")
               | Ret config => exists cache, run = (Ret config, (mkIc (record_success b) cache, w1)) /\
                   dget key cache = Some (monotonic w1 + local_cache_ttl cfg, config)
               end
      end
  end.
Proof.
  intros key rq run Hsize Hm.
  destruct (get_config_miss validate cfg cid tenant platform secrets st w Hm) as (cache & Hc & Er).
  unfold run. rewrite Er. destruct (is_open (monotonic w) (ic_circuit st)) as [[|] b] eqn:Ho.
  { exists cache. apply bind_Exc. unfold _fetch_config.
    rewrite (bind_Ret _ _ _ true (mkIc b cache, w)) by (unfold ic_circuit_is_open; cbn; by rewrite Ho). done. }
  destruct (http_send rq w) as [[r|e] w1] eqn:Hs.
  - pose proof (fetch_answer validate cfg cid tenant platform secrets (mkIc (ic_circuit st) cache) w b Ho r w1 Hs) as Hf.
    cbn [ic_cache] in Hf. destruct (r_status r =? 404); [eexists _, _; apply bind_Exc; exact Hf |].
    destruct (r_status r =? 200); cbn [negb] in *; [| eexists _, _; apply bind_Exc; exact Hf].
    destruct (parse_config validate r) as [config|e] eqn:Ep.
    + rewrite (bind_Ret _ _ _ _ _ Hf). unfold bind, store. cbn.
      destruct (_put_in_cache cfg (monotonic w1) (_cache_key tenant platform secrets) config cache)
        as [c'|e] eqn:Eput; unfold _put_in_cache in Eput.
      * exists c'. split; [done |].
        destruct (_ <=? _); [destruct cache; [discriminate Eput |] |]; injection Eput as <-; apply dget_dset_eq.
      * destruct (_ <=? _) eqn:El; [| discriminate Eput]. apply Z.leb_le in El.
        destruct cache; [cbn in El; lia | discriminate Eput].
    + exists cache. split; [apply bind_Exc; exact Hf |]. intros Hl. unfold parse_config in Ep. rewrite Hl in Ep. congruence.
  - intros He. destruct (fetch_transport validate cfg cid tenant platform secrets (mkIc (ic_circuit st) cache) w b
      Ho e w1 Hs He) as [msg Hf]. exists msg, cache. apply bind_Exc. exact Hf.
Qed.

(** ** Witnesses *)

Definition demo_ic : ic_config := mkIcConfig "token" 1800 500.
Definition demo_integration : IntegrationConfig :=
  mkIntegration "p1" "t1" "PropertyFinder API" "portal" [("api_key", JStr "k")] true.
Definition pf_key : string := _cache_key "t1" "PropertyFinder API" true.

Lemma config_cache_fresh_witness :
  exists t, last_put pf_key [OpPut 5 pf_key demo_integration] t demo_integration /\ 9 <= t + 1800.
Proof.
  destruct (config_cache_fresh demo_ic [OpPut 5 pf_key demo_integration] 9 pf_key demo_integration
    (cache_run demo_ic [OpPut 5 pf_key demo_integration])) as [_ Hg]; [cbn; lia |].
  apply Hg. vm_compute. reflexivity.
Defined.
Lemma config_invalidation_witness :
  dget pf_key (invalidate_cache (Some "t1") None [(pf_key, (1805, demo_integration))]) = None /\
  pf_key <> _cache_key "t1" "PropertyFinder API" false.
Proof.
  destruct (config_invalidation "t1" "PropertyFinder API" true (Some "t1") None [(pf_key, (1805, demo_integration))])
    as [Hk Hi]; [reflexivity |].
  split; [exact Hi |]. intros E. by destruct (Hk "t1" "PropertyFinder API" false eq_refl E) as (_ & _ & [=]).
Defined.

(** Two calls for one key: the second waits while the first fetches. *)
Definition loop_run (evs : list loop_event) (s : loop_state) : option loop_state :=
  fold_left (fun o ev => match o with Some s => loop_apply demo_ic ev s | None => None end) evs (Some s).
Definition loop1 : loop_state := mkLoop [] {["k" := 0%nat]} ∅ 1 {[7%nat := Waiting "k" 0]}.
Definition loop2 : loop_state := mkLoop [] {["k" := 0%nat]} {[0%nat := 7%nat]} 1 {[7%nat := Fetching "k" 0]}.
Lemma one_fetch_in_flight_witness :
  lp_calls loop2 !! 7%nat = Some (Fetching "k" 0) /\
  forall id l, lp_calls loop2 !! id = Some (Fetching "k" l) -> id = 7%nat.
Proof.
  split; [reflexivity |]. intros id l Hid.
  apply (one_fetch_in_flight demo_ic "k" loop2 id 7 l 0); [| exact Hid | reflexivity].
  apply (star_step _ _ loop1); [by apply (keeping _ _ _ _ (Call 0 "k" 7)) |].
  apply (star_step _ _ loop2); [by apply (keeping _ _ _ _ (Acquire 0 7)) |]. apply star_refl.
Defined.
(** When the entry is dropped while a call still waits on the old lock, the lock object was already
    removed from the table: a new call gets another one, and two requests are in flight. *)
Lemma dropped_entry_two_fetches :
  match loop_run [Call 0 "k" 1; Acquire 0 1; Call 0 "k" 2; Answered 0 1 demo_integration;
                  Invalidate None None; Call 0 "k" 3; Acquire 0 2; Acquire 0 3] loop0 with
  | Some s => lp_calls s !! 2%nat = Some (Fetching "k" 0) /\ lp_calls s !! 3%nat = Some (Fetching "k" 1)
  | None => False
  end.
Proof. vm_compute. split; reflexivity. Qed.

Definition demo_validate (data : list (string * json)) : outcome exn IntegrationConfig :=
  match dget "platform_id" data with
  | Some (JStr i) => Ret (mkIntegration i "t1" "PropertyFinder API" "portal" [] true)
  | _ => Exc (PyErr ValueError "Field required")
  end.
Definition demo_answer : response :=
  mkResponse 200 "application/json" (dumps (JObj [("data", JObj [("platform_id", JStr "p1")])])).
Lemma get_config_branches_witness :
  exists cache, get_config demo_validate demo_ic None "t1" "PropertyFinder API" true
      (ic_init 5 30, mkNet [Ret demo_answer] 100 1 []) =
    (Ret (mkIntegration "p1" "t1" "PropertyFinder API" "portal" [] true),
     (mkIc (new_breaker 5 30) cache,
      mkNet [] 101 1 [Sent (ic_request demo_ic None "/api/v1/internal/integrations/platforms/PropertyFinder%20API/tenants/t1"
        (Some (config_params true)))])).
Proof.
  pose proof (get_config_branches demo_validate demo_ic None "t1" "PropertyFinder API" true
    (ic_init 5 30) (mkNet [Ret demo_answer] 100 1 [])) as Hb.
  assert (Hs : 1 <= local_cache_max_size demo_ic) by (cbn; lia).
  specialize (Hb Hs eq_refl). destruct Hb as (cache & E & _). exists cache. exact E.
Defined.
