(* ===== verification/Repository.v ===== *)
(** * The tenant-scoped repository

    Models src/tr_shared/db/repository.py ([BaseRepository]) and the mixins of
    db/base.py.  A row is a dict from column names to SQL values; a query is what
    the code builds with SQLAlchemy's [select]/[where]/[order_by]/[limit]/
    [offset].  The database is a parameter: [SqlDb] lists what the code asks of
    the session and [SqlDoc] what PostgreSQL documents about the answers.  In
    particular rows with equal sort keys may come in any order, a different one
    for each query.  [flush] writes the entity the method changed. *)

From stdpp Require Import sorting.
From S2P Require Import Prelude Json Errors.
Local Open Scope Z_scope.

(** ** Values, rows and queries *)

Inductive sqlval :=
| VNull | VBool (b : bool) | VInt (n : Z) | VText (s : string) | VUuid (s : string) | VTime (t : Z).
#[export] Instance sqlval_eq_dec : EqDecision sqlval.
Proof. solve_decision. Defined.

Notation row := (list (string * sqlval)).
(** [getattr(entity, c)]; a column that was never set reads as [None]. *)
Definition attr (r : row) (c : string) : sqlval := default VNull (dget c r).

(** A mapped class: its columns, and its other attributes (methods, [metadata], ...). *)
Record model := mkModel { m_name : string; m_columns : list string; m_others : list string }.
Definition is_column (m : model) (a : string) : bool := bool_decide (a ∈ m_columns m).
Definition has_attr (m : model) (a : string) : bool :=
  is_column m a || bool_decide (a ∈ m_others m).

Inductive cond :=
| CEq (c : string) (v : sqlval)      (* c = v, [v] not NULL *)
| CIn (c : string) (vs : list sqlval)
| CIsNull (c : string)
| CFalse.
(** SQL's three-valued comparison keeps a row only when it is true. *)
Definition sat (r : row) (c : cond) : bool :=
  match c with
  | CEq c v => negb (bool_decide (attr r c = VNull)) && bool_decide (attr r c = v)
  | CIn c vs => negb (bool_decide (attr r c = VNull)) && bool_decide (attr r c ∈ vs)
  | CIsNull c => bool_decide (attr r c = VNull)
  | CFalse => false
  end.

Record query := mkQuery {
  q_where : list cond;
  q_order : option (string * bool);   (* column, descending *)
  q_limit : option Z;
  q_offset : option Z;
}.
Definition select_all : query := mkQuery [] None None None.
Definition where_ (c : cond) (q : query) : query :=
  mkQuery (q_where q ++ [c]) (q_order q) (q_limit q) (q_offset q).
Definition order_by_ (c : string) (desc : bool) (q : query) : query :=
  mkQuery (q_where q) (Some (c, desc)) (q_limit q) (q_offset q).
Definition limit_offset (l o : Z) (q : query) : query :=
  mkQuery (q_where q) (q_order q) (Some l) (Some o).

Definition matches (q : query) (r : row) : Prop := forallb (sat r) (q_where q) = true.
#[export] Instance matches_dec q r : Decision (matches q r).
Proof. unfold matches. apply _. Defined.

(** ** The database *)

Class SqlDb (W : Type) := {
  db_rows : W -> list row;                    (* what this transaction sees of the table *)
  val_leb : sqlval -> sqlval -> bool;         (* the server's order on values *)
  db_select : query -> Py W (list row);
  db_count : query -> Py W (option Z);        (* [SELECT count( * ) FROM (q)], then [scalar()] *)
  db_insert : row -> Py W sqlval;             (* INSERT; the primary key of the new row *)
  db_update : row -> Py W unit;               (* UPDATE ... WHERE id = the row's *)
  db_now : Py W Z;                            (* [datetime.now(timezone.utc)] *)
}.

Definition row_le {W} `{SqlDb W} (c : string) (desc : bool) (r1 r2 : row) : Prop :=
  if desc then val_leb (attr r2 c) (attr r1 c) = true else val_leb (attr r1 c) (attr r2 c) = true.
Definition ordered {W} `{SqlDb W} (q : query) (rs : list row) : Prop :=
  match q_order q with None => True | Some (c, d) => StronglySorted (row_le c d) rs end.
Definition slice (q : query) (rs : list row) : list row :=
  let rs := match q_offset q with None => rs | Some o => drop (Z.to_nat o) rs end in
  match q_limit q with None => rs | Some l => take (Z.to_nat l) rs end.
(** What a SELECT may answer: some arrangement of the matching rows that respects ORDER BY,
    cut to the slice; a negative LIMIT or OFFSET is an error. *)
Definition selects {W} `{SqlDb W} (t : list row) (q : query) (rs : list row) : Prop :=
  0 <= default 0 (q_limit q) /\ 0 <= default 0 (q_offset q) /\
  exists full, full ≡ₚ filter (matches q) t /\ ordered q full /\ rs = slice q full.

Definition upsert (r : row) (t : list row) : list row :=
  map (fun r0 => if bool_decide (attr r0 "id" = attr r "id") then r else r0) t.

Class SqlDoc (W : Type) `{SqlDb W} : Prop := {
  val_total v1 v2 : val_leb v1 v2 = true \/ val_leb v2 v1 = true;
  val_trans v1 v2 v3 : val_leb v1 v2 = true -> val_leb v2 v3 = true -> val_leb v1 v3 = true;
  val_antisym v1 v2 : val_leb v1 v2 = true -> val_leb v2 v1 = true -> v1 = v2;
  select_ret q w rs w' : db_select q w = (Ret rs, w') ->
    db_rows w' = db_rows w /\ selects (db_rows w) q rs;
  select_exc q w e w' : db_select q w = (Exc e, w') -> db_rows w' = db_rows w;
  count_ret q w n w' : db_count q w = (Ret n, w') ->
    db_rows w' = db_rows w /\ n = Some (Z.of_nat (length (filter (matches q) (db_rows w))));
  count_exc q w e w' : db_count q w = (Exc e, w') -> db_rows w' = db_rows w;
  insert_ret r w k w' : db_insert r w = (Ret k, w') ->
    exists r', db_rows w' = db_rows w ++ [r'] /\ attr r' "id" = k /\ k <> VNull /\
      k ∉ (fun x => attr x "id") <$> db_rows w /\
      (forall c, attr r c <> VNull -> attr r' c = attr r c);
  insert_exc r w e w' : db_insert r w = (Exc e, w') -> db_rows w' = db_rows w;
  update_ret r w w' : db_update r w = (Ret tt, w') -> db_rows w' = upsert r (db_rows w);
  update_exc r w e w' : db_update r w = (Exc e, w') -> db_rows w' = db_rows w;
  now_ret w o w' : db_now w = (o, w') -> db_rows w' = db_rows w /\ exists t, o = Ret t;
}.

(** ** [BaseRepository] *)

Section BaseRepository.
Context {W : Type} `{SqlDb W} (m : model).

Definition no_attribute {A} (a : string) : Py W A :=
  raise (PyErr AttributeError ("type object '" +:+ m_name m +:+ "' has no attribute '" +:+ a +:+ "'")).
(** [self.model.a == value]: [None] renders IS NULL; an attribute that is no column compares
    unequal to every value, which SQLAlchemy renders as FALSE. *)
Definition eq_cond (a : string) (v : sqlval) : cond :=
  if is_column m a then if bool_decide (v = VNull) then CIsNull a else CEq a v else CFalse.
Definition model_eq (a : string) (v : sqlval) : Py W cond :=
  if has_attr m a then ret (eq_cond a v) else no_attribute a.
(** A method SQLAlchemy's columns have ([is_], [in_], [desc], [asc]), asked of an attribute. *)
Definition column_method (a : string) : Py W string :=
  if is_column m a then ret a else no_attribute a.
(** [if hasattr(self.model, "deleted_at"): query = query.where(self.model.deleted_at.is_(None))] *)
Definition not_deleted (q : query) : Py W query :=
  if has_attr m "deleted_at" then
    let! c := column_method "deleted_at" in ret (where_ (CIsNull c) q)
  else ret q.
Definition scalar_one_or_none (rs : list row) : Py W (option row) :=
  match rs with
  | [] => ret None
  | [r] => ret (Some r)
  | _ => raise (PyErr MultipleResultsFound "Multiple rows were found when one or none was required")
  end.

Definition _require_tenant (tenant_id : sqlval) : Py W unit :=
  if bool_decide (tenant_id = VNull) then
    raise (PyErr ValueError (m_name m +:+ ": tenant_id is required and must not be None"))
  else ret tt.
Definition _column (field_name : string) : Py W string :=
  if has_attr m field_name then ret field_name
  else raise (PyErr ValueError (m_name m +:+ " has no column '" +:+ field_name +:+ "'")).
Definition _apply_filters (q : query) (filters : list (string * sqlval)) : query :=
  foldl (fun q '(key, value) =>
           if negb (bool_decide (value = VNull)) && has_attr m key
           then where_ (eq_cond key value) q else q) q filters.
(** [if filters: query = self._apply_filters(query, filters)] *)
Definition maybe_filter (filters : option (list (string * sqlval))) (q : query) : query :=
  match filters with
  | None | Some [] => q
  | Some fs => _apply_filters q fs
  end.

Definition get_by_id (id tenant_id : sqlval) : Py W (option row) :=
  do! _require_tenant tenant_id in
  let! c1 := model_eq "id" id in
  let! c2 := model_eq "tenant_id" tenant_id in
  let! q := not_deleted (where_ c2 (where_ c1 select_all)) in
  let! rs := db_select q in
  scalar_one_or_none rs.

(** [order_by and hasattr(self.model, order_by)] *)
Definition wanted_order (order_by : option string) : option string :=
  match order_by with
  | Some c => if nonempty c && has_attr m c then Some c else None
  | None => None
  end.
Definition get_all (tenant_id : sqlval) (filters : option (list (string * sqlval)))
    (order_by : option string) (descending : bool) : Py W (list row) :=
  do! _require_tenant tenant_id in
  let! c := model_eq "tenant_id" tenant_id in
  let! q := not_deleted (where_ c select_all) in
  let q := maybe_filter filters q in
  let! q := match wanted_order order_by with
            | Some a => let! column := column_method a in ret (order_by_ column descending q)
            | None => ret q
            end in
  db_select q.

Definition find_by_field (field_name : string) (value tenant_id : sqlval) : Py W (option row) :=
  do! _require_tenant tenant_id in
  let! column := _column field_name in
  let! c := model_eq "tenant_id" tenant_id in
  let! q := not_deleted (where_ c (where_ (eq_cond column value) select_all)) in
  let! rs := db_select q in
  scalar_one_or_none rs.

Definition find_by_field_in (field_name : string) (values : list sqlval) (tenant_id : sqlval)
    : Py W (list row) :=
  do! _require_tenant tenant_id in
  match values with
  | [] => ret []
  | _ =>
    let! column := _column field_name in
    let! column := column_method column in
    let! c := model_eq "tenant_id" tenant_id in
    let! q := not_deleted (where_ c (where_ (CIn column values) select_all)) in
    db_select q
  end.

Definition get_paginated (tenant_id : sqlval) (page per_page : Z)
    (filters : option (list (string * sqlval))) (order_by : option string)
    : Py W (list row * Z) :=
  do! _require_tenant tenant_id in
  let! c := model_eq "tenant_id" tenant_id in
  let! q := not_deleted (where_ c select_all) in
  let q := maybe_filter filters q in
  let! total := db_count q in
  let total := default 0 total in
  let! q := match wanted_order order_by with
            | Some a => let! column := column_method a in ret (order_by_ column true q)
            | None => if has_attr m "created_at" then
                        let! column := column_method "created_at" in
                        ret (order_by_ column true q)
                      else ret q
            end in
  let offset := (page - 1) * per_page in
  let! items := db_select (limit_offset per_page offset q) in
  ret (items, total).

Definition count (tenant_id : sqlval) (filters : option (list (string * sqlval))) : Py W Z :=
  do! _require_tenant tenant_id in
  let! c := model_eq "tenant_id" tenant_id in
  let! q := not_deleted (where_ c select_all) in
  let! n := db_count (maybe_filter filters q) in
  ret (default 0 n).

(** [session.refresh(entity)]: read the row back by its primary key *)
Definition refresh (k : sqlval) : Py W row :=
  let! rs := db_select (where_ (CEq "id" k) select_all) in
  match rs with
  | r :: _ => ret r
  | [] => raise (PyErr InvalidRequestError "Could not refresh instance")
  end.
Definition create (entity : row) : Py W row :=
  if has_attr m "tenant_id" && bool_decide (attr entity "tenant_id" = VNull) then
    raise (PyErr ValueError (m_name m +:+ ".tenant_id must be set before create()"))
  else
    let! k := db_insert entity in
    refresh k.

(** [if hasattr(entity, a): entity.a = datetime.now(timezone.utc)] *)
Definition touch (a : string) (entity : row) : Py W row :=
  if has_attr m a then let! t := db_now in ret (dset a (VTime t) entity) else ret entity.
Definition update (entity : row) : Py W row :=
  let! entity := touch "updated_at" entity in
  do! db_update entity in
  refresh (attr entity "id").

Definition soft_delete (id tenant_id : sqlval) : Py W bool :=
  do! _require_tenant tenant_id in
  if negb (has_attr m "deleted_at") then
    raise (PyErr TypeError (m_name m +:+ " has no deleted_at column to soft-delete"))
  else
    let! entity := get_by_id id tenant_id in
    match entity with
    | None => ret false
    | Some entity =>
      let! entity := touch "deleted_at" entity in
      let entity := if has_attr m "is_active" then dset "is_active" (VBool false) entity
                    else entity in
      let! entity := touch "updated_at" entity in
      do! db_update entity in
      ret true
    end.
End BaseRepository.

(** ** The mixins of db/base.py *)

Definition base_model_columns : list string :=
  ["id"; "created_at"; "updated_at"; "tenant_id"; "created_by"; "updated_by"; "deleted_at"; "is_active"].
(** A class that inherits [BaseModel] and declares [own] columns. *)
Definition base_model (name : string) (own : list string) : model :=
  mkModel name (base_model_columns ++ own) ["soft_delete"; "restore"; "metadata"; "registry"].
Definition mixin_soft_delete (now : Z) (entity : row) : row :=
  dset "is_active" (VBool false) (dset "deleted_at" (VTime now) entity).
Definition restore (entity : row) : row :=
  dset "is_active" (VBool true) (dset "deleted_at" VNull entity).

(** ** What the built queries contain *)

Ltac peel H := let a := fresh "v" in let w := fresh "w" in let E := fresh "E" in
  apply bind_Ret_inv in H; destruct H as (a & w & E & H).

Section Queries.
Context {W : Type} `{SqlDb W} (m : model).

Definition deleted_conds : list cond :=
  if has_attr m "deleted_at" then [CIsNull "deleted_at"] else [].
Definition filter_conds (filters : option (list (string * sqlval))) : list cond :=
  match filters with
  | None => []
  | Some fs => flat_map (fun '(k, v) => if negb (bool_decide (v = VNull)) && has_attr m k
                                       then [eq_cond m k v] else []) fs
  end.
(** The rows a tenant may see. *)
Definition visible (tenant_id : sqlval) (r : row) : Prop :=
  attr r "tenant_id" = tenant_id /\ (has_attr m "deleted_at" = true -> attr r "deleted_at" = VNull).
Definition scoped (tenant_id : sqlval) (q : query) : Prop :=
  eq_cond m "tenant_id" tenant_id ∈ q_where q /\ (forall c, c ∈ deleted_conds -> c ∈ q_where q).
Definition listing (tenant_id : sqlval) (filters : option (list (string * sqlval))) : query :=
  mkQuery (eq_cond m "tenant_id" tenant_id :: deleted_conds ++ filter_conds filters) None None None.
Definition with_order (o : option (string * bool)) (q : query) : query :=
  mkQuery (q_where q) o (q_limit q) (q_offset q).

Lemma require_ret tenant_id (w : W) u w' :
  _require_tenant m tenant_id w = (Ret u, w') -> w' = w /\ tenant_id <> VNull.
Proof. unfold _require_tenant. case_bool_decide; intros [=]; subst; done. Qed.
Lemma model_eq_ret a v (w : W) c w' :
  model_eq m a v w = (Ret c, w') -> w' = w /\ c = eq_cond m a v.
Proof. unfold model_eq. destruct (has_attr m a); intros [=]; by subst. Qed.
Lemma column_method_ret a (w : W) c w' :
  column_method m a w = (Ret c, w') -> w' = w /\ c = a /\ is_column m a = true.
Proof. unfold column_method. destruct (is_column m a) eqn:?; intros [=]; by subst. Qed.
Lemma column_ret a (w : W) c w' : _column m a w = (Ret c, w') -> w' = w /\ c = a.
Proof. unfold _column. destruct (has_attr m a); intros [=]; by subst. Qed.
Lemma not_deleted_ret q (w : W) q' w' :
  not_deleted m q w = (Ret q', w') ->
  w' = w /\ q' = mkQuery (q_where q ++ deleted_conds) (q_order q) (q_limit q) (q_offset q).
Proof.
  unfold not_deleted, deleted_conds. destruct (has_attr m "deleted_at").
  - intros Hq. peel Hq. apply column_method_ret in E as (-> & -> & _). inversion Hq; subst. done.
  - intros [=]; subst. split; [done |]. rewrite app_nil_r. by destruct q'.
Qed.
Lemma apply_filters_eq fs q :
  _apply_filters m q fs =
  mkQuery (q_where q ++ filter_conds (Some fs)) (q_order q) (q_limit q) (q_offset q).
Proof.
  unfold _apply_filters, filter_conds. revert q. induction fs as [|[k v] fs IH]; intros q; simpl.
  - rewrite app_nil_r. by destruct q.
  - rewrite IH. destruct (_ && _); simpl; [by rewrite <- app_assoc | done].
Qed.
Lemma maybe_filter_eq fs q :
  maybe_filter m fs q =
  mkQuery (q_where q ++ filter_conds fs) (q_order q) (q_limit q) (q_offset q).
Proof.
  destruct fs as [[|f fs]|]; [| apply apply_filters_eq |]; simpl; rewrite app_nil_r; by destruct q.
Qed.
(** [get_all], [get_paginated] and [count] read the same rows. *)
Lemma listing_eq tenant_id fs :
  maybe_filter m fs (mkQuery (q_where (where_ (eq_cond m "tenant_id" tenant_id) select_all) ++
    deleted_conds) None None None) = listing tenant_id fs.
Proof. by rewrite maybe_filter_eq. Qed.

Lemma matches_cons c q r :
  matches q r -> c ∈ q_where q -> sat r c = true.
Proof.
  unfold matches. rewrite forallb_forall. intros Hall Hc. apply Hall. by apply list_elem_of_In.
Qed.
Lemma scoped_visible tenant_id q r :
  tenant_id <> VNull -> scoped tenant_id q -> matches q r -> visible tenant_id r.
Proof.
  intros Ht [Hq Hd] Hm. split.
  - pose proof (matches_cons _ _ _ Hm Hq) as Hs. unfold eq_cond in Hs.
    destruct (is_column m "tenant_id"); [| done]. rewrite bool_decide_false in Hs by done.
    cbn in Hs. by apply andb_true_iff in Hs as [_ Hs%bool_decide_eq_true].
  - intros Ha. assert (CIsNull "deleted_at" ∈ q_where q) as Hin
      by (apply Hd; unfold deleted_conds; rewrite Ha; set_solver).
    apply (matches_cons _ _ _ Hm) in Hin. cbn in Hin. by apply bool_decide_eq_true in Hin.
Qed.
Lemma selects_in t q rs r : selects t q rs -> r ∈ rs -> r ∈ t /\ matches q r.
Proof.
  intros (_ & _ & full & Hp & _ & ->) Hr.
  assert (r ∈ full) as Hf.
  { unfold slice in Hr. destruct (q_offset q) as [o|], (q_limit q) as [l|];
      try apply (subseteq_take _ _ _) in Hr; try apply (subseteq_drop _ _ _) in Hr; exact Hr. }
  rewrite Hp in Hf. apply list_elem_of_filter in Hf. tauto.
Qed.
End Queries.

(** ** Reads: the query each method sends *)

(** The read methods, one constructor each. *)
Inductive read :=
| ReadById (id : sqlval)
| ReadAll (filters : option (list (string * sqlval))) (order_by : option string) (descending : bool)
| ReadByField (field_name : string) (value : sqlval)
| ReadByFieldIn (field_name : string) (values : list sqlval)
| ReadPage (page per_page : Z) (filters : option (list (string * sqlval))) (order_by : option string).

Section Reads.
Context {W : Type} `{SqlDb W, !SqlDoc W} (m : model).

(** The rows a read gives its caller. *)
Definition run_read (tenant_id : sqlval) (rd : read) : Py W (list row) :=
  match rd with
  | ReadById id => let! r := get_by_id m id tenant_id in ret (option_list r)
  | ReadAll filters order_by descending => get_all m tenant_id filters order_by descending
  | ReadByField f v => let! r := find_by_field m f v tenant_id in ret (option_list r)
  | ReadByFieldIn f vs => find_by_field_in m f vs tenant_id
  | ReadPage page per_page filters order_by =>
      let! r := get_paginated m tenant_id page per_page filters order_by in ret (fst r)
  end.

Lemma scalar_ret rs (w : W) o w' :
  scalar_one_or_none rs w = (Ret o, w') -> w' = w /\ rs = option_list o.
Proof. destruct rs as [|r [|r' rs]]; intros [=]; by subst. Qed.

Lemma get_by_id_ret id tenant_id w o w' :
  get_by_id m id tenant_id w = (Ret o, w') ->
  tenant_id <> VNull /\
  db_select (mkQuery (eq_cond m "id" id :: eq_cond m "tenant_id" tenant_id :: deleted_conds m)
               None None None) w = (Ret (option_list o), w').
Proof.
  intros Hg. unfold get_by_id in Hg. peel Hg. apply require_ret in E as [-> Ht].
  peel Hg. apply model_eq_ret in E as [-> ->]. peel Hg. apply model_eq_ret in E as [-> ->].
  peel Hg. apply not_deleted_ret in E as [-> ->]. peel Hg.
  apply scalar_ret in Hg as [-> ->]. by split.
Qed.
Lemma find_by_field_ret f v tenant_id w o w' :
  find_by_field m f v tenant_id w = (Ret o, w') ->
  tenant_id <> VNull /\
  db_select (mkQuery (eq_cond m f v :: eq_cond m "tenant_id" tenant_id :: deleted_conds m)
               None None None) w = (Ret (option_list o), w').
Proof.
  intros Hg. unfold find_by_field in Hg. peel Hg. apply require_ret in E as [-> Ht].
  peel Hg. apply column_ret in E as [-> ->]. peel Hg. apply model_eq_ret in E as [-> ->].
  peel Hg. apply not_deleted_ret in E as [-> ->]. peel Hg.
  apply scalar_ret in Hg as [-> ->]. by split.
Qed.
Lemma find_by_field_in_ret f vs tenant_id w rs w' :
  find_by_field_in m f vs tenant_id w = (Ret rs, w') ->
  tenant_id <> VNull /\
  ((vs = [] /\ rs = [] /\ w' = w) \/
   db_select (mkQuery (CIn f vs :: eq_cond m "tenant_id" tenant_id :: deleted_conds m)
               None None None) w = (Ret rs, w')).
Proof.
  intros Hg. unfold find_by_field_in in Hg. peel Hg. apply require_ret in E as [-> Ht].
  split; [done |]. destruct vs as [|v0 vs]; [left; by inversion Hg |]. right.
  peel Hg. apply column_ret in E as [-> ->]. peel Hg. apply column_method_ret in E as (-> & -> & _).
  peel Hg. apply model_eq_ret in E as [-> ->]. peel Hg. by apply not_deleted_ret in E as [-> ->].
Qed.
(** ORDER BY of [get_all] and of [get_paginated] *)
Definition all_order (order_by : option string) (desc : bool) : option (string * bool) :=
  (fun a => (a, desc)) <$> wanted_order m order_by.
Definition page_order (order_by : option string) : option (string * bool) :=
  match wanted_order m order_by with
  | Some a => Some (a, true)
  | None => if has_attr m "created_at" then Some ("created_at", true) else None
  end.
Lemma get_all_ret tenant_id filters order_by desc w rs w' :
  get_all m tenant_id filters order_by desc w = (Ret rs, w') ->
  tenant_id <> VNull /\
  db_select (with_order (all_order order_by desc) (listing m tenant_id filters)) w = (Ret rs, w').
Proof.
  intros Hg. unfold get_all in Hg. peel Hg. apply require_ret in E as [-> Ht].
  peel Hg. apply model_eq_ret in E as [-> ->]. peel Hg. apply not_deleted_ret in E as [-> ->].
  split; [done |]. rewrite listing_eq in Hg. unfold all_order.
  destruct (wanted_order m order_by) as [a|].
  - peel Hg. peel E. apply column_method_ret in E0 as (-> & -> & _). inversion E; subst. exact Hg.
  - peel Hg. inversion E; subst. exact Hg.
Qed.
Lemma get_paginated_ret tenant_id page per_page filters order_by w items total w' :
  get_paginated m tenant_id page per_page filters order_by w = (Ret (items, total), w') ->
  tenant_id <> VNull /\ exists n w1, total = default 0 n /\
  db_count (listing m tenant_id filters) w = (Ret n, w1) /\
  db_select (limit_offset per_page ((page - 1) * per_page)
    (with_order (page_order order_by) (listing m tenant_id filters))) w1 = (Ret items, w').
Proof.
  intros Hg. unfold get_paginated in Hg. peel Hg. apply require_ret in E as [-> Ht].
  peel Hg. apply model_eq_ret in E as [-> ->]. peel Hg. apply not_deleted_ret in E as [-> ->].
  split; [done |]. rewrite listing_eq in Hg. peel Hg. exists v0, w0.
  unfold page_order. destruct (wanted_order m order_by) as [a|]; [| destruct (has_attr m "created_at")].
  - peel Hg. peel E0. apply column_method_ret in E1 as (-> & -> & _). inversion E0; subst.
    peel Hg. inversion Hg; subst. done.
  - peel Hg. peel E0. apply column_method_ret in E1 as (-> & -> & _). inversion E0; subst.
    peel Hg. inversion Hg; subst. done.
  - peel Hg. inversion E0; subst. peel Hg. inversion Hg; subst. done.
Qed.

(** Whatever a read returns came from one scoped SELECT on the rows of the transaction. *)
Lemma read_selects tenant_id rd w rs w' :
  run_read tenant_id rd w = (Ret rs, w') ->
  tenant_id <> VNull /\ db_rows w' = db_rows w /\
  (rs = [] \/ exists q, scoped m tenant_id q /\ selects (db_rows w) q rs).
Proof.
  assert (forall q, scoped m tenant_id q -> forall w rs w', db_select q w = (Ret rs, w') ->
    db_rows w' = db_rows w /\ (rs = [] \/ exists q, scoped m tenant_id q /\ selects (db_rows w) q rs))
    as Hsel by (intros q Hq u rs0 u' [Hr Hs]%select_ret; eauto).
  destruct rd as [id|fs o d|f v|f vs|p pp fs o]; cbn [run_read]; intros Hg.
  - peel Hg. inversion Hg; subst. apply get_by_id_ret in E as [Ht E]. split; [done |].
    apply Hsel in E; [done |]. split; cbn; set_solver.
  - apply get_all_ret in Hg as [Ht E]. split; [done |].
    apply Hsel in E; [done |]. split; cbn; set_solver.
  - peel Hg. inversion Hg; subst. apply find_by_field_ret in E as [Ht E]. split; [done |].
    apply Hsel in E; [done |]. split; cbn; set_solver.
  - apply find_by_field_in_ret in Hg as [Ht [(-> & -> & ->) | E]]; [by auto |]. split; [done |].
    apply Hsel in E; [done |]. split; cbn; set_solver.
  - peel Hg. destruct v as [items total]. inversion Hg; subst.
    apply get_paginated_ret in E as (Ht & n & w1 & _ & [Hc _]%count_ret & E). split; [done |].
    rewrite <- Hc. apply Hsel in E; [done |]. split; cbn; set_solver.
Qed.

(** C7. Tenant isolation: whatever the arguments, every row that [get_by_id], [get_all],
    [find_by_field], [find_by_field_in] or [get_paginated] returns is a row of the table that
    belongs to the requested tenant and is not soft-deleted, and the read changes nothing. *)
Theorem repository_tenant_isolation tenant_id rd w rs w' :
  run_read tenant_id rd w = (Ret rs, w') ->
  db_rows w' = db_rows w /\ tenant_id <> VNull /\
  Forall (fun r => r ∈ db_rows w /\ visible m tenant_id r) rs.
Proof.
  intros (Ht & Hw & Hr)%read_selects. split; [done |]. split; [done |].
  apply Forall_forall. intros r Hin.
  destruct Hr as [-> | (q & Hq & Hs)]; [by apply not_elem_of_nil in Hin |].
  destruct (selects_in _ _ _ _ Hs Hin) as [Hm Hm']. eauto using scoped_visible.
Qed.
End Reads.

(** ** Pagination *)

Section Pages.
Context {W : Type} `{SqlDb W, !SqlDoc W} (m : model).

(** A client that walks the pages [1 .. n] and keeps what it gets. *)
Definition fetch_pages (tenant_id : sqlval) (per_page : Z)
    (filters : option (list (string * sqlval))) (order_by : option string) (n : nat)
    : Py W (list row) :=
  mfold (fun acc page =>
           let! r := get_paginated m tenant_id page per_page filters order_by in
           ret (acc ++ fst r)) (Z.of_nat <$> seq 1 n) [].

(** No two listed rows share the value of the sort column. *)
Definition distinct_keys (c : string) (t : list row) : Prop :=
  forall r1 r2, r1 ∈ t -> r2 ∈ t -> attr r1 c = attr r2 c -> r1 = r2.

Lemma distinct_keys_NoDup c t : NoDup ((fun r => attr r c) <$> t) -> distinct_keys c t.
Proof.
  intros Hn r1 r2 [i Hi]%list_elem_of_lookup [j Hj]%list_elem_of_lookup He.
  assert (i = j) as ->; [| congruence].
  eapply NoDup_lookup; [exact Hn | |]; rewrite list_lookup_fmap, ?Hi, ?Hj; cbn; by rewrite ?He.
Qed.
Lemma ordered_unique q t full1 full2 c d :
  q_order q = Some (c, d) -> distinct_keys c t ->
  full1 ≡ₚ t -> full2 ≡ₚ t -> ordered q full1 -> ordered q full2 -> full1 = full2.
Proof.
  intros Hq Hd H1 H2. unfold ordered. rewrite Hq. intros S1 S2.
  eapply (StronglySorted_unique_strong (row_le c d)); [| exact S1 | exact S2 | by rewrite H1, H2].
  intros r1 r2 Hr1 Hr2 L1 L2. rewrite H1 in Hr1. rewrite H2 in Hr2. apply Hd; [done..|].
  unfold row_le in *. destruct d; by apply val_antisym.
Qed.

(** [L] is the tenant's listing on [t] in the order of the pages. *)
Definition full_listing (t : list row) (tenant_id : sqlval)
    (filters : option (list (string * sqlval))) (c : string) (L : list row) : Prop :=
  L ≡ₚ filter (matches (listing m tenant_id filters)) t /\ StronglySorted (row_le c true) L.

Lemma get_all_full tenant_id filters c w L w' :
  wanted_order m (Some c) = Some c -> get_all m tenant_id filters (Some c) true w = (Ret L, w') ->
  db_rows w' = db_rows w /\ full_listing (db_rows w) tenant_id filters c L.
Proof.
  intros Hc (_ & [Hw (_ & _ & full & Hp & Ho & ->)]%select_ret)%get_all_ret. split; [done |].
  unfold all_order, ordered, slice in *. rewrite Hc in *. cbn in *. by split.
Qed.
Lemma page_slice tenant_id page per_page filters order_by c w items total w' L :
  page_order m order_by = Some (c, true) ->
  full_listing (db_rows w) tenant_id filters c L -> distinct_keys c L ->
  get_paginated m tenant_id page per_page filters order_by w = (Ret (items, total), w') ->
  db_rows w' = db_rows w /\ total = Z.of_nat (length L) /\
  items = take (Z.to_nat per_page) (drop (Z.to_nat ((page - 1) * per_page)) L).
Proof.
  intros Hc [HL HS] Hd (_ & n & w1 & -> & [Hc1 ->]%count_ret & [Hs1 Hs]%select_ret)%get_paginated_ret.
  destruct Hs as (_ & _ & full & Hp & Ho & ->). rewrite Hc1 in *.
  split; [by rewrite Hs1 |]. split; [by rewrite HL |].
  assert (full = L) as ->; [| done].
  eapply (ordered_unique (with_order (page_order m order_by) (listing m tenant_id filters)) L _ _ c true).
  - exact Hc.
  - exact Hd.
  - by rewrite HL, Hp.
  - done.
  - exact Ho.
  - unfold ordered. cbn. by rewrite Hc.
Qed.

Lemma fetch_pages_prefix tenant_id per_page filters order_by c L :
  0 <= per_page -> page_order m order_by = Some (c, true) -> distinct_keys c L ->
  forall n (k : nat) w acc items w',
  full_listing (db_rows w) tenant_id filters c L ->
  acc = take (k * Z.to_nat per_page) L ->
  mfold (fun acc page =>
           let! r := get_paginated m tenant_id page per_page filters order_by in
           ret (acc ++ fst r)) (Z.of_nat <$> seq (S k) n) acc w = (Ret items, w') ->
  items = take ((k + n) * Z.to_nat per_page) L /\ db_rows w' = db_rows w.
Proof.
  intros Hpp Hc Hd. induction n as [|n IH]; intros k w acc items w' HL Hacc Hf.
  - cbn in Hf. inversion Hf; subst. split; [f_equal; lia | done].
  - cbn [seq fmap list_fmap mfold] in Hf. peel Hf. peel E. destruct v0 as [its total].
    inversion E; subst. cbn [fst] in *.
    destruct (page_slice _ _ _ _ _ _ _ _ _ _ _ Hc HL Hd E0) as (Hw & _ & ->).
    apply IH in Hf; [| by rewrite Hw |].
    + rewrite Hw in Hf. replace (k + S n)%nat with (S k + n)%nat by lia. exact Hf.
    + replace (Z.to_nat ((Z.of_nat (S k) - 1) * per_page)) with (k * Z.to_nat per_page)%nat by nia.
      rewrite take_take_drop. f_equal. lia.
Qed.

(** C30. Pagination is the listing: when the rows differ in the sort column, fetching enough pages one
    after the other gives exactly what [get_all] gives in that order, no row lost or repeated,
    and every page carries the number of all rows as its total. *)
Theorem pages_are_the_listing tenant_id per_page filters order_by c n w L w1 items w2 :
  0 < per_page -> page_order m order_by = Some (c, true) -> wanted_order m (Some c) = Some c ->
  get_all m tenant_id filters (Some c) true w = (Ret L, w1) -> distinct_keys c L ->
  Z.of_nat (length L) <= Z.of_nat n * per_page ->
  fetch_pages tenant_id per_page filters order_by n w1 = (Ret items, w2) ->
  items = L /\
  forall page its total w3, get_paginated m tenant_id page per_page filters order_by w2 =
    (Ret (its, total), w3) -> total = Z.of_nat (length L).
Proof.
  intros Hpp Hc Hw [Hr1 HL]%get_all_full Hd Hn Hf; [| done].
  rewrite <- Hr1 in HL. apply (fetch_pages_prefix _ _ _ _ c L) with (k := 0%nat) in Hf as [-> Hr2];
    [| lia | done..].
  split.
  - rewrite take_ge; [done |]. nia.
  - intros page its total w3 Hg. rewrite <- Hr2 in HL.
    by destruct (page_slice _ _ _ _ _ _ _ _ _ _ _ Hc HL Hd Hg) as (_ & -> & _).
Qed.
End Pages.

(** ** Writes *)

Section Writes.
Context {W : Type} `{SqlDb W, !SqlDoc W} (m : model).

Definition unique_ids (t : list row) : Prop := NoDup ((fun r => attr r "id") <$> t).
(** The columns [soft_delete] writes. *)
Definition soft_delete_columns : list string := ["deleted_at"; "is_active"; "updated_at"].

Lemma preserves_select t q : preserves (fun w => db_rows w = t) (db_select q).
Proof.
  intros w Hw. destruct (db_select q w) as [[rs|e] w'] eqn:E; cbn;
    [apply select_ret in E as [-> _] | apply select_exc in E as ->]; done.
Qed.
Lemma preserves_not_deleted t q : preserves (fun w => db_rows w = t) (not_deleted m q).
Proof.
  unfold not_deleted, column_method, no_attribute. destruct (has_attr m "deleted_at"), (is_column m "deleted_at"); auto with py.
Qed.
Lemma preserves_model_eq t a v : preserves (fun w : W => db_rows w = t) (model_eq m a v).
Proof. unfold model_eq, no_attribute. destruct (has_attr m a); auto with py. Qed.
Lemma preserves_scalar t rs : preserves (fun w : W => db_rows w = t) (scalar_one_or_none rs).
Proof. destruct rs as [|r [|r' rs]]; cbn; auto with py. Qed.
Lemma preserves_require t v : preserves (fun w : W => db_rows w = t) (_require_tenant m v).
Proof. unfold _require_tenant. case_bool_decide; auto with py. Qed.
#[local] Hint Resolve preserves_select preserves_not_deleted preserves_model_eq preserves_scalar
  preserves_require : py.
Lemma get_by_id_rows t id tenant_id :
  preserves (fun w => db_rows w = t) (get_by_id m id tenant_id).
Proof.
  unfold get_by_id. repeat (apply preserves_bind; [auto with py | intros ?]); auto with py.
Qed.

(** The row [get_by_id] finds is the only visible one with that id. *)
Lemma get_by_id_spec id tenant_id w o w' :
  is_column m "id" = true -> is_column m "tenant_id" = true -> id <> VNull ->
  get_by_id m id tenant_id w = (Ret o, w') ->
  tenant_id <> VNull /\ db_rows w' = db_rows w /\
  forall r, o = Some r <-> r ∈ db_rows w /\ attr r "id" = id /\ visible m tenant_id r.
Proof.
  intros Hi Htc Hid [Ht E]%get_by_id_ret. apply select_ret in E as [Hw (_ & _ & full & Hp & _ & Hrs)].
  split; [done |]. split; [done |]. cbn in Hrs. subst full. intros r.
  transitivity (r ∈ option_list o).
  { destruct o; cbn; [rewrite list_elem_of_singleton; naive_solver | rewrite elem_of_nil; naive_solver]. }
  rewrite Hp, list_elem_of_filter. unfold matches. cbn [q_where forallb]. unfold eq_cond, visible.
  rewrite Hi, Htc, !bool_decide_false by done. unfold deleted_conds.
  destruct (has_attr m "deleted_at"); cbn; rewrite ?andb_true_iff, ?negb_true_iff, ?bool_decide_eq_true,
    ?bool_decide_eq_false; naive_solver.
Qed.

Lemma touch_ret a e w o w' :
  touch m a e w = (o, w') -> db_rows w' = db_rows w /\ exists e', o = Ret e' /\
  (forall c, c <> a -> attr e' c = attr e c) /\ (has_attr m a = true -> attr e' a <> VNull).
Proof.
  unfold touch, bind. destruct (has_attr m a) eqn:Ha.
  - destruct (db_now w) as [o1 w1] eqn:En. apply now_ret in En as [Hw [t ->]].
    intros [=]; subst. split; [done |]. eexists. split; [done |]. unfold attr.
    split; [intros c Hc; by rewrite dget_dset_ne | intros _; by rewrite dget_dset_eq].
  - intros [=]; subst. split; [done |]. eexists. by split.
Qed.

Lemma upsert_lookup r t i r0 :
  t !! i = Some r0 ->
  upsert r t !! i = Some (if bool_decide (attr r0 "id" = attr r "id") then r else r0).
Proof.
  intros Hi. unfold upsert. change (map ?f ?l) with (f <$> l). by rewrite list_lookup_fmap, Hi.
Qed.
Lemma unique_ids_eq t r1 r2 :
  unique_ids t -> r1 ∈ t -> r2 ∈ t -> attr r1 "id" = attr r2 "id" -> r1 = r2.
Proof. intros Hn. by apply distinct_keys_NoDup. Qed.

(** The write of [soft_delete]: the entity's row with its three columns changed. *)
Lemma soft_delete_found id tenant_id w w' :
  has_attr m "deleted_at" = true ->
  soft_delete m id tenant_id w = (Ret true, w') ->
  exists r r' w1, get_by_id m id tenant_id w = (Ret (Some r), w1) /\
    db_rows w' = upsert r' (db_rows w1) /\ attr r' "deleted_at" <> VNull /\
    forall c, c ∉ soft_delete_columns -> attr r' c = attr r c.
Proof.
  intros Hd Hs. unfold soft_delete in Hs. peel Hs. apply require_ret in E as [-> Ht].
  rewrite Hd in Hs. cbn [negb] in Hs. peel Hs. destruct v0 as [r|]; [| inversion Hs].
  peel Hs. apply touch_ret in E0 as (Hw2 & e1 & [= <-] & He1 & Hd1). peel Hs.
  apply touch_ret in E0 as (Hw3 & e2 & [= <-] & He2 & _). peel Hs. inversion Hs; subst.
  destruct v2. apply update_ret in E0. exists r, v1, w0. split; [done |].
  assert (forall c, c <> "is_active" ->
    attr (if has_attr m "is_active" then dset "is_active" (VBool false) v0 else v0) c = attr v0 c) as Ha.
  { intros c Hc. destruct (has_attr m "is_active"); [| done]. unfold attr. by rewrite dget_dset_ne. }
  split; [congruence |]. split.
  - rewrite He2, Ha by done. by apply Hd1.
  - intros c Hc. unfold soft_delete_columns in Hc. rewrite He2, Ha, He1 by set_solver. done.
Qed.
Lemma soft_delete_rows id tenant_id w o w' :
  soft_delete m id tenant_id w = (o, w') -> o <> Ret true -> db_rows w' = db_rows w.
Proof.
  unfold soft_delete. intros Hs Ho. unfold bind in Hs at 1.
  unfold _require_tenant in Hs. case_bool_decide; [by inversion Hs |]. cbn in Hs.
  destruct (negb _); [by inversion Hs |]. unfold bind in Hs at 1.
  pose proof (get_by_id_rows (db_rows w) id tenant_id w eq_refl) as Hg.
  destruct (get_by_id m id tenant_id w) as [[[r|]|e] w1]; cbn in Hg, Hs; [| by inversion Hs; subst..].
  unfold bind in Hs at 1. destruct (touch m "deleted_at" r w1) as [o2 w2] eqn:E2.
  apply touch_ret in E2 as (Hw2 & e1 & -> & _). cbn in Hs. unfold bind in Hs at 1.
  destruct (touch m "updated_at" _ w2) as [o3 w3] eqn:E3.
  apply touch_ret in E3 as (Hw3 & e2 & -> & _). unfold bind in Hs.
  destruct (db_update e2 w3) as [[[]|e] w4] eqn:E4; inversion Hs; subst; [done |].
  apply update_exc in E4. congruence.
Qed.

(** Soft deletion: when [soft_delete] returns, the tenant sees no row with that id any more, and it
    returned [True] exactly when there was one; an exception leaves the table as it was; and
    apart from the three soft-delete columns of that row nothing in the table changes. *)
Theorem soft_delete_contract id tenant_id w o w' :
  is_column m "id" = true -> is_column m "tenant_id" = true -> has_attr m "deleted_at" = true ->
  id <> VNull -> unique_ids (db_rows w) ->
  soft_delete m id tenant_id w = (o, w') ->
  (forall b, o = Ret b ->
     (forall r, r ∈ db_rows w' -> attr r "id" = id -> ~ visible m tenant_id r) /\
     (b = true <-> exists r, r ∈ db_rows w /\ attr r "id" = id /\ visible m tenant_id r)) /\
  (forall e, o = Exc e -> db_rows w' = db_rows w) /\
  (forall i r, db_rows w !! i = Some r -> exists r', db_rows w' !! i = Some r' /\
     (r' = r \/ attr r "id" = id /\ visible m tenant_id r /\
                forall c, c ∉ soft_delete_columns -> attr r' c = attr r c)).
Proof.
  intros Hi Htc Hd Hid Hu Hs.
  assert (o = Ret true \/ o <> Ret true) as [-> | Hne] by (destruct o as [[]|]; naive_solver).
  - destruct (soft_delete_found _ _ _ _ Hd Hs) as (r & r' & w1 & Hg & Hw & Hdel & Hsame).
    destruct (get_by_id_spec _ _ _ _ _ Hi Htc Hid Hg) as (_ & Hw1 & Hspec).
    destruct (proj1 (Hspec r) eq_refl) as (Hin & Hrid & Hvis). rewrite Hw1 in Hw.
    assert (attr r' "id" = id) as Hid' by (rewrite Hsame; [done | set_solver]).
    split; [| split; [done |]].
    + intros b [= <-]. split; [| naive_solver]. intros r0 Hr0 Hr0id [_ Hv]. specialize (Hv Hd).
      rewrite Hw in Hr0. apply list_elem_of_fmap in Hr0 as (r1 & -> & Hr1).
      case_bool_decide as Hb; congruence.
    + intros i r0 Hr0. rewrite Hw, (upsert_lookup _ _ _ _ Hr0). eexists. split; [done |].
      case_bool_decide as Hb; [right | by left]. rewrite Hid' in Hb.
      assert (r0 = r) as ->
        by (eapply unique_ids_eq; [done | by eapply list_elem_of_lookup_2 | done | congruence]).
      done.
  - pose proof (soft_delete_rows _ _ _ _ _ Hs Hne) as Hw. rewrite Hw.
    split; [| split; [done | eauto]]. intros [] ->; [done |].
    assert (exists w1, get_by_id m id tenant_id w = (Ret None, w1)) as [w1 Hg].
    { unfold soft_delete in Hs. peel Hs. apply require_ret in E as [-> _].
      rewrite Hd in Hs. cbn in Hs. peel Hs. destruct v0 as [r|]; [| eauto].
      peel Hs. peel Hs. peel Hs. inversion Hs. }
    destruct (get_by_id_spec _ _ _ _ _ Hi Htc Hid Hg) as (_ & _ & Hspec).
    assert (forall r, r ∈ db_rows w -> attr r "id" = id -> ~ visible m tenant_id r) as Hnone
      by (intros r Hr Hrid Hv; discriminate (proj2 (Hspec r) (conj Hr (conj Hrid Hv)))).
    split; [exact Hnone |]. split; [done |]. intros (r & Hr & Hrid & Hv). by destruct (Hnone r).
Qed.
End Writes.

(** [create] refuses a row without tenant before it reaches the database; a created row keeps
    every value the caller set and joins the table under a new primary key. *)
Lemma create_contract {W} `{SqlDb W, !SqlDoc W} (m : model) (entity : row) (w : W) r w' :
  has_attr m "tenant_id" = true -> create m entity w = (Ret r, w') ->
  attr entity "tenant_id" <> VNull /\
  db_rows w' = db_rows w ++ [r] /\
  (forall c, attr entity c <> VNull -> attr r c = attr entity c) /\
  attr r "id" ∉ (fun x => attr x "id") <$> db_rows w.
Proof.
  intros Ht Hc. unfold create in Hc. rewrite Ht in Hc. cbn [andb] in Hc.
  case_bool_decide as Hn; [by inversion Hc |]. split; [done |].
  peel Hc. apply insert_ret in E as (r' & Hw & Hid & Hk & Hnew & Hkeep).
  unfold refresh in Hc. peel Hc.
  apply select_ret in E as [Hw2 (_ & _ & full & Hp & _ & Hs)]. cbn in Hs. subst v0.
  assert (forall x, x ∈ full <-> x = r') as Hfull.
  { intros x. rewrite Hp, list_elem_of_filter, Hw, elem_of_app, list_elem_of_singleton.
    unfold matches. cbn. rewrite andb_true_r, andb_true_iff, negb_true_iff, bool_decide_eq_false,
      bool_decide_eq_true. split; [| intros ->; rewrite Hid; auto].
    intros [[_ Hx] [Hin | ->]]; [| done]. exfalso. apply Hnew. rewrite <- Hx.
    apply list_elem_of_fmap. eauto. }
  destruct full as [|x full]; [by inversion Hc |]. inversion Hc; subst.
  assert (r = r') as -> by (apply Hfull; set_solver). by rewrite Hw2.
Qed.

(** Restoring a soft-deleted active row gives back the row, [deleted_at] now written as NULL. *)
Lemma restore_soft_delete now r :
  attr r "deleted_at" = VNull -> attr r "is_active" = VBool true ->
  forall c, attr (restore (mixin_soft_delete now r)) c = attr r c.
Proof.
  intros Hd Ha c. unfold restore, mixin_soft_delete, attr in *.
  destruct (decide (c = "is_active")) as [-> |]; [by rewrite dget_dset_eq |].
  destruct (decide (c = "deleted_at")) as [-> |];
    [by rewrite dget_dset_ne, dget_dset_eq |].
  by rewrite !dget_dset_ne.
Qed.

(** ** A database in memory

    [ties] says how rows with equal keys are arranged: as stored, or the other
    way round in a query with an OFFSET.  Both are documented answers. *)

Module MemDb.
Definition rank (v : sqlval) : nat :=
  match v with
  | VBool _ => 0 | VInt _ => 1 | VText _ => 2 | VUuid _ => 3 | VTime _ => 4 | VNull => 5
  end.
Definition leb (v1 v2 : sqlval) : bool :=
  match v1, v2 with
  | VBool b1, VBool b2 => implb b1 b2
  | VInt n1, VInt n2 | VTime n1, VTime n2 => n1 <=? n2
  | VText s1, VText s2 | VUuid s1, VUuid s2 => str_leb s1 s2
  | _, _ => (rank v1 <=? rank v2)%nat
  end.
Definition le_rows (c : string) (desc : bool) (r1 r2 : row) : Prop :=
  if desc then leb (attr r2 c) (attr r1 c) = true else leb (attr r1 c) (attr r2 c) = true.
#[export] Instance le_rows_dec c d r1 r2 : Decision (le_rows c d r1 r2).
Proof. unfold le_rows. destruct d; apply _. Defined.
Definition arrange (ties : bool) (q : query) (rs : list row) : list row :=
  let rs := if ties && (0 <? default 0 (q_offset q)) then reverse rs else rs in
  match q_order q with None => rs | Some (c, d) => merge_sort (le_rows c d) rs end.
Definition sql_error : exn := PyErr OtherException "database error".
Definition select (ties : bool) (q : query) : Py (list row) (list row) :=
  fun t => if (0 <=? default 0 (q_limit q)) && (0 <=? default 0 (q_offset q))
           then (Ret (slice q (arrange ties q (filter (matches q) t))), t)
           else (Exc sql_error, t).
Definition insert (r : row) : Py (list row) sqlval :=
  fun t => if bool_decide (attr r "id" = VNull) || bool_decide (attr r "id" ∈ (fun x => attr x "id") <$> t)
           then (Exc sql_error, t) else (Ret (attr r "id"), t ++ [r]).

Definition db (ties : bool) : SqlDb (list row) := {|
  db_rows t := t;
  val_leb := leb;
  db_select := select ties;
  db_count q := gets (fun t => Some (Z.of_nat (length (filter (matches q) t))));
  db_insert := insert;
  db_update r := modify (upsert r);
  db_now := ret 1000;
|}.

Lemma leb_total v1 v2 : leb v1 v2 = true \/ leb v2 v1 = true.
Proof.
  destruct v1 as [|[]| | | |], v2 as [|[]| | | |]; cbn; auto; rewrite ?Z.leb_le; try lia;
    apply str_leb_total.
Qed.
Lemma leb_trans v1 v2 v3 : leb v1 v2 = true -> leb v2 v3 = true -> leb v1 v3 = true.
Proof.
  destruct v1 as [|[]| | | |], v2 as [|[]| | | |], v3 as [|[]| | | |]; cbn; auto; try done;
    rewrite ?Z.leb_le; try lia; apply str_leb_trans.
Qed.
Lemma leb_antisym v1 v2 : leb v1 v2 = true -> leb v2 v1 = true -> v1 = v2.
Proof.
  destruct v1 as [|[]| | | |], v2 as [|[]| | | |]; cbn; try done; rewrite ?Z.leb_le; intros H1 H2;
    f_equal; try lia; by apply str_leb_antisym.
Qed.
Lemma arrange_perm ties q rs : arrange ties q rs ≡ₚ rs.
Proof.
  unfold arrange. destruct (_ && _), (q_order q) as [[c d]|];
    rewrite ?merge_sort_Permutation, ?reverse_Permutation; done.
Qed.
Lemma arrange_ordered ties q rs : ordered (H := db ties) q (arrange ties q rs).
Proof.
  unfold ordered, arrange. destruct (q_order q) as [[c d]|]; [| done].
  assert (Transitive (le_rows c d))
    by (intros r1 r2 r3; unfold le_rows; destruct d; eauto using leb_trans).
  assert (Total (le_rows c d)) by (intros r1 r2; unfold le_rows; destruct d; apply leb_total).
  apply (StronglySorted_merge_sort (le_rows c d)).
Qed.
Lemma doc (ties : bool) : SqlDoc (list row) (H := db ties).
Proof.
  split; cbn.
  - apply leb_total.
  - apply leb_trans.
  - apply leb_antisym.
  - intros q t rs t'. unfold select.
    destruct (0 <=? _) eqn:E1; [| done]. destruct (0 <=? default 0 (q_offset q)) eqn:E2; [| done].
    intros [=]; subst. apply Z.leb_le in E1, E2. split; [done |]. split; [done |]. split; [done |].
    exists (arrange ties q (filter (matches q) t')).
    split; [apply arrange_perm | split; [apply arrange_ordered | done]].
  - intros q t e t'. unfold select. destruct (_ && _); intros [=]; by subst.
  - intros q t n t' [=]; by subst.
  - intros q t e t' [=].
  - intros r t k t'. unfold insert. rewrite <- bool_decide_or.
    case_bool_decide as E1; intros [=]; subst. exists r. naive_solver.
  - intros r t e t'. unfold insert. destruct (_ || _); intros [=]; by subst.
  - intros r t t' [=]; by subst.
  - intros r t e t' [=].
  - intros t o t' [=]; subst. eauto.
Qed.
End MemDb.

(** ** Witnesses *)

Module RepositoryExample.
Definition lead : model := base_model "Lead" ["name"].
Definition lead_row (id tenant : string) (created : Z) (deleted : sqlval) : row :=
  [("id", VUuid id); ("tenant_id", VUuid tenant); ("created_at", VTime created);
               ("deleted_at", deleted); ("is_active", VBool true)].
Definition a1 := lead_row "a1" "A" 10 VNull.
Definition a2 := lead_row "a2" "A" 30 VNull.
Definition a3 := lead_row "a3" "A" 20 VNull.
Definition a4 := lead_row "a4" "A" 40 (VTime 50).
Definition b1 := lead_row "b1" "B" 15 VNull.
Definition leads : list row := [a1; b1; a2; a4; a3].
Definition tenant_a := VUuid "A".
End RepositoryExample.
Import RepositoryExample.

Lemma repository_tenant_isolation_witness :
  run_read (H := MemDb.db false) lead tenant_a (ReadPage 1 2 None None) leads = (Ret [a2; a3], leads) /\
  Forall (fun r => r ∈ leads /\ visible lead tenant_a r) [a2; a3].
Proof.
  assert (run_read (H := MemDb.db false) lead tenant_a (ReadPage 1 2 None None) leads =
          (Ret [a2; a3], leads)) as E by (vm_compute; reflexivity).
  split; [exact E |].
  exact (proj2 (proj2 (repository_tenant_isolation (H := MemDb.db false)
    (SqlDoc0 := MemDb.doc false) lead tenant_a (ReadPage 1 2 None None) leads _ _ E))).
Defined.

Lemma pages_are_the_listing_witness :
  fetch_pages (H := MemDb.db false) lead tenant_a 2 None None 2 leads = (Ret [a2; a3; a1], leads).
Proof.
  assert (exists items, fetch_pages (H := MemDb.db false) lead tenant_a 2 None None 2 leads =
          (Ret items, leads)) as [items E] by (eexists; vm_compute; reflexivity).
  rewrite E. repeat f_equal.
  refine (proj1 (pages_are_the_listing (H := MemDb.db false) (SqlDoc0 := MemDb.doc false) lead
    tenant_a 2 None None "created_at" 2 leads [a2; a3; a1] leads items leads _ _ _ _ _ _ E)).
  - lia.
  - vm_compute; reflexivity.
  - vm_compute; reflexivity.
  - vm_compute; reflexivity.
  - apply distinct_keys_NoDup. apply (bool_decide_unpack (NoDup _)). vm_compute. exact I.
  - vm_compute. discriminate.
Defined.

Lemma soft_delete_contract_witness :
  exists t', soft_delete (H := MemDb.db false) lead (VUuid "a2") tenant_a leads = (Ret true, t') /\
  forall r, r ∈ t' -> attr r "id" = VUuid "a2" -> ~ visible lead tenant_a r.
Proof.
  assert (exists t', soft_delete (H := MemDb.db false) lead (VUuid "a2") tenant_a leads =
          (Ret true, t')) as [t' E] by (eexists; vm_compute; reflexivity).
  exists t'. split; [exact E |].
  refine (proj1 (proj1 (soft_delete_contract (H := MemDb.db false) (SqlDoc0 := MemDb.doc false)
    lead (VUuid "a2") tenant_a leads (Ret true) t' _ _ _ _ _ E) true _)); try reflexivity.
  - discriminate.
  - unfold unique_ids. vm_compute. apply (bool_decide_unpack (NoDup _)). vm_compute. exact I.
Defined.

(** Pages may repeat and lose rows: [get_paginated] sorts on one column without a tie-breaker, so on
    a server that keeps every documented promise two rows created at the same time (one
    transaction) can come as page 1, then page 2 gives the first of them again and the second
    is never listed. *)
Theorem pages_may_repeat_rows :
  exists (D : SqlDb (list row)) (Doc : SqlDoc (list row)) (t : list row) (r1 r2 : row),
    unique_ids t /\ r1 <> r2 /\
    get_all (H := D) lead tenant_a None (Some "created_at") true t = (Ret [r1; r2], t) /\
    fetch_pages (H := D) lead tenant_a 1 None None 2 t = (Ret [r1; r1], t).
Proof.
  exists (MemDb.db true), (MemDb.doc true),
    [lead_row "x" "A" 7 VNull; lead_row "y" "A" 7 VNull],
    (lead_row "x" "A" 7 VNull), (lead_row "y" "A" 7 VNull).
  split; [| split; [| split]].
  - unfold unique_ids. vm_compute. apply (bool_decide_unpack (NoDup _)). vm_compute. exact I.
  - intros E. apply (f_equal (fun r => attr r "id")) in E. discriminate E.
  - vm_compute. reflexivity.
  - vm_compute. reflexivity.
Qed.
