(* ===== verification/DbSession.v ===== *)
(** * Engines, sessions and the database's failures

    Models src/tr_shared/db/session.py (URL normalisation, connect arguments, the
    error translation and idle-connection events, pools, engine and session
    factories), db/errors.py, db/exception_handlers.py, db/migrations/runner.py and
    the constants of contracts/availability.py and contracts/db_pool.py.
    SQLAlchemy and the driver are parameters: their events call the modelled
    functions.  Seconds given as floats are microseconds. *)

From S2P Require Import Prelude Json Errors Text Migrations.
From Stdlib Require Import Ascii.
Local Open Scope Z_scope.

(** ** Contracts *)

Definition UNAVAILABLE_RETRY_AFTER_SECONDS : Z := 1.
Inductive DatabaseOutageCode := CONNECT_FAILED | CONNECTION_LOST | POOL_EXHAUSTED | STATEMENT_TIMEOUT.
#[export] Instance DatabaseOutageCode_eq_dec : EqDecision DatabaseOutageCode.
Proof. solve_decision. Defined.
Definition outage_code_value (c : DatabaseOutageCode) : string :=
  match c with
  | CONNECT_FAILED => "DATABASE_UNAVAILABLE_001"
  | CONNECTION_LOST => "DATABASE_UNAVAILABLE_002"
  | POOL_EXHAUSTED => "DATABASE_UNAVAILABLE_003"
  | STATEMENT_TIMEOUT => "DATABASE_TIMEOUT_001"
  end.

Definition seconds (n : Z) : Z := n * 1000000.
Definition DEFAULT_POOL_SIZE : Z := 2.
Definition DEFAULT_MAX_OVERFLOW : Z := 8.
Definition DEFAULT_POOL_TIMEOUT_SECONDS : Z := 2.
Definition DB_CONNECT_TIMEOUT_SECONDS : Z := 3.
Definition DB_IDLE_PING_AFTER_SECONDS : Z := 30.
Definition DB_IDLE_PING_TIMEOUT : Z := 500000.          (* 0.5 s *)
Inductive StatementTimeoutProfile := REQUEST | BACKGROUND.
Definition DB_STATEMENT_TIMEOUT_SECONDS (p : StatementTimeoutProfile) : Z :=
  match p with REQUEST => 20 | BACKGROUND => 60 end.

(** A connect argument or an engine keyword. *)
Inductive arg :=
| AInt (n : Z)
| ASec (us : Z)
| AStr (s : string)
| AEmptyName                                  (* [lambda: ""] *)
| AOther (repr : string)                      (* any other object, by its [str()] *)
| ADict (d : list (string * string)).         (* a dict, its values by their [str()] *)
Notation kwargs := (list (string * arg)).

Definition DEFAULT_POOL_KWARGS : kwargs :=
  [("pool_size", AInt DEFAULT_POOL_SIZE); ("max_overflow", AInt DEFAULT_MAX_OVERFLOW);
   ("pool_timeout", AInt DEFAULT_POOL_TIMEOUT_SECONDS); ("pool_recycle", AInt 300)].

(** ** URL and connect arguments *)

Definition _to_asyncpg (url : string) : string :=
  if startswith url "postgresql+asyncpg://" then url
  else if startswith url "postgresql://" then
    replace_first "postgresql://" "postgresql+asyncpg://" url
  else if startswith url "postgres://" then
    replace_first "postgres://" "postgresql+asyncpg://" url
  else url.

Definition PGBOUNCER_SERVER_SETTINGS : list (string * string) := [("jit", "off")].
Definition PGBOUNCER_CONNECT_ARGS : kwargs :=
  [("statement_cache_size", AInt 0); ("prepared_statement_cache_size", AInt 0);
   ("prepared_statement_name_func", AEmptyName); ("timeout", AInt DB_CONNECT_TIMEOUT_SECONDS);
   ("server_settings", ADict PGBOUNCER_SERVER_SETTINGS)].
Definition _STATEMENT_TIMEOUT_SETTING := "statement_timeout".

(** The dict comprehension: a later key with the same lower-case form wins. *)
Definition lower_keys (d : list (string * string)) : list (string * string) :=
  foldl (fun acc kv => dset (lower (fst kv)) (snd kv) acc) [] d.
Definition _sets_statement_timeout (server_settings : list (string * string)) : bool :=
  let lowered := lower_keys server_settings in
  let options := replace_all "-" "_" (lower (default "" (dget "options" lowered))) in
  bool_decide (_STATEMENT_TIMEOUT_SETTING ∈ lowered.*1) || contains _STATEMENT_TIMEOUT_SETTING options.

Definition server_settings_of (args : kwargs) : list (string * string) :=
  match dget "server_settings" args with Some (ADict d) => d | _ => [] end.
(** [args["server_settings"][k] = v] *)
Definition set_server_setting (k v : string) (args : kwargs) : kwargs :=
  dset "server_settings" (ADict (dset k v (server_settings_of args))) args.
(** One step of the merge loop *)
Definition merge_override (args : kwargs) (kv : string * arg) : kwargs :=
  match kv with
  | (key, value) =>
      match bool_decide (key = "server_settings"), value with
      | true, ADict d =>
          dset "server_settings"
            (ADict (foldl (fun s kv => dset (fst kv) (snd kv) s) (server_settings_of args) d)) args
      | _, _ => dset key value args
      end
  end.
Definition cap_error : exn :=
  PyErr ValueError "the statement cap comes from statement_timeout_seconds, not connect_args".
Definition _build_connect_args (service_name schema : string) (overrides : option kwargs)
    (statement_timeout : Z) : outcome exn kwargs :=
  let overrides := default [] overrides in
  let sets_cap :=
    if bool_decide ("command_timeout" ∈ overrides.*1) then Ret true
    else match dget "server_settings" overrides with
         | None => Ret (_sets_statement_timeout [])
         | Some (ADict d) => Ret (_sets_statement_timeout d)
         | Some _ => Exc (PyErr AttributeError "object has no attribute 'items'")
         end in
  outcome_bind sets_cap (fun sets_cap =>
  if sets_cap then Exc cap_error
  else
    let args := dset "command_timeout" (ASec statement_timeout) PGBOUNCER_CONNECT_ARGS in
    let args := if nonempty service_name then set_server_setting "application_name" service_name args
                else args in
    let args := if nonempty schema then set_server_setting "search_path" (schema +:+ ",public") args
                else args in
    Ret (foldl merge_override args overrides)).

(** ** Typed failures *)

(** What the code reads of an exception raised by the driver. *)
Record driver_error := mkDriverError {
  x_class : string;                    (* [type(exc).__name__] *)
  x_exception : bool;                  (* [isinstance(exc, Exception)] *)
  x_os_error : bool;
  x_timeout : bool;                    (* [isinstance(exc, TimeoutError)], an [OSError] *)
  x_operational : bool;                (* [dialect.loaded_dbapi.OperationalError] *)
  x_sqlstate : option string;
  x_pgcode : option string;
}.
(** What leaves the modelled functions. *)
Inductive db_error :=
| DatabaseUnavailableError (message : string) (code : DatabaseOutageCode)
| DatabaseTimeoutError (message : string)
| PoolTimeoutError
| InvalidatePoolError (message : string)
| DriverError (e : driver_error)
| OtherDbError (e : exn).

Definition _QUERY_CANCELED_SQLSTATE := "57014".
Definition _CONNECT_FAILED_SQLSTATE_PREFIXES : list string := ["08"; "53"; "57"].
Definition _CONNECTION_LOST_SQLSTATE_PREFIXES : list string := ["08"; "57P"].

Definition _sqlstate (exc : driver_error) : option string :=
  match x_sqlstate exc with
  | Some s => if nonempty s then Some s else x_pgcode exc
  | None => x_pgcode exc
  end.
Definition _is_unavailable (exc : driver_error) (sqlstate_prefixes : list string) : bool :=
  x_os_error exc || existsb (startswith (default "" (_sqlstate exc))) sqlstate_prefixes.
Definition _is_connect_failure (is_async : bool) (exc : driver_error) : bool :=
  if is_async then _is_unavailable exc _CONNECT_FAILED_SQLSTATE_PREFIXES else x_operational exc.

(** [_connect]: the [do_connect] event around the driver's own connect *)
Definition _connect {W A} (is_async : bool) (connect : M db_error W A) : M db_error W A :=
  catch connect (fun e =>
    match e with
    | DriverError exc =>
        if x_exception exc && _is_connect_failure is_async exc
        then raise (DatabaseUnavailableError ("could not connect: " +:+ x_class exc) CONNECT_FAILED)
        else raise e
    | _ => raise e
    end).

(** SQLAlchemy's [ExceptionContext] *)
Record error_context := mkContext {
  original_exception : driver_error;
  is_pre_ping : bool;
  is_disconnect : bool;
  invalidate_pool_on_disconnect : bool;
}.
Definition set_disconnect (c : error_context) : error_context :=
  mkContext (original_exception c) (is_pre_ping c) true (invalidate_pool_on_disconnect c).
Definition keep_pool (c : error_context) : error_context :=
  mkContext (original_exception c) (is_pre_ping c) (is_disconnect c) false.
(** [_translate]: the [handle_error] event; returning leaves the driver's exception in place. *)
Definition _translate : M db_error error_context unit := fun context =>
  let original := original_exception context in
  if is_pre_ping context || negb (x_exception original) then (Ret tt, context)
  else
    let client_timed_out := x_timeout original in
    let context := if client_timed_out then keep_pool (set_disconnect context) else context in
    if client_timed_out || bool_decide (_sqlstate original = Some _QUERY_CANCELED_SQLSTATE) then
      (Exc (DatabaseTimeoutError "statement exceeded its time cap"), context)
    else
      let context := if _is_unavailable original _CONNECTION_LOST_SQLSTATE_PREFIXES
                     then set_disconnect context else context in
      if is_disconnect context then
        (Exc (DatabaseUnavailableError ("connection lost: " +:+ x_class original) CONNECTION_LOST), context)
      else (Ret tt, context).

(** ** Idle connections *)

Definition IDLE_PING_SQL := "SELECT 1".
(** What the pool events reach: the clock, and the pooled connection. *)
Class PooledConn (W : Type) := {
  monotonic : M db_error W Z;
  checked_in_at : W -> option Z;               (* [connection_record.info.get(...)] *)
  set_checked_in_at : Z -> M db_error W unit;
  driver_execute : string -> Z -> M db_error W unit;   (* statement, timeout *)
  terminate : M db_error W unit;
}.
Definition is_ordinary (e : db_error) : bool :=
  match e with
  | DriverError x => x_exception x
  | OtherDbError x => is_Exception x
  | _ => true
  end.
Section Idle.
Context {W : Type} `{PooledConn W}.
Definition _stamp : M db_error W unit :=
  let! now := monotonic in set_checked_in_at now.
Definition _validate (idle_ping_after : Z) : M db_error W unit :=
  let! checked_in := gets checked_in_at in
  match checked_in with
  | None => ret tt
  | Some at_ =>
      let! now := monotonic in
      let idle := now - at_ in
      if idle <? idle_ping_after then ret tt
      else catch (driver_execute IDLE_PING_SQL DB_IDLE_PING_TIMEOUT) (fun e =>
             if is_ordinary e then
               do! terminate in raise (InvalidatePoolError "idle connection failed its ping")
             else raise e)
  end.
End Idle.

(** [OutageTypedQueuePool._do_get] around the superclass's *)
Definition _do_get {W A} (super : M db_error W A) : M db_error W A :=
  catch super (fun e =>
    match e with
    | PoolTimeoutError => raise (DatabaseUnavailableError "connection pool exhausted" POOL_EXHAUSTED)
    | _ => raise e
    end).

(** ** Engines *)

(** A pool class by what [issubclass] tells of it. *)
Record pool_class := mkPoolClass {
  pc_name : string;
  pc_outage_async : bool;        (* [OutageTypedAsyncQueuePool] *)
  pc_outage : bool;              (* [OutageTypedQueuePool] *)
  pc_null : bool;                (* [NullPool] *)
  pc_queue : bool;               (* [QueuePool] *)
}.
Definition OutageTypedAsyncQueuePool := mkPoolClass "OutageTypedAsyncQueuePool" true true false true.
Definition OutageTypedQueuePool := mkPoolClass "OutageTypedQueuePool" false true false true.
Definition NullPool := mkPoolClass "NullPool" false false true false.

(** An engine: what it was created with and the listeners installed on it. *)
Record engine := mkEngine {
  e_url : string;
  e_echo : bool;
  e_pool : pool_class;
  e_connect_args : kwargs;
  e_kwargs : kwargs;
  e_translation : option (string * Z);       (* [_install_error_translation] *)
  e_idle : option (Z * string);              (* [_install_idle_validation] *)
  e_on_begin : option string;                (* the statement sent at each BEGIN *)
}.

Definition merge_kwargs (defaults kw : kwargs) : kwargs :=
  foldl (fun acc kv => dset (fst kv) (snd kv) acc) defaults kw.
(** The world is the registry [_engines]; [rejects] is SQLAlchemy's verdict on the arguments. *)
Definition create_async_engine_factory (rejects : engine -> option exn) (database_url : string)
    (statement_timeout : Z) (service_name schema : string) (echo : bool) (pool : pool_class)
    (connect_args : option kwargs) (idle_ping_after : Z) (engine_kwargs : kwargs)
    : Py (list engine) engine :=
  if negb (pc_outage_async pool || pc_null pool) then
    raise (PyErr ValueError ("pool_class=" +:+ pc_name pool +:+
      " would leave pool exhaustion untyped; omit pool_class, or pass NullPool"))
  else
    let engine_kwargs := if pc_queue pool then merge_kwargs DEFAULT_POOL_KWARGS engine_kwargs
                         else engine_kwargs in
    let! args := lift_out (_build_connect_args service_name schema connect_args statement_timeout) in
    let created := mkEngine (_to_asyncpg database_url) echo pool args engine_kwargs None None None in
    match rejects created with
    | Some e => raise e
    | None =>
        let eng := mkEngine (_to_asyncpg database_url) echo pool args engine_kwargs
          (Some (service_name, statement_timeout))
          (if pc_queue pool then Some (idle_ping_after, service_name) else None) None in
        do! modify (fun engines => engines ++ [eng]) in
        ret eng
    end.

(** [async_sessionmaker(bind=engine, class_=AsyncSession, ...)] *)
Record sessionmaker := mkSessionmaker { sm_bind : engine; sm_expire_on_commit : bool; sm_autoflush : bool }.
Definition create_session_factory (eng : engine) : sessionmaker := mkSessionmaker eng false false.

(** [for engine in list(_engines): engine.sync_engine.dispose(close=False)] *)
Definition dispose_engines_after_fork {W} (dispose : engine -> bool -> Py W unit) (engines : list engine)
    : Py W unit := mfor engines (fun e => dispose e false).

(** [int(seconds * 1000)], on microseconds *)
Definition set_local_statement_timeout_sql (statement_timeout : Z) : string :=
  "SET LOCAL statement_timeout = " +:+ str_of_Z (Z.quot statement_timeout 1000).
Definition prepare_sync_engine (eng : engine) (service_name : string) (statement_timeout : Z)
    : outcome exn engine :=
  if negb (pc_outage (e_pool eng) || pc_null (e_pool eng)) then
    Exc (PyErr ValueError ("poolclass=" +:+ pc_name (e_pool eng) +:+
      " would leave pool exhaustion untyped; pass poolclass=OutageTypedQueuePool, or NullPool"))
  else Ret (mkEngine (e_url eng) (e_echo eng) (e_pool eng) (e_connect_args eng) (e_kwargs eng)
              (Some (service_name, statement_timeout)) (e_idle eng)
              (Some (set_local_statement_timeout_sql statement_timeout))).

(** A session and its transaction; [begin]'s exit commits, or rolls back and re-raises. *)
Class Sessions (W : Type) := {
  open_session : Py W unit;
  begin_transaction : Py W unit;
  commit : Py W unit;
  rollback : Py W unit;
  close_session : Py W unit;
}.
Definition get_db {W A} `{Sessions W} (session_factory : bool) (body : Py W A) : Py W A :=
  if negb session_factory then
    raise (PyErr RuntimeError ("get_db() called without a session_factory — " +:+
      "wire it up via dependency_overrides in main.py"))
  else
    do! open_session in
    finally
      (do! begin_transaction in
       let! a := catch body (fun e => do! rollback in raise e) in
       do! commit in
       ret a)
      close_session.

(** [run_async_migrations]: [connect] opens a connection, runs the callback on it and closes it. *)
Definition run_async_migrations {W} (host_ok : string -> bool) (create : engine -> Py W unit)
    (connect : engine -> Py W unit) (dispose : engine -> Py W unit) (url : string)
    (connect_args : option kwargs) : Py W unit :=
  let! url := lift_out (to_session_mode_url host_ok url) in
  let own := match connect_args with
             | None | Some [] => [("statement_cache_size", AInt 0)]
             | Some kw => kw
             end in
  let eng := mkEngine (_to_asyncpg url) false NullPool
    (merge_kwargs [("timeout", AInt DB_CONNECT_TIMEOUT_SECONDS)] own) [] None None None in
  do! create eng in
  finally (connect eng) (dispose eng).

(** ** Replies (db/exception_handlers.py) *)

Section Handlers.
Variable app correlation_id : option string.
Definition _unavailable (detail : string) (code : DatabaseOutageCode) : outcome exn http_reply :=
  base_api_exception_handler app correlation_id
    (ServiceUnavailableError (JStr detail) (JStr (outage_code_value code))
       (Some UNAVAILABLE_RETRY_AFTER_SECONDS)).
Definition _database_unavailable (code : DatabaseOutageCode) : outcome exn http_reply :=
  _unavailable "Database unavailable" code.
Definition _pool_exhausted : outcome exn http_reply :=
  _unavailable "Database connection pool exhausted" POOL_EXHAUSTED.
Definition _statement_timeout : outcome exn http_reply :=
  base_api_exception_handler app correlation_id
    (ServiceTimeoutError (JStr "Database statement timed out")
       (JStr (outage_code_value STATEMENT_TIMEOUT))).
(** The handler [register_db_exception_handlers] adds for the class, if any. *)
Definition db_exception_reply (e : db_error) : option (outcome exn http_reply) :=
  match e with
  | DatabaseUnavailableError _ code => Some (_database_unavailable code)
  | PoolTimeoutError => Some _pool_exhausted
  | DatabaseTimeoutError _ => Some _statement_timeout
  | _ => None
  end.
End Handlers.

(** ** The statement cap *)

(** A server setting that leaves the cap alone: it is not [statement_timeout] in any case, and if it is
    [options] in any case, its text does not spell [statement_timeout] or [statement-timeout]. *)
Definition capless (kv : string * string) : Prop :=
  lower (fst kv) <> "statement_timeout" /\
  (lower (fst kv) = "options" -> forall a sep b, sep = "_" \/ sep = "-" ->
     lower (snd kv) <> a +:+ "statement" +:+ sep +:+ "timeout" +:+ b).
Lemma options_capless v : contains _STATEMENT_TIMEOUT_SETTING (replace_all "-" "_" (lower v)) = false ->
  forall a sep b, sep = "_" \/ sep = "-" -> lower v <> a +:+ "statement" +:+ sep +:+ "timeout" +:+ b.
Proof.
  intros Hc a sep b Hsep E. apply not_true_iff_false in Hc. apply Hc, contains_spec.
  exists (replace_all "-" "_" a), (replace_all "-" "_" b). rewrite E, !replace_char, !str_bind_append.
  unfold _STATEMENT_TIMEOUT_SETTING. by destruct Hsep as [-> | ->].
Qed.

Lemma dset_Forall {V} (P : string * V -> Prop) k v d :
  P (k, v) -> Forall P d -> Forall P (dset k v d).
Proof.
  intros Hk. induction 1 as [|[k' v'] d Hkv Hd IH]; cbn; [by constructor |].
  case_bool_decide; by constructor.
Qed.
Lemma foldl_dset_Forall {V} (P : string * V -> Prop) l d :
  Forall P l -> Forall P d -> Forall P (foldl (fun acc kv => dset (fst kv) (snd kv) acc) d l).
Proof.
  intros Hl. revert d. induction Hl as [|[k v] l Hkv _ IH]; intros d Hd; [done |].
  apply IH. by apply dset_Forall.
Qed.
Lemma lower_keys_in d k : k ∈ (lower_keys d).*1 <-> exists k', k' ∈ d.*1 /\ k = lower k'.
Proof.
  unfold lower_keys. enough (forall acc, k ∈ (foldl (fun acc kv => dset (lower kv.1) kv.2 acc) acc d).*1 <->
    k ∈ acc.*1 \/ exists k', k' ∈ d.*1 /\ k = lower k') as Hgen by (rewrite Hgen; set_solver).
  induction d as [|[k1 v1] d IH]; intros acc; cbn; [set_solver |].
  rewrite IH, elem_of_dset. cbn. setoid_rewrite elem_of_cons. naive_solver.
Qed.
Lemma lower_keys_get d k v :
  NoDup (lower <$> d.*1) -> (k, v) ∈ d -> dget (lower k) (lower_keys d) = Some v.
Proof.
  unfold lower_keys. generalize (@nil (string * string)) as acc.
  induction d as [|[k1 v1] d IH] using rev_ind; intros acc Hn Hin; [set_solver |].
  rewrite foldl_app. cbn. rewrite !fmap_app in Hn. apply NoDup_app in Hn as (Hn1 & Hn2 & _). cbn in Hn2.
  apply elem_of_app in Hin as [Hin | Hin%list_elem_of_singleton].
  - rewrite dget_dset_ne; [by apply IH |]. intros E. eapply (Hn2 (lower k)); [| rewrite E; set_solver].
    apply list_elem_of_fmap. exists k. split; [done |]. apply list_elem_of_fmap. by exists (k, v).
  - inversion Hin; subst. apply dget_dset_eq.
Qed.
(** The guard on the override's settings rejects every setting of the cap, provided no two keys
    differ only in case. *)
Lemma sets_statement_timeout_false d :
  _sets_statement_timeout d = false ->
  (forall k v, (k, v) ∈ d -> lower k <> _STATEMENT_TIMEOUT_SETTING) /\
  (NoDup (lower <$> d.*1) -> Forall capless d).
Proof.
  unfold _sets_statement_timeout. intros [Hk Ho]%orb_false_iff. apply bool_decide_eq_false in Hk.
  assert (forall k v, (k, v) ∈ d -> lower k <> _STATEMENT_TIMEOUT_SETTING) as Hkeys.
  { intros k v Hin E. apply Hk, lower_keys_in. exists k. split; [| done].
    apply list_elem_of_fmap. by exists (k, v). }
  split; [done |]. intros Hn. apply Forall_forall. intros [k v] Hin. split; [by eapply Hkeys |].
  cbn. intros E. apply (lower_keys_get _ _ _ Hn) in Hin. rewrite E in Hin. rewrite Hin in Ho. by apply options_capless.
Qed.

(** The merge keeps every server setting [capless] and never writes [command_timeout]. *)
Lemma merge_override_cap (P : string * string -> Prop) overrides args :
  "command_timeout" ∉ overrides.*1 ->
  (forall d, ("server_settings", ADict d) ∈ overrides -> Forall P d) ->
  Forall P (server_settings_of args) ->
  dget "command_timeout" (foldl merge_override args overrides) = dget "command_timeout" args /\
  Forall P (server_settings_of (foldl merge_override args overrides)).
Proof.
  revert args. induction overrides as [|[k v] ov IH]; intros args Hc Hp Ha; [done |].
  cbn [foldl]. assert (dget "command_timeout" (merge_override args (k, v)) = dget "command_timeout" args /\
    Forall P (server_settings_of (merge_override args (k, v)))) as [<- Hs].
  { assert (k <> "command_timeout") as Hk by (intros ->; apply Hc; cbn; set_solver).
    unfold merge_override. case_bool_decide as Hss; [| split].
    - destruct v as [| | | | |d]; (split; [by rewrite dget_dset_ne |]); unfold server_settings_of;
        rewrite ?Hss, dget_dset_eq; try by constructor.
      apply foldl_dset_Forall; [| exact Ha]. apply Hp. rewrite Hss. by left.
    - by rewrite dget_dset_ne.
    - unfold server_settings_of. rewrite dget_dset_ne by congruence. exact Ha. }
  apply IH; [| | exact Hs].
  - intros Hin. apply Hc. cbn. by right.
  - intros d Hin. apply Hp. by right.
Qed.
Lemma base_settings_cap (P : string * string -> Prop) service_name schema statement_timeout :
  (forall v, P ("jit", v)) -> (forall v, P ("application_name", v)) -> (forall v, P ("search_path", v)) ->
  let args := dset "command_timeout" (ASec statement_timeout) PGBOUNCER_CONNECT_ARGS in
  let args := if nonempty service_name then set_server_setting "application_name" service_name args
              else args in
  let args := if nonempty schema then set_server_setting "search_path" (schema +:+ ",public") args
              else args in
  dget "command_timeout" args = Some (ASec statement_timeout) /\ Forall P (server_settings_of args).
Proof.
  intros H1 H2 H3. unfold set_server_setting, server_settings_of.
  destruct (nonempty service_name), (nonempty schema); cbn; (split; [done |]); repeat constructor; auto.
Qed.
Lemma build_connect_args_settings (P : string * string -> Prop) service_name schema overrides t args :
  NoDup (default [] overrides).*1 ->
  (forall v, P ("jit", v)) -> (forall v, P ("application_name", v)) -> (forall v, P ("search_path", v)) ->
  (forall d, ("server_settings", ADict d) ∈ default [] overrides ->
     _sets_statement_timeout d = false -> Forall P d) ->
  _build_connect_args service_name schema overrides t = Ret args ->
  dget "command_timeout" args = Some (ASec t) /\ Forall P (server_settings_of args).
Proof.
  intros Hn H1 H2 H3 Hd. unfold _build_connect_args. case_bool_decide as Hc; [done |].
  destruct (base_settings_cap P service_name schema t H1 H2 H3) as [Hb1 Hb2].
  match type of Hb1 with dget _ ?b = _ => set (base := b) in * end.
  intros Hr. rewrite <- Hb1.
  destruct (dget "server_settings" (default [] overrides)) as [v|] eqn:Eg.
  - destruct v as [| | | | |d]; try done. cbn in Hr. destruct (_sets_statement_timeout d) eqn:Es; [done |].
    inversion Hr; subst. apply merge_override_cap; [done | | done].
    intros d' Hin. pose proof (dget_NoDup _ _ _ Hn Hin) as Hg. rewrite Eg in Hg. inversion Hg; subst. by apply Hd.
  - cbn in Hr. inversion Hr; subst. apply merge_override_cap; [done | | done].
    intros d' Hin. pose proof (dget_NoDup _ _ _ Hn Hin) as Hg. congruence.
Qed.

Lemma merge_kwargs_get kw : forall d k, NoDup kw.*1 ->
  dget k (merge_kwargs d kw) = match dget k kw with Some v => Some v | None => dget k d end.
Proof.
  unfold merge_kwargs. induction kw as [|[k1 v1] kw IH]; intros d k Hn; [done |].
  cbn in *. apply NoDup_cons in Hn as [Hk Hn]. rewrite IH by done.
  case_bool_decide as E.
  - subst k1. assert (dget k kw = None) as -> by by apply dget_None_notin. by rewrite dget_dset_eq.
  - by rewrite dget_dset_ne.
Qed.

(** C13. No engine without its cap: an engine that the factory returns joins the registry with its
    error translation installed; its [command_timeout] is [statement_timeout_seconds].  No server
    setting of the caller replaces the cap: none is named [statement_timeout] in any case, and,
    when no two keys differ only in case, no [options] spells [statement_timeout] or
    [statement-timeout] in any case (a name with a backslash inside is not looked through).  On a queue
    pool the engine has the idle check, and each pool keyword is the caller's, or else its default: size
    2, overflow 8, checkout timeout 2 s, recycle 300 s; off a queue pool the keywords are the
    caller's alone. *)
Theorem engine_always_capped rejects url t service_name schema echo pool overrides idle kw engines eng engines' :
  NoDup (default [] overrides).*1 -> NoDup kw.*1 ->
  create_async_engine_factory rejects url t service_name schema echo pool overrides idle kw engines =
    (Ret eng, engines') ->
  engines' = engines ++ [eng] /\
  e_translation eng = Some (service_name, t) /\
  (if pc_queue pool then
     e_idle eng = Some (idle, service_name) /\
     forall k, dget k (e_kwargs eng) =
       match dget k kw with
       | Some v => Some v
       | None => dget k [("pool_size", AInt 2); ("max_overflow", AInt 8); ("pool_timeout", AInt 2); ("pool_recycle", AInt 300)]
       end
   else e_idle eng = None /\ e_kwargs eng = kw) /\
  dget "command_timeout" (e_connect_args eng) = Some (ASec t) /\
  Forall (fun kv => lower (fst kv) <> "statement_timeout") (server_settings_of (e_connect_args eng)) /\
  ((forall d, ("server_settings", ADict d) ∈ default [] overrides -> NoDup (lower <$> d.*1)) ->
   Forall capless (server_settings_of (e_connect_args eng))).
Proof.
  intros Hn Hkw Hc. unfold create_async_engine_factory in Hc. destruct (negb _); [done |].
  apply bind_Ret_inv in Hc as (args & w1 & Ha & Hc).
  assert (w1 = engines /\ _build_connect_args service_name schema overrides t = Ret args) as [-> Hargs]
    by (unfold lift_out in Ha; destruct (_build_connect_args _ _ _ _); inversion Ha; by subst).
  destruct (rejects _); [done |]. inversion Hc; subst. cbn [e_translation e_idle e_kwargs e_connect_args].
  split; [done |]. split; [done |]. split.
  { destruct (pc_queue pool); [| done]. split; [done |]. intros k. by apply merge_kwargs_get. }
  destruct (build_connect_args_settings (fun kv => lower (fst kv) <> "statement_timeout")
    service_name schema overrides t args) as [H1 H2]; try done.
  { intros d _ [Hk _]%sets_statement_timeout_false. apply Forall_forall. intros [k v]. apply Hk. }
  split; [done |]. split; [done |]. intros Hlow.
  apply (build_connect_args_settings capless service_name schema overrides t args); try done.
  intros d Hin [_ Hs]%sets_statement_timeout_false. by apply Hs, Hlow.
Qed.
Lemma engine_always_capped_witness :
  exists eng, create_async_engine_factory (fun _ => None) "postgres://h/db" (seconds 20) "lead" "lead" false
    OutageTypedAsyncQueuePool (Some [("server_settings", ADict [("plan_cache_mode", "auto")])])
    (seconds 30) [("pool_size", AInt 5)] [] = (Ret eng, [eng]) /\
  dget "pool_size" (e_kwargs eng) = Some (AInt 5) /\ dget "pool_timeout" (e_kwargs eng) = Some (AInt 2).
Proof.
  eexists. split; [vm_compute; reflexivity |].
  refine (let H := proj2 (proj1 (proj2 (proj2 (engine_always_capped (fun _ => None) "postgres://h/db" (seconds 20)
    "lead" "lead" false OutageTypedAsyncQueuePool
    (Some [("server_settings", ADict [("plan_cache_mode", "auto")])])
    (seconds 30) [("pool_size", AInt 5)] [] _ _ _ _ _)))) in conj (H "pool_size") (H "pool_timeout")).
  - apply NoDup_singleton.
  - apply NoDup_singleton.
  - vm_compute. reflexivity.
Defined.

(** The guard looks at the last of the keys that differ only in case: another one carries a cap of
    its own through [options]. *)
Lemma options_cap_slips_through :
  exists args, _build_connect_args "lead" "lead"
    (Some [("server_settings", ADict [("options", "-c statement_timeout=0"); ("OPTIONS", "")])])
    (seconds 20) = Ret args /\
  ("options", "-c statement_timeout=0") ∈ server_settings_of args.
Proof. eexists. split; [vm_compute; reflexivity |]. vm_compute. right. right. right. left. Qed.
(** The guard does not look through a backslash, which PostgreSQL drops when it splits [options]: this
    text sets the cap for the server, and the guard lets it pass. *)
Lemma options_escape_slips_through :
  exists args, _build_connect_args "lead" "lead"
    (Some [("server_settings", ADict [("options", "-c statement\_timeout=0")])])
    (seconds 20) = Ret args /\
  ("options", "-c statement\_timeout=0") ∈ server_settings_of args.
Proof. eexists. split; [vm_compute; reflexivity |]. vm_compute. right. right. right. left. Qed.

(** ** What a driver failure becomes *)

(** Every failure of a statement is typed: outside a pre-ping, a time-out of the client or SQLSTATE
    57014 becomes [DatabaseTimeoutError] (a 504), a lost connection [DatabaseUnavailableError]
    with code 002 (a 503 with Retry-After), anything else keeps the driver's exception, and the
    connection counts as disconnected exactly in the time-out and lost cases or when SQLAlchemy
    said so; a client time-out never empties the pool. *)
Theorem statement_failures_are_typed context app correlation_id :
  is_pre_ping context = false -> x_exception (original_exception context) = true ->
  let x := original_exception context in
  let cancelled := _sqlstate x = Some _QUERY_CANCELED_SQLSTATE in
  let lost := _is_unavailable x _CONNECTION_LOST_SQLSTATE_PREFIXES = true \/ is_disconnect context = true in
  exists o context', _translate context = (o, context') /\
  match o with
  | Ret _ => x_timeout x = false /\ ~ cancelled /\ ~ lost /\ context' = context
  | Exc e =>
      ((x_timeout x = true \/ cancelled) /\ e = DatabaseTimeoutError "statement exceeded its time cap" /\
       (x_timeout x = true -> is_disconnect context' = true /\ invalidate_pool_on_disconnect context' = false) /\
       exists r, db_exception_reply app correlation_id e = Some (Ret r) /\ reply_status r = 504)
      \/
      (x_timeout x = false /\ ~ cancelled /\ lost /\ is_disconnect context' = true /\
       e = DatabaseUnavailableError ("connection lost: " +:+ x_class x) CONNECTION_LOST /\
       exists r, db_exception_reply app correlation_id e = Some (Ret r) /\ reply_status r = 503 /\
         reply_headers r = Some [(HttpHeader.RETRY_AFTER, "1")])
  end.
Proof.
  intros Hp Hx x cancelled lost. unfold _translate. rewrite Hp, Hx. cbn [orb negb]. fold x.
  destruct (x_timeout x) eqn:Et.
  - cbn [orb]. do 2 eexists. split; [reflexivity |]. left. split; [by left |]. split; [done |].
    split; [done |]. eexists. split; [reflexivity | reflexivity].
  - cbn [orb]. case_bool_decide as Hc.
    + do 2 eexists. split; [reflexivity |]. left. split; [by right |]. split; [done |].
      split; [done |]. eexists. split; [reflexivity | reflexivity].
    + destruct (_is_unavailable x _) eqn:Eu; [| destruct (is_disconnect context) eqn:Ed].
      * do 2 eexists. split; [reflexivity |]. right. do 2 (split; [done |]). split; [by left |].
        split; [done |]. split; [done |]. eexists. split; [reflexivity |]. split; reflexivity.
      * do 2 eexists. split; [reflexivity |]. right. do 2 (split; [done |]). split; [by right |].
        split; [done |]. split; [done |]. eexists. split; [reflexivity |]. split; reflexivity.
      * do 2 eexists. split; [reflexivity |]. do 2 (split; [done |]). split; [| done].
        intros [|]; congruence.
Qed.
Lemma statement_failures_are_typed_witness :
  let x := mkDriverError "ConnectionDoesNotExistError" true false false false (Some "08003") None in
  exists o c', _translate (mkContext x false false true) = (o, c') /\ is_disconnect c' = true.
Proof.
  intros x. destruct (statement_failures_are_typed (mkContext x false false true) None None eq_refl eq_refl)
    as (o & c' & Ht & Ho). exists o, c'. split; [exact Ht |].
  vm_compute in Ht. inversion Ht; subst. reflexivity.
Defined.

(** A failed connect is typed with code 001 exactly when the driver's error says the server is
    unreachable; every other exception passes unchanged. *)
Lemma connect_failures_are_typed {W A} is_async (connect : M db_error W A) w :
  fst (_connect is_async connect w) =
  match fst (connect w) with
  | Exc (DriverError x) =>
      if x_exception x && _is_connect_failure is_async x
      then Exc (DatabaseUnavailableError ("could not connect: " +:+ x_class x) CONNECT_FAILED)
      else Exc (DriverError x)
  | o => o
  end.
Proof.
  unfold _connect, catch. destruct (connect w) as [[a|e] w']; [done |]. cbn.
  destruct e; try done. by destruct (_ && _).
Qed.
(** An exhausted pool never leaves the engine as SQLAlchemy's own time-out. *)
Lemma pool_exhaustion_is_typed {W A} (super : M db_error W A) w :
  fst (_do_get super w) <> Exc PoolTimeoutError.
Proof. unfold _do_get, catch. destruct (super w) as [[a|[]] w']; done. Qed.

(** [get_db] commits exactly when the handler returned, and closes the session in any case. *)
Lemma get_db_outcome {W A} `{Sessions W} (body : Py W A) w w1 w2 w3 w4 w5 a :
  open_session w = (Ret tt, w1) -> begin_transaction w1 = (Ret tt, w2) ->
  body w2 = (Ret a, w3) -> commit w3 = (Ret tt, w4) -> close_session w4 = (Ret tt, w5) ->
  get_db true body w = (Ret a, w5).
Proof.
  intros H1 H2 H3 H4 H5. unfold get_db, finally, bind, catch, ret. cbn.
  rewrite H1, H2, H3, H4. cbn. by rewrite H5.
Qed.
Lemma get_db_rolls_back {W A} `{Sessions W} (body : Py W A) w w1 w2 w3 w4 w5 e :
  open_session w = (Ret tt, w1) -> begin_transaction w1 = (Ret tt, w2) ->
  body w2 = (Exc e, w3) -> rollback w3 = (Ret tt, w4) -> close_session w4 = (Ret tt, w5) ->
  get_db true body w = (Exc e, w5).
Proof.
  intros H1 H2 H3 H4 H5. unfold get_db, finally, bind, catch, raise. cbn. rewrite H1, H2, H3, H4. cbn. by rewrite H5.
Qed.
(** A connection that rested less than the threshold is never pinged. *)
Lemma validate_fresh {W} `{PooledConn W} after w now w1 t :
  checked_in_at w = Some t -> monotonic w = (Ret now, w1) -> now - t < after ->
  _validate after w = (Ret tt, w1).
Proof.
  intros Ht Hm Hlt. unfold _validate, bind, gets. rewrite Ht, Hm.
  by rewrite (proj2 (Z.ltb_lt _ _) Hlt).
Qed.
