(* ===== verification/TextFilter.v ===== *)
(** * Text the database cannot store

    Models src/tr_shared/schemas/validators.py and middleware/unstorable_text.py:
    the search for NUL and unpaired surrogate characters in a decoded value and the
    ASGI middleware that rejects such requests.  Here a Python [str] is its list of
    code points, since surrogates matter.  The JSON decoder, [parse_qsl] and the
    Content-Type parser work on full Unicode and are parameters; the application is
    a parameter too, a function of the messages its [receive] can give it. *)

From S2P Require Import Prelude Json Errors.
Local Open Scope Z_scope.

(** ** Values *)

Notation text := (list Z).
Inductive pykey := KStr (t : text) | KOther (n : Z).
#[export] Instance pykey_eq_dec : EqDecision pykey.
Proof. solve_decision. Defined.
Inductive pyval :=
| PNone
| PStr (t : text)
| PDict (items : list (pykey * pyval))
| PList (l : list pyval)
| POther (n : Z).            (* numbers, booleans, any other object *)

Section pyval_ind.
Variable P : pyval -> Prop.
Hypothesis Hnone : P PNone.
Hypothesis Hstr : forall t, P (PStr t).
Hypothesis Hdict : forall o, Forall (fun kv => P (snd kv)) o -> P (PDict o).
Hypothesis Hlist : forall l, Forall P l -> P (PList l).
Hypothesis Hother : forall n, P (POther n).
Fixpoint pyval_nested_ind (v : pyval) : P v :=
  match v with
  | PNone => Hnone
  | PStr t => Hstr t
  | PDict o => Hdict o ((fix go o : Forall (fun kv => P (snd kv)) o :=
      match o with
      | [] => @List.Forall_nil _ (fun kv => P (snd kv))
      | kv :: o' => @List.Forall_cons _ (fun kv => P (snd kv)) kv o' (pyval_nested_ind (snd kv)) (go o')
      end) o)
  | PList l => Hlist l ((fix go l : Forall P l :=
      match l with
      | [] => @List.Forall_nil _ P
      | x :: l' => @List.Forall_cons _ P x l' (pyval_nested_ind x) (go l')
      end) l)
  | POther n => Hother n
  end.
End pyval_ind.

(** One step of a location: a dict key or a list index. *)
Inductive step := SKey (k : pykey) | SIdx (i : nat).
Notation location := (list step).

(** ** schemas/validators.py *)

(** [_UNSTORABLE_TEXT.search] *)
Definition unstorable_char (c : Z) : bool := (c =? 0) || (55296 <=? c) && (c <=? 57343).
Definition _UNSTORABLE_TEXT (t : text) : bool := existsb unstorable_char t.
Definition bad_key (k : pykey) : bool :=
  match k with KStr t => _UNSTORABLE_TEXT t | KOther _ => false end.

Fixpoint size (v : pyval) : nat :=
  match v with
  | PDict o => S (list_sum (map (fun kv => size (snd kv)) o))
  | PList l => S (list_sum (map size l))
  | _ => 1
  end.
(** What the loop pushes for an item: Python pops from the end, so the last pushed comes first. *)
Definition dict_children (path : location) (o : list (pykey * pyval)) : list (location * pyval) :=
  map (fun kv => (path ++ [SKey (fst kv)], snd kv)) o.
Definition list_children (path : location) (l : list pyval) : list (location * pyval) :=
  imap (fun i v => (path ++ [SIdx i], v)) l.
(** The [while pending] loop, [pending] as a stack with its top first; [None]: out of fuel. *)
Fixpoint search (fuel : nat) (pending : list (location * pyval)) : option (option location) :=
  match fuel with
  | O => None
  | S f =>
      match pending with
      | [] => Some None
      | (path, item) :: rest =>
          match item with
          | PStr t => if _UNSTORABLE_TEXT t then Some (Some path) else search f rest
          | PDict o => if existsb (fun kv => bad_key (fst kv)) o then Some (Some path)
                       else search f (reverse (dict_children path o) ++ rest)
          | PList l => search f (reverse (list_children path l) ++ rest)
          | PNone | POther _ => search f rest
          end
      end
  end.
Definition unstorable_text_location (value : pyval) : option location :=
  default None (search (S (size value)) [([], value)]).

Definition reject_unstorable_text (value : pyval) (label : string) : outcome exn pyval :=
  match unstorable_text_location value with
  | Some _ => Exc (PyErr ValueError (label +:+ " contains a NUL or unpaired surrogate character"))
  | None => Ret value
  end.

(** [coerce_enum]: an [Enum] class is its name and its members' values. *)
Record enum_cls := mkEnum { en_name : string; en_values : list string }.
Inductive raw_value := RNone | RMember (v : string) | RText (s : string) | ROther (repr : string).
Definition coerce_enum (value : raw_value) (cls : enum_cls) (label : option string)
    : outcome exn raw_value :=
  match value with
  | RText s =>
      if bool_decide (s ∈ en_values cls) then Ret (RMember s)
      else
        let valid := join ", " (en_values cls) in
        let name := match label with
                    | Some l => if nonempty l then l else en_name cls
                    | None => en_name cls
                    end in
        Exc (PyErr ValueError ("Invalid " +:+ name +:+ ". Must be one of: " +:+ valid))
  | _ => Ret value
  end.

(** ** The search against a recursive reading *)

(** No part of the value is unstorable. *)
Fixpoint storable (v : pyval) : bool :=
  match v with
  | PStr t => negb (_UNSTORABLE_TEXT t)
  | PDict o => forallb (fun kv => negb (bad_key (fst kv)) && storable (snd kv)) o
  | PList l => forallb storable l
  | PNone | POther _ => true
  end.
(** The item at a location *)
Fixpoint item_at (v : pyval) (p : location) : option pyval :=
  match p with
  | [] => Some v
  | SKey k :: p' =>
      match v with
      | PDict o => match find (fun kv => bool_decide (fst kv = k)) o with
                   | Some kv => item_at (snd kv) p'
                   | None => None
                   end
      | _ => None
      end
  | SIdx i :: p' =>
      match v with
      | PList l => match l !! i with Some x => item_at x p' | None => None end
      | _ => None
      end
  end.
(** The item itself is unstorable: a string, or a dict with an unstorable key. *)
Definition offends (v : pyval) : bool :=
  match v with
  | PStr t => _UNSTORABLE_TEXT t
  | PDict o => existsb (fun kv => bad_key (fst kv)) o
  | _ => false
  end.
(** A location whose own keys can be stored, and so sent back. *)
Definition storable_path (p : location) : bool :=
  forallb (fun s => match s with SKey k => negb (bad_key k) | SIdx _ => true end) p.
(** A dict has each key once. *)
Fixpoint proper_dicts (v : pyval) : bool :=
  match v with
  | PDict o => bool_decide (NoDup (map fst o)) && forallb (fun kv => proper_dicts (snd kv)) o
  | PList l => forallb proper_dicts l
  | _ => true
  end.

Definition weight (pending : list (location * pyval)) : nat :=
  list_sum (map (fun e => size (snd e)) pending).
Lemma weight_app p q : weight (p ++ q) = (weight p + weight q)%nat.
Proof. unfold weight. by rewrite map_app, list_sum_app. Qed.
Lemma weight_perm p q : p ≡ₚ q -> weight p = weight q.
Proof.
  unfold weight. induction 1 as [|x p q Hp IH|x y p|p q r _ IH1 _ IH2]; simpl; lia.
Qed.
Lemma weight_dict path o : weight (dict_children path o) = list_sum (map (fun kv => size (snd kv)) o).
Proof. unfold weight, dict_children. rewrite map_map. done. Qed.
Lemma list_children_snd path l : map snd (list_children path l) = l.
Proof.
  unfold list_children. change (map ?f ?x) with (f <$> x). rewrite fmap_imap.
  change (imap (const id) l = l). by rewrite imap_const, list_fmap_id.
Qed.
Lemma weight_list path l : weight (list_children path l) = list_sum (map size l).
Proof. unfold weight. rewrite <- (list_children_snd path l) at 2. by rewrite map_map. Qed.

(** The loop examines every item: it finds nothing exactly when everything pending is storable, and
    what it finds offends.  Its fuel, the number of items, is enough. *)
Section Search.
Variable root : pyval.
Definition located (e : location * pyval) : Prop := item_at root (fst e) = Some (snd e).

Lemma item_at_snoc v p s x :
  item_at v p = Some x -> item_at v (p ++ [s]) = item_at x [s].
Proof.
  revert v. induction p as [|[k|i] p IH]; intros v; cbn [app item_at].
  - by intros [= ->].
  - destruct v; try done. destruct (find _ _); [apply IH | done].
  - destruct v; try done. destruct (_ !! _); [apply IH | done].
Qed.
Lemma find_key (o : list (pykey * pyval)) k v :
  NoDup (map fst o) -> (k, v) ∈ o -> find (fun kv => bool_decide (fst kv = k)) o = Some (k, v).
Proof.
  induction o as [|[k' v'] o IH]; cbn; [set_solver |]. intros [Hk Hn]%NoDup_cons Hin.
  apply elem_of_cons in Hin as [[=<- <-] | Hin]; [by rewrite bool_decide_true |].
  rewrite bool_decide_false; [by apply IH |]. intros ->. apply Hk.
  change (map fst o) with (fst <$> o). apply list_elem_of_fmap. by exists (k, v).
Qed.
Lemma located_dict path o :
  NoDup (map fst o) -> located (path, PDict o) -> Forall located (dict_children path o).
Proof.
  intros Hn Hp. apply Forall_forall. intros e ([k v] & -> & Hin)%list_elem_of_fmap. unfold located. cbn.
  rewrite (item_at_snoc _ _ _ _ Hp). cbn. by rewrite (find_key o k v).
Qed.
Lemma located_list path l : located (path, PList l) -> Forall located (list_children path l).
Proof.
  intros Hp. unfold list_children. apply Forall_lookup. intros i e He.
  rewrite list_lookup_imap in He. destruct (l !! i) as [v|] eqn:El; [| done]. inversion He; subst.
  unfold located. cbn. rewrite (item_at_snoc _ _ _ _ Hp). cbn. by rewrite El.
Qed.
Lemma child_path path o (kv : pykey * pyval) :
  existsb (fun kv => bad_key (fst kv)) o = false -> storable_path path = true ->
  kv ∈ o -> storable_path (path ++ [SKey (fst kv)]) = true.
Proof.
  intros Hb Hp Hin. unfold storable_path. rewrite forallb_app. apply andb_true_iff. split; [done |].
  cbn. rewrite andb_true_r. apply negb_true_iff, not_true_iff_false. intros Hk.
  apply (not_true_iff_false (existsb (fun kv => bad_key (fst kv)) o)); [done |].
  apply existsb_exists. exists kv. split; [by apply list_elem_of_In | done].
Qed.
Lemma list_child_path path l e :
  storable_path path = true -> e ∈ list_children path l -> storable_path (fst e) = true.
Proof.
  intros Hp (i & Hi)%list_elem_of_lookup. unfold list_children in Hi. rewrite list_lookup_imap in Hi.
  destruct (l !! i); [| done]. inversion Hi; subst. cbn. unfold storable_path. rewrite forallb_app.
  by apply andb_true_iff.
Qed.
Notation fine := (fun e : location * pyval =>
  proper_dicts (snd e) = true /\ located e /\ storable_path (fst e) = true).
Lemma search_spec fuel pending :
  (weight pending < fuel)%nat -> Forall fine pending ->
  match search fuel pending with
  | None => False
  | Some None => Forall (fun e => storable (snd e) = true) pending
  | Some (Some p) => Exists (fun e => storable (snd e) = false) pending /\
                     storable_path p = true /\ exists v, item_at root p = Some v /\ offends v = true
  end.
Proof.
  revert pending. induction fuel as [|f IH]; intros pending Hw Hl; [lia |].
  destruct pending as [|[path item] rest]; [by constructor |].
  apply Forall_cons in Hl as [(Hd & Hp & Hpath) Hl]. cbn in Hd, Hpath.
  change (weight ((path, item) :: rest)) with (size item + weight rest)%nat in Hw.
  assert (Hpush : forall cs, fine (path, item) -> storable item = forallb (fun e => storable (snd e)) cs ->
    (weight cs < size item)%nat -> Forall fine cs ->
    match search f (reverse cs ++ rest) with
    | None => False
    | Some None => Forall (fun e => storable (snd e) = true) ((path, item) :: rest)
    | Some (Some p) => Exists (fun e => storable (snd e) = false) ((path, item) :: rest) /\
                       storable_path p = true /\ exists v, item_at root p = Some v /\ offends v = true
    end).
  { intros cs _ Hst Hcw Hcs. specialize (IH (reverse cs ++ rest)).
    rewrite weight_app, (weight_perm _ _ (reverse_Permutation cs)) in IH.
    specialize (IH ltac:(lia)).
    assert (Forall fine (reverse cs ++ rest)) as Hfine by (by rewrite Forall_app, reverse_Permutation).
    specialize (IH Hfine).
    destruct (search f (reverse cs ++ rest)) as [[p|]|]; [| | done].
    - destruct IH as [Hex Hv]. split; [| done]. rewrite Exists_app, reverse_Permutation in Hex.
      destruct Hex as [Hex | Hex]; [left | by right]. cbn. rewrite Hst.
      apply not_true_iff_false. rewrite forallb_forall. intros Hall.
      apply Exists_exists in Hex as (e & He & Hf). rewrite Hall in Hf by (by apply list_elem_of_In). done.
    - rewrite Forall_app, reverse_Permutation in IH. destruct IH as [H1 H2]. constructor; [| done].
      cbn. rewrite Hst. apply forallb_forall. intros e He%list_elem_of_In.
      rewrite Forall_forall in H1. by apply H1. }
  destruct item as [|t|o|l|n]; cbn [search].
  - apply (Hpush []); [by split | done | cbn; lia | constructor].
  - destruct (_UNSTORABLE_TEXT t) eqn:Et.
    + split; [left; cbn; by rewrite Et |]. split; [done |]. by exists (PStr t).
    + apply (Hpush []); [by split | cbn; by rewrite Et | cbn; lia | constructor].
  - destruct (existsb _ o) eqn:Eo.
    + split; [| split; [done | by exists (PDict o)]]. left. cbn. apply not_true_iff_false. rewrite forallb_forall.
      intros Hall. apply existsb_exists in Eo as (kv & Hin & Hb). specialize (Hall kv Hin).
      by rewrite Hb in Hall.
    + cbn in Hd. apply andb_true_iff in Hd as [Hn Hd]. apply bool_decide_eq_true in Hn.
      apply (Hpush (dict_children path o)).
      * cbn. rewrite bool_decide_true by done. by split.
      * cbn. clear -Eo. unfold dict_children. induction o as [|kv o IHo]; [done |]. cbn in *.
        apply orb_false_iff in Eo as [-> Eo]. by rewrite IHo.
      * rewrite weight_dict. cbn. lia.
      * apply Forall_forall. intros e He. split.
        -- apply list_elem_of_fmap in He as (kv & -> & Hin). rewrite forallb_forall in Hd.
           apply Hd. by apply list_elem_of_In.
        -- split; [| by apply list_elem_of_fmap in He as (kv & -> & Hin%(child_path path o kv Eo Hpath))].
           pose proof (located_dict path o Hn Hp) as Hall. rewrite Forall_forall in Hall. by apply Hall.
  - apply (Hpush (list_children path l)).
    + by split.
    + cbn. rewrite <- (list_children_snd path l) at 1. clear. induction (list_children path l); [done |].
      cbn in *. by f_equal.
    + rewrite weight_list. cbn. lia.
    + apply Forall_forall. intros e He. split.
      * rewrite <- (list_children_snd path l) in Hd. cbn in Hd. rewrite forallb_forall in Hd. apply Hd.
        change (map snd ?x) with (snd <$> x). apply list_elem_of_In, list_elem_of_fmap. by exists e.
      * split; [| by eapply list_child_path].
        pose proof (located_list path l Hp) as Hall. rewrite Forall_forall in Hall. by apply Hall.
  - apply (Hpush []); [by split | done | cbn; lia | constructor].
Qed.
End Search.

(** The search with an explicit stack is the recursive reading of the value: it always ends, it
    returns [None] exactly when no string and no key inside is unstorable, and a location it
    returns leads to an offending string or to a dict with an offending key, through keys that are
    themselves storable (so the refusal can be sent). *)
Theorem unstorable_text_location_spec value :
  proper_dicts value = true ->
  search (S (size value)) [([], value)] <> None /\
  (unstorable_text_location value = None <-> storable value = true) /\
  (forall p, unstorable_text_location value = Some p ->
     storable_path p = true /\ exists v, item_at value p = Some v /\ offends v = true).
Proof.
  intros Hd. pose proof (search_spec value (S (size value)) [([], value)]) as Hs.
  unfold unstorable_text_location. destruct (search _ _) as [[p|]|].
  - destruct Hs as [Hex Hv]; [cbn; lia | by repeat constructor |]. split; [done |].
    apply Exists_exists in Hex as (e & ->%list_elem_of_singleton & He). cbn in *.
    split; [by rewrite He | by intros ? [= <-]].
  - split; [done |]. assert (storable value = true) as ->; [| done].
    apply Forall_singleton in Hs; [done | cbn; lia | by repeat constructor].
  - exfalso. apply Hs; [cbn; lia | by repeat constructor].
Qed.
Lemma unstorable_text_location_spec_witness :
  let v := PDict [(KStr [97], PList [POther 1; PStr [98; 0]])] in
  unstorable_text_location v = Some [SKey (KStr [97]); SIdx 1] /\
  exists x, item_at v [SKey (KStr [97]); SIdx 1] = Some x /\ offends x = true.
Proof.
  intros v. assert (unstorable_text_location v = Some [SKey (KStr [97]); SIdx 1]) as E
    by (vm_compute; reflexivity).
  split; [exact E |].
  exact (proj2 (proj2 (proj2 (unstorable_text_location_spec v eq_refl)) _ E)).
Defined.

(** The texts of a value, strings and string keys, and those PostgreSQL cannot store: a text with a
    NUL or a surrogate code point (a paired surrogate is one code point of [text], beyond them). *)
Inductive occurs : pyval -> text -> Prop :=
| occurs_str t : occurs (PStr t) t
| occurs_key o k v : (KStr k, v) ∈ o -> occurs (PDict o) k
| occurs_value o k v t : (k, v) ∈ o -> occurs v t -> occurs (PDict o) t
| occurs_item l v t : v ∈ l -> occurs v t -> occurs (PList l) t.
Definition unstorable (t : text) : Prop := exists c, c ∈ t /\ (c = 0 \/ 0xD800 <= c <= 0xDFFF).

Lemma unstorable_text t : _UNSTORABLE_TEXT t = true <-> unstorable t.
Proof.
  unfold _UNSTORABLE_TEXT, unstorable. rewrite existsb_exists. setoid_rewrite list_elem_of_In.
  split; intros (c & Hin & Hc); exists c; (split; [done |]); unfold unstorable_char in *; lia.
Qed.
Lemma storable_text t : _UNSTORABLE_TEXT t = false <-> ~ unstorable t.
Proof. by rewrite <- unstorable_text, not_true_iff_false. Qed.
Lemma storable_occurs v : storable v = true <-> forall t, occurs v t -> ~ unstorable t.
Proof.
  induction v as [|t|o IH|l IH|n] using pyval_nested_ind; cbn [storable].
  - split; [by inversion 2 | done].
  - rewrite negb_true_iff, storable_text. split; [intros H t' Ht; by inversion Ht; subst | intros H; apply H; constructor].
  - rewrite forallb_forall, Forall_forall in *. split.
    + intros H t Ht. inversion Ht as [|? k v Hin|? k v ? Hin Hv|]; subst;
        apply list_elem_of_In in Hin as Hin'; specialize (H _ Hin'); cbn in H;
        apply andb_true_iff in H as [Hk Hs].
      * by apply storable_text, negb_true_iff.
      * by apply (IH _ Hin).
    + intros H [k v] Hin%list_elem_of_In. apply andb_true_iff. cbn. split.
      * apply negb_true_iff. destruct k as [k|]; [| done]. apply storable_text, H. by econstructor.
      * apply (IH _ Hin). intros t Ht. apply H. by econstructor.
  - rewrite forallb_forall, Forall_forall in *. split.
    + intros H t Ht. inversion Ht as [| | |? v ? Hin Hv]; subst.
      apply (IH _ Hin); [| done]. by apply H, list_elem_of_In.
    + intros H v Hin%list_elem_of_In. apply (IH _ Hin). intros t Ht. apply H. by econstructor.
  - split; [by inversion 2 | done].
Qed.

(** ** middleware/unstorable_text.py *)

Inductive message :=
| HttpRequest (body : option string) (more_body : option bool)
| OtherMessage (type_ : string).
Record scope := mkScope {
  sc_type : string;
  sc_path : text;
  sc_query_string : string;                     (* bytes *)
  sc_headers : list (string * string);
  sc_app : option string;                       (* the app's error code prefix *)
  sc_correlation_id : option string;
}.

Definition _FORM := "application/x-www-form-urlencoded".

(** The loop that gathers the request: the messages read and those left; [None] while the last
    message of the request has not come. *)
Definition ends_request (m : message) : bool :=
  match m with
  | HttpRequest _ more => negb (default false more)
  | OtherMessage _ => true
  end.
Fixpoint collect (inbox : list message) : option (list message * list message) :=
  match inbox with
  | [] => None
  | m :: rest => if ends_request m then Some ([m], rest)
                 else (fun p => (m :: fst p, snd p)) <$> collect rest
  end.
Definition body_of (messages : list message) : string :=
  foldr (fun m acc => match m with
                      | HttpRequest b _ => default "" b +:+ acc
                      | OtherMessage _ => acc
                      end) "" messages.

(** What becomes of a request. *)
Inductive handled (R : Type) :=
| ToApp (r : R)
| Rejected (r : http_reply)
| Waiting
| Failed (e : exn).
Arguments ToApp {R} r.
Arguments Rejected {R} r.
Arguments Waiting {R}.
Arguments Failed {R} e.

Section Middleware.
Variable parse_content_type : string -> string * string.  (* main type and subtype *)
Variable parse_qsl : string -> list (text * text).        (* after [decode("latin-1")], blanks kept *)
Variable json_loads : string -> option pyval.             (* [None]: ValueError or RecursionError *)
Variable render : text -> string.                         (* a key in the JSON of the reply *)

Definition _content_type (raw : option string) : option (string * string) :=
  match raw with
  | Some s => if nonempty s then Some (parse_content_type s) else None
  | None => None
  end.
Definition _is_json (content_type : option (string * string)) : bool :=
  match content_type with
  | None => true
  | Some (main, sub) =>
      bool_decide (main = "application") && (bool_decide (sub = "json") || endswith sub "+json")
  end.
Definition _is_form (content_type : option (string * string)) : bool :=
  match content_type with
  | None => false
  | Some (main, sub) => bool_decide (main +:+ "/" +:+ sub = _FORM)
  end.
Fixpoint _pairs_location (pairs : list (text * text)) : option location :=
  match pairs with
  | [] => None
  | (name, value) :: pairs =>
      match unstorable_text_location (PStr name) with
      | Some _ => Some []
      | None => match unstorable_text_location (PStr value) with
                | Some _ => Some [SKey (KStr name)]
                | None => _pairs_location pairs
                end
      end
  end.
Definition _urlencoded_location (raw : string) : option location := _pairs_location (parse_qsl raw).
Definition _json_location (raw : string) : option location :=
  match json_loads raw with
  | None => None
  | Some parsed => unstorable_text_location parsed
  end.

Definition loc_json (s : step) : json :=
  match s with
  | SKey (KStr t) => JStr (render t)
  | SKey (KOther n) => JInt n
  | SIdx i => JInt (Z.of_nat i)
  end.
Definition _reject {R} (sc : scope) (place : string) (loc : location) : handled R :=
  match framework_error_code (sc_app sc) VALIDATION_CODE with
  | Exc e => Failed e
  | Ret code =>
      Rejected (mkReply 422 (build_error_envelope "Validation failed" (JStr code)
        (jopt (sc_correlation_id sc))
        [("fields", JList [JObj [("type", JStr "string_unstorable");
                                 ("loc", JList (JStr place :: map loc_json loc));
                                 ("msg", JStr "Text contains a NUL or unpaired surrogate character")]])])
        None)
  end.

(** [app sc inbox]: the application reads the messages of [inbox] in order through [receive]. *)
Definition unstorable_text_call {R} (app : scope -> list message -> R) (sc : scope)
    (inbox : list message) : handled R :=
  if negb (bool_decide (sc_type sc = "http")) then ToApp (app sc inbox)
  else match unstorable_text_location (PStr (sc_path sc)) with
  | Some _ => _reject sc "path" []
  | None =>
    match _urlencoded_location (sc_query_string sc) with
    | Some query => _reject sc "query" query
    | None =>
      let content_type := _content_type (header_get "content-type" (sc_headers sc)) in
      let body_location := if _is_json content_type then Some _json_location
                           else if _is_form content_type then Some _urlencoded_location
                           else None in
      match body_location with
      | None => ToApp (app sc inbox)
      | Some body_location =>
          match collect inbox with
          | None => Waiting
          | Some (messages, rest) =>
              match body_location (body_of messages) with
              | Some location => _reject sc "body" location
              | None => ToApp (app sc (messages ++ rest))       (* [replay], then [receive] *)
              end
          end
      end
    end
  end.

(** The content types whose body the middleware inspects. *)
Definition json_body (sc : scope) : Prop :=
  match header_get "content-type" (sc_headers sc) with
  | None | Some "" => True
  | Some raw => exists sub, parse_content_type raw = ("application", sub) /\
                            (sub = "json" \/ exists base, sub = base +:+ "+json")
  end.
Definition form_body (sc : scope) : Prop :=
  exists raw main sub, header_get "content-type" (sc_headers sc) = Some raw /\ raw <> "" /\
    parse_content_type raw = (main, sub) /\ main +:+ "/" +:+ sub = "application/x-www-form-urlencoded".
(** The texts of a request that are inspected: the path, the names and values of the query, the
    strings and keys of a body with a JSON content type (or none) that parses, the names and values
    of a urlencoded body.  Nothing else is: no text of another content type (multipart, say) and none
    of a body that is not the JSON it claims to be. *)
Inductive inspected (sc : scope) (messages : list message) : text -> Prop :=
| inspected_path : inspected sc messages (sc_path sc)
| inspected_query name value t :
    (name, value) ∈ parse_qsl (sc_query_string sc) -> t = name \/ t = value -> inspected sc messages t
| inspected_json v t :
    json_body sc -> json_loads (body_of messages) = Some v -> occurs v t -> inspected sc messages t
| inspected_form name value t :
    form_body sc -> (name, value) ∈ parse_qsl (body_of messages) -> t = name \/ t = value ->
    inspected sc messages t.

Lemma str_location t : unstorable_text_location (PStr t) = None <-> _UNSTORABLE_TEXT t = false.
Proof. unfold unstorable_text_location. cbn. by destruct (_UNSTORABLE_TEXT t). Qed.
Lemma pairs_location_None pairs :
  _pairs_location pairs = None <->
  Forall (fun p => _UNSTORABLE_TEXT (fst p) = false /\ _UNSTORABLE_TEXT (snd p) = false) pairs.
Proof.
  induction pairs as [|[n v] pairs IH]; [by split |].
  rewrite Forall_cons. cbn [_pairs_location fst snd].
  rewrite <- (str_location n), <- (str_location v), <- IH.
  destruct (unstorable_text_location (PStr n)); [split; [done | by intros [[? _] _]] |].
  destruct (unstorable_text_location (PStr v)); [split; [done | by intros [[_ ?] _]] |].
  split; [done | by intros [_ ?]].
Qed.
Lemma collect_app inbox messages rest : collect inbox = Some (messages, rest) -> messages ++ rest = inbox.
Proof.
  revert messages. induction inbox as [|m inbox IH]; intros messages; [done |]. cbn.
  destruct (ends_request m); [by intros [= <- <-] |].
  destruct (collect inbox) as [[ms r]|]; [| done]. intros [= <- <-]. cbn. by rewrite IH.
Qed.

Lemma is_json_spec sc :
  _is_json (_content_type (header_get "content-type" (sc_headers sc))) = true <-> json_body sc.
Proof.
  unfold _content_type, json_body. destruct (header_get _ _) as [[|a raw]|]; [done | | done].
  change (nonempty (String a raw)) with true. cbn match. destruct (parse_content_type _) as [main sub]. cbn [_is_json].
  rewrite andb_true_iff, orb_true_iff, !bool_decide_eq_true, endswith_spec. split.
  - intros (-> & Hs). by exists sub.
  - intros (sub' & [= -> ->] & Hs). by split.
Qed.
Lemma is_form_spec sc :
  _is_form (_content_type (header_get "content-type" (sc_headers sc))) = true <-> form_body sc.
Proof.
  unfold _content_type, form_body. destruct (header_get _ _) as [[|a raw]|].
  - split; [done | by intros (? & ? & ? & [= <-] & ? & _)].
  - change (nonempty (String a raw)) with true. cbn match. destruct (parse_content_type _) as [main sub] eqn:Ep. cbn [_is_form]. rewrite bool_decide_eq_true. split.
    + intros Hf. by exists (String a raw), main, sub.
    + intros (? & m & s & [= <-] & _ & Ep' & Hf). rewrite Ep in Ep'. by injection Ep' as -> ->.
  - split; [done | by intros (? & ? & ? & ? & _)].
Qed.
Lemma json_not_form sc : json_body sc -> form_body sc -> False.
Proof.
  unfold json_body. intros Hj (raw & main & sub & Hr & Hne & Hp & Hf). rewrite Hr in Hj.
  destruct raw as [|a raw]; [done |]. destruct Hj as (sub' & Hp' & Hs). rewrite Hp in Hp'.
  injection Hp' as -> <-. change ("application" +:+ "/" +:+ sub = "application" +:+ "/" +:+ "x-www-form-urlencoded") in Hf.
  apply (inj (String.append "application")), (inj (String.append "/")) in Hf as ->.
  destruct Hs as [? | (base & Hb)]; [done |].
  assert (endswith "x-www-form-urlencoded" "+json" = true) by (apply endswith_spec; by exists base). done.
Qed.
Lemma pairs_storable raw :
  _urlencoded_location raw = None <->
  forall name value t, (name, value) ∈ parse_qsl raw -> t = name \/ t = value -> ~ unstorable t.
Proof.
  unfold _urlencoded_location. rewrite pairs_location_None, Forall_forall. split.
  - intros H n v t Hin [-> | ->]; destruct (H _ Hin); by apply storable_text.
  - intros H [n v] Hin. split; apply storable_text; eapply H; eauto.
Qed.
Lemma json_storable raw :
  (forall v, json_loads raw = Some v -> proper_dicts v = true) ->
  _json_location raw = None <->
  forall v t, json_loads raw = Some v -> occurs v t -> ~ unstorable t.
Proof.
  unfold _json_location. intros Hd. destruct (json_loads raw) as [v|]; [| done].
  destruct (unstorable_text_location_spec v (Hd _ eq_refl)) as (_ & -> & _).
  rewrite storable_occurs. split; [by intros H ? t [= <-]; apply H | by intros H t; apply (H v)].
Qed.

(** C29. The filter is transparent or refuses.  It inspects the path, the query and two kinds of
    body: JSON (no Content-Type, application/json or application/*+json) and urlencoded forms; a
    body of any other type (multipart, text) and a body that is not the JSON it claims to be pass
    uninspected.  For a complete HTTP request, when no inspected text has a NUL or an
    unpaired surrogate, the application is called with exactly the messages it would have received
    without the middleware; otherwise the client gets a 422 and the application is not called. *)
Theorem unstorable_text_filter {R} (app : scope -> list message -> R) sc prefix inbox messages rest :
  (forall raw v, json_loads raw = Some v -> proper_dicts v = true) ->
  sc_type sc = "http" -> sc_app sc = Some prefix -> collect inbox = Some (messages, rest) ->
  let clean := forall t, inspected sc messages t -> ~ unstorable t in
  (clean -> unstorable_text_call app sc inbox = ToApp (app sc inbox)) /\
  (~ clean -> exists r, unstorable_text_call app sc inbox = Rejected r /\ reply_status r = 422).
Proof.
  intros Hjson Ht Ha Hc clean.
  assert (Hrej : forall place loc, exists r, @_reject R sc place loc = Rejected r /\ reply_status r = 422).
  { intros place loc. unfold _reject. rewrite Ha. cbn. eauto. }
  assert (Hclean : clean <->
    unstorable_text_location (PStr (sc_path sc)) = None /\ _urlencoded_location (sc_query_string sc) = None /\
    (json_body sc -> _json_location (body_of messages) = None) /\
    (form_body sc -> _urlencoded_location (body_of messages) = None)).
  { unfold clean. rewrite str_location, storable_text, !pairs_storable, (json_storable _ (Hjson _)). split.
    - intros H. repeat split; intros; apply H; by econstructor.
    - intros (H1 & H2 & H3 & H4) t Hi. inversion Hi; subst; eauto. }
  rewrite Hclean. clear Hclean clean. unfold unstorable_text_call. rewrite Ht.
  change (bool_decide ("http" = "http")) with true. cbn [negb].
  destruct (unstorable_text_location (PStr (sc_path sc))); [split; [intros (? & _); done | auto] |].
  destruct (_urlencoded_location (sc_query_string sc)); [split; [intros (_ & ? & _); done | auto] |].
  destruct (_is_json _) eqn:Ej; [apply is_json_spec in Ej | rewrite <- not_true_iff_false, is_json_spec in Ej;
    destruct (_is_form _) eqn:Ef; [apply is_form_spec in Ef | rewrite <- not_true_iff_false, is_form_spec in Ef]].
  - rewrite Hc, (collect_app _ _ _ Hc). destruct (_json_location _); (split; [| try auto]).
    + intros (_ & _ & H & _). by specialize (H Ej).
    + done.
    + intros Hn. exfalso. apply Hn. repeat split. intros Hf. by destruct (json_not_form sc).
  - rewrite Hc, (collect_app _ _ _ Hc). destruct (_urlencoded_location (body_of messages)); (split; [| try auto]).
    + intros (_ & _ & _ & H). by specialize (H Ef).
    + done.
    + intros Hn. exfalso. by apply Hn.
  - split; [done |]. intros Hn. exfalso. by apply Hn.
Qed.
End Middleware.

Lemma unstorable_text_filter_witness :
  let loads := fun raw => if bool_decide (raw = "nul") then Some (PStr [0]) else None in
  let call := unstorable_text_call (fun _ => ("application", "json")) (fun _ => []) loads (fun _ => "")
                (fun _ inbox => length inbox) in
  let sc := mkScope "http" [47] "" [("content-type", "application/json")] (Some "LEAD") None in
  call sc [HttpRequest (Some "o") (Some true); HttpRequest (Some "k") None; OtherMessage "http.disconnect"] =
    ToApp 3%nat /\
  exists r, call sc [HttpRequest (Some "nul") None] = Rejected r /\ reply_status r = 422.
Proof.
  intros loads call sc.
  assert (forall raw v, loads raw = Some v -> proper_dicts v = true) as Hl
    by (intros raw v; unfold loads; case_bool_decide; intros [=]; by subst).
  split.
  - apply (unstorable_text_filter (fun _ => ("application", "json")) (fun _ => []) loads (fun _ => "")
      (fun _ inbox => length inbox) sc "LEAD"
      [HttpRequest (Some "o") (Some true); HttpRequest (Some "k") None; OtherMessage "http.disconnect"]
      [HttpRequest (Some "o") (Some true); HttpRequest (Some "k") None] [OtherMessage "http.disconnect"]
      Hl eq_refl eq_refl eq_refl).
    intros t Hi. apply storable_text. inversion Hi; subst; [reflexivity | by apply elem_of_nil in H | | by apply elem_of_nil in H0].
    vm_compute in H0. discriminate H0.
  - apply (unstorable_text_filter (fun _ => ("application", "json")) (fun _ => []) loads (fun _ => "")
      (fun _ inbox => length inbox) sc "LEAD" [HttpRequest (Some "nul") None] [HttpRequest (Some "nul") None] []
      Hl eq_refl eq_refl eq_refl).
    intros Hb. apply (Hb [0]).
    + apply (inspected_json _ _ _ sc _ (PStr [0])); [| reflexivity | constructor].
      cbn. exists "json". split; [reflexivity | by left].
    + exists 0. split; [by left | by left].
Defined.
