(* ===== verification/ErrorMiddleware.v ===== *)
(** * Correlation ids, request logging, the global error handler and its alerts

    Models src/tr_shared/middleware/correlation_id.py, logging_middleware.py and
    error_handler.py, and alerts/slack.py.  The application, the Slack server, the
    clock and [uuid4] are parameters.  Times are microseconds. *)

From stdpp Require Import sorting.
From S2P Require Import Prelude Json Hash Errors DbSession Webhooks.
Local Open Scope Z_scope.

(** ** alerts/slack.py *)

Definition TASK_ALERTS_PER_HOUR : Z := 5.
Definition hour : Z := 3600 * 1000000.

Record SlackAlertBudget := mkBudget {
  _per_hour : Z;
  _counts : list (string * Z);              (* a [defaultdict(int)] *)
  _window_started : list (string * Z);
}.
Definition SlackAlertBudget_init (per_hour : Z) : SlackAlertBudget := mkBudget per_hour [] [].
Definition allow (key : string) (now : Z) (b : SlackAlertBudget) : bool * SlackAlertBudget :=
  let started := default now (dget key (_window_started b)) in
  let windows := match dget key (_window_started b) with
                 | Some _ => _window_started b
                 | None => dset key now (_window_started b)
                 end in
  let expired := hour <? now - started in
  let counts := if expired then dset key 0 (_counts b) else _counts b in
  let windows := if expired then dset key now windows else windows in
  let n := default 0 (dget key counts) in
  if _per_hour b <=? n then (false, mkBudget (_per_hour b) (dset key n counts) windows)
  else (true, mkBudget (_per_hour b) (dset key (n + 1) counts) windows).

Definition mrkdwn (text : string) : json := JObj [("type", JStr "mrkdwn"); ("text", JStr text)].
Definition NL : string := String (Ascii.ascii_of_nat 10) "".
Definition slack_message (fallback title : string) (fields : list (string * string))
    (sections : list string) (footer : string) : json :=
  JObj [("text", JStr fallback);
        ("blocks", JList (
          [JObj [("type", JStr "header");
                 ("text", JObj [("type", JStr "plain_text"); ("text", JStr title)])];
           JObj [("type", JStr "section");
                 ("fields", JList (map (fun f => mrkdwn ("*" +:+ fst f +:+ ":*" +:+ NL +:+ snd f)) fields))]]
          ++ map (fun text => JObj [("type", JStr "section"); ("text", mrkdwn text)]) sections
          ++ [JObj [("type", JStr "context"); ("elements", JList [mrkdwn footer])]]))].
Definition alert_host (env_hostname : option string) (gethostname : string) : string :=
  default gethostname env_hostname.
Definition alert_footer (timestamp host correlation_id : string) : string :=
  timestamp +:+ " | host: " +:+ host +:+ " | Correlation: `" +:+ correlation_id +:+ "`".

(** The process the alerts run in: the two budgets, the clock and the Slack client, whose
    [post(...)] followed by [raise_for_status()] is one call. *)
Class AlertEnv (W : Type) := {
  al_now : W -> Z;
  al_isoformat : W -> string;                      (* [datetime.now(UTC).isoformat(...)] *)
  al_host : W -> string;
  al_budget : W -> SlackAlertBudget;
  al_set_budget : SlackAlertBudget -> W -> W;
  al_post : string -> json -> Py W unit;           (* url, message *)
}.
Definition budget_allow {W} `{AlertEnv W} (key : string) : Py W bool := fun w =>
  let (ok, b) := allow key (al_now w) (al_budget w) in (Ret ok, al_set_budget b w).

Definition alert_task_failed_permanently {W} `{AlertEnv W}
    (webhook_url service environment task_name task_id correlation_id error_type : string) : Py W unit :=
  if negb (nonempty webhook_url) then ret tt
  else
    let! ok := budget_allow (service +:+ ":task:" +:+ task_name) in
    if negb ok then ret tt
    else
      let! now := gets al_isoformat in
      let! host := gets al_host in
      let message := slack_message (service +:+ " task failed permanently (" +:+ environment +:+ ")")
        (service +:+ " — task failed permanently")
        [("Env", environment); ("Task", "`" +:+ task_name +:+ "`"); ("Error", error_type);
         ("Task id", "`" +:+ task_id +:+ "`")] []
        (alert_footer now host correlation_id) in
      catch_Exception (al_post webhook_url message) (fun _ => ret tt).

(** *** The HTTP clients of the two modules

    A client is its number; the state is the module's variable, the clients that are open, and the
    number of the next one.  [_get_sync_client] of alerts/slack.py and [_get_slack_client] of
    error_handler.py are the same function on two variables. *)

Record slack_clients := mkClients { sc_current : option nat; sc_open : list nat; sc_next : nat }.
Definition _get_slack_client : Py slack_clients nat := fun s =>
  match sc_current s with
  | Some c => if bool_decide (c ∈ sc_open s) then (Ret c, s)
              else (Ret (sc_next s), mkClients (Some (sc_next s)) (sc_next s :: sc_open s) (S (sc_next s)))
  | None => (Ret (sc_next s), mkClients (Some (sc_next s)) (sc_next s :: sc_open s) (S (sc_next s)))
  end.
(** [aclose] marks the client closed and may still raise. *)
Definition close_slack_client (aclose : nat -> outcome exn unit) : Py slack_clients unit := fun s =>
  match sc_current s with
  | Some c =>
      if bool_decide (c ∈ sc_open s) then
        let s' := mkClients (sc_current s) (filter (fun c' => c' <> c) (sc_open s)) (sc_next s) in
        match aclose c with
        | Ret _ => (Ret tt, mkClients None (sc_open s') (sc_next s'))
        | Exc e => (Exc e, s')
        end
      else (Ret tt, s)
  | None => (Ret tt, s)
  end.
(** At most one client of a module is open, and it is the module's; the getter gives an open one. *)
Definition one_client (s : slack_clients) : Prop :=
  (forall c, c ∈ sc_open s -> sc_current s = Some c) /\ NoDup (sc_open s).
Lemma get_slack_client_open s : one_client s ->
  exists c s', _get_slack_client s = (Ret c, s') /\ one_client s' /\ sc_open s' = [c] /\
    (sc_open s <> [] -> s' = s).
Proof.
  intros [Hc Hn]. unfold _get_slack_client.
  assert (Hone : forall c, c ∈ sc_open s -> sc_open s = [c]).
  { intros c Hin. destruct (sc_open s) as [|x [|y l]]; [by apply elem_of_nil in Hin | by apply list_elem_of_singleton in Hin as -> |].
    exfalso. pose proof (Hc x ltac:(left)) as E1. pose proof (Hc y ltac:(right; left)) as E2. rewrite E1 in E2.
    injection E2 as ->. apply NoDup_cons in Hn as [Hx _]. apply Hx. left. }
  assert (Hnew : (sc_current s = None \/ exists c, sc_current s = Some c /\ c ∉ sc_open s) -> sc_open s = []).
  { intros Hx. destruct (sc_open s) as [|x l]; [done |]. pose proof (Hc x ltac:(left)) as E.
    destruct Hx as [Hx | (c & Hx & Hout)]; [congruence |]. exfalso. apply Hout. assert (c = x) as -> by congruence. left. }
  destruct (sc_current s) as [c|] eqn:Es; [case_bool_decide as Hin |].
  - exists c, s. rewrite (Hone c Hin). split; [done |]. by split; [split; rewrite ?Es |].
  - rewrite Hnew by (right; eauto). do 2 eexists. split; [reflexivity |]. split; [| done].
    split; cbn; [| apply NoDup_singleton]. by intros c' ->%list_elem_of_singleton.
  - rewrite Hnew by (by left). do 2 eexists. split; [reflexivity |]. split; [| done].
    split; cbn; [| apply NoDup_singleton]. by intros c' ->%list_elem_of_singleton.
Qed.
Lemma close_slack_client_closes aclose s : one_client s -> sc_open (snd (close_slack_client aclose s)) = [].
Proof.
  intros Hs. destruct (get_slack_client_open s Hs) as (c & s' & E & _ & Ho & Hsame). unfold close_slack_client.
  destruct (decide (sc_open s = [])) as [He | Hne].
  - destruct (sc_current s) as [c'|]; [| done]. rewrite bool_decide_false; [done |]. rewrite He. apply not_elem_of_nil.
  - rewrite (Hsame Hne) in Ho. destruct Hs as [Hc _]. rewrite (Hc c) by (rewrite Ho; left).
    rewrite bool_decide_true by (rewrite Ho; left). rewrite Ho.
    assert (filter (fun c' => c' <> c) [c] = []) as -> by (rewrite filter_cons_False; [done | auto]).
    by destruct (aclose c).
Qed.

(** *** The budget's bound *)

(** The calls of one process, in the order of the clock, and the ones that were allowed. *)
Fixpoint run_budget (calls : list (string * Z)) (b : SlackAlertBudget) : list (string * Z) :=
  match calls with
  | [] => []
  | (key, now) :: calls =>
      let (ok, b') := allow key now b in
      if ok then (key, now) :: run_budget calls b' else run_budget calls b'
  end.
Definition within (key : string) (t : Z) (l : list (string * Z)) : nat :=
  length (filter (fun e => fst e = key /\ t <= snd e <= t + hour) l).

(** What is known of a key after some calls: its window [s] and count [c], the allowed calls before
    the window [old] and in it [cur]. *)
Section Budget.
Variable P : Z.
Hypothesis HP : 0 <= P.
Definition count_from (t : Z) (l : list Z) : nat := length (filter (fun x => t <= x) l).
Definition in_hour (t : Z) (l : list Z) : nat := length (filter (fun x => t <= x <= t + hour) l).

Record window_inv (now : Z) (s c : Z) (old cur : list Z) : Prop := {
  wi_count : c = Z.of_nat (length cur) /\ c <= P;
  wi_cur : Forall (fun x => s <= x <= s + hour /\ x <= now) cur;
  wi_old : Forall (fun x => x < s) old;
  wi_prev : Z.of_nat (count_from (s - hour) old) <= P;
  wi_bound : forall t, Z.of_nat (in_hour t (old ++ cur)) <= 2 * P;
  wi_now : s <= now;
}.

Lemma filter_length_le {A} (Q R : A -> Prop) `{forall x, Decision (Q x)} `{forall x, Decision (R x)} l :
  (forall x, x ∈ l -> Q x -> R x) -> (length (filter Q l) <= length (filter R l))%nat.
Proof.
  induction l as [|x l IH]; intros Hl; [done |]. rewrite !filter_cons.
  specialize (IH (fun y Hy => Hl y (list_elem_of_further _ _ _ Hy))).
  destruct (decide (Q x)) as [Hq|].
  - rewrite decide_True by (apply Hl; [left | done]). cbn. lia.
  - destruct (decide (R x)); cbn; lia.
Qed.
Lemma in_hour_app t l1 l2 : in_hour t (l1 ++ l2) = (in_hour t l1 + in_hour t l2)%nat.
Proof. unfold in_hour. by rewrite filter_app, length_app. Qed.
Lemma in_hour_le t l : (in_hour t l <= length l)%nat.
Proof. apply length_filter. Qed.

(** One more allowed call in the window. *)
Lemma window_allow now now' s c old cur :
  window_inv now s c old cur -> now <= now' -> now' <= s + hour -> c < P ->
  window_inv now' s (c + 1) old (cur ++ [now']).
Proof.
  intros [[Hc Hcp] Hcur Hold Hprev Hb Hnow] Hle Hwin Hlt. split.
  - rewrite length_app. cbn. lia.
  - apply Forall_app. split; [| repeat constructor; lia].
    eapply Forall_impl; [exact Hcur |]. cbn. lia.
  - done.
  - done.
  - intros t. rewrite app_assoc, in_hour_app. destruct (decide (t <= now' <= t + hour)) as [Ht|Ht].
    + rewrite in_hour_app. pose proof (in_hour_le t cur).
      assert (in_hour t old <= count_from (s - hour) old)%nat.
      { apply filter_length_le. intros x _. lia. }
      pose proof (in_hour_le t [now']). cbn in *. lia.
    + assert (in_hour t [now'] = 0)%nat as -> by (unfold in_hour; by rewrite filter_cons_False).
      specialize (Hb t). lia.
  - lia.
Qed.
(** A window that expired gives way to a new one. *)
Lemma window_reset now now' s c old cur :
  window_inv now s c old cur -> now <= now' -> hour < now' - s ->
  window_inv now' now' 0 (old ++ cur) [].
Proof.
  intros [[Hc Hcp] Hcur Hold Hprev Hb Hnow] Hle Hexp. split.
  - done.
  - constructor.
  - apply Forall_app. split; [eapply Forall_impl; [exact Hold |] | eapply Forall_impl; [exact Hcur |]];
      cbn; unfold hour in *; lia.
  - assert (count_from (now' - hour) (old ++ cur) = count_from (now' - hour) cur) as ->.
    { unfold count_from. rewrite filter_app, filter_none; [done |].
      intros x Hx. rewrite Forall_forall in Hold. specialize (Hold x Hx). lia. }
    unfold count_from. pose proof (length_filter (fun x : Z => now' - hour <= x) cur). lia.
  - intros t. rewrite app_nil_r. apply Hb.
  - lia.
Qed.
End Budget.

(** The budget's state for one key after the allowed calls [H]. *)
Definition key_inv (key : string) (P now : Z) (b : SlackAlertBudget) (H : list Z) : Prop :=
  _per_hour b = P /\
  match dget key (_window_started b) with
  | None => dget key (_counts b) = None /\ H = []
  | Some s => exists old cur, H = old ++ cur /\
                window_inv P now s (default 0 (dget key (_counts b))) old cur
  end.
Lemma window_inv_later P now now' s c old cur :
  window_inv P now s c old cur -> now <= now' -> window_inv P now' s c old cur.
Proof.
  intros [H1 Hcur H3 H4 H5 H6] Hle. split; try done; [| lia].
  eapply Forall_impl; [exact Hcur |]. cbn. lia.
Qed.
Lemma allow_other key key' now b :
  key' <> key -> let b' := snd (allow key' now b) in
  dget key (_window_started b') = dget key (_window_started b) /\
  dget key (_counts b') = dget key (_counts b) /\ _per_hour b' = _per_hour b.
Proof.
  intros Hk. unfold allow. destruct (dget key' (_window_started b)), (_ <? _), (_ <=? _); cbn;
    by rewrite ?dget_dset_ne by done.
Qed.
Lemma allow_same key P now now' b H :
  0 <= P -> now <= now' -> key_inv key P now b H ->
  let '(ok, b') := allow key now' b in
  key_inv key P now' b' (if ok then H ++ [now'] else H).
Proof.
  intros HP Hle [Hper Hinv]. unfold allow. rewrite Hper.
  assert (Hstart : forall old cur s, window_inv P now' s 0 old cur -> H = old ++ cur ->
    forall counts windows, dget key windows = Some s -> default 0 (dget key counts) = 0 ->
    let '(ok, b') := if P <=? 0 then (false, mkBudget P (dset key 0 counts) windows)
                     else (true, mkBudget P (dset key (0 + 1) counts) windows) in
    now' <= s + hour -> key_inv key P now' b' (if ok then H ++ [now'] else H)).
  { intros old cur s Hw -> counts windows Hs Hc. destruct (P <=? 0) eqn:EP; intros Hwin;
      (split; [done |]); cbn; rewrite Hs.
    - exists old, cur. by rewrite dget_dset_eq.
    - exists old, (cur ++ [now']). rewrite dget_dset_eq. split; [by rewrite app_assoc |].
      apply (window_allow P now' now' s 0); [done | lia.. ]. }
  destruct (dget key (_window_started b)) as [s|] eqn:Es; cbn [default from_option id].
  - destruct Hinv as (old & cur & -> & Hw). destruct (hour <? now' - s) eqn:Ee.
    + apply Z.ltb_lt in Ee. rewrite dget_dset_eq. cbn [default from_option id].
      pose proof (window_reset P HP _ _ _ _ _ _ Hw Hle Ee) as Hr.
      specialize (Hstart _ _ _ Hr (eq_sym (app_nil_r _)) (dset key 0 (_counts b)) (dset key now' (_window_started b))).
      rewrite !dget_dset_eq in Hstart. specialize (Hstart eq_refl eq_refl).
      destruct (P <=? 0); apply Hstart; unfold hour; lia.
    + apply Z.ltb_ge in Ee. set (c := default 0 (dget key (_counts b))) in *.
      change (from_option _ _ _) with c. destruct (P <=? c) eqn:EP; (split; [done |]); cbn;
        rewrite Es.
      * exists old, cur. rewrite dget_dset_eq. split; [done |]. by eapply window_inv_later.
      * exists old, (cur ++ [now']). rewrite dget_dset_eq. split; [by rewrite app_assoc |].
        apply (window_allow P now now' s c); [done | lia.. ].
  - destruct Hinv as [Hc ->]. rewrite Z.sub_diag. change (hour <? 0) with false. cbn match.
    rewrite Hc. cbn [default from_option id].
    assert (window_inv P now' now' 0 [] []) as Hw
      by (split; [by split | constructor | constructor | cbn; lia | intros t; cbn; lia | lia]).
    specialize (Hstart [] [] now' Hw eq_refl (_counts b) (dset key now' (_window_started b))
      (dget_dset_eq _ _ _)). rewrite Hc in Hstart. specialize (Hstart eq_refl).
    destruct (P <=? 0); apply Hstart; unfold hour; lia.
Qed.

Definition times (key : string) (l : list (string * Z)) : list Z :=
  snd <$> filter (fun e => fst e = key) l.
Lemma run_budget_inv key P calls : 0 <= P ->
  forall now b H, key_inv key P now b H ->
  StronglySorted Z.le (now :: (snd <$> calls)) ->
  exists b' last, key_inv key P last b' (H ++ times key (run_budget calls b)).
Proof.
  intros HP. induction calls as [|[k t] calls IH]; intros now b H Hk Hs.
  - exists b, now. unfold times. cbn. by rewrite app_nil_r.
  - cbn [fmap list_fmap snd] in Hs. apply StronglySorted_inv in Hs as [Hs Hle].
    apply Forall_cons in Hle as [Hle _]. cbn [run_budget].
    destruct (decide (k = key)) as [-> | Hne].
    + pose proof (allow_same key P now t b H HP Hle Hk) as Ha.
      destruct (allow key t b) as [ok b1]. destruct (IH t b1 _ Ha Hs) as (b' & last & Hi).
      exists b', last. destruct ok; [| exact Hi]. unfold times in *. rewrite filter_cons_True by done.
      cbn. by rewrite <- app_assoc in Hi.
    + pose proof (allow_other key k t b Hne) as (Hw & Hc & Hp). destruct (allow k t b) as [ok b1].
      cbn in Hw, Hc, Hp. assert (key_inv key P t b1 H) as Hk1.
      { destruct Hk as [Hper Hk]. split; [congruence |]. rewrite Hw, Hc.
        destruct (dget key (_window_started b)); [| done].
        destruct Hk as (old & cur & -> & Hw'). exists old, cur. split; [done |].
        by eapply window_inv_later. }
      destruct (IH t b1 _ Hk1 Hs) as (b' & last & Hi). exists b', last.
      destruct ok; [| exact Hi]. unfold times in *. by rewrite filter_cons_False.
Qed.

(** C36. The alert budget bounds the noise: whatever calls arrive, for each key at most twice the hourly
    budget is allowed within any hour (windows do not slide: the end of one and the start of the
    next may fall into the same hour), and none at all on a budget of zero. *)
Theorem alert_budget_bound per_hour calls key t :
  0 <= per_hour -> StronglySorted Z.le (snd <$> calls) ->
  Z.of_nat (within key t (run_budget calls (SlackAlertBudget_init per_hour))) <= 2 * per_hour.
Proof.
  intros HP Hs. assert (within key t (run_budget calls (SlackAlertBudget_init per_hour)) =
    in_hour t (times key (run_budget calls (SlackAlertBudget_init per_hour)))) as ->.
  { unfold within, in_hour, times. generalize (run_budget calls (SlackAlertBudget_init per_hour)) as l.
    induction l as [|[k x] l IH]; [done |]. rewrite !filter_cons. cbn [fst snd].
    destruct (decide (k = key)) as [-> |].
    - rewrite fmap_cons, filter_cons. cbn [snd]. destruct (decide (t <= x <= t + hour)).
      + rewrite decide_True by done. cbn. by rewrite IH.
      + rewrite decide_False by tauto. exact IH.
    - rewrite decide_False by tauto. exact IH. }
  destruct calls as [|[k0 t0] calls0]; [cbn; lia |].
  destruct (run_budget_inv key per_hour ((k0, t0) :: calls0) HP t0 (SlackAlertBudget_init per_hour) [])
    as (b' & last & _ & Hi).
  - by split.
  - constructor; [done |]. cbn in Hs |- *. apply StronglySorted_inv in Hs as [_ Hf].
    constructor; [lia | done].
  - cbn [app] in Hi. destruct (dget key (_window_started b')).
    + destruct Hi as (old & cur & -> & Hw). apply (wi_bound _ _ _ _ _ _ Hw).
    + destruct Hi as [_ ->]. cbn. lia.
Qed.
Lemma alert_budget_bound_witness :
  let calls := [("k", 0); ("k", hour); ("k", hour + 1); ("k", hour + 2)] in
  within "k" 1 (run_budget calls (SlackAlertBudget_init 1)) = 1%nat /\
  Z.of_nat (within "k" 1 (run_budget calls (SlackAlertBudget_init 1))) <= 2 * 1.
Proof.
  split; [vm_compute; reflexivity |]. apply alert_budget_bound; [lia |].
  vm_compute. repeat constructor; discriminate.
Defined.

(** ** middleware/correlation_id.py *)

(** What the middleware does to a request: the id it puts into [scope["state"]] and the headers of the
    response start on their way out; [set_header] is Starlette's [MutableHeaders] assignment. *)
Definition choose_correlation_id (incoming : option string) (uuid4 : string) : string :=
  match incoming with
  | Some s => if nonempty s && is_valid_correlation_id s then s else uuid4
  | None => uuid4
  end.
Definition correlation_call {R} (set_header : list (string * string) -> string -> string -> list (string * string))
    (uuid4 : string) (app : string -> list (list (string * string)) * R)
    (headers : list (string * string)) : string * list (list (string * string)) * R :=
  let correlation_id := choose_correlation_id (header_get HttpHeader.CORRELATION_ID headers) uuid4 in
  let (starts, r) := app correlation_id in
  (correlation_id, map (fun hs => set_header hs HttpHeader.CORRELATION_ID correlation_id) starts, r).

(** Whatever the client sends, the application and every response start carry one valid id. *)
Lemma correlation_id_valid {R} set_header uuid4 app headers :
  is_valid_correlation_id uuid4 = true ->
  (forall hs n v, header_get n (set_header hs n v) = Some v) ->
  let '(cid, starts, _) := @correlation_call R set_header uuid4 app headers in
  is_valid_correlation_id cid = true /\
  Forall (fun hs => header_get HttpHeader.CORRELATION_ID hs = Some cid) starts.
Proof.
  intros Hu Hset. unfold correlation_call.
  set (cid := choose_correlation_id _ uuid4). destruct (app cid) as [starts r].
  split.
  - unfold cid, choose_correlation_id. destruct (header_get _ headers) as [s|]; [| done].
    destruct (nonempty s && is_valid_correlation_id s) eqn:E; [| done].
    by apply andb_true_iff in E as [_ E].
  - apply Forall_forall. intros hs (h & -> & _)%list_elem_of_fmap. apply Hset.
Qed.

(** ** middleware/logging_middleware.py *)

Definition DEFAULT_EXCLUDED_PATHS : list string :=
  ["/"; "/health"; "/health/ready"; "/health/live"; "/api/v1/health"; "/api/v1/health/ready";
   "/api/v1/health/live"; "/docs"; "/redoc"; "/openapi.json"; "/metrics"].
Record log_request := mkLogRequest {
  lr_type : string;                     (* [scope["type"]] *)
  lr_method : string;
  lr_path : string;
  lr_query : string;                    (* [str(connection.query_params)] *)
  lr_conn : http_conn;
  lr_correlation_id : option string;
  lr_user_id : option string;           (* [state.authenticated_user_id] *)
}.
Definition excluded (configured : list string) (path : string) : bool :=
  bool_decide (path ∈ match configured with [] => DEFAULT_EXCLUDED_PATHS | _ => configured end).
Definition if_set (k : string) (o : option string) : list (string * json) :=
  match o with Some s => if nonempty s then [(k, JStr s)] else [] | None => [] end.
Definition _outcome_fields (r : log_request) : list (string * json) :=
  ("client_ip", JStr (client_ip (lr_conn r))) :: if_set "user_id" (lr_user_id r).
Definition _request_fields (r : log_request) : list (string * json) :=
  [("method", JStr (lr_method r)); ("path", JStr (lr_path r))] ++
  if_set "query_string" (Some (lr_query r)) ++
  if_set "user_agent" (header_get "User-Agent" (hc_headers (lr_conn r))) ++
  if_set "correlation_id" (lr_correlation_id r) ++
  if_set "tenant_id" (header_get HttpHeader.TENANT_ID (hc_headers (lr_conn r))).

(** A log call: level, event, fields. *)
Notation log_record := (string * string * list (string * json))%type.
Class LogEnv (W : Type) := {
  emit : log_record -> W -> W;
  perf_ms : W -> string;               (* [_elapsed_ms]: the rounded duration so far *)
}.
(** The application gives the statuses of the response starts it sent, in order. *)
Definition logging_call {W} `{LogEnv W} (service_name : string) (excluded_paths : list string)
    (app : Py (W * list Z) unit) (r : log_request) : Py W unit := fun w =>
  if negb (bool_decide (lr_type r = "http")) || excluded excluded_paths (lr_path r) then
    let (o, wl) := app (w, []) in (o, fst wl)
  else
    let fields := _request_fields r in
    let w := emit ("info", "request_started", ("service", JStr service_name) :: fields) w in
    match app (w, []) with
    | (Exc e, (w, _)) =>
        if is_Exception e then
          (Exc e, emit ("error", "request_failed",
            [("service", JStr service_name); ("duration_ms", JStr (perf_ms w));
             ("error_type", JStr (class_name e));
             ("error_summary", JStr (String.substring 0 200 (str_exn e)))]
            ++ _outcome_fields r ++ fields) w)
        else (Exc e, w)
    | (Ret u, (w, statuses)) =>
        let status_code := default 500 (last statuses) in
        (Ret u, emit (if status_code <? 400 then "info" else "warning", "request_completed",
          [("service", JStr service_name); ("status_code", JInt status_code);
           ("duration_ms", JStr (perf_ms w))] ++ _outcome_fields r ++ fields) w)
    end.

(** Logging is an observer: it never changes the outcome of the request, provided the application
    does not look at the log. *)
Lemma logging_transparent {W} `{LogEnv W} service paths (app : Py (W * list Z) unit) r w :
  (forall w1 w2 l, fst (app (w1, l)) = fst (app (w2, l))) ->
  fst (logging_call service paths app r w) = fst (app (w, [])).
Proof.
  intros Happ. unfold logging_call. destruct (_ || _).
  - by destruct (app (w, [])) as [o [w' l]].
  - match goal with |- context [app (?w0, [])] => rewrite (Happ w w0) end.
    destruct (app _) as [[u|e] [w' l]]; cbn; [done |]. by destruct (is_Exception e).
Qed.

(** ** middleware/error_handler.py *)

Definition _hash_identifier (value : json) : string :=
  if truthy value then String.substring 0 16 (hexdigest (sha256 (bytes_of (utf8_encode (py_str value)))))
  else "N/A".
(** [json.loads(body)["error"]["code"]] *)
Definition json_item (k : string) (v : json) : option json :=
  match v with JObj o => dget k o | _ => None end.
Definition _error_code (body : string) : option string :=
  match loads_body body with
  | None => None
  | Some v =>
      match json_item "error" v with
      | Some e => match json_item "code" e with Some (JStr c) => Some c | _ => None end
      | None => None
      end
  end.
Definition _UNPAGED_ERROR_CODES : list string :=
  map outage_code_value [CONNECT_FAILED; CONNECTION_LOST; POOL_EXHAUSTED; STATEMENT_TIMEOUT].
Definition is_some {A} (o : option A) : bool := match o with Some _ => true | None => false end.
Definition _is_unpaged (status : Z) (hs : list (string * string)) (code : option string) : bool :=
  (status =? 503) && is_some (header_get HttpHeader.RETRY_AFTER hs) ||
  match code with Some c => bool_decide (c ∈ _UNPAGED_ERROR_CODES) | None => false end.

(** Who made the request: [state.auth_context], else [state.user]. *)
Inductive identity :=
| AuthContext (user_id tenant_id : string)                 (* each attribute's [str()] *)
| UserDict (items : list (string * json))
| UserObject (id tenant_id : string)
| NoUser.
Definition _extract_identity (i : identity) : json * json :=
  match i with
  | AuthContext u t | UserObject u t => (JStr u, JStr t)
  | UserDict items => (default JNull (dget "id" items), default JNull (dget "tenant_id" items))
  | NoUser => (JNull, JNull)
  end.
Record eh_request := mkEhRequest {
  eh_path : string; eh_query : string; eh_method : string;
  eh_identity : identity;
  eh_correlation_id : option string;
  eh_app : option string;
}.
Record eh_config := mkEhConfig {
  eh_service_name : string; eh_environment : string; eh_slack_webhook_url : string;
  eh_alert_on_5xx : bool; eh_hash_pii : bool;
}.
Record alert_ctx := mkCtx {
  c_service : string; c_environment : string; c_path : string; c_query : string; c_method : string;
  c_status_code : Z; c_error : string; c_error_type : string; c_error_code : option string;
  c_user_id : json; c_tenant_id : json; c_correlation_id : string; c_traceback : option string;
  c_response_body : string; c_timestamp : string; c_host : string;
}.
(** The response that comes back from the application; reading its body may fail. *)
Record eh_response := mkEhResponse {
  er_status : Z; er_headers : list (string * string); er_body : outcome exn string;
}.
(** What [dispatch] returns: the application's response as it is, one rebuilt from its parts, or the
    envelope of the handler. *)
Inductive eh_reply :=
| Untouched (r : eh_response)
| Rebuilt (status : Z) (hs : list (string * string)) (body : string)
| Envelope (r : http_reply).

Section ErrorHandler.
Context {W : Type} `{AlertEnv W}.
Variable cfg : eh_config.
Variable decode_replace : string -> string.          (* [decode("utf-8", errors="replace")] *)
Variable last_chars : nat -> string -> string.       (* [s[-n:]] *)
Variable traceback : exn -> string.                  (* [traceback.format_exc()] *)

Definition hashed (v : json) : json :=
  if eh_hash_pii cfg then if truthy v then JStr (_hash_identifier v) else JNull else v.
Definition _build_context (w : W) (request : eh_request) (error error_type : string)
    (error_code tb : option string) (status_code : Z) (response_body : string) : alert_ctx :=
  let (user_id, tenant_id) := _extract_identity (eh_identity request) in
  mkCtx (eh_service_name cfg) (eh_environment cfg) (eh_path request) (eh_query request)
    (eh_method request) status_code
    (if nonempty error then error else "HTTP " +:+ str_of_Z status_code)
    (if nonempty error_type then error_type else "HTTP" +:+ str_of_Z status_code)
    error_code (hashed user_id) (hashed tenant_id)
    (default "unknown" (eh_correlation_id request)) tb response_body (al_isoformat w) (al_host w).

(** [ctx.get("user_id") or "N/A"] in the message's fields *)
Definition id_field (v : json) : string := if truthy v then py_str v else "N/A".
Definition alert_message (c : alert_ctx) : json :=
  let path_display := if nonempty (c_query c) then "`" +:+ c_path c +:+ "?" +:+ c_query c +:+ "`"
                      else "`" +:+ c_path c +:+ "`" in
  let no_trace :=
    "_No exception raised (handled " +:+ str_of_Z (c_status_code c) +:+ " response)_" +:+ NL +:+
    (if nonempty (c_response_body c)
     then "*Response body:*" +:+ NL +:+ "```" +:+ c_response_body c +:+ "```" else "_No body available_") in
  let tb_text := match c_traceback c with
    | Some tb => if nonempty tb then "*Traceback:*" +:+ NL +:+ "```" +:+ last_chars 1500 tb +:+ "```"
                 else no_trace
    | None => no_trace
    end in
  slack_message (eh_service_name cfg +:+ " error (" +:+ eh_environment cfg +:+ ")")
    (eh_service_name cfg +:+ " — " +:+ c_error_type c)
    [("Env", eh_environment cfg); ("Status", str_of_Z (c_status_code c)); ("Method", c_method c);
     ("Path", path_display); ("User", id_field (c_user_id c)); ("Tenant", id_field (c_tenant_id c))]
    ["*Error:*" +:+ NL +:+ "`" +:+ String.substring 0 500 (c_error c) +:+ "`"; tb_text]
    (alert_footer (c_timestamp c) (c_host c) (c_correlation_id c)).
Definition alert_key (c : alert_ctx) : string :=
  c_service c +:+ ":" +:+ or_else (c_error_code c) (c_error_type c).
Definition _send_slack_alert (c : alert_ctx) : Py W unit :=
  let! ok := budget_allow (alert_key c) in
  if negb ok then ret tt
  else catch_Exception (al_post (eh_slack_webhook_url cfg) (alert_message c)) (fun _ => ret tt).

(** The tasks that [_fire_alert] starts run later: the second part of the state lists them. *)
Definition _fire_alert (c : alert_ctx) : Py (W * list alert_ctx) unit :=
  if nonempty (eh_slack_webhook_url cfg) then modify (fun st => (fst st, snd st ++ [c])) else ret tt.

(** The rebuilt header dict: a repeated name keeps its first place and its last value. *)
Definition header_dict (raw : list (string * string)) : list (string * string) :=
  foldl (fun acc kv => dset (fst kv) (snd kv) acc) [] raw.

Definition dispatch_body (call_next : Py W eh_response) (request : eh_request)
    : Py (W * list alert_ctx) eh_reply :=
  let! response := on_fst call_next in
  if eh_alert_on_5xx cfg && (500 <=? er_status response) then
    let! body := lift_out (er_body response) in
    let error_code := _error_code body in
    let! ctx := gets (fun st => _build_context (fst st) request "" "" error_code None (er_status response)
                        (String.substring 0 500 (decode_replace body))) in
    do! (if _is_unpaged (er_status response) (er_headers response) error_code then ret tt
         else _fire_alert ctx) in
    ret (Rebuilt (er_status response) (header_dict (er_headers response)) body)
  else ret (Untouched response).
Definition dispatch (call_next : Py W eh_response) (request : eh_request)
    : Py (W * list alert_ctx) eh_reply :=
  catch_Exception (dispatch_body call_next request) (fun exc =>
    let! ctx := gets (fun st => _build_context (fst st) request (str_exn exc) (class_name exc) None
                        (Some (traceback exc)) 500 "") in
    do! _fire_alert ctx in
    let! code := lift_out (framework_error_code (eh_app request) INTERNAL_CODE) in
    ret (Envelope (mkReply 500 (build_error_envelope "Internal server error" (JStr code)
      (JStr (c_correlation_id ctx)) []) None))).
End ErrorHandler.

(** *** What the handler guarantees *)

Section ErrorHandlerProof.
Context {W : Type} `{AlertEnv W}.
Variables (cfg : eh_config) (decode_replace : string -> string) (last_chars : nat -> string -> string)
  (traceback : exn -> string).
Notation dispatch := (dispatch cfg decode_replace traceback).

Lemma fire_alert_ret c (w : W) tasks :
  _fire_alert cfg c (w, tasks) =
  (Ret tt, (w, if nonempty (eh_slack_webhook_url cfg) then tasks ++ [c] else tasks)).
Proof. unfold _fire_alert. by destruct (nonempty _). Qed.
Lemma context_status w request error error_type code tb status body :
  c_status_code (_build_context cfg w request error error_type code tb status body) = status.
Proof. unfold _build_context. by destruct (_extract_identity _). Qed.

(** A response below 500, or any response with the switch off, passes as it is; a 5xx keeps its
    status and body; one alert at most. *)
Lemma body_untouched call_next request w tasks r w' :
  call_next w = (Ret r, w') -> eh_alert_on_5xx cfg && (500 <=? er_status r) = false ->
  dispatch_body cfg decode_replace call_next request (w, tasks) = (Ret (Untouched r), (w', tasks)).
Proof.
  intros Hc Hs. unfold dispatch_body.
  rewrite (bind_Ret _ _ _ r (w', tasks)) by (unfold on_fst; cbn; by rewrite Hc). by rewrite Hs.
Qed.
Lemma body_5xx call_next request w tasks r w' body :
  call_next w = (Ret r, w') -> eh_alert_on_5xx cfg && (500 <=? er_status r) = true ->
  er_body r = Ret body ->
  exists ctx, c_status_code ctx = er_status r /\
  dispatch_body cfg decode_replace call_next request (w, tasks) =
    (Ret (Rebuilt (er_status r) (header_dict (er_headers r)) body),
     (w', if _is_unpaged (er_status r) (er_headers r) (_error_code body) then tasks
          else if nonempty (eh_slack_webhook_url cfg) then tasks ++ [ctx] else tasks)).
Proof.
  intros Hc Hs Hb. eexists. split; [apply context_status |]. unfold dispatch_body.
  rewrite (bind_Ret _ _ _ r (w', tasks)) by (unfold on_fst; cbn; by rewrite Hc).
  rewrite Hs, Hb. unfold lift_out at 1. do 2 (erewrite bind_Ret by reflexivity).
  destruct (_is_unpaged _ _ _); [reflexivity |]. unfold bind. by rewrite fire_alert_ret.
Qed.
Lemma body_unread call_next request w tasks r w' e :
  call_next w = (Ret r, w') -> eh_alert_on_5xx cfg && (500 <=? er_status r) = true ->
  er_body r = Exc e ->
  dispatch_body cfg decode_replace call_next request (w, tasks) = (Exc e, (w', tasks)).
Proof.
  intros Hc Hs Hb. unfold dispatch_body.
  rewrite (bind_Ret _ _ _ r (w', tasks)) by (unfold on_fst; cbn; by rewrite Hc).
  rewrite Hs, Hb. by apply bind_Exc.
Qed.
Lemma body_raised call_next request w tasks e w' :
  call_next w = (Exc e, w') ->
  dispatch_body cfg decode_replace call_next request (w, tasks) = (Exc e, (w', tasks)).
Proof. intros Hc. unfold dispatch_body. apply bind_Exc. unfold on_fst. cbn. by rewrite Hc. Qed.

Lemma dispatch_ret call_next request st reply st' :
  dispatch_body cfg decode_replace call_next request st = (Ret reply, st') ->
  dispatch call_next request st = (Ret reply, st').
Proof. intros Hb. unfold ErrorMiddleware.dispatch, catch_Exception, catch. by rewrite Hb. Qed.
(** An exception becomes the internal error envelope and one alert. *)
Lemma dispatch_exc call_next request st e w' tasks p :
  dispatch_body cfg decode_replace call_next request st = (Exc e, (w', tasks)) ->
  is_Exception e = true -> eh_app request = Some p ->
  exists ctx, c_status_code ctx = 500 /\
  dispatch call_next request st =
    (Ret (Envelope (mkReply 500 (build_error_envelope "Internal server error"
        (JStr (p +:+ "_" +:+ INTERNAL_CODE))
        (JStr (default "unknown" (eh_correlation_id request))) []) None)),
     (w', if nonempty (eh_slack_webhook_url cfg) then tasks ++ [ctx] else tasks)).
Proof.
  intros Hb He Hp.
  exists (_build_context cfg w' request (str_exn e) (class_name e) None (Some (traceback e)) 500 "").
  split; [apply context_status |].
  unfold ErrorMiddleware.dispatch, catch_Exception, catch. rewrite Hb, He.
  erewrite bind_Ret by reflexivity. unfold bind. rewrite fire_alert_ret, Hp. cbn.
  unfold _build_context. by destruct (_extract_identity _).
Qed.

(** The client always gets an answer: when the application is registered, every outcome of the
    application but cancellation and interpreter exit becomes a response, an exception (also one
    raised while its response is read) a 500 with the internal error code and the correlation
    id; at most one alert is started per request, and only for a status of 500 and above. *)
Theorem error_handler_answers call_next request w tasks p :
  eh_app request = Some p ->
  (forall e w', call_next w = (Exc e, w') -> is_Exception e = true) ->
  (forall r w' e, call_next w = (Ret r, w') -> er_body r = Exc e -> is_Exception e = true) ->
  exists reply w' tasks', dispatch call_next request (w, tasks) = (Ret reply, (w', tasks')) /\
    (tasks' = tasks \/ exists c, tasks' = tasks ++ [c] /\ 500 <= c_status_code c) /\
    match fst (call_next w) with
    | Exc _ => reply = Envelope (mkReply 500 (build_error_envelope "Internal server error"
          (JStr (p +:+ "_" +:+ INTERNAL_CODE))
          (JStr (default "unknown" (eh_correlation_id request))) []) None)
    | Ret r => er_status r < 500 -> reply = Untouched r
    end.
Proof.
  intros Hp Hex Hbody.
  assert (Hexc : forall e w', dispatch_body cfg decode_replace call_next request (w, tasks) =
    (Exc e, (w', tasks)) -> is_Exception e = true -> exists tasks', dispatch call_next request (w, tasks) =
      (Ret (Envelope (mkReply 500 (build_error_envelope "Internal server error"
          (JStr (p +:+ "_" +:+ INTERNAL_CODE))
          (JStr (default "unknown" (eh_correlation_id request))) []) None)), (w', tasks')) /\
      (tasks' = tasks \/ exists c, tasks' = tasks ++ [c] /\ 500 <= c_status_code c)).
  { intros e w' Hb He. destruct (dispatch_exc _ _ _ _ _ _ _ Hb He Hp) as (ctx & Hst & ->).
    eexists. split; [reflexivity |].
    destruct (nonempty _); [right; exists ctx; split; [done | lia] | by left]. }
  destruct (call_next w) as [[r|e] w'] eqn:Ec; cbn [fst].
  - destruct (eh_alert_on_5xx cfg && (500 <=? er_status r)) eqn:E5.
    + pose proof E5 as [_ Hs%Z.leb_le]%andb_true_iff. destruct (er_body r) as [body|e] eqn:Eb.
      * destruct (body_5xx call_next request w tasks r w' body Ec E5 Eb) as (ctx & Hst & Hb).
        apply dispatch_ret in Hb. do 3 eexists. split; [exact Hb |]. split; [| lia].
        destruct (_is_unpaged _ _ _); [by left |].
        destruct (nonempty _); [right; exists ctx; split; [done | lia] | by left].
      * destruct (Hexc e w') as (tasks' & Hd & Ht);
          [by apply (body_unread _ _ _ _ r) | by eapply Hbody |].
        do 3 eexists. split; [exact Hd |]. split; [done | lia].
    + do 3 eexists. split; [by apply dispatch_ret, body_untouched |]. split; [by left | done].
  - destruct (Hexc e w') as (tasks' & Hd & Ht); [by apply body_raised | by eapply Hex |].
    do 3 eexists. split; [exact Hd |]. by split.
Qed.

(** The response Starlette sends for a handler's reply. *)
Definition sent (r : http_reply) (more : list (string * string)) : eh_response :=
  mkEhResponse (reply_status r) (default [] (reply_headers r) ++ more)
    (Ret (utf8_encode (dumps (reply_body r)))).

(** A database outage never pages: the reply that the exception handlers give for a typed database
    failure (unavailable, pool exhausted or timed out) passes the error middleware without an
    alert, whatever the correlation id and the other headers. *)
Theorem database_outage_never_pages app correlation_id (e : db_error) r more call_next request w tasks w' :
  db_exception_reply app correlation_id e = Some (Ret r) ->
  call_next w = (Ret (sent r more), w') ->
  snd (dispatch call_next request (w, tasks)) = (w', tasks) /\
  exists reply, fst (dispatch call_next request (w, tasks)) = Ret reply.
Proof.
  intros He Hc. destruct (eh_alert_on_5xx cfg && (500 <=? er_status (sent r more))) eqn:E5.
  - destruct (body_5xx call_next request w tasks _ w' _ Hc E5 eq_refl) as (ctx & _ & Hb).
    apply dispatch_ret in Hb. rewrite Hb.
    assert (_is_unpaged (er_status (sent r more)) (er_headers (sent r more))
              (_error_code (utf8_encode (dumps (reply_body r)))) = true) as ->; [| cbn; eauto].
    unfold _is_unpaged. destruct e as [m c|m| | | |]; try done.
    + apply Some_inj in He. destruct c; vm_compute in He; injection He as <-; reflexivity.
    + apply orb_true_iff. right. unfold _error_code, loads_body. rewrite utf8_decode_encode.
      apply Some_inj in He. destruct correlation_id; cbn in He; injection He as <-;
        rewrite loads_dumps by reflexivity; reflexivity.
    + apply Some_inj in He. vm_compute in He. injection He as <-. reflexivity.
  - rewrite (dispatch_ret _ _ _ _ _ (body_untouched _ _ _ _ _ _ Hc E5)). cbn. eauto.
Qed.
End ErrorHandlerProof.

Module AlertExample.
#[export] Instance quiet : AlertEnv SlackAlertBudget := {|
  al_now _ := 0; al_isoformat _ := "2026-01-01T00:00:00+00:00"; al_host _ := "pod-1";
  al_budget w := w; al_set_budget b _ := b; al_post _ _ := ret tt;
|}.
Definition cfg : eh_config := mkEhConfig "lead" "production" "https://hooks.slack.example/x" true true.
Definition request : eh_request := mkEhRequest "/api/v1/leads" "" "GET" NoUser (Some "c-1") (Some "LEAD").
Definition budget : SlackAlertBudget := SlackAlertBudget_init 5.
End AlertExample.
Import AlertExample.

Lemma error_handler_answers_witness :
  exists reply st, dispatch cfg id (fun _ => "Traceback") (raise (PyErr ValueError "boom")) request
    (budget, []) = (Ret reply, st) /\ reply = Envelope (mkReply 500
      (build_error_envelope "Internal server error" (JStr "LEAD_INTERNAL_000") (JStr "c-1") []) None).
Proof.
  destruct (error_handler_answers cfg id (fun _ => "Traceback")
    (raise (PyErr ValueError "boom")) request budget [] "LEAD" eq_refl) as (reply & w' & ts & Hd & _ & Hr).
  - intros e w' [=]; by subst.
  - intros r w' e [=].
  - exists reply, (w', ts). split; [exact Hd | exact Hr].
Defined.
Lemma database_outage_never_pages_witness :
  exists r, db_exception_reply (Some "LEAD") (Some "c-1") (DatabaseTimeoutError "t") = Some (Ret r) /\
  snd (dispatch cfg id (fun _ => "Traceback") (ret (sent r [])) request (budget, [])) = (budget, []).
Proof.
  eexists. split; [reflexivity |].
  refine (proj1 (database_outage_never_pages cfg id (fun _ => "Traceback")
    (Some "LEAD") (Some "c-1") (DatabaseTimeoutError "t") _ [] _ request budget [] budget eq_refl eq_refl)).
Defined.
