(* ===== verification/Portals.v ===== *)
(** * Portals

    Models src/tr_shared/integrations/portal_identity.py (the registry and what is
    derived from it), constants.py, portal_errors.py, pf_oauth.py and hikcentral.py.
    The network is [HttpEnv]; name resolution, the classification of addresses
    ([ipaddress]), the clock and the calendar are parameters. *)

From S2P Require Import Prelude Json Hash Errors Text HttpClient.
From Stdlib Require Import Ascii.
Local Open Scope Z_scope.

(** ** portal_identity.py *)

Inductive PortalSlug :=
| WEBSITE | PROPERTYFINDER | BAYUT | DUBIZZLE | GEMINI | META | HIKCENTRAL | CALCOM.
#[export] Instance PortalSlug_eq_dec : EqDecision PortalSlug.
Proof. solve_decision. Defined.
Definition slug_value (s : PortalSlug) : string :=
  match s with
  | WEBSITE => "website" | PROPERTYFINDER => "propertyfinder" | BAYUT => "bayut"
  | DUBIZZLE => "dubizzle" | GEMINI => "gemini" | META => "meta"
  | HIKCENTRAL => "hikcentral" | CALCOM => "calcom"
  end.
Definition all_slugs : list PortalSlug :=
  [WEBSITE; PROPERTYFINDER; BAYUT; DUBIZZLE; GEMINI; META; HIKCENTRAL; CALCOM].
(** [PortalSlug(slug)] *)
Definition slug_of (s : string) : option PortalSlug :=
  find (fun p => bool_decide (slug_value p = s)) all_slugs.

Record PortalIdentity := mkPortal {
  slug : PortalSlug;
  display_name : string;
  is_connectable_platform : bool;
  is_listing_portal : bool;
  is_externally_publishable : bool;
  user_id_key : option string;
  shares_provider_with : option PortalSlug;
}.
Definition provider_key (p : PortalIdentity) : string :=
  slug_value (default (slug p) (shares_provider_with p)).

Definition PORTAL_REGISTRY : list (PortalSlug * PortalIdentity) :=
  [(WEBSITE, mkPortal WEBSITE "Website" false true false None None);
   (PROPERTYFINDER, mkPortal PROPERTYFINDER "PropertyFinder" true true true (Some "public_profile_id") None);
   (BAYUT, mkPortal BAYUT "Bayut" true true true (Some "user_id") None);
   (DUBIZZLE, mkPortal DUBIZZLE "Dubizzle" true true true (Some "user_id") (Some BAYUT));
   (GEMINI, mkPortal GEMINI "Google Gemini AI" true false false None None);
   (META, mkPortal META "Meta (Facebook Lead Ads)" false false false None None);
   (HIKCENTRAL, mkPortal HIKCENTRAL "HikCentral" true false false None None);
   (CALCOM, mkPortal CALCOM "Cal.com" true false false None None)].
Definition registry_get (s : PortalSlug) : outcome exn PortalIdentity :=
  match find (fun e => bool_decide (fst e = s)) PORTAL_REGISTRY with
  | Some e => Ret (snd e)
  | None => Exc (PyErr KeyError (slug_value s))
  end.
Definition get_portal_identity (s : string) : outcome exn PortalIdentity :=
  match slug_of s with
  | Some p => registry_get p
  | None => Exc (PyErr ValueError ("'" +:+ s +:+ "' is not a valid PortalSlug"))
  end.

Definition slugs_with (f : PortalIdentity -> bool) : list string :=
  slug_value ∘ slug <$> filter (fun p => f p = true) (snd <$> PORTAL_REGISTRY).
Definition KNOWN_PLATFORM_SLUGS : list string := slugs_with is_connectable_platform.
Definition LISTING_PORTAL_SLUGS : list string := slugs_with is_listing_portal.
Definition EXTERNALLY_PUBLISHABLE_SLUGS : list string := slugs_with is_externally_publishable.
Definition PORTAL_USER_ID_KEYS : list (string * string) :=
  flat_map (fun p => match user_id_key p with Some k => [(slug_value (slug p), k)] | None => [] end)
    (snd <$> PORTAL_REGISTRY).
Definition PORTAL_PROVIDER_KEYS : list (string * string) :=
  flat_map (fun p => if is_connectable_platform p then [(slug_value (slug p), provider_key p)] else [])
    (snd <$> PORTAL_REGISTRY).

(** The registry is total and keyed by its own slugs, publishable portals are listing and connectable
    portals with an agent id, and every provider key is itself a connectable platform. *)
Lemma portal_registry_consistent s :
  exists p, get_portal_identity (slug_value s) = Ret p /\ slug p = s /\
    (is_externally_publishable p = true ->
       is_listing_portal p = true /\ is_connectable_platform p = true /\ user_id_key p <> None) /\
    (is_connectable_platform p = true -> provider_key p ∈ KNOWN_PLATFORM_SLUGS).
Proof.
  destruct s; (eexists; split; [vm_compute; reflexivity |]); (split; [reflexivity |]);
    (split; [done || (intros _; repeat split; discriminate) |]); try done;
    intros _; apply (bool_decide_unpack (_ ∈ _)); vm_compute; exact I.
Qed.
Lemma get_portal_identity_ret s p : get_portal_identity s = Ret p -> s = slug_value (slug p).
Proof.
  unfold get_portal_identity. destruct (slug_of s) as [q|] eqn:E; [| done].
  unfold slug_of in E. apply find_some in E as [_ E%bool_decide_eq_true]. subst s.
  destruct q; vm_compute; by intros [= <-].
Qed.

(** ** constants.py *)

Definition PF_PLATFORM_NAME := slug_value PROPERTYFINDER.
Definition PF_AUTH_URL := "https://atlas.propertyfinder.com/v1/auth/token".
Definition PF_API_BASE_URL := "https://atlas.propertyfinder.com".
Definition ALL_PF_WEBHOOK_EVENTS : list string :=
  ["lead.created"; "lead.updated"; "lead.assigned"; "listing.published"; "listing.unpublished";
   "listing.action"; "user.created"; "user.updated"; "user.deleted"; "user.activated";
   "user.deactivated"; "publicProfile.verification.approved"; "publicProfile.verification.rejected"].
Definition KNOWN_PF_EVENT_PREFIXES : list string := ["lead."; "listing."; "user."; "publicProfile."].
Definition PUBLIC_CONFIG_KEYS : list string :=
  ["webhook_token"; "environment"; "region"; "auto_publish"; "registration_type"; "connected_at";
   "subscription_count"].
Definition sanitize_public_config (config : option (list (string * json))) : list (string * json) :=
  match config with
  | None => []
  | Some c => filter (fun kv => fst kv ∈ PUBLIC_CONFIG_KEYS) c
  end.
Lemma pf_events_have_known_prefixes :
  forallb (fun e => existsb (startswith e) KNOWN_PF_EVENT_PREFIXES) ALL_PF_WEBHOOK_EVENTS = true.
Proof. vm_compute. reflexivity. Qed.
(** Nothing but allow-listed keys comes out, each with its value, and none of them is lost. *)
Lemma sanitize_spec c k v :
  (k, v) ∈ sanitize_public_config (Some c) <-> (k, v) ∈ c /\ k ∈ PUBLIC_CONFIG_KEYS.
Proof. cbn. rewrite list_elem_of_filter. cbn. tauto. Qed.

(** ** portal_errors.py: what each class passes to its superclass, and what it carries besides *)

Record portal_error := mkPortalError {
  pe_api : BaseAPIException;
  pe_portal : option string;
  pe_errors : list json;
  pe_retry_after : option Z;
  pe_existing_listing_id : option string;
  pe_reference : option string;
}.
Definition carry (e : BaseAPIException) (portal : option string) : portal_error :=
  mkPortalError e portal [] None None None.
Definition PortalError (detail code : string) (portal : option string) : portal_error :=
  carry (BadGatewayError (JStr detail) (JStr code)) portal.
Definition PortalAuthError (detail code : string) (portal : option string) : portal_error :=
  carry (AuthenticationError (JStr detail) (JStr code) None) portal.
Definition PortalValidationError (detail code : string) (portal : option string) (errors : option (list json))
    : portal_error :=
  mkPortalError (ValidationError (JStr detail) (JStr code)) portal (default [] errors) None None None.
Definition PortalRateLimitError (detail code : string) (portal : option string) (retry_after : option Z)
    : portal_error :=
  mkPortalError (RateLimitError (JStr detail) (JStr code) None None) portal [] retry_after None None.
Definition PortalDuplicateError (detail code : string) (portal existing_listing_id reference : option string)
    : portal_error :=
  mkPortalError (ConflictError (JStr detail) (JStr code)) portal [] None existing_listing_id reference.
Definition PortalNotFoundError (resource : string) (identifier : option string) (code : string)
    (portal : option string) : portal_error :=
  carry (NotFoundError resource identifier (JStr code)) portal.
Definition PortalUnavailableError (detail code : string) (portal : option string) : portal_error :=
  carry (ServiceUnavailableError (JStr detail) (JStr code) None) portal.
Definition PortalServerError (detail code : string) (portal : option string) : portal_error :=
  carry (InternalServerError (JStr detail) (JStr code)) portal.

(** A portal's rate limit reaches the client without the [Retry-After] it carries. *)
Lemma portal_rate_limit_loses_retry_after app corr detail code portal n :
  nonempty code = true ->
  exists r, base_api_exception_handler app corr
    (pe_api (PortalRateLimitError detail code portal (Some n))) = Ret r /\
    reply_status r = 429 /\ reply_headers r = None.
Proof.
  intros Hc. unfold base_api_exception_handler. cbn [pe_api PortalRateLimitError RateLimitError error_code].
  assert (truthy (JStr code) = true) as -> by exact Hc. eexists. split; [reflexivity |]. split; reflexivity.
Qed.

(** ** pf_oauth.py *)

(** [response.json()] then [.get(k)] *)
Definition json_get (k : string) (v : json) : outcome exn json :=
  match v with
  | JObj o => Ret (default JNull (dget k o))
  | _ => Exc (PyErr AttributeError "object has no attribute 'get'")
  end.
(** [isinstance(expires_in, int) and expires_in > 0]; a [bool] is an [int] *)
Definition positive_int (v : json) : option Z :=
  match v with
  | JInt n => if n <=? 0 then None else Some n
  | JBool true => Some 1
  | _ => None
  end.
Section PfOauth.
Context {W : Type} `{HttpEnv W}.
Definition config_error {A} (m : string) : Py W A := raise (PyErr IntegrationConfigError m).
Definition fetch_pf_access_token (api_key api_secret auth_url : string) : Py W (string * Z) :=
  let request := mkRequest "POST" auth_url None
    (Some (JObj [("apiKey", JStr api_key); ("apiSecret", JStr api_secret)]))
    [("Content-Type", "application/json"); ("Accept", "application/json")] in
  let! response := catch (http_send request) (fun exc =>
    if isinstance exc HttpxHTTPError
    then config_error ("PF token exchange failed: " +:+ class_name exc +:+ ": " +:+ str_exn exc)
    else raise exc) in
  if negb (r_status response =? 200) then
    config_error ("PF token exchange returned HTTP " +:+ str_of_Z (r_status response))
  else match loads (r_text response) with
  | None => config_error "PF token response was not valid JSON"
  | Some data =>
      let! token := lift_out (json_get "accessToken" data) in
      let! expires_in := lift_out (json_get "expiresIn" data) in
      match token with
      | JStr t =>
          if negb (nonempty t) then config_error "PF token response missing accessToken"
          else match positive_int expires_in with
               | Some n => ret (t, n)
               | None => config_error "PF token response missing/invalid expiresIn"
               end
      | _ => config_error "PF token response missing accessToken"
      end
  end.

(** The contract as the code keeps it: a non-empty token with a positive lifetime, or
    [IntegrationConfigError] — except for a JSON body that is not an object. *)
Lemma fetch_pf_access_token_contract api_key api_secret auth_url w o w' :
  fetch_pf_access_token api_key api_secret auth_url w = (o, w') ->
  match o with
  | Ret (t, n) => t <> "" /\ 0 < n
  | Exc e => (exists m, e = PyErr IntegrationConfigError m) \/
             (exists r, fst (http_send (mkRequest "POST" auth_url None
                (Some (JObj [("apiKey", JStr api_key); ("apiSecret", JStr api_secret)]))
                [("Content-Type", "application/json"); ("Accept", "application/json")]) w) = r /\
              match r with
              | Exc e' => e = e' /\ isinstance e' HttpxHTTPError = false
              | Ret resp => isinstance e AttributeError = true /\ forall ob, loads (r_text resp) <> Some (JObj ob)
              end)
  end.
Proof.
  unfold fetch_pf_access_token. set (rq := mkRequest _ _ _ _ _). unfold bind at 1, catch.
  destruct (http_send rq w) as [[resp|e] w1]; cbn [fst].
  2:{ destruct (isinstance e HttpxHTTPError) eqn:Ei; intros [=]; subst; [left; eauto |].
      right. eexists. split; [reflexivity |]. done. }
  destruct (negb _); [intros [=]; subst; left; eauto |].
  destruct (loads (r_text resp)) as [data|] eqn:El; [| intros [=]; subst; left; eauto].
  destruct data as [| | | | |ob]; try (intros [=]; subst; right; eexists; split; [reflexivity |];
    split; [reflexivity | intros ob; rewrite El; discriminate]).
  cbn [json_get lift_out]. do 2 (erewrite bind_Ret by reflexivity).
  destruct (default JNull (dget "accessToken" ob)); try (intros [=]; subst; left; eauto; done).
  destruct (negb (nonempty s)) eqn:En; [intros [=]; subst; left; eauto |].
  destruct (default JNull (dget "expiresIn" ob)) as [|[]|n| | |]; cbn [positive_int];
    try (intros [=]; subst; left; eauto; done).
  - intros [=]; subst. apply negb_false_iff, nonempty_spec in En. split; [done | lia].
  - destruct (n <=? 0) eqn:E0; intros [=]; subst; [left; eauto |].
    apply negb_false_iff, nonempty_spec in En. split; [done | apply Z.leb_gt in E0; lia].
Qed.
End PfOauth.

(** ** hikcentral.py *)

Definition b64_alphabet : string :=
  "ABCDEFGHIJKLMNOPQRSTUVWXYZabcdefghijklmnopqrstuvwxyz0123456789+/".
Definition b64_char (n : Z) : string := String.substring (Z.to_nat n) 1 b64_alphabet.
(** [base64.b64encode(bytes).decode()] *)
Fixpoint b64encode (l : list Z) : string :=
  match l with
  | a :: b :: c :: l' =>
      b64_char (Z.shiftr a 2) +:+ b64_char (Z.lor (Z.shiftl (Z.land a 3) 4) (Z.shiftr b 4)) +:+
      b64_char (Z.lor (Z.shiftl (Z.land b 15) 2) (Z.shiftr c 6)) +:+ b64_char (Z.land c 63) +:+ b64encode l'
  | [a; b] =>
      b64_char (Z.shiftr a 2) +:+ b64_char (Z.lor (Z.shiftl (Z.land a 3) 4) (Z.shiftr b 4)) +:+
      b64_char (Z.shiftl (Z.land b 15) 2) +:+ "="
  | [a] => b64_char (Z.shiftr a 2) +:+ b64_char (Z.shiftl (Z.land a 3) 4) +:+ "=="
  | [] => ""
  end.
Example b64_rfc4648 :
  map (fun s => b64encode (bytes_of s)) ["f"; "fo"; "foo"; "foob"; "fooba"; "foobar"] =
  ["Zg=="; "Zm8="; "Zm9v"; "Zm9vYg=="; "Zm9vYmE="; "Zm9vYmFy"].
Proof. vm_compute. reflexivity. Qed.

Definition newline : string := String (ascii_of_nat 10) "".

(** The path the device expects in the signature *)
Definition artemis_path (path : string) : string :=
  let url_path := if startswith path "/" then path else "/" +:+ path in
  if startswith url_path "/artemis" then url_path else "/artemis" +:+ url_path.
Definition sign_hikcentral_request (now_ms : Z) (method path secret_key app_key : string)
    : list (string * string) :=
  let sign_string := upper method +:+ newline +:+ "application/json" +:+ newline +:+
                     "application/json" +:+ newline +:+ artemis_path path in
  let signature := b64encode (hmac_sha256 (bytes_of (utf8_encode secret_key))
                                          (bytes_of (utf8_encode sign_string))) in
  [("X-Ca-Key", app_key); ("X-Ca-Signature", signature); ("X-Ca-Timestamp", str_of_Z now_ms)].

(** An address by the properties of [ipaddress] that the check reads. *)
Record ip_address := mkIp {
  is_loopback : bool; is_link_local : bool; is_multicast : bool; is_reserved : bool; is_unspecified : bool;
}.
Definition disallowed (ip : ip_address) : bool :=
  is_loopback ip || is_link_local ip || is_multicast ip || is_reserved ip || is_unspecified ip.

Definition unavailable (detail code : string) : exn :=
  ApiError (ServiceUnavailableError (JStr detail) (JStr code) None).

Section HikCentral.
Context {W : Type} `{HttpEnv W}.
Variable host_ok : string -> bool.
Variable getaddrinfo : string -> outcome exn (list string).   (* the raw addresses *)
Variable classify : string -> outcome exn ip_address.         (* [ipaddress.ip_address] *)
Variable now_ms : W -> Z.
Variable today : W -> string * string.                        (* yesterday and today, ISO *)

Fixpoint check_addresses (hostname : string) (addrs : list string) : outcome exn unit :=
  match addrs with
  | [] => Ret tt
  | raw_ip :: addrs =>
      outcome_bind (classify raw_ip) (fun ip =>
        if disallowed ip then
          Exc (unavailable ("HikCentral base_url host " +:+ repr_str hostname +:+
            " resolves to a disallowed address (" +:+ raw_ip +:+ ")") "HIKCENTRAL_UNAVAILABLE_004")
        else check_addresses hostname addrs)
  end.
Definition _assert_safe_hikcentral_host (base_url : string) : outcome exn unit :=
  outcome_bind (urlsplit host_ok base_url) (fun parsed =>
  if negb (bool_decide (u_scheme parsed ∈ ["http"; "https"])) then
    Exc (unavailable ("HikCentral base_url must use http(s), got scheme " +:+ repr_str (u_scheme parsed))
           "HIKCENTRAL_UNAVAILABLE_002")
  else match Text.hostname parsed with
  | None => Exc (unavailable "HikCentral base_url has no hostname" "HIKCENTRAL_UNAVAILABLE_002")
  | Some hostname =>
      match getaddrinfo hostname with
      | Exc exc =>
          if isinstance exc GaiError then
            Exc (unavailable ("HikCentral base_url host " +:+ repr_str hostname +:+
              " could not be resolved: " +:+ str_exn exc) "HIKCENTRAL_UNAVAILABLE_003")
          else Exc exc
      | Ret addr_infos => check_addresses hostname addr_infos
      end
  end).

(** [base_url.rstrip("/")] *)
Fixpoint rstrip_slash (s : string) : string :=
  match s with
  | EmptyString => EmptyString
  | String c s' => match rstrip_slash s' with
                   | EmptyString => if bool_decide (c = "/"%char) then EmptyString else String c ""
                   | t => String c t
                   end
  end.
(** The two probes share everything but the request and the messages. *)
Definition probe (base_url app_key secret_key method path : string) (payload : W -> option json)
    (what failure code : string) : Py W (list (string * json)) :=
  let normalized_base := rstrip_slash base_url in
  do! lift_out (_assert_safe_hikcentral_host normalized_base) in
  let! headers := gets (fun w => dset "Content-Type" "application/json"
    (dset "Accept" "application/json" (sign_hikcentral_request (now_ms w) method path secret_key app_key))) in
  let! body := gets payload in
  let! response := catch (http_send (mkRequest method (normalized_base +:+ path) None body headers))
    (fun exc => if isinstance exc HttpxRequestError
                then raise (unavailable ("HikCentral unreachable: " +:+ str_exn exc) "HIKCENTRAL_UNAVAILABLE_001")
                else raise exc) in
  if negb (r_status response =? 200) then
    raise (unavailable ("HikCentral " +:+ what +:+ " probe returned HTTP " +:+ str_of_Z (r_status response))
             "HIKCENTRAL_UNAVAILABLE_005")
  else match loads (r_text response) with
  | None => raise (unavailable ("Invalid JSON response from HikCentral " +:+ what +:+ " probe")
                     "HIKCENTRAL_UNAVAILABLE_006")
  | Some (JObj result) =>
      if bool_decide (dget "code" result = Some (JStr "0")) then ret result
      else raise (unavailable (failure +:+ py_str (default (JStr "Unknown error") (dget "msg" result))) code)
  | Some _ => raise (PyErr AttributeError "object has no attribute 'get'")
  end.
Definition hikcentral_get_version (base_url app_key secret_key : string) : Py W (list (string * json)) :=
  probe base_url app_key secret_key "GET" "/api/common/v1/version" (fun _ => None)
    "version" "HikCentral version check failed: " "HIKCENTRAL_AUTH_001".
Definition hikcentral_probe_attendance (base_url app_key secret_key : string) : Py W (list (string * json)) :=
  probe base_url app_key secret_key "POST" "/api/attendance/v1/report"
    (fun w => let (yesterday, today) := today w in
      Some (JObj [("attendanceReportRequest", JObj [
        ("pageNo", JInt 1); ("pageSize", JInt 1);
        ("queryInfo", JObj [
          ("beginTime", JStr (yesterday +:+ "T00:00:00 04:00"));
          ("endTime", JStr (today +:+ "T23:59:59 04:00"));
          ("sortInfo", JObj [("sortField", JInt 1); ("sortType", JInt 1)]);
          ("personID", JList [])])])]))
    "attendance" "HikCentral attendance module unreachable/unlicensed: " "HIKCENTRAL_UNAVAILABLE_007".

(** A host that passes: http(s), a name that resolves, and no address that is loopback, link-local,
    multicast, reserved or unspecified. *)
Definition allowed (ip : ip_address) : Prop :=
  is_loopback ip = false /\ is_link_local ip = false /\ is_multicast ip = false /\
  is_reserved ip = false /\ is_unspecified ip = false.
Definition safe_host (base_url : string) : Prop :=
  exists parsed name addrs, urlsplit host_ok base_url = Ret parsed /\
    (u_scheme parsed = "http" \/ u_scheme parsed = "https") /\ Text.hostname parsed = Some name /\
    getaddrinfo name = Ret addrs /\ Forall (fun a => exists ip, classify a = Ret ip /\ allowed ip) addrs.
Lemma disallowed_spec ip : disallowed ip = false <-> allowed ip.
Proof. unfold disallowed, allowed. rewrite !orb_false_iff. tauto. Qed.
Lemma http_scheme (x : string) : x ∈ ["http"; "https"] <-> x = "http" \/ x = "https".
Proof. rewrite !elem_of_cons, elem_of_nil. tauto. Qed.
Lemma check_addresses_ret name addrs u :
  check_addresses name addrs = Ret u <->
  Forall (fun a => exists ip, classify a = Ret ip /\ allowed ip) addrs.
Proof.
  setoid_rewrite <- disallowed_spec. destruct u. induction addrs as [|a addrs IH]; [by split |]. rewrite Forall_cons, <- IH. cbn.
  destruct (classify a) as [ip|e]; cbn; [| split; [done | naive_solver]].
  destruct (disallowed ip) eqn:E; [split; [done |] | naive_solver].
  intros [(ip' & [= <-] & Hd) _]. congruence.
Qed.
Lemma assert_safe_ret base_url u :
  _assert_safe_hikcentral_host base_url = Ret u <-> safe_host base_url.
Proof.
  unfold _assert_safe_hikcentral_host, safe_host. setoid_rewrite <- http_scheme.
  destruct (urlsplit host_ok base_url) as [p|e]; cbn [outcome_bind];
    [| split; [done | by intros (? & ? & ? & ? & _)]].
  case_bool_decide as Hs; cbn [negb]; [| split; [done | intros (? & ? & ? & [= <-] & ? & _); done]].
  destruct (Text.hostname p) as [name|] eqn:Eh;
    [| split; [done | intros (? & ? & ? & [= <-] & _ & ? & _); congruence]].
  destruct (getaddrinfo name) as [addrs|e] eqn:Eg.
  - rewrite check_addresses_ret. split.
    + intros Hall. by exists p, name, addrs.
    + intros (? & ? & ? & [= <-] & _ & Hn & Ha & Hall). congruence.
  - destruct (isinstance e GaiError); (split; [done |]);
      intros (? & ? & ? & [= <-] & _ & Hn & Ha & _); congruence.
Qed.

(** C37. A probe is sent only to a host that was checked.  Unless the base URL is http(s) and every
    address its host resolves to at the check is none of loopback, link-local, multicast, reserved or
    unspecified, a probe sends nothing, leaves the network as it was and raises; otherwise it sends
    one request, to its own path under the base URL.  The client resolves the name again when it
    connects: a name rebound in between is outside the check, as the function's docstring says. *)
Theorem hikcentral_probes_only_safe_hosts base_url app_key secret_key method path payload what failure code w :
  (~ safe_host (rstrip_slash base_url) ->
   exists e, probe base_url app_key secret_key method path payload what failure code w = (Exc e, w)) /\
  (safe_host (rstrip_slash base_url) ->
   exists headers, snd (probe base_url app_key secret_key method path payload what failure code w) =
     snd (http_send (mkRequest method (rstrip_slash base_url +:+ path) None (payload w) headers) w)).
Proof.
  unfold probe. split; intros Hn.
  - destruct (_assert_safe_hikcentral_host (rstrip_slash base_url)) as [u|e] eqn:E.
    + by apply assert_safe_ret in E.
    + exists e. unfold lift_out. by apply bind_Exc.
  - apply (assert_safe_ret _ tt) in Hn. unfold lift_out. rewrite Hn.
    exists (dset "Content-Type" "application/json" (dset "Accept" "application/json"
      (sign_hikcentral_request (now_ms w) method path secret_key app_key))).
    unfold bind, gets, catch. cbn [ret fst snd]. destruct (http_send _ w) as [[r|e] w']; [| by destruct (isinstance e HttpxRequestError)].
    destruct (negb _); [done |]. destruct (loads _) as [[]|]; try done. by case_bool_decide.
Qed.
(** The signature always covers a path under /artemis, and re-signing the signed path changes nothing. *)
Lemma artemis_path_idem path : artemis_path (artemis_path path) = artemis_path path.
Proof.
  unfold artemis_path at 2. set (p := if startswith path "/" then path else "/" +:+ path).
  assert (startswith (if startswith p "/artemis" then p else "/artemis" +:+ p) "/artemis" = true) as Ha
    by (destruct (startswith p "/artemis") eqn:E; [done | apply startswith_append]).
  unfold artemis_path at 1. fold p. set (q := if startswith p "/artemis" then p else "/artemis" +:+ p) in *.
  assert (startswith q "/" = true) as ->.
  { apply startswith_inv in Ha as [t ->]. apply (startswith_append "/" ("artemis" +:+ t)). }
  by rewrite Ha.
Qed.
End HikCentral.

Lemma hikcentral_probes_only_safe_hosts_witness :
  exists e, @probe net _ (fun _ => true) (fun _ => Ret ["169.254.169.254"])
    (fun _ => Ret (mkIp false true false false false)) (fun _ => 0)
    "http://metadata.internal/" "key" "secret" "GET" "/api/common/v1/version" (fun _ => None) "version" "" ""
    (mkNet [] 0 0 []) = (Exc e, mkNet [] 0 0 []).
Proof.
  apply (hikcentral_probes_only_safe_hosts (fun _ => true) (fun _ => Ret ["169.254.169.254"])
    (fun _ => Ret (mkIp false true false false false)) (fun _ => 0)).
  intros (parsed & name & addrs & Hu & _ & _ & Ha & Hall). inversion Ha; subst.
  apply Forall_singleton in Hall as (ip & [= <-] & _ & Hd & _). discriminate Hd.
Defined.
