(* ===== verification/EventOps.v ===== *)
(** * Consumer groups from outside: health, supervision, PII

    Models src/tr_shared/events/group_health.py, supervisor.py and pii.py.  The
    Redis client's XINFO calls, the event loop's signal handlers and the consumer
    itself are parameters.  A reply's record is its items in order; field names may
    come as bytes or as text, values are JSON-like. *)

From S2P Require Import Prelude Json Hash Errors Webhooks.
Local Open Scope Z_scope.

(** ** group_health.py *)

Definition DEFAULT_LIVENESS_MULTIPLIER : Z := 3.
Record GroupHealth := mkHealth {
  gh_group : string;
  gh_exists : bool;
  gh_consumers : Z;
  gh_live_consumers : Z;
  gh_pending : Z;
  gh_lag : option Z;
  gh_min_idle_ms : option Z;
  gh_error : option string;
}.
(** What redis-py hands over *)
Inductive xtext := XBytes (b : string) | XValue (v : json).
Notation xrecord := (list (xtext * xtext)).
(** [_text]: bytes decode as UTF-8, anything else by [str()] *)
Definition _text (x : xtext) : outcome exn string :=
  match x with
  | XBytes b => match utf8_decode b with
                | Some s => Ret s
                | None => Exc (PyErr UnicodeDecodeError "'utf-8' codec can't decode bytes")
                end
  | XValue v => Ret (py_str v)
  end.
Fixpoint _field (record : xrecord) (name : string) : outcome exn xtext :=
  match record with
  | [] => Ret (XValue JNull)
  | (k, v) :: record =>
      outcome_bind (_text k) (fun t => if bool_decide (t = name) then Ret v else _field record name)
  end.
Definition _unhealthy (group : string) (error : option string) : GroupHealth :=
  mkHealth group false 0 0 0 None None error.

(** [int(x)] *)
Definition int_of (x : xtext) : outcome exn Z :=
  match x with
  | XValue (JInt n) => Ret n
  | XValue (JBool b) => Ret (if b then 1 else 0)
  | XValue (JStr s) | XBytes s =>
      match py_int s with
      | Some n => Ret n
      | None => Exc (PyErr ValueError "invalid literal for int() with base 10")
      end
  | XValue _ => Exc (PyErr TypeError "int() argument must be a string, a bytes-like object or a real number")
  end.
Definition x_truthy (x : xtext) : bool :=
  match x with XBytes b => nonempty b | XValue v => truthy v end.
(** [int(x or 0)] *)
Definition int_or_0 (x : xtext) : outcome exn Z := if x_truthy x then int_of x else Ret 0.
(** [next((g for g in groups if _text(_field(g, "name")) == group), None)] *)
Fixpoint find_group (groups : list xrecord) (group : string) : outcome exn (option xrecord) :=
  match groups with
  | [] => Ret None
  | g :: groups =>
      outcome_bind (_field g "name") (fun n => outcome_bind (_text n) (fun t =>
        if bool_decide (t = group) then Ret (Some g) else find_group groups group))
  end.
Fixpoint all_idles (consumers : list xrecord) : outcome exn (list Z) :=
  match consumers with
  | [] => Ret []
  | c :: consumers =>
      outcome_bind (_field c "idle") (fun x => outcome_bind (int_or_0 x) (fun n =>
      outcome_bind (all_idles consumers) (fun ns => Ret (n :: ns))))
  end.
Definition minimum (l : list Z) : option Z :=
  match l with [] => None | x :: l => Some (foldl Z.min x l) end.
Definition is_nil (x : xtext) : bool := match x with XValue JNull => true | _ => false end.
Definition caught (e : exn) : bool := isinstance e RedisError || isinstance e OSError.

Section GroupHealth.
Context {W : Type}.
Variable xinfo_groups : string -> Py W (list xrecord).
Variable xinfo_consumers : string -> string -> Py W (list xrecord).

(** What the code computes from the two replies *)
Definition group_report (group : string) (idle_threshold : Z) (record : xrecord) (consumers : list xrecord)
    : outcome exn GroupHealth :=
  outcome_bind (all_idles consumers) (fun idles =>
  outcome_bind (_field record "lag") (fun lag =>
  outcome_bind (_field record "consumers") (fun cs =>
  outcome_bind (int_or_0 cs) (fun cs =>
  outcome_bind (_field record "pending") (fun pending =>
  outcome_bind (int_or_0 pending) (fun pending =>
  outcome_bind (if is_nil lag then Ret None else outcome_bind (int_of lag) (fun n => Ret (Some n)))
    (fun lag => Ret (mkHealth group true cs
      (Z.of_nat (length (filter (fun idle => idle < idle_threshold) idles))) pending lag
      (minimum idles) None)))))))).
(** [try: await c / except (RedisError, OSError) as exc: str(exc)] *)
Definition redis_call {A} (c : Py W A) : Py W (A + string) :=
  catch (let! a := c in ret (inl a))
        (fun exc => if caught exc then ret (inr (str_exn exc)) else raise exc).
Definition consumer_group_health (stream group : string) (block_ms liveness_multiplier : Z)
    : Py W GroupHealth :=
  let idle_threshold := block_ms * liveness_multiplier in
  let! groups := redis_call (xinfo_groups stream) in
  match groups with
  | inr exc => ret (_unhealthy group (Some exc))
  | inl groups =>
      let! record := lift_out (find_group groups group) in
      match record with
      | None => ret (_unhealthy group None)
      | Some record =>
          let! consumers := redis_call (xinfo_consumers stream group) in
          match consumers with
          | inr exc => ret (_unhealthy group (Some exc))
          | inl consumers => lift_out (group_report group idle_threshold record consumers)
          end
      end
  end.

Lemma redis_call_ret {A} (c : Py W A) w a w' : c w = (Ret a, w') -> redis_call c w = (Ret (inl a), w').
Proof. intros Hc. unfold redis_call, catch. by rewrite (bind_Ret _ _ _ _ _ Hc). Qed.
Lemma redis_call_exc {A} (c : Py W A) w e w' : c w = (Exc e, w') ->
  redis_call c w = if caught e then (Ret (inr (str_exn e)), w') else (Exc e, w').
Proof. intros Hc. unfold redis_call, catch. rewrite (bind_Exc _ _ _ _ _ Hc). by destruct (caught e). Qed.

(** A well-formed XINFO reply: every field name is text, idle times are integers. *)
Definition group_record (name : string) (consumers pending : Z) (lag : option Z) : xrecord :=
  [(XValue (JStr "name"), XValue (JStr name)); (XValue (JStr "consumers"), XValue (JInt consumers));
   (XValue (JStr "pending"), XValue (JInt pending));
   (XValue (JStr "lag"), XValue (match lag with Some n => JInt n | None => JNull end))].
Definition consumer_record (name : string) (idle : Z) : xrecord :=
  [(XBytes "name", XBytes name); (XBytes "pending", XValue (JInt 0)); (XBytes "idle", XValue (JInt idle))].
Lemma int_or_0_int n : int_or_0 (XValue (JInt n)) = Ret n.
Proof. unfold int_or_0. cbn. by destruct n. Qed.
Lemma all_idles_records (cs : list (string * Z)) :
  all_idles (map (fun c => consumer_record (fst c) (snd c)) cs) = Ret (snd <$> cs).
Proof.
  induction cs as [|[n i] cs IH]; [done |]. cbn [map all_idles fst snd].
  change (_field (consumer_record n i) "idle") with (@Ret exn _ (XValue (JInt i))). cbn [outcome_bind].
  rewrite int_or_0_int. cbn [outcome_bind]. by rewrite IH.
Qed.

(** Group health says what Redis says: for well-formed replies the report counts as live exactly the
    consumers idle for less than the threshold, keeps the registered and pending counts, and passes
    an unknown lag on as unknown, not as zero; an error of Redis or of the network becomes an
    absent group with that error, and no other exception is hidden. *)
Theorem group_health_is_faithful stream group block_ms mult w :
  match xinfo_groups stream w with
  | (Exc e, w1) =>
      consumer_group_health stream group block_ms mult w =
        if caught e then (Ret (_unhealthy group (Some (str_exn e))), w1) else (Exc e, w1)
  | (Ret groups, w1) =>
      forall cs pending lag others, group ∉ (fun o : string * Z => fst o) <$> others ->
      groups = map (fun o => group_record (fst o) (snd o) 0 None) others ++ [group_record group cs pending lag] ->
      match xinfo_consumers stream group w1 with
      | (Exc e, w2) =>
          consumer_group_health stream group block_ms mult w =
            if caught e then (Ret (_unhealthy group (Some (str_exn e))), w2) else (Exc e, w2)
      | (Ret replies, w2) =>
          forall consumers, replies = map (fun c => consumer_record (fst c) (snd c)) consumers ->
          consumer_group_health stream group block_ms mult w =
            (Ret (mkHealth group true cs
               (Z.of_nat (length (filter (fun i => i < block_ms * mult) (snd <$> consumers)))) pending lag
               (minimum (snd <$> consumers)) None), w2)
      end
  end.
Proof.
  unfold consumer_group_health. destruct (xinfo_groups stream w) as [[groups|e] w1] eqn:Eg.
  2:{ unfold bind. rewrite (redis_call_exc _ _ _ _ Eg). by destruct (caught e). }
  intros cs pending lag others Hn ->.
  assert (find_group (map (fun o => group_record (fst o) (snd o) 0 None) others ++
            [group_record group cs pending lag]) group = Ret (Some (group_record group cs pending lag))) as Hf.
  { clear Eg. induction others as [|[n c] others IH]; cbn [map app find_group fst snd].
    - change (_field (group_record group cs pending lag) "name") with (@Ret exn _ (XValue (JStr group))).
      cbn [outcome_bind _text py_str]. by rewrite bool_decide_true.
    - change (_field (group_record n c 0 None) "name") with (@Ret exn _ (XValue (JStr n))).
      cbn [fst snd outcome_bind _text py_str]. cbn in Hn. rewrite not_elem_of_cons in Hn.
      rewrite bool_decide_false by naive_solver. apply IH. tauto. }
  destruct (xinfo_consumers stream group w1) as [[replies|e] w2] eqn:Ec.
  - intros consumers ->. rewrite (bind_Ret _ _ _ _ _ (redis_call_ret _ _ _ _ Eg)).
    rewrite Hf. unfold lift_out at 1. erewrite bind_Ret by reflexivity. cbn match.
    rewrite (bind_Ret _ _ _ _ _ (redis_call_ret _ _ _ _ Ec)).
    unfold group_report. rewrite all_idles_records. cbn [outcome_bind].
    change (_field (group_record group cs pending lag) "lag")
      with (@Ret exn _ (XValue (match lag with Some n => JInt n | None => JNull end))).
    change (_field (group_record group cs pending lag) "consumers") with (@Ret exn _ (XValue (JInt cs))).
    change (_field (group_record group cs pending lag) "pending") with (@Ret exn _ (XValue (JInt pending))).
    cbn [outcome_bind]. rewrite !int_or_0_int. cbn [outcome_bind]. by destruct lag.
  - rewrite (bind_Ret _ _ _ _ _ (redis_call_ret _ _ _ _ Eg)).
    rewrite Hf. unfold lift_out at 1. erewrite bind_Ret by reflexivity. cbn match.
    unfold bind. rewrite (redis_call_exc _ _ _ _ Ec). by destruct (caught e).
Qed.
End GroupHealth.

(** ** supervisor.py *)

Inductive signal := SIGTERM | SIGINT.
#[export] Instance signal_eq_dec : EqDecision signal.
Proof. solve_decision. Defined.
Definition SHUTDOWN_SIGNALS : list signal := [SIGTERM; SIGINT].

(** The event loop and the consumer under supervision. *)
Class Supervised (W : Type) := {
  add_signal_handler : signal -> Py W unit;
  remove_signal_handler : signal -> Py W unit;
  consumer_start : Py W unit;
  consumer_stop : Py W unit;
}.
Section Supervisor.
Context {W : Type} `{Supervised W}.
(** Signals whose handler could be installed, in order. *)
Definition _install_shutdown_handlers : Py W (list signal) :=
  mfold (fun installed sig =>
    catch (do! add_signal_handler sig in ret (installed ++ [sig]))
          (fun e => if isinstance e NotImplementedError || isinstance e RuntimeError
                    then ret installed else raise e)) SHUTDOWN_SIGNALS [].
Definition _remove_shutdown_handlers (installed : list signal) : Py W unit :=
  mfor installed remove_signal_handler.
Definition optional (hook : option (Py W unit)) : Py W unit :=
  match hook with Some h => h | None => ret tt end.
Definition run_supervised_consumer (get_consumer : Py W unit) (setup teardown : option (Py W unit))
    : Py W unit :=
  do! optional setup in
  do! get_consumer in
  let! installed := _install_shutdown_handlers in
  finally consumer_start
    (do! consumer_stop in
     do! _remove_shutdown_handlers installed in
     optional teardown).

(** The consumer is always stopped: once the handlers are installed, whether [start] returned or
    raised (cancellation included), [stop] runs on the state [start] left; when stopping works, the
    handlers that were installed are removed and the teardown runs, and the outcome is that of
    [start]; when [stop] raises, its exception wins and neither happens. *)
Theorem supervised_consumer_always_stopped get_consumer setup teardown w w1 w2 w3 installed o w4 :
  optional setup w = (Ret tt, w1) -> get_consumer w1 = (Ret tt, w2) ->
  _install_shutdown_handlers w2 = (Ret installed, w3) ->
  consumer_start w3 = (o, w4) ->
  run_supervised_consumer get_consumer setup teardown w =
  match consumer_stop w4 with
  | (Exc e, w5) => (Exc e, w5)
  | (Ret _, w5) =>
      match (do! _remove_shutdown_handlers installed in optional teardown) w5 with
      | (Ret _, w6) => (o, w6)
      | (Exc e, w6) => (Exc e, w6)
      end
  end.
Proof.
  intros Hs Hg Hi Hst. unfold run_supervised_consumer.
  rewrite (bind_Ret _ _ _ _ _ Hs), (bind_Ret _ _ _ _ _ Hg), (bind_Ret _ _ _ _ _ Hi).
  unfold finally. rewrite Hst. unfold bind at 1. by destruct (consumer_stop w4) as [[u|e] w5].
Qed.
End Supervisor.

(** ** pii.py *)

Definition hash_pii (value : option string) : option string :=
  match value with
  | Some v => if nonempty v
              then Some (String.substring 0 16 (hexdigest (sha256 (bytes_of (utf8_encode v))))) else None
  | None => None
  end.
Lemma hash_pii_spec v : hash_pii v = None <-> default "" v = "".
Proof.
  destruct v as [v|]; cbn; [| done].
  destruct (nonempty v) eqn:E; [apply nonempty_spec in E | apply nonempty_false in E]; naive_solver.
Qed.

(** ** Witnesses *)

Lemma group_health_is_faithful_witness :
  consumer_group_health (W := unit) (fun _ => ret [group_record "notify" 2 7 None])
    (fun _ _ => ret [consumer_record "c1" 100; consumer_record "c2" 90000]) "tr_event_bus" "notify" 5000 3 tt =
  (Ret (mkHealth "notify" true 2 1 7 None (Some 100) None), tt).
Proof.
  refine (eq_trans (group_health_is_faithful (W := unit) (fun _ => ret [group_record "notify" 2 7 None])
    (fun _ _ => ret [consumer_record "c1" 100; consumer_record "c2" 90000]) "tr_event_bus" "notify" 5000 3 tt
    2 7 None [] _ eq_refl [("c1", 100); ("c2", 90000)] eq_refl) _).
  - intros Hin. by apply elem_of_nil in Hin.
  - vm_compute. reflexivity.
Defined.

(** A consumer that fails to start, on a loop without signal handlers for SIGINT; the state logs calls. *)
Definition call (name : string) : Py (list string) unit := modify (fun l => l ++ [name]).
Definition flaky : Supervised (list string) := {|
  add_signal_handler s := if bool_decide (s = SIGINT) then raise (PyErr NotImplementedError "") else call "add";
  remove_signal_handler _ := call "remove";
  consumer_start := do! call "start" in raise (PyErr RuntimeError "lost the connection");
  consumer_stop := call "stop";
|}.
Lemma supervised_consumer_always_stopped_witness :
  run_supervised_consumer (H := flaky) (ret tt) None (Some (call "teardown")) [] =
  (Exc (PyErr RuntimeError "lost the connection"), ["add"; "start"; "stop"; "remove"; "teardown"]).
Proof.
  refine (supervised_consumer_always_stopped (H := flaky) (ret tt) None (Some (call "teardown"))
    [] [] [] ["add"] [SIGTERM] _ ["add"; "start"] _ _ _ _); reflexivity.
Defined.
