(* ===== verification/Lifecycle.v ===== *)
(** * The life of a consumer process

    Composes src/tr_shared/events/consumer.py ([EventConsumer.start], its two loops) with
    events/supervisor.py (the signal handlers and the final [stop] of [run_supervised_consumer]) as
    three asyncio tasks over one shared state: the main task, the claimer, and the task that a signal
    starts.  A task gives way only where the code awaits; one Redis pass (a read with its
    messages, a claim with its messages, one housekeeping call) is one step.  A schedule is the
    list of the tasks that get to run. *)

From S2P Require Import Prelude Json Errors Redis Streams Events Consumer.
Local Open Scope Z_scope.

(** Where each task stands.  [o] is how [_consume_loop] ended. *)
Inductive main_pc :=
| Opening | Grouping | Sweeping                    (* [connect()] *)
| Entering                                         (* [_running = True], the claimer's task *)
| Checking | Reading | Reconnecting                (* [_consume_loop] *)
| Cancelling (o : outcome exn unit) | Joining (o : outcome exn unit)     (* [finally] *)
| Closing (o : outcome exn unit) | Leaving (o : outcome exn unit)
| Stopping (o : outcome exn unit)                  (* the supervisor's [finally] *)
| Finished (o : outcome exn unit).
Inductive claimer_pc :=
| NoTask | ClaimChecking | Claiming | ClaimPausing | Ended (o : outcome exn unit).
Inductive signal_pc := NoSignal | ClosingConnection.
Inductive task := Main | Claimer | Signal.

Record system (W : Type) := mkSystem {
  s_main : main_pc; s_claimer : claimer_pc; s_cancelled : bool; s_signal : signal_pc;
  s_state : cstate * W;
}.
Arguments mkSystem {W}.
Arguments s_main {W}.
Arguments s_claimer {W}.
Arguments s_cancelled {W}.
Arguments s_signal {W}.
Arguments s_state {W}.

Section Tasks.
Context {W S : Type} `{StreamServer S} `{RedisConn W S}.
Variable clock : W -> string.
Variable cfg : consumer_config W.
Notation sys := (system W).

Definition running (s : sys) : bool := c_running (fst (s_state s)).
Definition connected (s : sys) : bool := c_redis (fst (s_state s)).
Definition goto (pc : main_pc) (st : cstate * W) (s : sys) : sys :=
  mkSystem pc (s_claimer s) (s_cancelled s) (s_signal s) st.
(** The step [c] of the main task: on to [next], or to [failed] with its exception. *)
Definition main_call (c : Py (cstate * W) unit) (next : main_pc) (failed : exn -> main_pc) (s : sys) : sys :=
  let (o, st) := c (s_state s) in
  match o with Ret _ => goto next st s | Exc e => goto (failed e) st s end.

Definition open_client (st : cstate * W) : cstate * W :=
  (mkCstate true true true (c_running (fst st)), snd st).
(** [self._running = True; self._claimer_task = create_task(...)], then the loop's first line *)
Definition enter (s : sys) : sys :=
  mkSystem (if connected s then Checking else Cancelling (Ret tt)) ClaimChecking false (s_signal s)
    (snd (set_running true (s_state s))).
Definition read_step (s : sys) : sys :=
  let (o, st) := consume_once clock cfg (s_state s) in
  match loop_reaction (c_running (fst st)) o with
  | Continue | Pause _ => goto Checking st s
  | Break => goto (Cancelling (Ret tt)) st s
  | Propagate e => goto (Cancelling (Exc e)) st s
  | Reconnect => goto Reconnecting st s
  end.
(** [while self._running:]; without a client the read is an [AttributeError], logged and repeated *)
Definition check_step (s : sys) : sys :=
  if negb (running s) then goto (Cancelling (Ret tt)) (s_state s) s
  else if connected s then goto Reading (s_state s) s else goto Checking (s_state s) s.
(** [self._running = False; self._claimer_task.cancel()] *)
Definition cancel_step (o : outcome exn unit) (s : sys) : sys :=
  mkSystem (Joining o) (s_claimer s) true (s_signal s) (snd (set_running false (s_state s))).
(** [await self._claimer_task]: its cancellation is swallowed, anything else it raised is not. *)
Definition join_step (o : outcome exn unit) (s : sys) : sys :=
  match s_claimer s with
  | NoTask | Ended (Ret _) => goto (Closing o) (s_state s) s
  | Ended (Exc e) => goto (Stopping (Exc e)) (s_state s) s
  | _ => s
  end.

Definition main_step (s : sys) : sys :=
  match s_main s with
  | Opening => goto Grouping (open_client (s_state s)) s
  | Grouping => main_call (_ensure_consumer_group cfg) Sweeping (fun e => Stopping (Exc e)) s
  | Sweeping => main_call (_sweep_zombie_consumers cfg) Entering (fun e => Stopping (Exc e)) s
  | Entering => enter s
  | Checking => check_step s
  | Reading => read_step s
  | Reconnecting => main_call (reconnect cfg) Checking (fun e => Cancelling (Exc e)) s
  | Cancelling o => cancel_step o s
  | Joining o => join_step o s
  | Closing o => main_call disconnect (Leaving o) (fun e => Stopping (Exc e)) s
  | Leaving o => main_call (_deregister_consumer cfg) (Stopping o) (fun e => Stopping (Exc e)) s
  | Stopping o => main_call stop (Finished o) (fun e => Finished (Exc e)) s
  | Finished _ => s
  end.

Definition set_claimer (pc : claimer_pc) (st : cstate * W) (s : sys) : sys :=
  mkSystem (s_main s) pc (s_cancelled s) (s_signal s) st.
(** [_claimer_loop]; a cancellation reaches the task where it is suspended and ends it. *)
Definition claimer_step (s : sys) : sys :=
  match s_claimer s with
  | NoTask | Ended _ => s
  | pc =>
    if s_cancelled s then set_claimer (Ended (Ret tt)) (s_state s) s
    else match pc with
    | ClaimChecking =>
        if running s then set_claimer Claiming (s_state s) s else set_claimer (Ended (Ret tt)) (s_state s) s
    | Claiming =>
        let (o, st) := _claim_once clock cfg (s_state s) in
        match o with
        | Ret _ => set_claimer ClaimPausing st s
        | Exc (PyErr CancelledError _) => set_claimer (Ended (Ret tt)) st s
        | Exc e =>
            if is_Exception e then
              set_claimer (if c_running (fst st) then ClaimPausing else Ended (Ret tt)) st s
            else set_claimer (Ended (Exc e)) st s
        end
    | _ => set_claimer ClaimChecking (s_state s) s
    end
  end.

(** The signal's task runs [stop]: [_running = False], then [await aclose()] on the client it found and,
    unless that raised, [_redis = None]. *)
Definition signal_step (s : sys) : sys :=
  match s_signal s with
  | NoSignal =>
      mkSystem (s_main s) (s_claimer s) (s_cancelled s)
        (if connected s then ClosingConnection else NoSignal) (snd (set_running false (s_state s)))
  | ClosingConnection =>
      mkSystem (s_main s) (s_claimer s) (s_cancelled s) NoSignal (snd (close_client (s_state s)))
  end.

Definition run_task (t : task) (s : sys) : sys :=
  match t with Main => main_step s | Claimer => claimer_step s | Signal => signal_step s end.
Definition run_schedule (sched : list task) (s : sys) : sys :=
  foldl (fun s t => run_task t s) s sched.
Definition launch (w : W) : sys := mkSystem Opening NoTask false NoSignal (cstate_init, w).
End Tasks.

(** ** Frames: what a pass does to the consumer's own attributes *)

Section Frames.
Context {W S : Type} `{StreamServer S} `{RedisConn W S}.
Variable clock : W -> string.
Variable cfg : consumer_config W.
Variable c : cstate.
Definition attrs_are (st : cstate * W) : Prop := fst st = c.

Lemma on_snd_attrs {A} (k : Py W A) : preserves attrs_are (on_snd k).
Proof. intros [c' w] Hc. unfold on_snd. cbn. by destruct (k w). Qed.
Lemma attrs_if {A} (f : cstate * W -> bool) (a b : Py (cstate * W) A) :
  preserves attrs_are a -> preserves attrs_are b ->
  preserves attrs_are (fun st => (if f st then a else b) st).
Proof. intros Ha Hb st Hst. destruct (f st); auto. Qed.
Lemma swallowed_attrs {A} (k : Py W A) (a : Py (cstate * W) A) :
  preserves attrs_are a -> preserves attrs_are (catch_Exception (on_snd k) (fun _ => a)).
Proof.
  intros Ha. apply preserves_catch; [apply on_snd_attrs | intros x; case_match; auto with py].
Qed.
Lemma failure_attrs id d e : preserves attrs_are (_handle_failure clock cfg id d e).
Proof.
  unfold _handle_failure, move_to_dlq. apply preserves_bind.
  - apply preserves_catch; [| intros x; case_match; auto with py].
    apply attrs_if; [apply on_snd_attrs | auto with py].
  - intros n. case_match; [| auto with py]. apply preserves_bind.
    + apply (attrs_if (fun st => c_dlq (fst st))); [apply swallowed_attrs |]; auto with py.
    + intros _. apply preserves_bind; [| auto with py].
      apply (attrs_if (fun st => c_retry (fst st))); [apply on_snd_attrs | auto with py].
Qed.
Lemma process_attrs id d : preserves attrs_are (_process_message clock cfg id d).
Proof.
  unfold _process_message, run_handler, move_to_dlq. case_match.
  - apply preserves_bind; [case_match; [apply on_snd_attrs | auto with py] |].
    intros dup. destruct dup; [auto with py |]. case_match; [case_match |]; auto with py.
    apply preserves_bind.
    + apply preserves_catch; [apply preserves_bind; [apply on_snd_attrs | auto with py] |].
      intros x. case_match; auto with py.
    + intros failed. case_match; [apply failure_attrs |].
      apply preserves_bind; [case_match; [apply on_snd_attrs | auto with py] |].
      intros _. apply preserves_bind; [| auto with py].
      apply (attrs_if (fun st => c_retry (fst st))); [apply on_snd_attrs | auto with py].
  - apply preserves_bind; [| auto with py].
    apply (attrs_if (fun st => c_dlq (fst st))); [apply swallowed_attrs |]; auto with py.
Qed.
Lemma messages_attrs ms : preserves attrs_are (mfor ms (process_and_ack clock cfg)).
Proof.
  apply preserves_mfor. intros m _. unfold process_and_ack, _ack.
  apply preserves_bind; [apply process_attrs |]. intros r. case_match; [| auto with py].
  intros st Hst. cbn. case_match; [| done].
  apply (preserves_bind attrs_are _ _ (on_snd_attrs _)); [auto with py | done].
Qed.
Lemma claim_attrs : preserves attrs_are (_claim_once clock cfg).
Proof.
  intros st Hst. unfold _claim_once. destruct (c_redis (fst st)); cbn [negb]; [| done].
  refine (preserves_bind attrs_are _ _ (on_snd_attrs _) _ st Hst). intros r.
  apply preserves_bind; [apply messages_attrs | auto with py].
Qed.
End Frames.

(** ** Invariants of every schedule *)

Definition alive (c : claimer_pc) : bool := match c with NoTask | Ended _ => false | _ => true end.

Section Invariants.
Context {W S : Type} `{StreamServer S} `{RedisConn W S}.
Variable clock : W -> string.
Variable cfg : consumer_config W.
Notation sys := (system W).
Notation run_task := (run_task clock cfg).
Notation run_schedule := (run_schedule clock cfg).

Lemma run_schedule_app l1 l2 (s : sys) : run_schedule (l1 ++ l2) s = run_schedule l2 (run_schedule l1 s).
Proof. apply foldl_app. Qed.
Lemma run_schedule_invariant (I : sys -> Prop) sched s :
  (forall t s, I s -> I (run_task t s)) -> I s -> I (run_schedule sched s).
Proof. intros Hstep. revert s. induction sched as [|t l IH]; intros s Hs; [done |]. by apply IH, Hstep. Qed.

(** What holds at each place of the main task. *)
Definition wf (s : sys) : Prop :=
  match s_main s with
  | Opening | Grouping | Sweeping | Entering => s_claimer s = NoTask
  | Checking | Reading | Reconnecting | Cancelling _ => True
  | Joining _ => s_cancelled s = true /\ running s = false
  | Closing _ => alive (s_claimer s) = false /\ running s = false
  | Leaving _ => alive (s_claimer s) = false /\ running s = false /\ connected s = false
  | Stopping _ => alive (s_claimer s) = false
  | Finished _ => alive (s_claimer s) = false /\ running s = false
  end.

Lemma close_client_attrs (st : cstate * W) :
  c_running (fst (snd (close_client st))) = c_running (fst st) /\
  (c_redis (fst st) = false -> c_redis (fst (snd (close_client st))) = false) /\
  (forall u, fst (close_client st) = Ret u -> c_redis (fst (snd (close_client st))) = false).
Proof.
  unfold close_client, bind, on_snd, modify. by destruct (aclose (snd st)) as [[u|e] w'].
Qed.
Lemma disconnect_attrs (st : cstate * W) :
  c_running (fst (snd (disconnect st))) = c_running (fst st) /\
  (forall u, fst (disconnect st) = Ret u -> c_redis (fst (snd (disconnect st))) = false).
Proof.
  unfold disconnect. destruct (c_redis (fst st)) eqn:E; [| done].
  destruct (close_client_attrs st) as (Hr & _ & Hc). done.
Qed.
Lemma stop_attrs (st : cstate * W) : c_running (fst (snd (stop st))) = false.
Proof.
  unfold stop, bind, set_running. destruct st as [c w].
  by destruct (disconnect_attrs (mkCstate (c_redis c) (c_dlq c) (c_retry c) false, w)) as [-> _].
Qed.
Lemma deregister_attrs c : preserves (attrs_are c) (_deregister_consumer cfg).
Proof.
  apply preserves_finally; [| apply on_snd_attrs].
  apply preserves_catch; [| intros e; case_match; auto with py].
  apply preserves_bind; [apply on_snd_attrs | intros ids]. case_match; [| auto with py].
  apply preserves_bind; [apply on_snd_attrs | auto with py].
Qed.
Lemma wf_main s : wf s -> wf (main_step clock cfg s).
Proof.
  intros Hs. unfold main_step, wf in *. destruct (s_main s) eqn:Em; unfold main_call.
  - done.
  - by destruct (_ensure_consumer_group cfg (s_state s)) as [[u|e] st]; cbn; [| rewrite Hs].
  - by destruct (_sweep_zombie_consumers cfg (s_state s)) as [[u|e] st]; cbn; [| rewrite Hs].
  - unfold enter. cbn. by destruct (connected s).
  - unfold check_step. by destruct (running s), (connected s).
  - unfold read_step. destruct (consume_once clock cfg (s_state s)) as [o st].
    by destruct (loop_reaction _ o).
  - by destruct (reconnect cfg (s_state s)) as [[u|e] st].
  - unfold cancel_step, set_running, running. destruct (s_state s) as [c w]. cbn. done.
  - unfold join_step. destruct (s_claimer s) as [| | | |[u|e]] eqn:Ec; cbn; rewrite ?Em, ?Ec; tauto.
  - destruct Hs as [Ha Hr], (disconnect_attrs (s_state s)) as [Hr' Hc].
    unfold running, connected in *.
    destruct (disconnect (s_state s)) as [[u|e] st]; cbn in *; [| done].
    split; [done |]. split; [congruence | by apply (Hc u)].
  - pose proof (deregister_attrs (fst (s_state s)) (s_state s) eq_refl) as Hd.
    destruct (_deregister_consumer cfg (s_state s)) as [[u|e] st]; cbn; tauto.
  - pose proof (stop_attrs (s_state s)) as Hr.
    by destruct (stop (s_state s)) as [[u|e] st].
  - by rewrite Em.
Qed.

Lemma claimer_frame s : let s' := claimer_step clock cfg s in
  s_main s' = s_main s /\ s_cancelled s' = s_cancelled s /\ s_signal s' = s_signal s /\
  fst (s_state s') = fst (s_state s) /\ (alive (s_claimer s) = false -> s' = s) /\
  (alive (s_claimer s) = true -> s_claimer s' <> NoTask) /\
  (s_cancelled s = true -> alive (s_claimer s') = false).
Proof.
  pose proof (claim_attrs clock cfg (fst (s_state s)) (s_state s) eq_refl) as Hc. unfold attrs_are in Hc.
  unfold claimer_step.
  destruct (s_claimer s) eqn:Ec; cbn zeta; rewrite ?Ec; destruct (s_cancelled s) eqn:Ex; cbn;
    rewrite ?Ex, ?Ec; try (by split_and!).
  - by destruct (running s); cbn; split_and!.
  - destruct (_claim_once clock cfg (s_state s)) as [[n|e] st]; cbn in *; [by split_and! |].
    destruct e as [c m| |]; [destruct c |..]; cbn; try destruct (c_running (fst st)); by split_and!.
Qed.
Lemma signal_frame (s : sys) : let s' := signal_step s in
  s_main s' = s_main s /\ s_cancelled s' = s_cancelled s /\ s_claimer s' = s_claimer s /\
  (running s = false -> running s' = false) /\ (connected s = false -> connected s' = false).
Proof.
  unfold signal_step, running, connected. destruct (close_client_attrs (s_state s)) as (Hr & Hn & _).
  destruct (s_signal s); cbn; [by destruct (s_state s) as [c w] |]. rewrite Hr. by split_and!.
Qed.

Lemma wf_step t s : wf s -> wf (run_task t s).
Proof.
  intros Hs.
  destruct t; [change (wf (main_step clock cfg s)) | change (wf (claimer_step clock cfg s))
    | change (wf (signal_step s))].
  - by apply wf_main.
  - destruct (claimer_frame s) as (Hm & Hx & _ & Hst & Hdead & _). unfold wf in *. rewrite Hm.
    assert (running (claimer_step clock cfg s) = running s) as Hr by (unfold running; by rewrite Hst).
    destruct (s_main s); rewrite ?Hx, ?Hr; try tauto;
      try (rewrite Hdead by (by rewrite Hs); done); try (by rewrite Hdead by tauto).
  - destruct (signal_frame s) as (Hm & Hx & Hc & Hr & Hn). unfold wf in *. rewrite Hm, Hc, ?Hx.
    destruct (s_main s); tauto.
Qed.
Lemma reachable_wf sched w : wf (run_schedule sched (launch w)).
Proof. apply run_schedule_invariant; [intros t s; apply wf_step | done]. Qed.

(** ** Shutdown *)






End Invariants.

(** A state of the process after some schedule. *)
Definition reachable {W S} `{StreamServer S} `{RedisConn W S} clock (cfg : consumer_config W)
    (s : system W) : Prop := exists sched w, s = run_schedule clock cfg sched (launch w).


Section Closed.
Context {W S : Type} `{StreamServer S} `{RedisConn W S}.
Variable clock : W -> string.
Variable cfg : consumer_config W.

End Closed.


(** A consumer leaves its group alone: in every schedule of the three tasks, when the main task
    gets to [_deregister_consumer] the claimer has ended, [_running] is false and the shared
    client is closed, so nothing reads or claims for this name any more; and the step leaves
    the pending list of every group as it was. *)
Theorem deregisters_alone {W S} `{RedisDoc S, !StreamServer S, !StreamDoc S}
    `{RedisConn W S, !RedisConnDoc W S} clock (cfg : consumer_config W) s o :
  reachable clock cfg s -> s_main s = Leaving o ->
  alive (s_claimer s) = false /\ running s = false /\ connected s = false /\
  forall st g, srv_pel (srv (snd (s_state (main_step clock cfg s)))) st g =
               srv_pel (srv (snd (s_state s))) st g.
Proof.
  intros (sched & w & Es) Hm. pose proof (reachable_wf clock cfg sched w) as Hw. rewrite <- Es in Hw.
  unfold wf in Hw.
  rewrite Hm in Hw. destruct Hw as (Ha & Hr & Hc). split_and!; try done. intros st g.
  unfold main_step, main_call. rewrite Hm.
  pose proof (deregister_pel cfg (srv_pel (srv (snd (s_state s)))) (s_state s)) as Hd.
  destruct (_deregister_consumer cfg (s_state s)) as [[u|e] st1]; cbn [goto s_state]; by apply Hd.
Qed.

(** ** Witnesses *)

Definition calm : consumer_config (conn smem) :=
  mkConsumer "bus" "g" "c1" 10 (mkRetryPolicy 3 2 30) None false 30000 1000 86400000 [].
Definition up : list task := [Main; Main; Main; Main; Main; Claimer; Main].
Definition demo_world : conn smem := mkConn (mkSmem mem0 ∅) 0 [].

(** Up, signalled, and after eight rounds. *)
Definition signalled : system (conn smem) :=
  run_schedule demo_clock calm (up ++ [Signal]) (launch demo_world).
Definition leaving : system (conn smem) :=
  run_schedule demo_clock calm [Main; Main; Main; Claimer; Main; Main] signalled.
Lemma deregisters_alone_witness : alive (s_claimer leaving) = false /\ connected leaving = false.
Proof.
  destruct (deregisters_alone demo_clock calm leaving (Ret tt)) as (Ha & _ & Hc & _).
  - exists ((up ++ [Signal]) ++ [Main; Main; Main; Claimer; Main; Main]), demo_world.
    rewrite run_schedule_app. unfold leaving, signalled. exact eq_refl.
  - vm_compute. reflexivity.
  - split; [exact Ha | exact Hc].
Defined.
(** A stop can be lost: when the signal arrives while [connect] is in flight and start-up goes on
    while the signal's task awaits the closing of the connection, [_running = True] overwrites the
    stop; the loop then runs on without a client, one [AttributeError] at a time: the main task's step
    leads back to the same state. *)
Lemma stop_during_connect_is_lost :
  let s := run_schedule demo_clock calm [Main; Main; Signal; Main; Main; Signal] (launch demo_world) in
  s_main s = Checking /\ running s = true /\ connected s = false /\ s_signal s = NoSignal /\
  main_step demo_clock calm s = s.
Proof. vm_compute. by split_and!. Qed.
