(* ===== verification/Worker.v ===== *)
(** * Celery workers and the vault

    Models src/tr_shared/celery/async_runner.py (the worker's one event loop),
    factory.py (the app's configuration), log_context.py (the context of log lines)
    and vault.py.  asyncio's loops, Celery's signals, structlog's context and the
    Vault extension are parameters. *)

From S2P Require Import Prelude Json Errors Text HttpClient.
From Stdlib Require Import Ascii.
Local Open Scope Z_scope.

(** ** async_runner.py *)

(** The process: the module's [_worker_loop] by its identity, the loops asyncio knows, and its
    operations.  [run_until_complete] runs a coroutine on a loop. *)
Class LoopEnv (W : Type) := {
  new_event_loop : Py W nat;
  set_event_loop : nat -> Py W unit;
  loop_closed : W -> nat -> bool;
  pending_tasks : W -> nat -> list nat;           (* tasks of the loop not done *)
  cancel_task : nat -> Py W unit;
  gather_on : nat -> list nat -> Py W unit;       (* [run_until_complete(gather(...))] *)
  close_loop : nat -> Py W unit;
}.
Section Runner.
Context {W : Type} `{LoopEnv W}.
Notation St := (option nat * W)%type.

Definition _get_or_create_worker_loop : Py St nat := fun st =>
  match fst st with
  | Some l => if loop_closed (snd st) l then
                (let! l := on_snd new_event_loop in
                 do! modify (fun st => (Some l, snd st)) in
                 do! on_snd (set_event_loop l) in ret l) st
              else (Ret l, st)
  | None => (let! l := on_snd new_event_loop in
             do! modify (fun st => (Some l, snd st)) in
             do! on_snd (set_event_loop l) in ret l) st
  end.
Definition run_async_in_celery {A} (coro : nat -> Py W A) : Py St A :=
  let! l := _get_or_create_worker_loop in on_snd (coro l).

Definition shutdown_worker_loop : Py St unit := fun st =>
  match fst st with
  | None => (Ret tt, (None, snd st))
  | Some l =>
      if loop_closed (snd st) l then (Ret tt, (None, snd st))
      else
        finally
          (catch_Exception
             (let! pending := gets (fun st : St => pending_tasks (snd st) l) in
              do! mfor pending (fun t => on_snd (cancel_task t)) in
              match pending with [] => ret tt | _ => on_snd (gather_on l pending) end)
             (fun _ => ret tt))
          (do! catch_Exception (on_snd (close_loop l)) (fun _ => ret tt) in
           modify (fun st => (None, snd st))) st
  end.

(** One loop per process: once there is an open loop, every task runs on it, and as long as no task
    closes it the next task finds the same one. *)
Lemma worker_loop_persists {A B} (task : nat -> Py W A) (next : nat -> Py W B) l (w : W) :
  loop_closed w l = false -> (forall o w', task l w = (o, w') -> loop_closed w' l = false) ->
  exists o w', task l w = (o, w') /\
    run_async_in_celery task (Some l, w) = (o, (Some l, w')) /\
    run_async_in_celery next (Some l, w') =
      (let (o', w'') := next l w' in (o', (Some l, w''))).
Proof.
  intros Hopen Hkeep. destruct (task l w) as [o w'] eqn:Et. exists o, w'. split; [done |].
  assert (forall w0, loop_closed w0 l = false ->
            _get_or_create_worker_loop (Some l, w0) = (Ret l, (Some l, w0))) as Hget.
  { intros w0 H0. unfold _get_or_create_worker_loop. cbn [fst snd]. by rewrite H0. }
  unfold run_async_in_celery, bind. rewrite !Hget by eauto. unfold on_snd. cbn [fst snd].
  by rewrite Et.
Qed.
(** Shutting down always forgets the loop, also when cleaning up or closing failed; doing it again
    changes nothing. *)
Lemma shutdown_forgets st :
  (forall l w e w', close_loop l w = (Exc e, w') -> is_Exception e = true) ->
  fst (snd (shutdown_worker_loop st)) = None /\
  forall st', fst st' = None -> shutdown_worker_loop st' = (Ret tt, st').
Proof.
  intros Hclose. split.
  - unfold shutdown_worker_loop. destruct st as [[l|] w]; cbn [fst snd]; [| done].
    destruct (loop_closed w l); [done |]. unfold finally.
    match goal with |- context [let (o, w1) := ?c in _] => destruct c as [o [l1 w1]] end.
    unfold bind at 1, catch_Exception, catch, on_snd. cbn [fst snd].
    destruct (close_loop l w1) as [[u|e] w2] eqn:Ec; [done |].
    by rewrite (Hclose _ _ _ _ Ec).
  - intros [l w] E. cbn in E. by subst l.
Qed.
End Runner.

(** ** factory.py *)

(** [re.compile(r"^[a-z][a-z0-9_]*$").match(value)]: without [re.MULTILINE] the final [$] also matches
    before a line break at the end. *)
Definition is_lower_letter (c : ascii) : bool :=
  let n := nat_of_ascii c in (97 <=? n)%nat && (n <=? 122)%nat.
Definition name_char (c : ascii) : bool :=
  is_lower_letter c || is_decimal c || bool_decide (c = "_"%char).
Definition strip_final_newline (s : string) : string := removesuffix s (String (ascii_of_nat 10) "").
Definition queue_name_match (value : string) : bool :=
  match strip_final_newline value with
  | String c s => is_lower_letter c && all_chars name_char s
  | EmptyString => false
  end.
Definition _validate_name (value field : string) : outcome exn string :=
  if queue_name_match value then Ret value
  else Exc (PyErr ValueError
    (field +:+ "=" +:+ repr_str value +:+ " is not a valid Celery name. Expected " +:+
     "^[a-z][a-z0-9_]*$ (lowercase, digits, underscores). A name with a " +:+
     "space or hyphen is silently unroutable: it becomes a queue no worker " +:+
     "subscribes to, and tasks sent there are accepted and never run. " +:+
     "Pass an explicit literal — never derive this from SERVICE_NAME, which " +:+
     "Railway sets to a human-readable display label.")).

Definition _KEEPALIVE_TUNING : list (string * Z) :=
  [("TCP_KEEPIDLE", 60); ("TCP_KEEPINTVL", 10); ("TCP_KEEPCNT", 3)].
(** [socket_constant]: the platform's option numbers *)
Definition TCP_KEEPALIVE_OPTIONS (socket_constant : string -> option Z) : list (string * json) :=
  dict_merge [] (flat_map (fun nv => match socket_constant (fst nv) with
                                     | Some option => [(str_of_Z option, JInt (snd nv))]
                                     | None => []
                                     end) _KEEPALIVE_TUNING).
Definition BROKER_TRANSPORT_OPTIONS (socket_constant : string -> option Z) : list (string * json) :=
  [("socket_keepalive", JBool true);
   ("socket_keepalive_options", JObj (TCP_KEEPALIVE_OPTIONS socket_constant))].

Record celery_app := mkCelery {
  ca_name : string; ca_broker : string; ca_backend : string;
  ca_conf : list (string * json);
  ca_receivers : list (string * string);      (* signal, dispatch uid: connected once each *)
}.
Definition receivers : list (string * string) :=
  [("before_task_publish", "tr_shared.log_context.stamp"); ("task_prerun", "tr_shared.log_context.bind");
   ("task_postrun", "tr_shared.log_context.restore"); ("setup_logging", "tr_shared.log_context.setup");
   ("worker_process_init", "tr_shared.dispose_engines")].
Definition conf_update (conf new : list (string * json)) : list (string * json) := dict_merge conf new.

Record celery_args := mkCeleryArgs {
  service_name : string; broker_url : string; result_backend : string; default_queue : string;
  task_namespace : option string; task_modules : list string; beat_schedule : list (string * json);
  task_time_limit : Z; task_soft_time_limit : Z; worker_prefetch_multiplier : Z;
  task_annotations : list (string * json); dead_letter_queue : option string;
  extra_config : list (string * json);
}.
(** The three stages of [app.conf]: the library's settings, the optional ones, and the caller's
    [extra_config], whose transport options are laid over the library's, not put in their place. *)
Definition base_conf (transport : list (string * json)) (a : celery_args) : list (string * json) :=
  conf_update [] [
    ("task_serializer", JStr "json"); ("accept_content", JList [JStr "json"]);
    ("result_serializer", JStr "json"); ("timezone", JStr "UTC"); ("enable_utc", JBool true);
    ("task_track_started", JBool true); ("task_acks_late", JBool true);
    ("task_reject_on_worker_lost", JBool true); ("broker_connection_retry_on_startup", JBool true);
    ("broker_transport_options", JObj transport);
    ("redis_socket_keepalive", JBool true); ("redis_retry_on_timeout", JBool true);
    ("redis_backend_health_check_interval", JInt 30);
    ("task_time_limit", JInt (task_time_limit a));
    ("task_soft_time_limit", JInt (task_soft_time_limit a));
    ("worker_prefetch_multiplier", JInt (worker_prefetch_multiplier a));
    ("worker_disable_rate_limits", JBool false); ("result_expires", JInt 3600);
    ("task_default_queue", JStr (default_queue a));
    ("task_routes", match task_namespace a with
                    | Some ns => JObj [(ns +:+ ".*", JObj [("queue", JStr (default_queue a))])]
                    | None => JObj []
                    end)].
Definition set_unless_empty {A} (k : string) (l : list A) (v : json) (conf : list (string * json)) :=
  match l with [] => conf | _ => dset k v conf end.
Definition optional_conf (a : celery_args) (conf : list (string * json)) : list (string * json) :=
  let conf := set_unless_empty "include" (task_modules a) (JList (map JStr (task_modules a))) conf in
  let conf := set_unless_empty "beat_schedule" (beat_schedule a) (JObj (beat_schedule a)) conf in
  let conf := set_unless_empty "task_annotations" (task_annotations a) (JObj (task_annotations a)) conf in
  match dead_letter_queue a with
  | Some q => if nonempty q then dset "task_default_dead_letter_queue" (JStr q) conf else conf
  | None => conf
  end.
Definition extra_conf (transport extra conf : list (string * json))
    : outcome exn (list (string * json)) :=
  match extra with
  | [] => Ret conf
  | _ =>
      outcome_bind
        match dget "broker_transport_options" extra with
        | None => Ret conf
        | Some v =>
            if truthy v then
              match v with
              | JObj o => Ret (dset "broker_transport_options" (JObj (dict_merge transport o)) conf)
              | _ => Exc (PyErr TypeError "argument after ** must be a mapping")
              end
            else Ret conf
        end
        (fun conf => Ret (conf_update conf (ddel "broker_transport_options" extra)))
  end.
Definition create_celery_app (socket_constant : string -> option Z) (a : celery_args)
    : outcome exn celery_app :=
  outcome_bind (_validate_name (default_queue a) "default_queue") (fun _ =>
  outcome_bind (match task_namespace a with
                | Some ns => _validate_name ns "task_namespace"
                | None => Ret ""
                end) (fun _ =>
  let transport := BROKER_TRANSPORT_OPTIONS socket_constant in
  outcome_bind (extra_conf transport (extra_config a) (optional_conf a (base_conf transport a)))
    (fun conf => Ret (mkCelery (service_name a) (broker_url a) (result_backend a) conf receivers)))).

Lemma dget_dict_merge {V} k (a b : list (string * V)) :
  k ∉ b.*1 -> dget k (dict_merge a b) = dget k a.
Proof.
  unfold dict_merge. revert a. induction b as [|[k' v] b IH]; intros a Hk; [done |]. cbn in *.
  apply not_elem_of_cons in Hk as [Hk1 Hk2]. rewrite IH by done. by apply dget_dset_ne.
Qed.
Lemma dict_merge_last {V} k (v : V) (a b : list (string * V)) :
  NoDup b.*1 -> (k, v) ∈ b -> dget k (dict_merge a b) = Some v.
Proof.
  unfold dict_merge. revert a. induction b as [|[k' v'] b IH]; intros a Hn Hin; [set_solver |].
  cbn in *. apply NoDup_cons in Hn as [Hk Hn]. apply elem_of_cons in Hin as [[=<- <-] | Hin].
  - change (foldl _ ?x b) with (dict_merge x b). rewrite dget_dict_merge by done. apply dget_dset_eq.
  - by apply IH.
Qed.
(** The caller's value of the broker's transport options, where it is given. *)
Definition caller_transport (a : celery_args) : list (string * json) :=
  match dget "broker_transport_options" (extra_config a) with Some (JObj o) => o | _ => [] end.

Lemma Ret_inj {A} (x y : A) : Ret (E := exn) x = Ret y -> x = y.
Proof. congruence. Qed.
Lemma ddel_not_in {V} k (d : list (string * V)) : k ∉ (ddel k d).*1.
Proof. rewrite <- dget_None_notin. apply dget_ddel_eq. Qed.

Lemma optional_conf_other a k v conf :
  k <> "include" -> k <> "beat_schedule" -> k <> "task_annotations" ->
  k <> "task_default_dead_letter_queue" -> dget k conf = Some v -> dget k (optional_conf a conf) = Some v.
Proof.
  intros H1 H2 H3 H4 Hv. unfold optional_conf, set_unless_empty.
  assert (forall {A} k' (l : list A) v' c, k <> k' -> dget k c = Some v ->
            dget k (match l with [] => c | _ => dset k' v' c end) = Some v) as Hset.
  { intros A k' [|x l] v' c Hne Hc; [done |]. by rewrite dget_dset_ne. }
  destruct (dead_letter_queue a) as [q|]; [destruct (nonempty q) |];
    rewrite ?dget_dset_ne by done; by repeat apply Hset.
Qed.
Lemma extra_conf_transport transport a conf conf' :
  dget "broker_transport_options" conf = Some (JObj transport) ->
  extra_conf transport (extra_config a) conf = Ret conf' ->
  exists options, dget "broker_transport_options" conf' = Some (JObj options) /\
    forall k, k ∉ (caller_transport a).*1 -> dget k options = dget k transport.
Proof.
  intros Hc. unfold extra_conf, caller_transport, conf_update.
  destruct (extra_config a) as [|e extra]; [intros <-%Ret_inj; eauto |].
  destruct (dget "broker_transport_options" (e :: extra)) as [v|]; unfold outcome_bind.
  - destruct (truthy v).
    + destruct v; try discriminate. intros <-%Ret_inj. rewrite dget_dict_merge by apply ddel_not_in.
      rewrite dget_dset_eq. eexists. split; [done |]. intros k Hk. by apply dget_dict_merge.
    + intros <-%Ret_inj. rewrite dget_dict_merge by apply ddel_not_in. eauto.
  - intros <-%Ret_inj. rewrite dget_dict_merge by apply ddel_not_in. eauto.
Qed.

(** The keepalive cannot be lost by accident: whatever the arguments, the broker's transport options
    of a created app are the library's ones with the caller's on top, so an option the caller does
    not name itself keeps its value. *)
Theorem celery_keepalive_survives socket_constant a app :
  create_celery_app socket_constant a = Ret app ->
  exists options, dget "broker_transport_options" (ca_conf app) = Some (JObj options) /\
    forall k, k ∉ (caller_transport a).*1 ->
      dget k options = dget k (BROKER_TRANSPORT_OPTIONS socket_constant).
Proof.
  unfold create_celery_app, outcome_bind. destruct (_validate_name (default_queue a) _); [| done].
  destruct (match task_namespace a with Some _ => _ | None => _ end); [| done].
  destruct (extra_conf _ _ _) as [conf|] eqn:E; [| done]. intros <-%Ret_inj. cbn [ca_conf].
  refine (extra_conf_transport _ _ _ _ (optional_conf_other _ _ _ _ _ _ _ _ _) E);
    [discriminate.. | reflexivity].
Qed.
Definition lead_args : celery_args :=
  mkCeleryArgs "lead" "redis://b" "redis://r" "lead_tasks" (Some "lead") [] [] 600 540 1 [] None
    [("broker_transport_options", JObj [("visibility_timeout", JInt 60)])].
Definition lead_app : celery_app :=
  match create_celery_app (fun _ => Some 4) lead_args with
  | Ret app => app
  | Exc _ => mkCelery "" "" "" [] []
  end.
Lemma celery_keepalive_survives_witness :
  exists options, dget "broker_transport_options" (ca_conf lead_app) = Some (JObj options) /\
    dget "socket_keepalive" options = Some (JBool true).
Proof.
  assert (create_celery_app (fun _ => Some 4) lead_args = Ret lead_app) as E by (vm_compute; reflexivity).
  destruct (celery_keepalive_survives (fun _ => Some 4) lead_args lead_app E) as (options & Ho & Hk).
  exists options. split; [exact Ho |]. rewrite Hk; [vm_compute; reflexivity |].
  change (caller_transport lead_args) with [("visibility_timeout", JInt 60)]. cbn.
  apply not_elem_of_cons. split; [discriminate | apply not_elem_of_nil].
Defined.
(** A queue name may end in a line break. *)
Lemma queue_name_with_newline :
  _validate_name ("media_tasks" +:+ String (ascii_of_nat 10) "") "default_queue" =
  Ret ("media_tasks" +:+ String (ascii_of_nat 10) "").
Proof. vm_compute. reflexivity. Qed.

(** ** log_context.py *)

Definition CELERY_CORRELATION_HEADER := "x_tr_correlation_id".
(** structlog's context variables, and the module's [_baseline]. *)
Notation context := (list (string * json)).
Record log_state := mkLog { ls_context : context; ls_baseline : context }.
Notation Log A := (Py log_state A).

Definition clear_contextvars : Log unit := modify (fun st => mkLog [] (ls_baseline st)).
Definition bind_contextvars (kw : context) : Log unit :=
  modify (fun st => mkLog (dict_merge (ls_context st) kw) (ls_baseline st)).
Definition get_correlation_id (ctx : context) : json := default JNull (dget "correlation_id" ctx).

(** [structlog.contextvars.bind_contextvars( **a, **b )] *)
Definition keywords (a b : context) : outcome exn context :=
  if existsb (fun kv => bool_decide (kv.1 ∈ a.*1)) b
  then Exc (PyErr TypeError "bind_contextvars() got multiple values for keyword argument")
  else Ret (a ++ b).
Definition _rebind (fields : context) : Log unit :=
  do! clear_contextvars in
  let! st := gets id in
  let! kw := lift_out (keywords (ls_baseline st) fields) in
  bind_contextvars kw.

(** [fresh]: the value [str(uuid.uuid4())] would have *)
Definition _stamp_correlation_id (fresh : string) (ctx : context) (headers : option context)
    : option context :=
  match headers with
  | None => None
  | Some h =>
      let id := if truthy (get_correlation_id ctx) then get_correlation_id ctx else JStr fresh in
      Some (match dget CELERY_CORRELATION_HEADER h with
            | Some _ => h
            | None => dset CELERY_CORRELATION_HEADER id h
            end)
  end.

(** The running task: its request's attributes are the headers of its message. *)
Record celery_task := mkTask { t_name : string; t_is_eager : bool; t_request : context }.

Definition _bind_task_context (fresh : string) (task : celery_task) (task_id : json) : Log unit :=
  if t_is_eager task then ret tt
  else
    let sent := default JNull (dget CELERY_CORRELATION_HEADER (t_request task)) in
    _rebind [("correlation_id", if truthy sent then sent else JStr fresh);
             ("task_id", task_id); ("task_name", JStr (t_name task))].
Definition _restore_baseline (task : celery_task) : Log unit :=
  if t_is_eager task then ret tt else _rebind [].

(** The part of [configure_logging] that touches the context. *)
Definition configure_logging (service_name : string) : Log unit :=
  if nonempty service_name then bind_contextvars [("service_name", JStr service_name)] else ret tt.
Definition _configure_worker_logging (service_name : string) : Log unit :=
  do! configure_logging service_name in
  modify (fun st => mkLog (ls_context st) (dict_merge [] (ls_context st))).

Lemma keywords_disjoint a b : (forall k, k ∈ b.*1 -> k ∉ a.*1) -> keywords a b = Ret (a ++ b).
Proof.
  intros Hd. unfold keywords. destruct (existsb _ b) eqn:E; [| done].
  apply existsb_exists in E as ([k v] & Hin & Hk%bool_decide_eq_true). cbn in Hk.
  apply list_elem_of_In in Hin. destruct (Hd k); [by apply (list_elem_of_fmap_2 fst _ (k, v)) | done].
Qed.
Lemma rebind_disjoint fields st :
  (forall k, k ∈ fields.*1 -> k ∉ (ls_baseline st).*1) ->
  _rebind fields st =
  (Ret tt, mkLog (dict_merge [] (ls_baseline st ++ fields)) (ls_baseline st)).
Proof.
  intros Hd. unfold _rebind, clear_contextvars, bind_contextvars, modify, gets, id, bind.
  cbn [ls_baseline ls_context]. by rewrite keywords_disjoint.
Qed.
Lemma dict_merge_app {V} (a b c : list (string * V)) :
  dict_merge a (b ++ c) = dict_merge (dict_merge a b) c.
Proof. apply foldl_app. Qed.
Lemma dict_merge_base {V} k (b : list (string * V)) : NoDup b.*1 -> dget k (dict_merge [] b) = dget k b.
Proof.
  intros Hn. destruct (dget k b) as [v|] eqn:E.
  - apply dict_merge_last; [done | by apply dget_in].
  - apply dget_None_notin in E. by rewrite dget_dict_merge.
Qed.

Definition task_fields : list string := ["correlation_id"; "task_id"; "task_name"].

(** A correlation id crosses the queue: a task published under an id runs, in the worker, with that
    id, the worker's own baseline and the task's name in the context of its log lines; whatever the
    task bound, the context after it is the baseline again; and a task run eagerly, inside another
    one, touches neither the context nor the baseline. *)
Theorem celery_log_context pctx c headers sent fresh fresh' name task_id st :
  get_correlation_id pctx = JStr c -> nonempty c = true ->
  dget CELERY_CORRELATION_HEADER headers = None ->
  _stamp_correlation_id fresh pctx (Some headers) = Some sent ->
  NoDup (ls_baseline st).*1 -> (forall k, k ∈ task_fields -> k ∉ (ls_baseline st).*1) ->
  (exists ctx, _bind_task_context fresh' (mkTask name false sent) task_id st =
                 (Ret tt, mkLog ctx (ls_baseline st)) /\
     get_correlation_id ctx = JStr c /\
     dget "task_id" ctx = Some task_id /\ dget "task_name" ctx = Some (JStr name) /\
     forall k, k ∉ task_fields -> dget k ctx = dget k (ls_baseline st)) /\
  (exists ctx, _restore_baseline (mkTask name false sent) st = (Ret tt, mkLog ctx (ls_baseline st)) /\
     forall k, dget k ctx = dget k (ls_baseline st)) /\
  _bind_task_context fresh' (mkTask name true sent) task_id st = (Ret tt, st) /\
  _restore_baseline (mkTask name true sent) st = (Ret tt, st).
Proof.
  intros Hc Hne Hh Hs Hn Hd. split; [| split; [| split; done]].
  - unfold _stamp_correlation_id in Hs. rewrite Hh, Hc in Hs. cbn [truthy] in Hs. rewrite Hne in Hs.
    injection Hs as <-. unfold _bind_task_context. cbn [t_is_eager t_request t_name].
    rewrite dget_dset_eq. cbn [default from_option id truthy]. rewrite Hne.
    rewrite rebind_disjoint by exact Hd. eexists. split; [done |].
    rewrite dict_merge_app. unfold get_correlation_id, dict_merge at 1 3 5. cbn [foldl].
    repeat split.
    + rewrite !dget_dset_ne, dget_dset_eq by done. done.
    + rewrite dget_dset_ne, dget_dset_eq by done. done.
    + by rewrite dget_dset_eq.
    + intros k Hk. unfold task_fields in Hk. rewrite !not_elem_of_cons in Hk.
      destruct Hk as (? & ? & ? & _). unfold dict_merge at 1. cbn [foldl].
      rewrite !dget_dset_ne by done. by apply dict_merge_base.
  - unfold _restore_baseline. cbn [t_is_eager]. rewrite rebind_disjoint by (intros k Hk; by apply elem_of_nil in Hk).
    eexists. split; [done |]. intros k. rewrite app_nil_r. by apply dict_merge_base.
Qed.
Definition worker_log : log_state :=
  snd (_configure_worker_logging "lead-worker" (mkLog [] [])).
Lemma celery_log_context_witness :
  exists ctx, _bind_task_context "u-2" (mkTask "lead.sync" false [(CELERY_CORRELATION_HEADER, JStr "req-1")])
                (JStr "t-9") worker_log = (Ret tt, mkLog ctx (ls_baseline worker_log)) /\
    get_correlation_id ctx = JStr "req-1" /\ dget "service_name" ctx = Some (JStr "lead-worker").
Proof.
  destruct (celery_log_context [("correlation_id", JStr "req-1")] "req-1" []
    [(CELERY_CORRELATION_HEADER, JStr "req-1")] "u-1" "u-2" "lead.sync" (JStr "t-9") worker_log)
    as ((ctx & Hrun & Hid & _ & _ & Hbase) & _).
  - reflexivity.
  - reflexivity.
  - reflexivity.
  - reflexivity.
  - apply NoDup_cons_2; [apply not_elem_of_nil | apply NoDup_nil_2].
  - intros k Hk Hin. apply list_elem_of_singleton in Hin as ->.
    unfold task_fields in Hk. rewrite !elem_of_cons, elem_of_nil in Hk.
    destruct Hk as [? | [? | [? | []]]]; discriminate.
  - exists ctx. split; [exact Hrun |]. split; [exact Hid |]. rewrite Hbase; [reflexivity |].
    unfold task_fields. rewrite !not_elem_of_cons. repeat split; try discriminate. apply not_elem_of_nil.
Defined.
