(* ===== verification/OutboxTask.v ===== *)
(** * The outbox's periodic task

    Models create_outbox_drainer_task of src/tr_shared/events/outbox_drainer.py: the Celery
    task that builds its session factory and producer and drains one batch (Outbox) on the
    worker's event loop (Worker).  The theorem is progress: while Redis and the database
    answer, runs of the task publish the rows that are due in the order of their due times, each
    once, and the whole backlog when all of it is due. *)

From S2P Require Import Prelude Json Errors Redis Streams Events Outbox Worker.
From stdpp Require Import sorting.
Local Open Scope Z_scope.

(** [RetryPolicy(max_retries=10)] and the callback that only logs: the defaults of [drain_outbox] *)
Definition drain_policy (retry_policy : option RetryPolicy) : RetryPolicy :=
  match retry_policy with Some policy => policy | None => mkRetryPolicy 10 2 30 end.
Definition _default_dead_letter_callback {W} (row : outbox_row) (retry_count : Z) (err : string) : Py W unit :=
  ret tt.
Definition dlq_cb {W} (on_dead_letter : option (outbox_row -> Z -> string -> Py W unit)) :=
  match on_dead_letter with Some cb => cb | None => _default_dead_letter_callback end.

Section Task.
Context {W S : Type} `{StreamServer S} `{RedisConn W S} `{EventEnv W} `{DbConn W}.
Notation world := (bool * W)%type.
Context `{LoopEnv world}.
Variable session_factory_getter : Py world unit.
Variable producer_getter : Py world EventProducer.
Variables (batch_size : Z) (retry_policy : option RetryPolicy).
Variable on_dead_letter : option (outbox_row -> Z -> string -> Py W unit).

(** [_task]: the getters run in the synchronous part, before the loop is looked up. *)
Definition _task : Py (option nat * world) drained :=
  do! on_snd session_factory_getter in
  let! producer := on_snd producer_getter in
  run_async_in_celery (fun _ =>
    drain_outbox (S := S) producer (drain_policy retry_policy) (dlq_cb on_dead_letter) batch_size).
(** The scheduler's runs, one after the other, and how many events they report as published *)
Definition task_runs (k : nat) : Py (option nat * world) Z :=
  mfold (fun n (_ : unit) => let! d := _task in ret (n + published d)) (repeat tt k) 0.
End Task.

(** ** The backlog *)

Definition pending (r : outbox_row) : Prop := o_published_at r = None /\ o_dead_letter r = false.
#[export] Instance pending_dec r : Decision (pending r).
Proof. unfold pending. apply _. Defined.
Definition backlog (t : table) : table := filter pending t.

(** Every row as before, except that those with an id in [ids] are published. *)
Definition marked (ids : list string) (r r' : outbox_row) : Prop :=
  if bool_decide (o_id r ∈ ids) then exists now, r' = set_published now r else r' = r.

Lemma marked_nil t : Forall2 (marked []) t t.
Proof. apply Forall_Forall2_diag, Forall_forall. intros r _. unfold marked. by rewrite bool_decide_false by set_solver. Qed.
Lemma marked_id ids r r' : marked ids r r' -> o_id r' = o_id r.
Proof. unfold marked. case_bool_decide; [by intros [now ->] | by intros ->]. Qed.
Lemma marked_ids ids t t' : Forall2 (marked ids) t t' -> map o_id t' = map o_id t.
Proof. induction 1 as [|r r' t t' Hr _ IH]; [done |]. cbn. by rewrite IH, (marked_id _ _ _ Hr). Qed.
(** One UPDATE, then the others *)
Lemma marked_after ids id now t : forall t',
  Forall2 (marked ids) (update_where id (set_published now) t) t' -> Forall2 (marked (id :: ids)) t t'.
Proof.
  induction t as [|r t IH]; intros t'; cbn; [by intros ->%Forall2_nil_inv_l |].
  intros (r' & t'' & Hr & Ht & ->)%Forall2_cons_inv_l. constructor; [| by apply IH].
  unfold marked in *. destruct (decide (o_id r = id)) as [E | E].
  - rewrite (bool_decide_true (_ = _)) in Hr by done. rewrite bool_decide_true by set_solver.
    case_bool_decide; [by destruct Hr as [n ->]; exists n | by exists now].
  - rewrite (bool_decide_false (_ = _)) in Hr by done. case_bool_decide as E2.
    + rewrite bool_decide_true by set_solver. exact Hr.
    + by rewrite bool_decide_false by set_solver.
Qed.
(** What is left of the backlog *)
Lemma backlog_marked ids t t' : Forall2 (marked ids) t t' ->
  backlog t' = filter (fun r => o_id r ∉ ids) (backlog t).
Proof.
  unfold backlog. induction 1 as [|r r' t t' Hr _ IH]; [done |]. unfold marked in Hr. case_bool_decide as E.
  - destruct Hr as [now ->]. rewrite filter_cons_False by (by intros [? _]).
    rewrite IH, (filter_cons pending r). case_decide; [| done]. by rewrite filter_cons_False by tauto.
  - subst r'. rewrite !(filter_cons pending r). case_decide; [| done].
    by rewrite filter_cons_True, IH by done.
Qed.
Lemma filter_true {A} (P : A -> Prop) `{forall x, Decision (P x)} (l : list A) :
  (forall x, x ∈ l -> P x) -> filter P l = l.
Proof.
  induction l as [|x l IH]; intros Hl; [done |]. rewrite filter_cons_True by (apply Hl; set_solver).
  rewrite IH; [done |]. intros y Hy. apply Hl. set_solver.
Qed.
Lemma filter_others (rows rest : table) : NoDup (map o_id (rows ++ rest)) ->
  filter (fun r => o_id r ∉ map o_id rows) (rows ++ rest) = rest.
Proof.
  rewrite map_app. intros (_ & Hd & _)%NoDup_app. rewrite filter_app, filter_none, filter_true; [done | |].
  - intros r Hr Hin. apply (Hd _ Hin). by apply list_elem_of_fmap_2.
  - intros r Hr Hn. apply Hn. by apply list_elem_of_fmap_2.
Qed.
Lemma nodup_backlog t : NoDup (map o_id t) -> NoDup (map o_id (backlog t)).
Proof. intros Hn. eapply sublist_NoDup; [exact Hn |]. apply fmap_sublist, sublist_filter. Qed.

(** The backlog that was already due at [T]: it goes first, because the SELECT orders by [next_retry_at]. *)
Definition by_then (T : Z) (r : outbox_row) : Prop := o_next_retry_at r <= T.
#[export] Instance by_then_dec T r : Decision (by_then T r).
Proof. unfold by_then. apply _. Defined.
Definition early (T : Z) (t : table) : table := filter (by_then T) (backlog t).
Lemma early_due T t : early T t = filter (due T) t.
Proof.
  unfold early, backlog. rewrite list_filter_filter. apply list_filter_iff. intros r. unfold due, pending, by_then. tauto.
Qed.
Lemma early_perm T l1 l2 : l1 ≡ₚ l2 ->
  length (filter (by_then T) l1) = length (filter (by_then T) l2).
Proof. by intros ->. Qed.
(** A batch off a list sorted by [next_retry_at] takes the early rows first. *)
Lemma sorted_drop T b (l : table) : StronglySorted by_next_retry l ->
  length (filter (by_then T) (drop b l)) =
  (length (filter (by_then T) l) - b)%nat.
Proof.
  intros Hl. revert b. induction Hl as [|r l Hl IH Hr]; intros [|b]; cbn [drop]; [done | done | lia |].
  rewrite IH, filter_cons. case_decide as E; cbn [length]; [lia |].
  rewrite filter_none; [done |]. intros x Hx. rewrite Forall_forall in Hr. specialize (Hr x Hx). unfold by_next_retry, by_then in *. lia.
Qed.
#[export] Instance by_next_retry_trans : Transitive by_next_retry.
Proof. intros x y z. unfold by_next_retry. lia. Qed.
#[export] Instance by_next_retry_total : Total by_next_retry.
Proof. intros x y. unfold by_next_retry. lia. Qed.

(** One batch: the rows selected, and the rest of the backlog *)
Lemma select_split now T b t : T <= now ->
  exists rest : table, backlog t ≡ₚ sql_select_due now b t ++ rest /\
    (forall r, r ∈ sql_select_due now b t -> due now r) /\
    length (filter (by_then T) rest) = (length (early T t) - Z.to_nat b)%nat.
Proof.
  intros HT. set (L := merge_sort by_next_retry (filter (due now) t)). set (later := filter (fun r => ~ due now r) (backlog t)).
  assert (Hb : backlog t ≡ₚ L ++ later).
  { unfold L, later. rewrite merge_sort_Permutation.
    assert (E : filter (due now) t = filter (due now) (backlog t))
      by (unfold backlog; symmetry; apply list_filter_filter_l; by intros r (? & ? & _)).
    rewrite E. generalize (backlog t). intros l. induction l as [|r l IH]; [done |]. rewrite !filter_cons.
    destruct (decide (due now r)) as [Hd | Hd], (decide (~ due now r)); try tauto; cbn [app]; rewrite <- ?Permutation_middle; by rewrite IH at 1. }
  exists (drop (Z.to_nat b) L ++ later). unfold sql_select_due. fold L. split_and!.
  - by rewrite app_assoc, take_drop.
  - intros r Hr%subseteq_take. unfold L in Hr. rewrite merge_sort_Permutation in Hr. by apply list_elem_of_filter in Hr as [? _].
  - assert (Hlater : filter (by_then T) later = []).
    { apply filter_none. intros r Hr Hle. apply list_elem_of_filter in Hr as [Hn Hr]. apply Hn.
      apply list_elem_of_filter in Hr as [[? ?] _]. unfold by_then in Hle. repeat split; [done | done | lia]. }
    unfold early. rewrite (early_perm T _ _ Hb), !filter_app, Hlater, !app_nil_r. apply sorted_drop.
    apply (StronglySorted_merge_sort _).
Qed.

(** When the runs were enough for what was due at [T], all of it left the backlog; and with it the
    whole backlog, if all of that was due. *)
Lemma early_served T t t' (rows : table) n :
  backlog t ≡ₚ rows ++ backlog t' -> length (early T t') = (length (early T t) - n)%nat ->
  (length (filter (due T) t) <= n)%nat ->
  (forall r, r ∈ backlog t -> due T r -> r ∈ rows) /\
  ((forall r, r ∈ backlog t -> due T r) -> backlog t' = [] /\ rows ≡ₚ backlog t).
Proof.
  intros Hb He Hn. rewrite <- early_due in Hn. assert (Hnone : early T t' = []) by (apply nil_length_inv; lia).
  assert (Hrest : forall r, r ∈ backlog t' -> ~ due T r).
  { intros r Hr (_ & _ & Hle). assert (Hin : r ∈ early T t') by by apply list_elem_of_filter.
    rewrite Hnone in Hin. by apply elem_of_nil in Hin. }
  split.
  - intros r Hr Hd. rewrite Hb in Hr. apply elem_of_app in Hr as [Hr | Hr]; [done | by destruct (Hrest r Hr)].
  - intros Hall. assert (Hempty : backlog t' = []).
    { destruct (backlog t') as [|r rest]; [done | exfalso]. apply (Hrest r); [left | apply Hall; rewrite Hb; set_solver]. }
    rewrite Hempty, app_nil_r in Hb. by rewrite Hb.
Qed.

(** What draining may do to a row *)
Definition served (r r' : outbox_row) : Prop :=
  r' = r \/ pending r /\ exists now, r' = set_published now r.
#[export] Instance served_refl : Reflexive served.
Proof. by left. Qed.
#[export] Instance served_trans : Transitive served.
Proof.
  intros r1 r2 r3 [-> | [Hp [n1 ->]]]; [done |].
  intros [-> | [[Hp' _] _]]; [right; eauto | discriminate].
Qed.
Lemma marked_served t t' rows : NoDup (map o_id t) -> (forall r, r ∈ rows -> r ∈ backlog t) ->
  Forall2 (marked (map o_id rows)) t t' -> Forall2 served t t'.
Proof.
  intros Hn Hrows Hm. apply Forall2_same_length_lookup_2; [by eapply Forall2_length |].
  intros i r r' Hr Hr'. pose proof (Forall2_lookup_lr _ _ _ _ _ _ Hm Hr Hr') as Hx.
  unfold marked in Hx. case_bool_decide as E; [| by left]. right. split; [| done].
  apply list_elem_of_fmap in E as (x & Ex & Hin). apply Hrows in Hin.
  apply list_elem_of_filter in Hin as [Hp Hin].
  by rewrite (row_unique t r x Hn (list_elem_of_lookup_2 _ _ _ Hr) Hin Ex).
Qed.

(** ** Progress *)

Section Progress.
Context {W S : Type} `{StreamServer S} `{RedisConn W S} `{EventEnv W} `{DbConn W}.
Notation world := (bool * W)%type.
Context `{LoopEnv world}.
Variable session_factory_getter : Py world unit.
Variable producer_getter : Py world EventProducer.
Variables (batch_size : Z) (retry_policy : option RetryPolicy).
Variable on_dead_letter : option (outbox_row -> Z -> string -> Py W unit).
Variables (p : EventProducer) (loop : nat).
(** The services answer in the states [up], and every event that is [publishable] reaches Redis:
    [sent] is an account of what was handed over, of which [sends r] tells an entry for the row [r]. *)
Variables (up : world -> Prop) (publishable : outbox_row -> Prop).
Context {L : Type}.
Variables (sent : world -> list L) (sends : outbox_row -> L -> Prop).

Notation rows_of st := (db_table (snd st)).
Notation clock st := (db_now (snd st)).
(** A step in good order that leaves the table alone *)
Definition calm (st st' : world) : Prop := up st' /\ rows_of st' = rows_of st /\ clock st <= clock st'.
Definition quiet (st st' : world) : Prop := calm st st' /\ sent st' = sent st.
Record healthy : Prop := {
  he_open st : up st -> loop_closed st loop = false;
  he_factory st : up st -> exists st', session_factory_getter st = (Ret tt, st') /\ quiet st st';
  he_producer st : up st -> exists st', producer_getter st = (Ret p, st') /\ quiet st st';
  he_publish r st : up st -> publishable r -> exists a eid st',
    row_args r = Ret a /\ publish_row (S := S) p r a st = (Ret eid, st') /\ calm st st' /\
    exists x, sent st' = sent st ++ [x] /\ sends r x;
  he_txn A (f : table -> A * table) st : up st -> exists w',
    db_txn f (snd st) = (Ret (fst (f (rows_of st))), w') /\ db_table w' = snd (f (rows_of st)) /\
    up (fst st, w') /\ clock st <= db_now w' /\ sent (fst st, w') = sent st;
}.
Hypothesis Hup : healthy.

Notation drain_one := (drain_row (S := S) p (drain_policy retry_policy) (dlq_cb on_dead_letter)).
Lemma drain_row_healthy r st : up st -> publishable r ->
  exists st' now, drain_one r st = (Ret Published, st') /\ up st' /\ clock st <= clock st' /\
    rows_of st' = update_where (o_id r) (set_published now) (rows_of st) /\
    exists x, sent st' = sent st ++ [x] /\ sends r x.
Proof.
  intros Hst Hr. destruct (he_publish Hup r st Hst Hr) as (a & eid & st1 & Ea & Ep & (Hu1 & Ht1 & Hc1) & x & Hx & Hs).
  destruct (he_txn Hup _ (fun t => (tt, update_where (o_id r) (set_published (clock st1)) t)) st1 Hu1)
    as (w2 & E2 & Ht2 & Hu2 & Hc2 & Hl2).
  exists (fst st1, w2), (clock st1). unfold drain_row, catch_Exception, catch. rewrite Ea.
  rewrite (bind_Ret _ _ _ _ _ Ep). unfold bind, on_snd, sql_update. rewrite E2. cbn [fst snd] in *.
  rewrite <- Ht1. split_and!; [done | done | lia | done |]. exists x. by rewrite Hl2.
Qed.
Lemma drain_rows_healthy rows : forall d st, up st -> (forall r, r ∈ rows -> publishable r) ->
  exists d' st', mfold (fun d r => let! o := drain_one r in ret (tally d o)) rows d st = (Ret d', st') /\
    published d' = published d + Z.of_nat (length rows) /\ up st' /\ clock st <= clock st' /\
    Forall2 (marked (map o_id rows)) (rows_of st) (rows_of st') /\
    exists l, sent st' = sent st ++ l /\ Forall2 sends rows l.
Proof.
  induction rows as [|r rows IH]; intros d st Hst Hrows; cbn [mfold].
  { exists d, st. cbn. split_and!; [done | lia | done | lia | apply marked_nil |]. exists []. by rewrite app_nil_r. }
  destruct (drain_row_healthy r st Hst (Hrows r ltac:(left))) as (st1 & now & E1 & Hu1 & Hc1 & Ht1 & x & Hx & Hs).
  destruct (IH (tally d Published) st1 Hu1 (fun x Hx => Hrows x (list_elem_of_further _ _ _ Hx)))
    as (d' & st' & E' & Hd & Hu' & Hc' & Hm & l & Hl & Hsl).
  exists d', st'. rewrite Ht1 in Hm. split_and!; [| | done | lia | by eapply marked_after |].
  - unfold bind at 1 2. by rewrite E1.
  - rewrite Hd. cbn. lia.
  - exists (x :: l). rewrite Hl, Hx, <- app_assoc. split; [done | by constructor].
Qed.

(** What a run keeps: order, unique ids, and a backlog that can be published *)
Definition ready (st : world) : Prop :=
  up st /\ NoDup (map o_id (rows_of st)) /\ forall r, r ∈ backlog (rows_of st) -> publishable r.
Lemma ready_quiet st st' : ready st -> quiet st st' -> ready st'.
Proof. intros (_ & Hn & Hb) [(Hu & Ht & Hc) _]. unfold ready. by rewrite Ht. Qed.
Lemma ready_marked st st' ids : ready st -> up st' -> Forall2 (marked ids) (rows_of st) (rows_of st') -> ready st'.
Proof.
  intros (_ & Hn & Hb) Hu Hm. split_and!; [done | by rewrite (marked_ids _ _ _ Hm) |].
  intros r Hr. rewrite (backlog_marked _ _ _ Hm) in Hr. apply list_elem_of_filter in Hr as [_ Hr]. by apply Hb.
Qed.

(** The rows [rows], each due by the end, left the backlog and were sent, those due at [T] before
    any other; no other row changed. *)
Definition served_by (T : Z) (batches : nat) (st st' : world) (rows : table) : Prop :=
  backlog (rows_of st) ≡ₚ rows ++ backlog (rows_of st') /\
  (forall r, r ∈ rows -> due (clock st') r) /\
  length (early T (rows_of st')) = (length (early T (rows_of st)) - batches * Z.to_nat batch_size)%nat /\
  Forall2 served (rows_of st) (rows_of st') /\
  clock st <= clock st' /\
  exists l, sent st' = sent st ++ l /\ Forall2 sends rows l.
Lemma served_by_nil T st : served_by T 0 st st [].
Proof.
  split_and!; [done | by intros r ?%elem_of_nil | lia | apply Forall_Forall2_diag, Forall_forall; reflexivity | done |].
  exists []. by rewrite app_nil_r.
Qed.
Lemma served_by_quiet T n st st' rows st1 : quiet st st1 -> served_by T n st1 st' rows -> served_by T n st st' rows.
Proof. intros [(_ & Ht & Hc) Hl]. unfold served_by. rewrite Ht, Hl. intros (? & ? & ? & ? & ? & ?). split_and!; try done. lia. Qed.
Lemma served_by_trans T a b st1 st2 st3 rows1 rows2 :
  served_by T a st1 st2 rows1 -> served_by T b st2 st3 rows2 -> served_by T (a + b) st1 st3 (rows1 ++ rows2).
Proof.
  intros (Hp1 & Hd1 & Hn1 & Hs1 & Hc1 & l1 & Hl1 & Hf1) (Hp2 & Hd2 & Hn2 & Hs2 & Hc2 & l2 & Hl2 & Hf2).
  split_and!; [by rewrite Hp1, Hp2, app_assoc | | lia | by transitivity (rows_of st2) | lia |].
  - intros r [Hr | Hr]%elem_of_app; [| by apply Hd2].
    destruct (Hd1 r Hr) as (? & ? & ?). repeat split; [done | done | lia].
  - exists (l1 ++ l2). split; [by rewrite Hl2, Hl1, app_assoc | by apply Forall2_app].
Qed.

(** One batch *)
Lemma drain_healthy T st : ready st -> T <= clock st -> exists d st' rows,
  drain_outbox (S := S) p (drain_policy retry_policy) (dlq_cb on_dead_letter) batch_size st = (Ret d, st') /\
  ready st' /\ published d = Z.of_nat (length rows) /\ served_by T 1 st st' rows.
Proof.
  intros Hr HT. pose proof Hr as (Hu & Hn & Hb).
  destruct (he_txn Hup _ (fun t => (sql_select_due (clock st) batch_size t, t)) st Hu) as (w1 & E1 & Ht1 & Hu1 & Hc1 & Hl1).
  cbn [fst snd] in *.
  destruct (select_split (clock st) T batch_size (rows_of st) HT) as (rest & Hperm & Hdue & Hlen).
  destruct (drain_rows_healthy (sql_select_due (clock st) batch_size (rows_of st)) (mkDrained 0 0 0) (fst st, w1))
    as (d & st' & E & Hd & Hu' & Hc' & Hm & l & Hl & Hs); [done | |].
  { intros r Hin. apply Hb. rewrite Hperm. set_solver. }
  cbn [snd] in *. rewrite Ht1 in Hm. exists d, st', (sql_select_due (clock st) batch_size (rows_of st)).
  assert (Hrest : backlog (rows_of st') ≡ₚ rest).
  { rewrite (backlog_marked _ _ _ Hm), Hperm, filter_others; [done |].
    rewrite <- Hperm. by apply nodup_backlog. }
  split_and!.
  - unfold drain_outbox, select_due, bind at 1, on_snd. rewrite E1. exact E.
  - eapply ready_marked; [exact Hr | done | exact Hm].
  - rewrite Hd. cbn. lia.
  - split_and!; [by rewrite Hrest | | | | lia | exists l; by rewrite Hl, Hl1].
    + intros r Hin. destruct (Hdue r Hin) as (? & ? & ?). repeat split; [done | done | lia].
    + unfold early at 1. rewrite (early_perm T _ _ Hrest). lia.
    + eapply marked_served; [done | | exact Hm]. intros r Hin. rewrite Hperm. set_solver.
Qed.
Lemma task_healthy T st : ready st -> T <= clock st -> exists d st' rows,
  _task (S := S) session_factory_getter producer_getter batch_size retry_policy on_dead_letter (Some loop, st) =
    (Ret d, (Some loop, st')) /\
  ready st' /\ published d = Z.of_nat (length rows) /\ served_by T 1 st st' rows.
Proof.
  intros Hr HT. destruct (he_factory Hup st (proj1 Hr)) as (st1 & E1 & Hq1).
  pose proof (ready_quiet _ _ Hr Hq1) as Hr1.
  destruct (he_producer Hup st1 (proj1 Hr1)) as (st2 & E2 & Hq2). pose proof (ready_quiet _ _ Hr1 Hq2) as Hr2.
  destruct (drain_healthy T st2 Hr2) as (d & st' & rows & E & Hr' & Hd & Hs).
  { destruct Hq1 as [(_ & _ & ?) _], Hq2 as [(_ & _ & ?) _]. lia. }
  exists d, st', rows. split; [| split; [done | split; [done |]]].
  - unfold _task, bind at 1, on_snd at 1. cbn [fst snd]. rewrite E1. unfold bind at 1, on_snd at 1. cbn [fst snd]. rewrite E2.
    unfold run_async_in_celery, bind at 1, _get_or_create_worker_loop. cbn [fst snd].
    rewrite (he_open Hup st2 (proj1 Hr2)). unfold on_snd. cbn [fst snd]. by rewrite E.
  - eapply served_by_quiet; [exact Hq1 |]. eapply served_by_quiet; [exact Hq2 | exact Hs].
Qed.
Lemma runs_healthy T k : forall n st, ready st -> T <= clock st ->
  exists st' rows, mfold (fun n (_ : unit) =>
      let! d := _task (S := S) session_factory_getter producer_getter batch_size retry_policy on_dead_letter in
      ret (n + published d)) (repeat tt k) n (Some loop, st) =
      (Ret (n + Z.of_nat (length rows)), (Some loop, st')) /\
    served_by T k st st' rows.
Proof.
  induction k as [|k IH]; intros n st Hr HT; cbn [mfold repeat].
  - exists st, []. rewrite Z.add_0_r. split; [done | apply served_by_nil].
  - destruct (task_healthy T st Hr HT) as (d & st1 & rows1 & E1 & Hr1 & Hn & Hs1).
    destruct (IH (n + published d) st1 Hr1) as (st' & rows2 & E & Hs2); [destruct Hs1 as (_ & _ & _ & _ & ? & _); lia |].
    exists st', (rows1 ++ rows2). split; [| apply (served_by_trans T 1 k _ _ _ _ _ Hs1 Hs2)].
    unfold bind at 1 2. rewrite E1. cbn. rewrite E. do 2 f_equal. rewrite Hn, length_app. lia.
Qed.
End Progress.

(** C22. The backlog drains.  Let the database commit, the worker's loop stay open, the
    database's clock not run backwards, row ids be unique and every pending row be one that
    Redis takes.  Then [k] runs of the periodic task return and publish a part [rows] of the backlog:
    only rows that have become due; every row that was due at the start, when these are no more
    than [k] batches - they go before rows that become due later, as the SELECT orders by
    [next_retry_at]; the whole backlog, if all of it was due.  A row that is
    backed off past the start may wait for a later run.  The runs report exactly as many events as
    they published, each event was sent once and nothing else was sent, and no row changed except
    by marking a pending one as published. *)
Theorem outbox_drains {W S L} `{StreamServer S} `{RedisConn W S} `{EventEnv W} `{DbConn W}
    `{LoopEnv (bool * W)} session_factory_getter producer_getter batch_size retry_policy on_dead_letter
    p loop up publishable (sent : bool * W -> list L) sends k (st : bool * W) :
  healthy (S := S) session_factory_getter producer_getter p loop up publishable sent sends ->
  up st -> NoDup (map o_id (db_table (snd st))) ->
  (forall r, r ∈ backlog (db_table (snd st)) -> publishable r) ->
  exists st' rows l, task_runs (S := S) session_factory_getter producer_getter batch_size retry_policy
                on_dead_letter k (Some loop, st) = (Ret (Z.of_nat (length rows)), (Some loop, st')) /\
    backlog (db_table (snd st)) ≡ₚ rows ++ backlog (db_table (snd st')) /\
    (forall r, r ∈ rows -> due (db_now (snd st')) r) /\
    ((length (filter (due (db_now (snd st))) (db_table (snd st))) <= k * Z.to_nat batch_size)%nat ->
       (forall r, r ∈ backlog (db_table (snd st)) -> due (db_now (snd st)) r -> r ∈ rows) /\
       ((forall r, r ∈ backlog (db_table (snd st)) -> due (db_now (snd st)) r) ->
          backlog (db_table (snd st')) = [] /\ rows ≡ₚ backlog (db_table (snd st)))) /\
    Forall2 served (db_table (snd st)) (db_table (snd st')) /\
    sent st' = sent st ++ l /\ Forall2 sends rows l.
Proof.
  intros Hup Hu Hn Hp.
  destruct (runs_healthy session_factory_getter producer_getter batch_size retry_policy on_dead_letter
    p loop up publishable sent sends Hup (db_now (snd st)) k 0 st) as (st' & rows & E & Hb & Hd & He & Hs & _ & l & Hl & Hf);
    [by split_and! | done |].
  exists st', rows, l. split; [exact E |]. split; [exact Hb |]. split; [exact Hd |]. split; [| by split_and!].
  by apply (early_served (db_now (snd st)) _ (db_table (snd st'))).
Qed.

(** ** Witness: two events, batches of one *)

#[export] Instance demo_loops : LoopEnv (bool * oworld) := {
  new_event_loop := ret 1%nat;
  set_event_loop _ := ret tt;
  loop_closed _ _ := false;
  pending_tasks _ _ := [];
  cancel_task _ := ret tt;
  gather_on _ _ := ret tt;
  close_loop _ := ret tt;
}.
Definition all_up (st : bool * oworld) : Prop := ow_db_up (snd st) = [] /\ cn_links (ow_conn (snd st)) = [].
Definition small_event (r : outbox_row) : Prop :=
  o_data r = ColText "{}" /\ o_metadata r = ColNull /\ o_actor_id r = None.
(** What is on the bus *)
Definition on_bus (st : bool * oworld) : list (string * fields) := srv_entries (srv (snd st)) "bus".
Definition of_type (r : outbox_row) (x : string * fields) : Prop := dget "event_type" x.2 = Some (o_event_type r).
Definition second_row : outbox_row :=
  mkRow "row-2" "lead.created" "t1" None (ColText "{}") ColNull 3 1 None false None.
(** backed off until after the runs *)
Definition third_row : outbox_row :=
  mkRow "row-3" "lead.created" "t1" None (ColText "{}") ColNull 3 90 None false None.
Definition three_rows : bool * oworld :=
  (false, mkOworld (mkConn (mkSmem mem0 ∅) 5 []) [demo_row; third_row; second_row] 1 []).
Lemma demo_healthy :
  healthy (S := smem) (ret tt) (ret demo_bus) demo_bus 1 all_up small_event on_bus of_type.
Proof.
  split; try done.
  - intros st Hst. exists st. split; [done |]. repeat split; [apply Hst | apply Hst | reflexivity].
  - intros st Hst. exists st. split; [done |]. repeat split; [apply Hst | apply Hst | reflexivity].
  - intros [id et tn ac da me rc nr pu de er] [b [[s t ls] tb n us]] [Hu Hl] (Hd & Hm & Ha). cbn in *. subst.
    eexists (JObj [], [], JNull), _, _. split; [reflexivity |].
    split; [destruct b; cbn; reflexivity |]. split; [by repeat split |].
    unfold on_bus, of_type. cbn. unfold stream_of at 1. cbn. rewrite lookup_insert_eq. cbn.
    eexists. by split.
  - intros A f [b [c tb n us]] [Hu Hl]. cbn in *. subst. destruct (f tb) as [a t'].
    eexists. by repeat split.
Qed.
Lemma outbox_drains_witness :
  exists st' rows, task_runs (S := smem) (ret tt) (ret demo_bus) 1 None None 2 (Some 1%nat, three_rows) =
    (Ret (Z.of_nat (length rows)), (Some 1%nat, st')) /\
    [demo_row; third_row; second_row] ≡ₚ rows ++ backlog (ow_table (snd st')) /\
    demo_row ∈ rows /\ second_row ∈ rows /\ length (on_bus st') = length rows.
Proof.
  destruct (outbox_drains (S := smem) (ret tt) (ret demo_bus) 1 None None demo_bus 1 all_up small_event on_bus of_type 2 three_rows)
    as (st' & rows & l & E & Hb & _ & Hd & _ & Hl & Hf); [exact demo_healthy | by repeat split | | |].
  - repeat constructor; set_solver.
  - intros r Hr. assert (Hin : r ∈ [demo_row; third_row; second_row]) by exact Hr. set_unfold in Hin.
    destruct Hin as [-> | [-> | [-> | []]]]; repeat split.
  - destruct Hd as [Hd _]; [vm_compute; lia |].
    exists st', rows. split; [exact E |]. split; [exact Hb |].
    split; [apply Hd; [vm_compute; left | by repeat split] |].
    split; [apply Hd; [vm_compute; right; right; left | by repeat split] |].
    rewrite Hl, length_app, <- (Forall2_length _ _ _ Hf). reflexivity.
Defined.
