(* ===== verification/Loki.v ===== *)
(** * The Loki log handler

    Models src/tr_shared/monitoring/loki_handler.py and adapters/loki_log.py: formatting a
    record, the buffer, the push, and - as a step relation of activities, one for each call of
    [emit], of [close] and each round of the background thread - what the lock around the
    buffer does and does not cover.  The activities interleave freely; the per-handler lock of
    the logging module only removes schedules, and a record that a push itself logs is an
    activity of its own. *)

From S2P Require Import Prelude Json Errors HttpClient.
From Stdlib Require Import Ascii.
Local Open Scope Z_scope.

(** ** Records *)

(** An attribute of a record: [json.dumps] takes it, or raises and [str] gives a text. *)
Inductive attribute := AJson (v : json) | AOther (str : string).
Definition attribute_json (a : attribute) : json := match a with AJson v => v | AOther s => JStr s end.

(** [getMessage] formats the arguments and may raise; [rec_created_ns] is
    [int(record.created * 1e9)]; [rec_exc] is the text of [exc_info[1]]. *)
Record log_record := mkRecord {
  getMessage : outcome exn string;
  rec_name : string;
  levelname : string;
  rec_created_ns : Z;
  rec_attrs : list (string * attribute);     (* [__dict__] *)
  rec_exc : option string;
}.
(** [logging.LogRecord("", 0, "", 0, "", (), None).__dict__.keys()] *)
Definition standard_attrs : list string :=
  ["name"; "msg"; "args"; "levelname"; "levelno"; "pathname"; "filename"; "module"; "exc_info";
   "exc_text"; "stack_info"; "lineno"; "funcName"; "created"; "msecs"; "relativeCreated";
   "thread"; "threadName"; "processName"; "process"; "taskName"].

Record LokiHandler := mkLoki {
  loki_url : string;
  static_labels : list (string * string);
  batch_size : Z;
  flush_interval : Z;
  formatter : option (log_record -> string);
}.
Definition LokiHandler_init (url : string) (labels : option (list (string * string)))
    (batch_size flush_interval : Z) : LokiHandler :=
  mkLoki url (default [] labels) batch_size flush_interval None.
(** [LokiLogAdapter.create_handler] *)
Definition loki_create_handler (url : string) (batch_size flush_interval : Z) (service_name : string)
    (labels : list (string * string)) : LokiHandler :=
  LokiHandler_init url (Some (dict_merge [("service", service_name)] labels)) batch_size flush_interval.

(** [hasattr(record, k): entry[k] = record.k] *)
Definition copy_attr (r : log_record) (entry : list (string * json)) (k : string) : list (string * json) :=
  match dget k (rec_attrs r) with Some a => dset k (attribute_json a) entry | None => entry end.
Definition copy_extra (entry : list (string * json)) (kv : string * attribute) : list (string * json) :=
  let (key, value) := kv in
  if negb (bool_decide (key ∈ standard_attrs)) && negb (bool_decide (key ∈ entry.*1)) && negb (startswith key "_")
  then dset key (attribute_json value) entry else entry.
Definition _format_record (h : LokiHandler) (r : log_record) : outcome exn string :=
  outcome_bind (getMessage r) (fun message =>
  let entry := [("message", JStr message); ("logger", JStr (rec_name r)); ("level", JStr (levelname r))] in
  let entry := foldl (copy_attr r) entry ["tenant_id"; "correlation_id"; "user_id"] in
  let entry := foldl copy_extra entry (rec_attrs r) in
  let entry := match rec_exc r with
               | Some exc => dset "exception" (JStr (match formatter h with Some f => f r | None => exc end)) entry
               | None => entry
               end in
  Ret (dumps (JObj entry))).

(** ** Buffer and payload *)

(** Time stamp, labels and line *)
Record entry := mkEntry { e_ts : string; e_labels : list (string * string); e_line : string }.
Definition entry_of (h : LokiHandler) (r : log_record) (line : string) : entry :=
  mkEntry (str_of_Z (rec_created_ns r)) (dset "level" (lower (levelname r)) (static_labels h)) line.

Definition labels_json (labels : list (string * string)) : json := JObj (map (fun kv => (kv.1, JStr kv.2)) labels).
(** [json.dumps(labels, sort_keys=True)] *)
Definition label_key (e : entry) : string := dumps (sort_keys (labels_json (e_labels e))).
#[global] Arguments label_key : simpl never.
Notation stream := (list (string * string) * list (string * string))%type.   (* labels, values *)
Definition add_entry (streams : list (string * stream)) (e : entry) : list (string * stream) :=
  let value := (e_ts e, e_line e) in
  match dget (label_key e) streams with
  | None => dset (label_key e) (e_labels e, [value]) streams
  | Some (labels, values) => dset (label_key e) (labels, values ++ [value]) streams
  end.
Definition group_entries (entries : list entry) : list (string * stream) := foldl add_entry [] entries.
Definition stream_json (s : stream) : json :=
  JObj [("stream", labels_json s.1);
        ("values", JList (map (fun v => JList [JStr v.1; JStr v.2]) s.2))].
Definition payload (entries : list entry) : json :=
  JObj [("streams", JList (map (fun kv => stream_json kv.2) (group_entries entries)))].

(** [client.post(url, json=...)] with a client of its own: the status and the text of the answer *)
Class LokiEnv (W : Type) := { http_post : string -> json -> Py W (Z * string) }.

Section Handler.
Context {W : Type} `{LokiEnv W}.
Variable h : LokiHandler.
Notation world := (list entry * W)%type.

(** The two sections under [self._lock] *)
Definition append_entry (e : entry) : Py world unit := modify (fun st => (st.1 ++ [e], st.2)).
Definition take_buffer : Py world (list entry) := fun st => (Ret st.1, ([], st.2)).
(** Neither a bad status nor an exception of the request comes back; both are only logged. *)
Definition push (entries : list entry) : Py world unit :=
  catch_Exception (let! _ := on_snd (http_post (loki_url h) (payload entries)) in ret tt) (fun _ => ret tt).
Definition _flush : Py world unit :=
  let! entries := take_buffer in
  match entries with [] => ret tt | _ => push entries end.
(** [handleError] prints and does not raise. *)
Definition emit (r : log_record) : Py world unit :=
  catch_Exception
    (let! log_entry := lift_out (_format_record h r) in
     do! append_entry (entry_of h r log_entry) in
     let! n := gets (fun st => Z.of_nat (length st.1)) in
     if batch_size h <=? n then _flush else ret tt)
    (fun _ => ret tt).
(** One round of the background thread, after its sleep *)
Definition periodic_round : Py world unit := catch_Exception _flush (fun _ => ret tt).
Definition close : Py world unit := _flush.
End Handler.

(** ** The payload *)

Lemma label_key_perm (e1 e2 : entry) :
  NoDup (e_labels e1).*1 -> e_labels e1 ≡ₚ e_labels e2 -> label_key e1 = label_key e2.
Proof.
  intros Hn Hp. unfold label_key, labels_json. f_equal. apply sort_keys_perm.
  - by apply Permutation_map.
  - by rewrite <- list_fmap_compose.
Qed.
Definition value_of (e : entry) : string * string := (e_ts e, e_line e).
(** The entries of one stream *)
Definition with_key (k : string) (entries : list entry) : list entry := filter (fun e => label_key e = k) entries.

Definition grouped (entries : list entry) (streams : list (string * stream)) : Prop :=
  NoDup streams.*1 /\
  (forall k s, dget k streams = Some s ->
     s.2 = map value_of (with_key k entries) /\ exists e, e ∈ entries /\ label_key e = k /\ s.1 = e_labels e) /\
  (forall e, e ∈ entries -> is_Some (dget (label_key e) streams)).

Lemma with_key_app k l e :
  with_key k (l ++ [e]) = if bool_decide (label_key e = k) then with_key k l ++ [e] else with_key k l.
Proof.
  unfold with_key. rewrite filter_app. case_bool_decide.
  - by rewrite filter_cons_True.
  - rewrite filter_cons_False by done. apply app_nil_r.
Qed.
Lemma with_key_none k l : (forall e, e ∈ l -> label_key e <> k) -> with_key k l = [].
Proof. apply filter_none. Qed.

Lemma filter_in_ext {A} (P Q : A -> Prop) `{forall x, Decision (P x)} `{forall x, Decision (Q x)} (l : list A) :
  (forall x, x ∈ l -> P x <-> Q x) -> filter P l = filter Q l.
Proof.
  induction l as [|x l IH]; intros Hl; [done |]. rewrite !filter_cons.
  rewrite IH by (intros y Hy; apply Hl; by right). pose proof (Hl x ltac:(by left)).
  do 2 case_decide; tauto.
Qed.

Lemma add_entry_grouped l streams e : grouped l streams -> grouped (l ++ [e]) (add_entry streams e).
Proof.
  intros (Hn & Hs & Hc). unfold add_entry.
  assert (Hgoal : forall s', s'.2 = map value_of (with_key (label_key e) l ++ [e]) ->
            (exists e0, e0 ∈ l ++ [e] /\ label_key e0 = label_key e /\ s'.1 = e_labels e0) ->
            grouped (l ++ [e]) (dset (label_key e) s' streams)).
  { intros s' Hv He. split_and!.
    - by apply NoDup_dset.
    - intros k s. rewrite with_key_app. destruct (decide (label_key e = k)) as [<- | Hk].
      + rewrite dget_dset_eq, bool_decide_true by done. intros [= <-]. by split.
      + rewrite dget_dset_ne, bool_decide_false by congruence. intros E.
        destruct (Hs k s E) as (Hv' & e0 & Hin & ?). split; [done |]. exists e0. split; [apply elem_of_app; by left | done].
    - intros e0 Hin. destruct (decide (label_key e0 = label_key e)) as [-> | Hk].
      + rewrite dget_dset_eq. eauto.
      + rewrite dget_dset_ne by done. apply Hc. apply elem_of_app in Hin as [? | Hin]; [done |].
        apply list_elem_of_singleton in Hin as ->. done. }
  destruct (dget (label_key e) streams) as [[labels values]|] eqn:E.
  - destruct (Hs _ _ E) as (Hv & e0 & Hin & Hk & Hl). cbn in Hv, Hl. apply Hgoal; cbn.
    + by rewrite map_app, Hv.
    + exists e0. split; [apply elem_of_app; by left | done].
  - apply Hgoal; cbn; [| exists e; split; [apply elem_of_app; right; by left | done]].
    rewrite with_key_none; [done |]. intros e0 Hin Hk. destruct (Hc e0 Hin) as [s Hs']. rewrite Hk in Hs'. by rewrite E in Hs'.
Qed.
Lemma group_entries_grouped entries : grouped entries (group_entries entries).
Proof.
  induction entries as [|e l IH] using rev_ind.
  - split_and!; [constructor | done | intros e He; by apply elem_of_nil in He].
  - unfold group_entries. rewrite foldl_app. by apply add_entry_grouped.
Qed.

Definition labelled (kv : string * string) : string * json := (kv.1, JStr kv.2).
Lemma sort_labels labels :
  sort_keys (labels_json labels) = JObj (sorting.merge_sort key_le (map labelled labels)).
Proof. unfold labels_json. cbn [sort_keys]. by rewrite map_map. Qed.
Lemma labels_wf labels : NoDup labels.*1 -> json_wf (sort_keys (labels_json labels)) = true.
Proof.
  intros Hn. rewrite sort_labels. cbn [json_wf]. apply andb_true_iff. split.
  - apply bool_decide_eq_true_2. rewrite sorting.merge_sort_Permutation, <- list_fmap_compose. exact Hn.
  - apply forallb_forall. intros x Hx%list_elem_of_In. rewrite sorting.merge_sort_Permutation in Hx.
    by apply list_elem_of_fmap in Hx as (kv & -> & _).
Qed.
Definition label_text (kv : string * json) : string * string := (kv.1, match kv.2 with JStr s => s | _ => "" end).
Lemma label_key_inj (e1 e2 : entry) : NoDup (e_labels e1).*1 -> NoDup (e_labels e2).*1 ->
  label_key e1 = label_key e2 -> e_labels e1 ≡ₚ e_labels e2.
Proof.
  unfold label_key. intros H1 H2 E%(f_equal loads). rewrite !loads_dumps in E by by apply labels_wf.
  rewrite !sort_labels in E. injection E as E.
  assert (P : map labelled (e_labels e1) ≡ₚ map labelled (e_labels e2)).
  { rewrite <- (sorting.merge_sort_Permutation key_le (map labelled (e_labels e1))).
    by rewrite E, sorting.merge_sort_Permutation. }
  apply (Permutation_map label_text) in P. cbn in P. rewrite !map_map in P.
  assert (Hid : forall l, map (fun x => label_text (labelled x)) l = l).
  { induction l as [|[a b] l IH]; [done |]. cbn. by rewrite IH. }
  by rewrite !Hid in P.
Qed.
Lemma label_key_iff (e1 e2 : entry) : NoDup (e_labels e1).*1 -> NoDup (e_labels e2).*1 ->
  label_key e1 = label_key e2 <-> e_labels e1 ≡ₚ e_labels e2.
Proof. intros H1 H2. split; [by apply label_key_inj | by apply label_key_perm]. Qed.

(** A push carries the batch.  Whatever entries are flushed, the payload has one stream
    for each set of labels that occurs (in whatever order the labels were put), and a stream's
    values are exactly the lines logged with those labels, in the order in which they were
    buffered: no line is lost, doubled or filed under other labels. *)
Theorem loki_payload_partition entries :
  (forall e, e ∈ entries -> NoDup (e_labels e).*1) ->
  let streams := map snd (group_entries entries) in
  payload entries = JObj [("streams", JList (map stream_json streams))] /\
  (forall labels values, (labels, values) ∈ streams ->
     values <> [] /\
     values = map value_of (filter (fun e => e_labels e ≡ₚ labels) entries)) /\
  (forall e, e ∈ entries -> exists labels values, (labels, values) ∈ streams /\ labels ≡ₚ e_labels e) /\
  (forall i j s1 s2, streams !! i = Some s1 -> streams !! j = Some s2 -> s1.1 ≡ₚ s2.1 -> i = j).
Proof.
  intros Hn. destruct (group_entries_grouped entries) as (Hk & Hs & Hc). cbv zeta.
  assert (Hstream : forall k s, (k, s) ∈ group_entries entries -> s.2 = map value_of (with_key k entries) /\
    exists e, e ∈ entries /\ label_key e = k /\ s.1 = e_labels e).
  { intros k s Hin. apply Hs. by apply dget_NoDup. }
  split_and!.
  - unfold payload. by rewrite map_map.
  - intros labels values ([k s] & E & Hin)%list_elem_of_fmap. cbn in E. subst s.
    destruct (Hstream _ _ Hin) as (Hv & e & He & <- & Hl). cbn in Hv, Hl. subst labels values.
    split.
    + intros Hnil%map_eq_nil. pose proof (proj2 (list_elem_of_filter (fun x => label_key x = label_key e) entries e)
        (conj eq_refl He)) as Hx. unfold with_key in Hnil. rewrite Hnil in Hx. by apply elem_of_nil in Hx.
    + f_equal. unfold with_key. apply filter_in_ext. intros x Hx. apply label_key_iff; auto.
  - intros e He. destruct (Hc e He) as [[labels values] E]. pose proof (dget_in _ _ _ E) as Hin.
    exists labels, values. split; [apply list_elem_of_fmap; by exists (label_key e, (labels, values)) |].
    destruct (Hstream _ _ Hin) as (_ & e0 & He0 & Hk0 & Hl). cbn in Hl. rewrite Hl. apply label_key_inj; auto.
  - intros i j s1 s2 H1 H2 Hp. rewrite list_lookup_fmap in H1, H2.
    apply fmap_Some in H1 as ([k1 t1] & H1 & ->), H2 as ([k2 t2] & H2 & ->). cbn in Hp.
    destruct (Hstream k1 t1) as (_ & e1 & He1 & <- & Hl1); [by eapply list_elem_of_lookup_2 |].
    destruct (Hstream k2 t2) as (_ & e2 & He2 & <- & Hl2); [by eapply list_elem_of_lookup_2 |].
    rewrite Hl1, Hl2 in Hp. apply label_key_perm in Hp; [| auto].
    eapply NoDup_lookup; [exact Hk | |]; rewrite list_lookup_fmap; [by rewrite H1 | by rewrite H2; cbn; rewrite Hp].
Qed.

(** ** Threads

    An activity is a call of [emit] that has its line, or a flush of the background thread or of
    [close]; it stands before its next section under the lock, before the unlocked look at
    [len(self._buffer)], or in the request. *)

Inductive activity := Appending (e : entry) | Checking | Draining | Pushing (batch : list entry).
Definition in_flight (acts : list activity) : list (list entry) :=
  omap (fun a => match a with Pushing b => Some b | _ => None end) acts.

Section Threads.
Context {W : Type} `{LokiEnv W}.
Variable h : LokiHandler.

(** The handler and the world, the activities, and three histories: entries put into the buffer,
    batches taken from it, batches whose request was made. *)
Record lstate := mkLstate {
  l_world : list entry * W;
  l_acts : list activity;
  l_handed : list entry;
  l_drained : list (list entry);
  l_pushed : list (list entry);
}.
Notation buffer s := (fst (l_world s)).

Inductive lstep : lstate -> lstate -> Prop :=
| l_emit r line w acts hd dr pu :                      (* a logging call *)
    _format_record h r = Ret line ->
    lstep (mkLstate w acts hd dr pu) (mkLstate w (acts ++ [Appending (entry_of h r line)]) hd dr pu)
| l_flush w acts hd dr pu :                            (* the background thread, [close] *)
    lstep (mkLstate w acts hd dr pu) (mkLstate w (acts ++ [Draining]) hd dr pu)
| l_append e l1 l2 w w' hd dr pu :
    append_entry e w = (Ret tt, w') ->
    lstep (mkLstate w (l1 ++ Appending e :: l2) hd dr pu) (mkLstate w' (l1 ++ Checking :: l2) (hd ++ [e]) dr pu)
| l_check l1 l2 w hd dr pu :
    lstep (mkLstate w (l1 ++ Checking :: l2) hd dr pu)
      (mkLstate w (l1 ++ (if batch_size h <=? Z.of_nat (length w.1) then [Draining] else []) ++ l2) hd dr pu)
| l_drain es l1 l2 w w' hd dr pu :
    take_buffer w = (Ret es, w') ->
    lstep (mkLstate w (l1 ++ Draining :: l2) hd dr pu)
      (match es with
       | [] => mkLstate w' (l1 ++ l2) hd dr pu
       | _ => mkLstate w' (l1 ++ Pushing es :: l2) hd (dr ++ [es]) pu
       end)
| l_push b o l1 l2 w w' hd dr pu :
    push h b w = (o, w') ->
    lstep (mkLstate w (l1 ++ Pushing b :: l2) hd dr pu) (mkLstate w' (l1 ++ l2) hd dr (pu ++ [b])).
Definition l_init (w : W) : lstate := mkLstate ([], w) [] [] [] [].

Record linv (s : lstate) : Prop := {
  li_order : l_handed s = concat (l_drained s) ++ buffer s;
  li_once : l_drained s ≡ₚ l_pushed s ++ in_flight (l_acts s);
  li_nonempty : [] ∉ l_drained s;
  li_bound : batch_size h <= Z.of_nat (length (buffer s)) -> Checking ∈ l_acts s \/ Draining ∈ l_acts s;
}.
Lemma in_flight_app l1 l2 : in_flight (l1 ++ l2) = in_flight l1 ++ in_flight l2.
Proof. apply omap_app. Qed.
Lemma push_buffer b w o w' : push h b w = (o, w') -> w'.1 = w.1.
Proof.
  unfold push, catch_Exception, catch, bind, on_snd. destruct (http_post _ _ w.2) as [[x|e] w2]; cbn.
  - by intros [= _ <-].
  - case_match; by intros [= _ <-].
Qed.

Lemma lstep_inv s1 s2 : 0 < batch_size h -> lstep s1 s2 -> linv s1 -> linv s2.
Proof.
  intros Hb Hstep. destruct Hstep as
    [r line w acts hd dr pu _ | w acts hd dr pu | e l1 l2 w w' hd dr pu Ha | l1 l2 w hd dr pu
    | es l1 l2 w w' hd dr pu Hd | b o l1 l2 w w' hd dr pu Hp]; intros [Ho Hn He Hl]; cbn [l_world l_acts l_handed l_drained l_pushed] in *.
  - split; cbn; [done | | done |].
    + rewrite in_flight_app. cbn. by rewrite app_nil_r.
    + intros Hx. destruct (Hl Hx); [left | right]; apply elem_of_app; by left.
  - split; cbn; [done | | done |].
    + rewrite in_flight_app. cbn. by rewrite app_nil_r.
    + intros _. right. apply elem_of_app. right. by left.
  - unfold append_entry, modify in Ha. injection Ha as <-. rewrite in_flight_app in Hn. split; cbn.
    + by rewrite Ho, app_assoc.
    + by rewrite in_flight_app.
    + done.
    + intros _. left. apply elem_of_app. right. by left.
  - rewrite in_flight_app in Hn. split; cbn; [done | | done |].
    + rewrite !in_flight_app. by case_match.
    + intros Hlen. rewrite (proj2 (Z.leb_le _ _) Hlen). right. rewrite !elem_of_app. right; left. by left.
  - unfold take_buffer in Hd. injection Hd as <- <-. rewrite in_flight_app in Hn.
    destruct w as [es w]. cbn in *. destruct es as [|e0 es]; (split; cbn; [| | | lia]).
    + done.
    + by rewrite in_flight_app.
    + done.
    + rewrite concat_app, app_nil_r. cbn. by rewrite app_nil_r.
    + rewrite in_flight_app. cbn. rewrite Hn. cbn. solve_Permutation.
    + rewrite elem_of_app. intros [? | Hx]; [done |]. by apply list_elem_of_singleton in Hx.
  - pose proof (push_buffer _ _ _ _ Hp) as Hw. rewrite in_flight_app in Hn. split; cbn; rewrite ?Hw; [done | | done |].
    + rewrite in_flight_app, Hn. cbn. solve_Permutation.
    + intros Hlen. destruct (Hl Hlen) as [Hx | Hx]; rewrite elem_of_app, elem_of_cons in Hx;
        [left | right]; apply elem_of_app; (destruct Hx as [? | [? | ?]]; [by left | done | by right]).
Qed.

(** The calls of the sequential code are schedules: nothing else runs in between. *)
Lemma flush_runs w hd dr pu o w' : _flush h w = (o, w') ->
  exists dr' pu', star lstep (mkLstate w [Draining] hd dr pu) (mkLstate w' [] hd dr' pu').
Proof.
  unfold _flush, bind, take_buffer. destruct w as [es w]. cbn. intros E.
  destruct es as [|e es].
  - injection E as _ <-. exists dr, pu. eapply star_step; [| apply star_refl].
    apply (l_drain [] [] [] ([], w)). done.
  - exists (dr ++ [e :: es]), (pu ++ [e :: es]).
    eapply star_step; [apply (l_drain (e :: es) [] [] (e :: es, w)); done |].
    eapply star_step; [| apply star_refl]. by apply (l_push _ o [] []).
Qed.
(** [emit] returns, whatever happens to the request, and is one of the schedules. *)
Lemma emit_runs r line w : _format_record h r = Ret line ->
  (forall u p w e w', http_post u p w = (Exc e, w') -> is_Exception e = true) ->
  exists w' hd dr pu, emit h r w = (Ret tt, w') /\
    star lstep (mkLstate w [] [] [] []) (mkLstate w' [] hd dr pu).
Proof.
  intros Hf Hhttp.
  assert (Hflush : forall w1, exists w2, _flush h w1 = (Ret tt, w2)).
  { intros [es w1]. unfold _flush, bind, take_buffer. cbn. destruct es as [|e es]; [by eexists |].
    unfold push, catch_Exception, catch, bind, on_snd. destruct (http_post _ _ _) as [[x|x] w2] eqn:Eh; [by eexists |].
    rewrite (Hhttp _ _ _ _ _ Eh). by eexists. }
  set (e := entry_of h r line). set (w1 := (w.1 ++ [e], w.2)).
  assert (E : emit h r w = catch_Exception (if batch_size h <=? Z.of_nat (length w1.1) then _flush h else ret tt)
                             (fun _ => ret tt) w1).
  { unfold emit, catch_Exception, catch, bind at 1. unfold lift_out. by rewrite Hf. }
  assert (Hrun : forall w' hd dr pu,
      star lstep (mkLstate w1 (if batch_size h <=? Z.of_nat (length w1.1) then [Draining] else []) [e] [] [])
        (mkLstate w' [] hd dr pu) ->
      star lstep (mkLstate w [] [] [] []) (mkLstate w' [] hd dr pu)).
  { intros w' hd dr pu Hs. eapply star_step; [by apply (l_emit r line) |].
    eapply star_step; [by apply (l_append e [] [] w w1 []) |].
    eapply star_step; [apply (l_check [] []) |]. by rewrite app_nil_r. }
  rewrite E. unfold catch_Exception, catch. destruct (batch_size h <=? Z.of_nat (length w1.1)).
  - destruct (Hflush w1) as [w2 E2]. destruct (flush_runs w1 [e] [] [] _ _ E2) as (dr & pu & Hs).
    exists w2, [e], dr, pu. rewrite E2. by split; [| apply Hrun].
  - exists w1, [e], [], []. split; [done |]. apply Hrun, star_refl.
Qed.
End Threads.

(** ** What Loki receives *)

(** An entry is the line of a logging call: its time, its text, and the handler's labels with the
    record's level. *)
Definition entry_logged (h : LokiHandler) (e : entry) : Prop := NoDup (e_labels e).*1 /\
  exists r, _format_record h r = Ret (e_line e) /\ e_ts e = str_of_Z (rec_created_ns r) /\
    forall k, dget k (e_labels e) =
      if bool_decide (k = "level") then Some (lower (levelname r)) else dget k (static_labels h).
(** The body [p] files the batch: one stream for each set of labels that occurs in it, and in
    a stream exactly the lines logged with those labels, in their order. *)
Definition files (batch : list entry) (p : json) : Prop :=
  exists streams : list stream,
    p = JObj [("streams", JList (map (fun st : stream =>
          JObj [("stream", JObj (map (fun kv => (kv.1, JStr kv.2)) st.1));
                ("values", JList (map (fun v => JList [JStr v.1; JStr v.2]) st.2))]) streams))] /\
    (forall labels values, (labels, values) ∈ streams -> values <> [] /\
       values = map (fun e => (e_ts e, e_line e)) (filter (fun e => e_labels e ≡ₚ labels) batch)) /\
    (forall e, e ∈ batch -> exists labels values, (labels, values) ∈ streams /\ labels ≡ₚ e_labels e) /\
    (forall i j s1 s2, streams !! i = Some s1 -> streams !! j = Some s2 -> s1.1 ≡ₚ s2.1 -> i = j).
Lemma payload_files batch : (forall e, e ∈ batch -> NoDup (e_labels e).*1) -> files batch (payload batch).
Proof. intros Hn. destruct (loki_payload_partition batch Hn) as (Hp & Hs & Hc & Hd). by exists (map snd (group_entries batch)). Qed.
Lemma entry_of_logged h r line : NoDup (static_labels h).*1 -> _format_record h r = Ret line ->
  entry_logged h (entry_of h r line).
Proof.
  intros Hn Hf. split; [by apply NoDup_dset |]. exists r. split; [done |]. split; [done |]. intros k. cbn [entry_of e_labels].
  case_bool_decide as Hk; [subst k; apply dget_dset_eq | by apply dget_dset_ne].
Qed.

Section Received.
Context {W : Type} `{LokiEnv W}.
Variables (h : LokiHandler) (requests : W -> list (string * json)).
(** The account of the requests made, whatever became of them *)
Definition accounts : Prop := forall u p w, requests (snd (http_post u p w)) = requests w ++ [(u, p)].
Hypothesis Hacc : accounts.
Hypothesis Hlabels : NoDup (static_labels h).*1.
Variable w0 : W.

Record sinv (s : lstate (W := W)) : Prop := {
  si_acts e : Appending e ∈ l_acts s -> entry_logged h e;
  si_handed e : e ∈ l_handed s -> entry_logged h e;
  si_sent : requests (l_world s).2 = requests w0 ++ map (fun b => (loki_url h, payload b)) (l_pushed s);
}.
Lemma push_sends b w o w' : push h b w = (o, w') -> requests w'.2 = requests w.2 ++ [(loki_url h, payload b)].
Proof.
  unfold push, catch_Exception, catch, bind, on_snd. pose proof (Hacc (loki_url h) (payload b) w.2) as Hr.
  destruct (http_post _ _ w.2) as [[x|e] w2]; cbn in *.
  - by intros [= _ <-].
  - case_match; by intros [= _ <-].
Qed.
Lemma lstep_sent s1 s2 : lstep h s1 s2 -> sinv s1 -> sinv s2.
Proof.
  intros Hstep. destruct Hstep as
    [r line w acts hd dr pu Hf | w acts hd dr pu | e l1 l2 w w' hd dr pu Ha | l1 l2 w hd dr pu
    | es l1 l2 w w' hd dr pu Hd | b o l1 l2 w w' hd dr pu Hp]; intros [Hx Hh Hs];
    cbn [l_world l_acts l_handed l_drained l_pushed] in *.
  - split; cbn; [| done | done]. intros e [He | He]%elem_of_app; [by apply Hx |].
    apply list_elem_of_singleton in He as [= ->]. by apply entry_of_logged.
  - split; cbn; [| done | done]. intros e [He | He]%elem_of_app; [by apply Hx |]. by apply list_elem_of_singleton in He.
  - unfold append_entry, modify in Ha. injection Ha as <-. split; cbn; [| | done].
    + intros e' He. apply Hx. rewrite !elem_of_app, !elem_of_cons in *. destruct He as [? | [? | ?]]; [by left | done | by right; right].
    + intros e' [He | He]%elem_of_app; [by apply Hh |]. apply list_elem_of_singleton in He as ->.
      apply Hx, elem_of_app. right. by left.
  - split; cbn; [| done | done]. intros e He. apply Hx. rewrite !elem_of_app in *. rewrite elem_of_cons.
    destruct He as [? | [He | ?]]; [by left | | by right; right]. case_match; [by apply list_elem_of_singleton in He | by apply elem_of_nil in He].
  - unfold take_buffer in Hd. injection Hd as <- <-.
    assert (forall e, Appending e ∈ l1 ++ l2 -> entry_logged h e) as Hl.
    { intros e He. apply Hx. rewrite !elem_of_app, ?elem_of_cons in *. destruct He; [by left | by right; right]. }
    destruct (w.1) as [|e0 es]; (split; cbn; [| done | done]); [exact Hl |].
    intros e He. apply Hl. rewrite !elem_of_app, ?elem_of_cons in *. destruct He as [? | [? | ?]]; [by left | done | by right].
  - split; cbn; [| done |].
    + intros e He. apply Hx. rewrite !elem_of_app, ?elem_of_cons in *. destruct He; [by left | by right; right].
    + by rewrite (push_sends _ _ _ _ Hp), Hs, map_app, <- app_assoc.
Qed.
End Received.

(** C25. Every line is pushed exactly once.  Let the handler's labels be distinct and [requests] be the
    account of the requests made, whatever becomes of each.  However the logging calls, the background
    thread and [close] interleave: each entry handed to the handler carries the line, the time and the
    labels of a logging call; the entries handed over are those of the batches taken so far, in
    order, followed by the buffer; every batch taken was pushed once or is in its one request, and
    the requests made are, one for each batch pushed, to the handler's URL with a body that has one
    stream for each set of labels of the batch and in it exactly those lines, in order;
    no request is made without a line.  When the buffer holds a full batch some thread is about to
    take it, so that while nobody is logging or flushing fewer than [batch_size] lines wait. *)
Theorem loki_exactly_once {W} `{LokiEnv W} (h : LokiHandler) (requests : W -> list (string * json)) (w : W) s :
  0 < batch_size h -> NoDup (static_labels h).*1 -> accounts requests -> star (lstep h) (l_init w) s ->
  (forall e, e ∈ l_handed s -> entry_logged h e) /\
  l_handed s = concat (l_drained s) ++ (l_world s).1 /\
  l_drained s ≡ₚ l_pushed s ++ in_flight (l_acts s) /\
  [] ∉ l_drained s /\
  (exists made, requests (l_world s).2 = requests w ++ made /\
     Forall2 (fun batch request => request.1 = loki_url h /\ files batch request.2) (l_pushed s) made) /\
  (batch_size h <= Z.of_nat (length (l_world s).1) -> Checking ∈ l_acts s \/ Draining ∈ l_acts s) /\
  (l_acts s = [] -> l_handed s ≡ₚ concat (l_pushed s) ++ (l_world s).1 /\
     Z.of_nat (length (l_world s).1) < batch_size h).
Proof.
  intros Hb Hlab Hacc Hs. assert (Hinv : linv h s).
  { eapply star_invariant; [| exact Hs |].
    - intros s1 s2. by apply lstep_inv.
    - split; cbn; [done | done | apply not_elem_of_nil | lia]. }
  assert (Hsent : sinv h requests w s).
  { eapply star_invariant; [| exact Hs |].
    - intros s1 s2. by apply lstep_sent.
    - split; cbn; [by intros e ?%elem_of_nil | by intros e ?%elem_of_nil | by rewrite app_nil_r]. }
  destruct Hinv as [Ho Hn He Hl], Hsent as [_ Hh Hreq]. split_and!; [done | done | done | done | | done |].
  - eexists. split; [exact Hreq |]. apply Forall2_fmap_r, Forall_Forall2_diag, Forall_forall. intros b Hin. cbn.
    split; [done |]. apply payload_files. intros e Hine. apply Hh. rewrite Ho. apply elem_of_app. left.
    apply list_elem_of_In, in_concat. exists b. rewrite <- !list_elem_of_In. split; [| done]. rewrite Hn. apply elem_of_app. by left.
  - intros Hq. rewrite Hq in *. cbn in *. rewrite app_nil_r in Hn. split.
    + rewrite Ho. by rewrite Hn.
    + apply Z.lt_nge. intros Hx. destruct (Hl Hx) as [Hy | Hy]; by apply elem_of_nil in Hy.
Qed.

(** ** Witnesses *)

(** A Loki that answers with the scripted statuses, or not at all. *)
Record loki_world := mkLokiWorld { lw_posted : list (string * json); lw_script : list (option Z) }.
#[export] Instance demo_loki : LokiEnv loki_world := {
  http_post url p w :=
    match lw_script w with
    | Some s :: rest => (Ret (s, ""), mkLokiWorld (lw_posted w ++ [(url, p)]) rest)
    | None :: rest => (Exc (PyErr OSError "connection refused"), mkLokiWorld (lw_posted w ++ [(url, p)]) rest)
    | [] => (Ret (204, ""), mkLokiWorld (lw_posted w ++ [(url, p)]) [])
    end;
}.
Lemma demo_accounts : accounts lw_posted.
Proof. intros u p [posted [|[s|] rest]]; reflexivity. Qed.
Definition demo_handler : LokiHandler :=
  loki_create_handler "http://loki:3100/loki/api/v1/push" 2 5 "lead" [("environment", "dev")].
Definition demo_record (msg : string) : log_record :=
  mkRecord (Ret msg) "app" "INFO" 1000 [("name", AJson (JStr "app")); ("tenant_id", AOther "t1"); ("_x", AJson JNull)] None.
Example format_demo : _format_record demo_handler (demo_record "hello") = Ret
  (dumps (JObj [("message", JStr "hello"); ("logger", JStr "app"); ("level", JStr "INFO"); ("tenant_id", JStr "t1")])).
Proof. reflexivity. Qed.
Example emit_demo :
  let w1 := snd (emit demo_handler (demo_record "a") ([], mkLokiWorld [] [])) in
  let w2 := snd (emit demo_handler (demo_record "b") w1) in
  (length w1.1, length w2.1, length (lw_posted w2.2)) = (1, 0, 1)%nat.
Proof. reflexivity. Qed.

Definition entry_a : entry := mkEntry "1" [("service", "lead"); ("level", "info")] "a".
Definition entry_b : entry := mkEntry "2" [("level", "info"); ("service", "lead")] "b".
Definition entry_c : entry := mkEntry "3" [("service", "lead"); ("level", "error")] "c".
Lemma loki_payload_partition_witness :
  payload [entry_a; entry_c; entry_b] = JObj [("streams", JList
    [stream_json (e_labels entry_a, [("1", "a"); ("2", "b")]); stream_json (e_labels entry_c, [("3", "c")])])].
Proof.
  destruct (loki_payload_partition [entry_a; entry_c; entry_b]) as (E & _).
  - intros e He. rewrite !elem_of_cons in He. destruct He as [-> | [-> | [-> | He]]];
      [..| by apply elem_of_nil in He]; cbn; repeat constructor; set_solver.
  - rewrite E. reflexivity.
Defined.

(** Two logging threads of which the second takes both lines. *)
Definition demo_line (msg : string) : string := default "" (outcome_value (_format_record demo_handler (demo_record msg))).
Definition demo_entry (msg : string) : entry := entry_of demo_handler (demo_record msg) (demo_line msg).
Lemma loki_exactly_once_witness :
  exists s, star (lstep demo_handler) (l_init (mkLokiWorld [] [None])) s /\
    l_acts s = [] /\ length (l_handed s) = 2%nat /\ l_handed s ≡ₚ concat (l_pushed s) ++ (l_world s).1 /\
    length (lw_posted (l_world s).2) = 1%nat.
Proof.
  set (a := demo_entry "a"). set (b := demo_entry "b"). set (w := mkLokiWorld [] [None]).
  set (w' := mkLokiWorld [(loki_url demo_handler, payload [a; b])] []).
  exists (mkLstate ([], w') [] [a; b] [[a; b]] [[a; b]]).
  assert (Hs : star (lstep demo_handler) (l_init w) (mkLstate ([], w') [] [a; b] [[a; b]] [[a; b]])).
  { eapply star_step; [by apply (l_emit _ (demo_record "a") (demo_line "a")) |].
    eapply star_step; [by apply (l_emit _ (demo_record "b") (demo_line "b")) |].
    eapply star_step; [apply (l_append _ a [] [Appending b] ([], w) ([a], w)); done |].
    eapply star_step; [apply (l_append _ b [Checking] [] ([a], w) ([a; b], w)); done |].
    eapply star_step; [apply (l_check _ [] [Checking]) |].
    eapply star_step; [apply (l_check _ [Draining] []) |].
    eapply star_step; [apply (l_drain _ [a; b] [] [Draining] ([a; b], w) ([], w)); done |].
    eapply star_step; [apply (l_drain _ [] [Pushing [a; b]] [] ([], w) ([], w)); done |].
    eapply star_step; [eapply (l_push _ [a; b] (Ret tt) [] [] ([], w)); reflexivity |].
    apply star_refl. }
  destruct (loki_exactly_once demo_handler lw_posted w _ ltac:(reflexivity)
    ltac:(apply (bool_decide_unpack _); exact I) demo_accounts Hs) as (_ & _ & _ & _ & (made & Hm & Hf) & _ & Hq).
  split; [exact Hs |]. split; [reflexivity |]. split; [reflexivity |]. split; [by apply Hq |].
  rewrite Hm. apply Forall2_length in Hf. symmetry. exact Hf.
Defined.
