(* ===== verification/Monitoring.v ===== *)
(** * Metrics

    Models src/tr_shared/monitoring/: middleware.py and instruments.py ([MetricsMiddleware]),
    celery_instrumentation.py, db_instrumentation.py, prometheus_endpoint.py, tracing.py, the
    adapters, factory.py and setup.py.  What OpenTelemetry does with a measurement, Starlette's
    requests, cachetools' TTL cache, the exporters and the HTTP server of prometheus_client are
    parameters; a measurement is an entry of a log. *)

From S2P Require Import Prelude Json Errors Text HttpClient RateLimiter Loki.
From Stdlib Require Import Ascii.
Local Open Scope Z_scope.

(** ** Instruments *)

Notation labels := (list (string * string)).
Record instrument := mkInstrument { in_name : string; in_description : string; in_unit : string }.
Record InstrumentSet := mkInstruments {
  request_counter : instrument;
  request_duration : instrument;
  error_counter : instrument;
  active_requests : instrument;
}.
Definition create_instruments : InstrumentSet :=
  mkInstruments
    (mkInstrument "http_server_requests" "Total HTTP requests" "{request}")
    (mkInstrument "http_server_request_duration_seconds" "HTTP request duration in seconds" "s")
    (mkInstrument "http_server_errors" "Total HTTP errors (status >= 400)" "{error}")
    (mkInstrument "http_server_active_requests" "Currently active HTTP requests" "{request}").
#[export] Instance instrument_eq_dec : EqDecision instrument.
Proof. solve_decision. Defined.

(** [instrument.add(value, labels)] or [instrument.record(value, labels)] *)
Record measurement := mkMeasure { m_instrument : instrument; m_value : Z; m_labels : labels }.
Definition measure {W} (i : instrument) (v : Z) (l : labels) : Py (list measurement * W) unit :=
  modify (fun st => (st.1 ++ [mkMeasure i v l], st.2)).

(** [time.perf_counter()], in its own unit *)
Class PerfCounter (W : Type) := { perf_counter : W -> Z }.

(** ** [MetricsMiddleware] *)

Definition DEFAULT_EXCLUDED_PATHS : list string :=
  ["/"; "/health"; "/health/ready"; "/health/live"; "/api/v1/health"; "/api/v1/health/ready";
   "/api/v1/health/live"; "/metrics"; "/docs"; "/redoc"; "/openapi.json"].
Record MetricsMiddleware := mkMetrics {
  mm_service_name : string;
  mm_instruments : option InstrumentSet;
  mm_excluded_paths : list string;
  business_domain_classifier : option (string -> outcome exn (option string));
}.
Definition MetricsMiddleware_init (service_name : string) (instrument_set : option InstrumentSet)
    (excluded_paths : option (list string)) classifier : MetricsMiddleware :=
  mkMetrics service_name instrument_set
    (match excluded_paths with Some (_ :: _ as l) => l | _ => DEFAULT_EXCLUDED_PATHS end) classifier.

Definition base_labels (m : MetricsMiddleware) (path method : string) : labels :=
  [("service", mm_service_name m); ("http.route", normalize_path path); ("http.method", method)].
Definition status_labels (l : labels) (status : Z) : labels := dset "http.status_code" (str_of_Z status) l.
Definition biz_labels (m : MetricsMiddleware) (domain method : string) (status : Z) : labels :=
  [("service", mm_service_name m); ("domain", domain); ("http.method", method);
   ("http.status_code", str_of_Z status)].

Section Middleware.
Context {W R : Type} `{PerfCounter W}.
Variable status_code : R -> Z.
Notation world := (list measurement * W)%type.

(** The block that classifies a finished request *)
Definition record_business (m : MetricsMiddleware) (i : InstrumentSet) (path method : string) (status duration : Z)
    : Py world unit :=
  match business_domain_classifier m with
  | None => ret tt
  | Some classify =>
      let! domain := lift_out (classify path) in
      match domain with
      | Some d =>
          if nonempty d then
            do! measure (request_counter i) 1 (biz_labels m d method status) in
            measure (request_duration i) duration (biz_labels m d method status)
          else ret tt
      | None => ret tt
      end
  end.
Definition record_finished (m : MetricsMiddleware) (i : InstrumentSet) (path method : string) (status duration : Z)
    : Py world unit :=
  let l := status_labels (base_labels m path method) status in
  do! measure (request_counter i) 1 l in
  do! measure (request_duration i) duration l in
  do! (if 400 <=? status then measure (error_counter i) 1 l else ret tt) in
  record_business m i path method status duration.
Definition record_failed (m : MetricsMiddleware) (i : InstrumentSet) (path method : string) (duration : Z)
    : Py world unit :=
  let l := dset "http.status_code" "500" (base_labels m path method) in
  do! measure (request_counter i) 1 l in
  do! measure (request_duration i) duration l in
  measure (error_counter i) 1 l.
Definition elapsed (start : Z) : Py world Z := gets (fun st => perf_counter st.2 - start).

Definition mm_dispatch (m : MetricsMiddleware) (path method : string) (call_next : Py W R) : Py world R :=
  match mm_instruments m with
  | None => on_snd call_next
  | Some i =>
      if bool_decide (path ∈ mm_excluded_paths m) then on_snd call_next
      else
        do! measure (active_requests i) 1 (base_labels m path method) in
        let! start := gets (fun st => perf_counter st.2) in
        finally
          (catch_Exception
             (let! response := on_snd call_next in
              let! duration := elapsed start in
              do! record_finished m i path method (status_code response) duration in
              ret response)
             (fun exc =>
                let! duration := elapsed start in
                do! record_failed m i path method duration in
                raise exc))
          (measure (active_requests i) (-1) (base_labels m path method))
  end.
End Middleware.

(** ** What a request leaves behind *)

Definition total (i : instrument) (p : labels -> bool) (ms : list measurement) : Z :=
  foldr (fun m n => if bool_decide (m_instrument m = i) && p (m_labels m) then m_value m + n else n) 0 ms.
Definition routed (l : labels) : bool := match dget "http.route" l with Some _ => true | None => false end.
Definition any_labels (_ : labels) : bool := true.
Definition classifier_total (m : MetricsMiddleware) : Prop :=
  forall f p, business_domain_classifier m = Some f -> exists d, f p = Ret d.
(** What a request is recorded as under [route], with [outcome] and [duration]: the labels are the
    service, the route, the method and the status - none of tenant or user; with a classifier
    that names a domain, the request counts a second time under the domain instead of the route. *)
Definition request_log {R} (m : MetricsMiddleware) (status_code : R -> Z) (route path method : string)
    (o : outcome exn R) (duration : Z) : list measurement :=
  let i := create_instruments in
  let routed := [("service", mm_service_name m); ("http.route", route); ("http.method", method)] in
  let answered status := routed ++ [("http.status_code", str_of_Z status)] in
  match o with
  | Ret r =>
      let status := status_code r in
      [mkMeasure (request_counter i) 1 (answered status); mkMeasure (request_duration i) duration (answered status)] ++
      (if 400 <=? status then [mkMeasure (error_counter i) 1 (answered status)] else []) ++
      match business_domain_classifier m with
      | None => []
      | Some classify =>
          match classify path with
          | Ret (Some d) =>
              let business := [("service", mm_service_name m); ("domain", d); ("http.method", method);
                               ("http.status_code", str_of_Z status)] in
              if bool_decide (d = "") then []
              else [mkMeasure (request_counter i) 1 business; mkMeasure (request_duration i) duration business]
          | _ => []
          end
      end
  | Exc e =>
      if is_Exception e then
        [mkMeasure (request_counter i) 1 (answered 500); mkMeasure (request_duration i) duration (answered 500);
         mkMeasure (error_counter i) 1 (answered 500)]
      else []
  end.

(** ** Routes without ids *)

Definition chars_in (alphabet s : string) : Prop :=
  Forall (fun c => c ∈ String.list_ascii_of_string alphabet) (String.list_ascii_of_string s).
(** [s] begins with a UUID: groups of 8, 4, 4, 4 and 12 hexadecimal digits, in any case. *)
Definition begins_with_uuid (s : string) : Prop := exists a b c d e rest,
  s = a +:+ "-" +:+ b +:+ "-" +:+ c +:+ "-" +:+ d +:+ "-" +:+ e +:+ rest /\
  map String.length [a; b; c; d; e] = [8; 4; 4; 4; 12]%nat /\
  Forall (chars_in "0123456789abcdefABCDEF") [a; b; c; d; e].
(** [s] begins with a segment of digits alone, which a slash or the end (or a final newline) ends. *)
Definition begins_with_number (s : string) : Prop := exists d rest,
  s = d +:+ rest /\ d <> "" /\ chars_in "0123456789" d /\
  (rest = "" \/ rest = newline \/ exists t, rest = "/" +:+ t).
(** No slash of the route is followed by an id. *)
Definition id_free (route : string) : Prop := forall a b,
  route = a +:+ "/" +:+ b -> ~ begins_with_uuid b /\ ~ begins_with_number b.

#[local] Arguments is_digit : simpl never.
#[local] Arguments is_hex : simpl never.
Lemma chars_in_cons p c s : chars_in p (String c s) <-> c ∈ String.list_ascii_of_string p /\ chars_in p s.
Proof. exact (Forall_cons _ c (String.list_ascii_of_string s)). Qed.
Lemma hex_iff c : c ∈ String.list_ascii_of_string "0123456789abcdefABCDEF" <-> is_hex c = true.
Proof.
  rewrite <- (bool_decide_eq_true (c ∈ String.list_ascii_of_string "0123456789abcdefABCDEF")).
  by destruct c as [[|] [|] [|] [|] [|] [|] [|] [|]].
Qed.
Lemma digit_iff c : c ∈ String.list_ascii_of_string "0123456789" <-> is_digit c = true.
Proof.
  rewrite <- (bool_decide_eq_true (c ∈ String.list_ascii_of_string "0123456789")).
  by destruct c as [[|] [|] [|] [|] [|] [|] [|] [|]].
Qed.
Lemma hexes_spec n k s : hexes n s k = true <->
  exists a t, s = a +:+ t /\ String.length a = n /\ chars_in "0123456789abcdefABCDEF" a /\ k t = true.
Proof.
  revert s. induction n as [|n IH]; intros s; cbn [hexes].
  - split.
    + intros Hk. exists "", s. by repeat split; [constructor |].
    + intros (a & t & -> & Ha & _ & Hk). by destruct a.
  - destruct s as [|c s].
    + split; [done |]. intros (a & t & E & Ha & _). by destruct a.
    + rewrite andb_true_iff, IH, <- hex_iff. split.
      * intros (Hc & a & t & -> & Ha & Hx & Hk). exists (String c a), t. cbn. rewrite Ha. by repeat split; [apply chars_in_cons |].
      * intros (a & t & E & Ha & Hx & Hk). destruct a as [|c' a]; [done |]. cbn in E, Ha. injection E as -> ->.
        apply chars_in_cons in Hx as [Hc Hx]. split; [done |]. exists a, t. by repeat split; [lia |..].
Qed.
Lemma dash_spec k s : dash s k = true <-> exists t, s = "-" +:+ t /\ k t = true.
Proof.
  destruct s as [|c s]; cbn [dash]; [split; [done | by intros (t & E & _)] |].
  rewrite andb_true_iff, bool_decide_eq_true. split; [intros [-> Hk]; by exists s | intros (t & [= -> ->] & Hk); done].
Qed.
Lemma uuid_at_spec s : uuid_at s = true <-> begins_with_uuid s.
Proof.
  unfold uuid_at, begins_with_uuid. split.
  - intros (a & s1 & -> & La & Ha & (s2 & -> & (b & s3 & -> & Lb & Hb & (s4 & -> & (c & s5 & -> & Lc & Hc &
      (s6 & -> & (d & s7 & -> & Ld & Hd & (s8 & -> & (e & rest & -> & Le & He & _)%hexes_spec)%dash_spec)%hexes_spec)%dash_spec)%hexes_spec)%dash_spec)%hexes_spec)%dash_spec)%hexes_spec.
    exists a, b, c, d, e, rest. cbn [map]. rewrite La, Lb, Lc, Ld, Le. split; [done |]. split; [done |]. by repeat constructor.
  - intros (a & b & c & d & e & rest & -> & [= La Lb Lc Ld Le] & Hx).
    rewrite !Forall_cons in Hx. destruct Hx as (Ha & Hb & Hc & Hd & He & _).
    apply hexes_spec. eexists a, _. do 3 (split; [done |]). apply dash_spec. eexists. split; [done |].
    apply hexes_spec. eexists b, _. do 3 (split; [done |]). apply dash_spec. eexists. split; [done |].
    apply hexes_spec. eexists c, _. do 3 (split; [done |]). apply dash_spec. eexists. split; [done |].
    apply hexes_spec. eexists d, _. do 3 (split; [done |]). apply dash_spec. eexists. split; [done |].
    apply hexes_spec. by exists e, rest.
Qed.
Lemma digits_len_spec d t : chars_in "0123456789" d ->
  match t with String c _ => is_digit c = false | EmptyString => True end ->
  digits_len (d +:+ t) = String.length d.
Proof.
  intros Hd Ht. induction d as [|c d IH].
  - change ("" +:+ t) with t. destruct t as [|c t]; [done |]. cbn [digits_len]. by rewrite Ht.
  - apply chars_in_cons in Hd as [Hc Hd]. apply digit_iff in Hc.
    change (String c d +:+ t) with (String c (d +:+ t)). cbn [digits_len String.length]. by rewrite Hc, IH.
Qed.
Lemma digits_len_split s : exists d t, s = d +:+ t /\ String.length d = digits_len s /\ chars_in "0123456789" d.
Proof.
  induction s as [|c s (d & t & -> & Hd & Hx)]; cbn; [exists "", ""; by repeat split; constructor |].
  destruct (is_digit c) eqn:Ec.
  - exists (String c d), t. cbn. rewrite Hd. repeat split. apply chars_in_cons. by rewrite digit_iff.
  - exists "", (String c (d +:+ t)). by repeat split; constructor.
Qed.
Lemma number_spec s : is_Some (_NUMERIC_ID_RE s) <-> begins_with_number s.
Proof.
  unfold _NUMERIC_ID_RE, begins_with_number, at_boundary. split.
  - destruct (digits_len_split s) as (d & t & -> & Hd & Hx). rewrite <- Hd.
    rewrite length_append, Nat.add_comm, Nat.add_sub, substring_suffix.
    intros Hs. case_match eqn:E; [| by destruct Hs]. apply andb_true_iff in E as [Hn Hb]. exists d, t. split; [done |].
    split; [by destruct d | split; [done |]].
    apply orb_true_iff in Hb as [[Hb | Hb%bool_decide_eq_true]%orb_true_iff | Hb%bool_decide_eq_true];
      [right; right; by apply startswith_inv in Hb | by left | right; by left].
  - intros (d & t & -> & Hn & Hx & Ht). rewrite (digits_len_spec d t Hx).
    + rewrite length_append, Nat.add_comm, Nat.add_sub, substring_suffix.
      assert (((0 <? String.length d)%nat && (startswith t "/" || bool_decide (t = "") || bool_decide (t = newline))) = true) as ->; [| done].
      apply andb_true_iff. split; [by destruct d |]. destruct Ht as [-> | [-> | [x ->]]]; [done | done | by rewrite startswith_append].
    + by destruct Ht as [-> | [-> | [x ->]]].
Qed.

(** ** What [re_sub] leaves *)

Section ReSub.
Variable len : string -> option nat.
Lemma append_cons_inv (a b t : string) c : String c t = a +:+ b ->
  a = "" /\ b = String c t \/ exists a', a = String c a' /\ t = a' +:+ b.
Proof.
  destruct a as [|c' a]; [change ("" +:+ b) with b; intros <-; by left |].
  change (String c' a +:+ b) with (String c' (a +:+ b)). intros [= -> ->]. right. by exists a.
Qed.
(** After a slash of the result comes a placeholder, or the result of a suffix that has no match. *)
Lemma re_sub_slash s : forall skip a b, re_sub len skip s = a +:+ "/" +:+ b ->
  (exists t, b = "{id}" +:+ t) \/
  exists a' s', s = a' +:+ "/" +:+ s' /\ b = re_sub len 0 s' /\ len s' = None.
Proof.
  induction s as [|c s IH]; intros skip a b; [by destruct a |].
  assert (Hcons : (exists t, b = "{id}" +:+ t) \/ (exists a' s', s = a' +:+ "/" +:+ s' /\ b = re_sub len 0 s' /\ len s' = None) ->
    (exists t, b = "{id}" +:+ t) \/ exists a' s', String c s = a' +:+ "/" +:+ s' /\ b = re_sub len 0 s' /\ len s' = None).
  { intros [H | (a' & s' & -> & H)]; [by left | right; by exists (String c a'), s']. }
  cbn [re_sub]. destruct skip as [|n]; [| intros E; by apply Hcons, (IH n a)].
  case_bool_decide as Hc; [| intros [[-> E] | (a' & -> & E)]%append_cons_inv; [injection E as E _; by subst c | by apply Hcons, (IH 0%nat a')]].
  subst c. destruct (len s) as [n|] eqn:El.
  - intros E. change ("/{id}" +:+ re_sub len n s) with
      (String "/"%char (String "{"%char (String "i"%char (String "d"%char (String "}"%char (re_sub len n s)))))) in E.
    apply append_cons_inv in E as [[_ E] | (a1 & _ & E)]; [left; exists (re_sub len n s); by injection E |].
    apply append_cons_inv in E as [[_ E] | (a2 & _ & E)]; [discriminate E |].
    apply append_cons_inv in E as [[_ E] | (a3 & _ & E)]; [discriminate E |].
    apply append_cons_inv in E as [[_ E] | (a4 & _ & E)]; [discriminate E |].
    apply append_cons_inv in E as [[_ E] | (a5 & _ & E)]; [discriminate E |].
    by apply Hcons, (IH n a5).
  - intros [[-> E] | (a' & -> & E)]%append_cons_inv; [| by apply Hcons, (IH 0%nat a')].
    right. exists "", s. split; [done |]. split; [by injection E | done].
Qed.
(** Up to its first slash a string is copied. *)
Lemma re_sub_prefix x : forall s t, free_of "/" x = true -> re_sub len 0 s = x +:+ t ->
  exists y, s = x +:+ y /\ t = re_sub len 0 y.
Proof.
  induction x as [|c x IH]; intros s t Hx E; [by exists s |].
  cbn in Hx. apply andb_true_iff in Hx as [Hc%negb_true_iff%bool_decide_eq_false Hx].
  destruct s as [|c' s]; [done |]. cbn [re_sub] in E. case_bool_decide as Hc'.
  - subst c'. destruct (len s); injection E as E _; congruence.
  - injection E as -> E. destruct (IH s t Hx E) as (y & -> & ->). by exists y.
Qed.
Lemma re_sub_id s : (forall a b, s = a +:+ "/" +:+ b -> len b = None) -> re_sub len 0 s = s.
Proof.
  induction s as [|c s IH]; intros Hs; [done |]. cbn [re_sub].
  rewrite IH by (intros a b ->; by apply (Hs (String c a))).
  case_bool_decide as Hc; [| done]. subst c. by rewrite (Hs "" s).
Qed.
Lemma re_sub_empty s : re_sub len 0 s = "" -> s = "".
Proof. destruct s as [|c s]; [done |]. cbn. repeat case_match; done. Qed.
End ReSub.

Lemma chars_free p s : ("/"%char ∈ String.list_ascii_of_string p -> False) -> chars_in p s -> free_of "/" s = true.
Proof.
  intros Hp. induction s as [|c s IH]; [done |]. intros [Hc Hs]%chars_in_cons. cbn. rewrite IH by done.
  rewrite bool_decide_false; [done |]. by intros ->.
Qed.
Lemma no_slash p : bool_decide ("/"%char ∈ String.list_ascii_of_string p) = false -> "/"%char ∈ String.list_ascii_of_string p -> False.
Proof. intros Hb%bool_decide_eq_false. exact Hb. Qed.
Lemma hex_free s : chars_in "0123456789abcdefABCDEF" s -> free_of "/" s = true.
Proof. by apply chars_free, no_slash. Qed.
(** The copy of a suffix begins with an id only if the suffix did. *)
Lemma uuid_copied len s : begins_with_uuid (re_sub len 0 s) -> begins_with_uuid s.
Proof.
  intros (a & b & c & d & e & rest & E & Hl & Hx).
  set (x := a +:+ "-" +:+ b +:+ "-" +:+ c +:+ "-" +:+ d +:+ "-" +:+ e).
  assert (Hax : a +:+ "-" +:+ b +:+ "-" +:+ c +:+ "-" +:+ d +:+ "-" +:+ e +:+ rest = x +:+ rest)
    by (unfold x; by rewrite !append_assoc).
  rewrite Hax in E. apply re_sub_prefix in E as (y & -> & _).
  - exists a, b, c, d, e, y. unfold x. by rewrite !append_assoc.
  - rewrite !Forall_cons in Hx. destruct Hx as (Ha & Hb & Hc & Hd & He & _). unfold x. rewrite !free_of_append.
    by rewrite (hex_free a), (hex_free b), (hex_free c), (hex_free d), (hex_free e).
Qed.
Lemma number_copied len s : begins_with_number (re_sub len 0 s) -> begins_with_number s.
Proof.
  intros (d & rest & E & Hd & Hx & Hr).
  apply re_sub_prefix in E as (y & -> & ->); [| by apply (chars_free "0123456789"); [apply no_slash |]].
  exists d, y. do 3 (split; [done |]). destruct Hr as [Hr | [Hr | [t Hr]]].
  - left. by apply re_sub_empty in Hr.
  - right. left. destruct y as [|c y]; [done |]. cbn [re_sub] in Hr. case_bool_decide; [subst; by destruct (len y) |].
    injection Hr as -> Hr. by apply re_sub_empty in Hr as ->.
  - right. right. destruct y as [|c y]; [done |]. cbn [re_sub] in Hr. case_bool_decide as Hc; [subst; by exists y |].
    injection Hr as -> _. done.
Qed.
(** [normalize_path] leaves no id, and a path without ids as it is. *)
Lemma normalize_id_free path : id_free (normalize_path path).
Proof.
  intros a b E. unfold normalize_path in E. set (p := re_sub _UUID_RE 0 path) in E.
  apply re_sub_slash in E as [[t ->] | (a' & s' & Ep & -> & Hn)].
  - split.
    + intros (x & ? & ? & ? & ? & ? & E & [= Hl _] & Hx). rewrite Forall_cons in Hx. destruct Hx as [Hx _].
      destruct x as [|c x]; [done |]. injection E as <- _. apply chars_in_cons in Hx as [Hc _]. by apply hex_iff in Hc.
    + intros (d & rest & E & Hd & Hx & _). destruct d as [|c d]; [done |]. injection E as <- _.
      apply chars_in_cons in Hx as [Hc _]. by apply digit_iff in Hc.
  - split; [| intros Hb%number_copied%number_spec; rewrite Hn in Hb; by destruct Hb].
    intros Hb%uuid_copied. unfold p in Ep. apply re_sub_slash in Ep as [[t ->] | (a2 & s2 & _ & -> & Hn2)].
    + destruct Hb as (x & ? & ? & ? & ? & ? & E & [= Hl _] & Hx). rewrite Forall_cons in Hx. destruct Hx as [Hx _].
      destruct x as [|c x]; [done |]. injection E as <- _. apply chars_in_cons in Hx as [Hc _]. by apply hex_iff in Hc.
    + apply uuid_copied in Hb. apply uuid_at_spec in Hb. unfold _UUID_RE in Hn2. by rewrite Hb in Hn2.
Qed.
Lemma normalize_plain path : id_free path -> normalize_path path = path.
Proof.
  intros Hp. unfold normalize_path. rewrite (re_sub_id _UUID_RE path).
  - apply re_sub_id. intros a b E. destruct (Hp a b E) as [_ Hn]. rewrite <- number_spec in Hn.
    destruct (_NUMERIC_ID_RE b); [by destruct Hn | done].
  - intros a b E. destruct (Hp a b E) as [Hu _]. rewrite <- uuid_at_spec in Hu. unfold _UUID_RE. by destruct (uuid_at b).
Qed.

(** A computation that only records *)
Definition logs {W} (c : Py (list measurement * W) unit) (w : W) (ms : list measurement) : Prop :=
  forall log, c (log, w) = (Ret tt, (log ++ ms, w)).
Section Logs.
Context {W : Type} (w : W).
Lemma logs_ret : logs (ret tt) w [].
Proof. intros log. by rewrite app_nil_r. Qed.
Lemma logs_measure i v l : logs (measure i v l) w [mkMeasure i v l].
Proof. done. Qed.
Lemma logs_bind (c d : Py (list measurement * W) unit) ms1 ms2 :
  logs c w ms1 -> logs d w ms2 -> logs (do! c in d) w (ms1 ++ ms2).
Proof. intros Hc Hd log. unfold bind. rewrite Hc, Hd. by rewrite app_assoc. Qed.

Lemma logs_if (b : bool) c ms : logs c w ms -> logs (if b then c else ret tt) w (if b then ms else []).
Proof. intros Hc. destruct b; [done | apply logs_ret]. Qed.
End Logs.

Section Recorded.
Context {W R : Type} (status_code : R -> Z) (m : MetricsMiddleware) (path method : string) (w : W).
Lemma finished_logs r duration : classifier_total m ->
  logs (record_finished m create_instruments path method (status_code r) duration) w
    (request_log m status_code (normalize_path path) path method (Ret r) duration).
Proof.
  intros Hc. unfold record_finished, request_log. cbv zeta.
  match goal with |- logs _ _ ([?a; ?b] ++ ?r) => change ([a; b] ++ r) with ([a] ++ ([b] ++ r)) end.
  apply logs_bind; [apply logs_measure |]. apply logs_bind; [apply logs_measure |].
  apply logs_bind; [apply logs_if, logs_measure |]. unfold record_business.
  destruct (business_domain_classifier m) as [f|] eqn:Ef; [| apply logs_ret].
  destruct (Hc f path Ef) as [d Hd]. rewrite Hd. destruct d as [d|]; [| intros log; apply logs_ret].
  unfold nonempty. intros log. cbn [lift_out]. unfold bind at 1, ret at 1. case_bool_decide; cbn [negb].
  - apply logs_ret.
  - exact (logs_bind _ _ _ _ _ (logs_measure _ _ _ _) (logs_measure _ _ _ _) log).
Qed.
Lemma failed_logs e duration : is_Exception e = true ->
  logs (record_failed m create_instruments path method duration) w
    (request_log m status_code (normalize_path path) path method (Exc e) duration).
Proof.
  intros He. unfold record_failed, request_log. rewrite He. cbv zeta.
  match goal with |- logs _ _ [?a; ?b; ?c] => change [a; b; c] with ([a] ++ ([b] ++ [c])) end.
  repeat first [ apply logs_measure | apply logs_bind ].
Qed.
End Recorded.

(** C26. The metrics middleware watches and does not touch.  For a measured path and a
    classifier that does not raise, whatever the application does - answer, raise or be
    cancelled - its outcome and its effects are handed on, and exactly this is recorded: the gauge of
    active requests goes up by one before and down by one after, under the same labels
    (service, route, method); in between, a request that finished counts once under its route, with its
    duration and status, as an error exactly when the status is 400 or more or an exception came
    out (status 500), and once more under its business domain if the classifier names one; a cancelled
    one does not count.  No label tells the tenant or the user, and the route is the path without
    ids: no slash in it is followed by a UUID or by a segment of digits, and a path that
    has none is its own route. *)
Theorem metrics_middleware_transparent {W R} `{PerfCounter W} (status_code : R -> Z) m path method
    (call_next : Py W R) log w :
  mm_instruments m = Some create_instruments -> path ∉ mm_excluded_paths m -> classifier_total m ->
  exists route, id_free route /\ (id_free path -> route = path) /\
  let labels := [("service", mm_service_name m); ("http.route", route); ("http.method", method)] in
  let o := fst (call_next w) in let w' := snd (call_next w) in
  mm_dispatch status_code m path method call_next (log, w) =
    (o, (log ++ [mkMeasure (active_requests create_instruments) 1 labels] ++
           request_log m status_code route path method o (perf_counter w' - perf_counter w) ++
           [mkMeasure (active_requests create_instruments) (-1) labels], w')).
Proof.
  intros Hi Hp Hc. exists (normalize_path path). split; [apply normalize_id_free |]. split; [apply normalize_plain |].
  cbv zeta. unfold mm_dispatch. rewrite Hi, bool_decide_false by done.
  rewrite (bind_Ret _ _ (log, w) tt _ (logs_measure w _ _ _ log)).
  unfold bind at 1, gets at 1. cbn [fst snd]. rewrite app_assoc. set (l0 := log ++ _). set (start := perf_counter w).
  unfold finally, catch_Exception, catch. destruct (call_next w) as [[r|e] w'] eqn:E; cbn [fst snd].
  - assert (Ec : on_snd call_next (l0, w) = (Ret r, (l0, w'))) by (unfold on_snd; cbn; by rewrite E).
    rewrite (bind_Ret _ _ _ _ _ Ec). unfold elapsed, bind at 1, gets. cbn [fst snd].
    rewrite (bind_Ret _ _ _ _ _ (finished_logs status_code m path method w' r _ Hc l0)). unfold ret.
    rewrite (logs_measure w'). by rewrite <- app_assoc.
  - assert (Ec : on_snd call_next (l0, w) = (Exc e, (l0, w'))) by (unfold on_snd; cbn; by rewrite E).
    rewrite (bind_Exc _ _ _ _ _ Ec). destruct (is_Exception e) eqn:Ex.
    + unfold elapsed, bind at 1, gets. cbn [fst snd].
      rewrite (bind_Ret _ _ _ _ _ (failed_logs status_code m path method w' e _ Ex l0)).
      unfold raise. cbv beta iota zeta. rewrite (logs_measure w' _ _ _ _). by rewrite <- app_assoc.
    + unfold raise, request_log. rewrite Ex. cbv beta iota zeta. by rewrite (logs_measure w' _ _ _ _).
Qed.
(** A classifier that raises hides a finished answer and counts the request twice. *)
Lemma classifier_error_counts_twice :
  let m := MetricsMiddleware_init "lead" (Some create_instruments) None
             (Some (fun _ => Exc (PyErr KeyError "domain"))) in
  let _ := Build_PerfCounter unit (fun _ => 0) in
  let '(o, (ms, _)) := mm_dispatch (fun r : Z => r) m "/leads" "GET" (ret 200) ([], tt) in
  o = Exc (PyErr KeyError "domain") /\
  total (request_counter create_instruments) routed ms = 2 /\
  total (error_counter create_instruments) any_labels ms = 1.
Proof. cbv. auto. Qed.

#[export] Instance unit_clock : PerfCounter unit := { perf_counter _ := 0 }.
Definition demo_metrics : MetricsMiddleware :=
  MetricsMiddleware_init "lead" (Some create_instruments) None None.
Lemma metrics_middleware_transparent_witness :
  exists ms route, mm_dispatch (fun r : Z => r) demo_metrics "/leads/42" "GET" (ret 503) ([], tt) = (Ret 503, (ms, tt)) /\
    id_free route /\ length ms = 5%nat.
Proof.
  destruct (metrics_middleware_transparent (fun r : Z => r) demo_metrics "/leads/42" "GET" (ret 503) [] tt)
    as (route & Hr & _ & E); [reflexivity | | by intros f p |].
  - by apply (bool_decide_eq_false_1 ("/leads/42" ∈ mm_excluded_paths demo_metrics)).
  - eexists _, route. split; [exact E |]. split; [exact Hr | reflexivity].
Defined.

(** ** Celery tasks *)

(** cachetools' [TTLCache]: a dictionary that may drop entries, when they expire or when it is full.
    Operations take the time. *)
Class TTLCache (C V : Type) := {
  tc_get : Z -> string -> C -> option V;
  tc_set : Z -> string -> V -> C -> C;
  tc_pop : Z -> string -> C -> option V * C;
}.
Class TTLCacheDoc (C V : Type) `{TTLCache C V} : Prop := {
  tc_pop_value t k c : fst (tc_pop t k c) = tc_get t k c;
  tc_pop_gone t t' k c : tc_get t' k (snd (tc_pop t k c)) = None;
  tc_pop_other t t' k k' c v : k' <> k -> tc_get t' k' (snd (tc_pop t k c)) = Some v -> tc_get t' k' c = Some v;
  tc_set_same t t' k v v' c : tc_get t' k (tc_set t k v c) = Some v' -> v' = v;
  tc_set_other t t' k k' v v' c : k' <> k -> tc_get t' k' (tc_set t k v c) = Some v' -> tc_get t' k' c = Some v';
}.
Definition celery_task_duration := mkInstrument "celery_task_duration_seconds" "Celery task execution duration" "s".
Definition celery_task_total := mkInstrument "celery_tasks" "Total Celery task executions" "{task}".
Definition celery_task_active := mkInstrument "celery_tasks_active" "Currently active Celery tasks" "{task}".

(** [task_start_times], [failed_task_ids], and what was recorded *)
Record celery_metrics (C D : Type) := mkCeleryMetrics {
  task_start_times : C;
  failed_task_ids : D;
  cm_log : list measurement;
}.
Arguments mkCeleryMetrics {C D}.
Arguments task_start_times {C D}.
Arguments failed_task_ids {C D}.
Arguments cm_log {C D}.
Section Celery.
Context {C D : Type} `{TTLCache C Z, TTLCache D bool}.
Notation St := (celery_metrics C D).
(** The handlers; [now] is the clock of the process, [name] is [getattr(task, "name", "unknown")]. *)
Definition _task_prerun (now : Z) (task_id name : string) (st : St) : St :=
  mkCeleryMetrics (tc_set now task_id now (task_start_times st)) (failed_task_ids st)
    (cm_log st ++ [mkMeasure celery_task_active 1 [("task.name", name)]]).
Definition _task_failure (now : Z) (task_id : string) (st : St) : St :=
  mkCeleryMetrics (task_start_times st) (tc_set now task_id true (failed_task_ids st)) (cm_log st).
Definition _task_postrun (now : Z) (task_id name : string) (st : St) : St :=
  let (failed, failed_ids) := tc_pop now task_id (failed_task_ids st) in
  let is_failed := default false failed in
  let (start_time, start_times) := tc_pop now task_id (task_start_times st) in
  let l := [("task.name", name); ("status", if (is_failed : bool) then "failure" else "success")] in
  mkCeleryMetrics start_times failed_ids
    (cm_log st ++ [mkMeasure celery_task_total 1 l] ++
     match start_time with Some t => [mkMeasure celery_task_duration (now - t) l] | None => [] end ++
     [mkMeasure celery_task_active (-1) [("task.name", name)]]).

(** The signals a worker sends *)
Inductive signal := Prerun (now : Z) (id name : string) | Failure (now : Z) (id : string)
                  | Postrun (now : Z) (id name : string).
Definition on_signal (st : St) (s : signal) : St :=
  match s with
  | Prerun now id name => _task_prerun now id name st
  | Failure now id => _task_failure now id st
  | Postrun now id name => _task_postrun now id name st
  end.
Definition on_signals (st : St) (l : list signal) : St := foldl on_signal st l.
End Celery.
(** [setup_celery_instrumentation]: the flag, and how often the three handlers are connected. *)
Definition setup_celery_instrumentation (st : bool * nat) : bool * nat :=
  let '(_instrumented, connected) := st in
  if (_instrumented : bool) then st else (true, S connected).

(** What a history says about a task id: the start of its current run, and whether a failure was
    signalled in it. *)
Definition start_after (id : string) (o : option Z) (s : signal) : option Z :=
  match s with
  | Prerun now id' _ => if bool_decide (id' = id) then Some now else o
  | Postrun _ id' _ => if bool_decide (id' = id) then None else o
  | Failure _ _ => o
  end.
Definition last_start (id : string) (l : list signal) : option Z := foldl (start_after id) None l.
Definition failed_after (id : string) (b : bool) (s : signal) : bool :=
  match s with
  | Failure _ id' => b || bool_decide (id' = id)
  | Postrun _ id' _ => if bool_decide (id' = id) then false else b
  | Prerun _ _ _ => b
  end.
Definition failed_since (id : string) (l : list signal) : bool := foldl (failed_after id) false l.
Definition started (name : string) (s : signal) : Z :=
  match s with Prerun _ _ n => if bool_decide (n = name) then 1 else 0 | _ => 0 end.
Definition ended (name : string) (s : signal) : Z :=
  match s with Postrun _ _ n => if bool_decide (n = name) then 1 else 0 | _ => 0 end.
Definition count_of (f : signal -> Z) (l : list signal) : Z := foldr (fun s n => f s + n) 0 l.
Definition named (name : string) (l : labels) : bool := bool_decide (dget "task.name" l = Some name).

Lemma total_app i p l1 l2 : total i p (l1 ++ l2) = total i p l1 + total i p l2.
Proof. unfold total. induction l1 as [|m l1 IH]; cbn; [done |]. rewrite IH. case_match; lia. Qed.
Lemma total_nil i p : total i p [] = 0.
Proof. done. Qed.
Lemma total_one i name j v l n : dget "task.name" l = Some n ->
  total i (named name) [mkMeasure j v l] = if bool_decide (j = i) && bool_decide (n = name) then v else 0.
Proof.
  intros Hl. unfold total, named. cbn. rewrite Hl.
  destruct (decide (n = name)) as [-> | E].
  - rewrite !(bool_decide_true (_ = name)), (bool_decide_true (Some name = _)) by done. case_match; lia.
  - rewrite !(bool_decide_false (_ = name)), (bool_decide_false (Some n = _)) by congruence. by rewrite andb_false_r.
Qed.
Ltac decide_instruments := repeat match goal with
  | |- context [bool_decide (?i = ?j :> instrument)] =>
      let b := eval vm_compute in (bool_decide (i = j)) in change (bool_decide (i = j)) with b
  end; cbn [andb].
Lemma count_app f l1 l2 : count_of f (l1 ++ l2) = count_of f l1 + count_of f l2.
Proof. unfold count_of. induction l1 as [|m l1 IH]; cbn; [done |]. rewrite IH. lia. Qed.

Section CeleryProofs.
Context {C D : Type} `{TTLCache C Z, !TTLCacheDoc C Z, TTLCache D bool, !TTLCacheDoc D bool}.
Notation St := (celery_metrics C D).
(** The entries of the caches are true of the history. *)
Record caches_true (st : St) (l : list signal) : Prop := {
  ct_start t id v : tc_get t id (task_start_times st) = Some v -> last_start id l = Some v;
  ct_failed t id v : tc_get t id (failed_task_ids st) = Some v -> v = true /\ failed_since id l = true;
}.
Lemma caches_step st l s : caches_true st l -> caches_true (on_signal st s) (l ++ [s]).
Proof.
  intros [Hs Hf]. unfold last_start, failed_since in *.
  split; intros t id v; unfold last_start, failed_since; rewrite foldl_app; cbn [foldl];
    destruct s as [now i name | now i | now i name]; cbn [on_signal _task_prerun _task_failure task_start_times failed_task_ids start_after failed_after].
  - case_bool_decide as E; [subst i; by intros ->%tc_set_same | intros Hx; apply tc_set_other in Hx; eauto].
  - eauto.
  - unfold _task_postrun. destruct (tc_pop now i (failed_task_ids st)) as [o1 c1] eqn:E1.
    destruct (tc_pop now i (task_start_times st)) as [o c'] eqn:E2. cbn.
    change c' with (snd (o, c')). rewrite <- E2. case_bool_decide as E.
    + subst i. by rewrite tc_pop_gone.
    + intros Hx%tc_pop_other; eauto.
  - eauto.
  - destruct (decide (i = id)) as [-> | E].
    + intros ->%tc_set_same. by rewrite bool_decide_true, orb_true_r.
    + intros Hx%tc_set_other; [| done]. destruct (Hf _ _ _ Hx) as [-> ->]. done.
  - unfold _task_postrun. destruct (tc_pop now i (failed_task_ids st)) as [o c'] eqn:E1.
    destruct (tc_pop now i (task_start_times st)) as [o2 c2] eqn:E2. cbn.
    change c' with (snd (o, c')). rewrite <- E1. case_bool_decide as E.
    + subst i. by rewrite tc_pop_gone.
    + intros Hx%tc_pop_other; eauto.
Qed.
Lemma log_step name st s :
  total celery_task_active (named name) (cm_log (on_signal st s)) =
    total celery_task_active (named name) (cm_log st) + started name s - ended name s /\
  total celery_task_total (named name) (cm_log (on_signal st s)) =
    total celery_task_total (named name) (cm_log st) + ended name s.
Proof.
  destruct s as [now i n | now i | now i n]; cbn [on_signal _task_prerun _task_failure cm_log started ended].
  - rewrite !total_app, !(total_one _ name _ _ _ n) by done. decide_instruments.
    destruct (bool_decide (n = name)); cbn; lia.
  - lia.
  - unfold _task_postrun. destruct (tc_pop now i (failed_task_ids st)) as [o c'].
    destruct (tc_pop now i (task_start_times st)) as [o2 c2]. cbn [cm_log].
    destruct o2; rewrite !total_app, ?total_nil, !(total_one _ name _ _ _ n) by done; decide_instruments;
      destruct (bool_decide (n = name)); cbn; lia.
Qed.
End CeleryProofs.

(** The measurements at the end of a run *)
Definition run_ended (name : string) (failed : bool) (duration : option Z) : list measurement :=
  let l := [("task.name", name); ("status", if failed then "failure" else "success")] in
  [mkMeasure celery_task_total 1 l] ++
  match duration with Some d => [mkMeasure celery_task_duration d l] | None => [] end ++
  [mkMeasure celery_task_active (-1) [("task.name", name)]].

(** The accounts of the workers' tasks.  Whatever signals a worker sends, in whatever order
    and with whatever entries dropped from the caches: the gauge of active tasks is, for each
    task, the runs started minus the runs ended, and the counter the runs ended.  A run is
    counted as a failure only if a failure was signalled since the previous end of its task
    id, and a duration is recorded only if the run's own start was seen, and is the time
    since that start. *)
Theorem celery_metrics_account {C D} `{TTLCache C Z, !TTLCacheDoc C Z, TTLCache D bool, !TTLCacheDoc D bool}
    (start_times : C) (failed_ids : D) (l : list signal) :
  (forall t id, tc_get t id start_times = None) -> (forall t id, tc_get t id failed_ids = None) ->
  let st := on_signals (mkCeleryMetrics start_times failed_ids []) l in
  (forall name, total celery_task_active (named name) (cm_log st) = count_of (started name) l - count_of (ended name) l /\
     total celery_task_total (named name) (cm_log st) = count_of (ended name) l) /\
  (forall now id name, exists failed duration,
     cm_log (_task_postrun now id name st) = cm_log st ++ run_ended name failed duration /\
     (failed = true -> failed_since id l = true) /\
     (forall d, duration = Some d -> exists t, last_start id l = Some t /\ d = now - t)).
Proof.
  intros Hs Hf. cbv zeta. set (st0 := mkCeleryMetrics start_times failed_ids []).
  assert (Hct : caches_true (on_signals st0 l) l).
  { induction l as [|s l IH] using rev_ind.
    - split; intros t id v; cbn; [by rewrite Hs | by rewrite Hf].
    - unfold on_signals. rewrite foldl_app. by apply caches_step. }
  split.
  - intros name. clear Hct. induction l as [|s l IH] using rev_ind; [done |].
    unfold on_signals. rewrite foldl_app. cbn [foldl]. fold (on_signals st0 l).
    destruct (log_step name (on_signals st0 l) s) as [-> ->]. rewrite !count_app. cbn. lia.
  - intros now id name. destruct Hct as [Hstart Hfailed]. unfold _task_postrun.
    pose proof (tc_pop_value now id (failed_task_ids (on_signals st0 l))) as E1.
    pose proof (tc_pop_value now id (task_start_times (on_signals st0 l))) as E2.
    destruct (tc_pop now id (failed_task_ids _)) as [f c1], (tc_pop now id (task_start_times _)) as [t c2].
    cbn in E1, E2. exists (default false f), (option_map (fun t => now - t) t). split; [| split].
    + by destruct t.
    + intros Hd. destruct f as [b|]; [| discriminate]. symmetry in E1. by apply Hfailed in E1 as [_ ?].
    + intros d Hd. destruct t as [t|]; [| discriminate]. injection Hd as <-. symmetry in E2. eauto.
Qed.

(** A cache whose entries live for an hour *)
#[export] Instance hour_cache V : TTLCache (gmap string (V * Z)) V := {
  tc_get t k c := match c !! k with Some (v, t0) => if t <? t0 + 3600 then Some v else None | None => None end;
  tc_set t k v c := <[k := (v, t)]> c;
  tc_pop t k c :=
    (match c !! k with Some (v, t0) => if t <? t0 + 3600 then Some v else None | None => None end, base.delete k c);
}.
#[export] Instance hour_cache_doc V : TTLCacheDoc (gmap string (V * Z)) V.
Proof.
  split; cbn; intros.
  - done.
  - by rewrite lookup_delete_eq.
  - by rewrite lookup_delete_ne in *.
  - rewrite lookup_insert_eq in *. case_match; congruence.
  - by rewrite lookup_insert_ne in *.
Qed.
Definition demo_signals : list signal :=
  [Prerun 10 "a" "send"; Prerun 12 "b" "send"; Failure 13 "a"; Postrun 15 "b" "send"].
Lemma celery_metrics_account_witness :
  let st := on_signals (mkCeleryMetrics (∅ : gmap string (Z * Z)) (∅ : gmap string (bool * Z)) []) demo_signals in
  total celery_task_active (named "send") (cm_log st) = 1 /\
  cm_log (_task_postrun 20 "a" "send" st) = cm_log st ++ run_ended "send" true (Some 10).
Proof.
  destruct (celery_metrics_account (∅ : gmap string (Z * Z)) (∅ : gmap string (bool * Z)) demo_signals) as [Ht _];
    [done | done |].
  split; [exact (proj1 (Ht "send")) | vm_compute; reflexivity].
Defined.

(** ** Database queries *)

Definition _VALID_OPERATIONS : list string := ["SELECT"; "INSERT"; "UPDATE"; "DELETE"].
Definition _extract_operation_type (statement : option string) : string :=
  match statement with
  | None => "UNKNOWN"
  | Some s =>
      if negb (nonempty s) then "UNKNOWN"
      else let stripped := strip s in
           if negb (nonempty stripped) then "UNKNOWN"
           else let first_word := upper (hd "" (split_ws stripped)) in
                if bool_decide (first_word ∈ _VALID_OPERATIONS) then first_word else "OTHER"
  end.
Definition db_query_duration := mkInstrument "db_client_operation_duration_seconds" "Database query duration" "s".
Definition db_operation_counter := mkInstrument "db_client_operations" "Total database operations" "{operation}".
(** The listeners; [_query_start_time] is the attribute of the execution context. *)
Definition _before_cursor_execute (now : Z) (_query_start_time : option Z) : option Z := Some now.
Definition _after_cursor_execute (now : Z) (_query_start_time : option Z) (statement : option string)
    : list measurement :=
  match _query_start_time with
  | None => []
  | Some start_time =>
      let l := [("db.system", "postgresql"); ("db.operation", _extract_operation_type statement)] in
      [mkMeasure db_query_duration (now - start_time) l; mkMeasure db_operation_counter 1 l]
  end.
(** The label of the operation is one of six words, whatever statement comes. *)
Lemma operation_label_bounded statement :
  _extract_operation_type statement ∈ ["UNKNOWN"; "OTHER"] ++ _VALID_OPERATIONS.
Proof.
  unfold _extract_operation_type.
  destruct statement as [s|]; [| by left]. destruct (nonempty s); [cbn [negb] | by left].
  destruct (nonempty (strip s)); [cbn [negb] | by left].
  case_bool_decide as E; [| by right; left]. do 2 right. exact E.
Qed.

(** ** The exporters *)

(** [start_http_server]; [exc.errno] of an [OSError] *)
Class PrometheusEnv (W : Type) := {
  start_http_server : Z -> string -> Py W unit;
  exc_errno : exn -> option Z;
}.
Definition EADDRINUSE : Z := 98.
(** Whether there is a server to shut down *)
Definition start_prometheus_http_server {W} `{PrometheusEnv W} (port : Z) (bind_address service_name : string)
    : Py W bool :=
  catch (do! start_http_server port bind_address in ret true)
    (fun exc => if isinstance exc OSError
                then if bool_decide (exc_errno exc = Some EADDRINUSE) then ret false else raise exc
                else raise exc).

(** [create_metrics_router]: path and endpoint, which renders the default registry; status, media type, body *)
Definition create_metrics_router {W} (generate_latest : Py W string) (CONTENT_TYPE_LATEST : string)
    : list (string * Py W (Z * string * string)) :=
  [("/metrics", let! content := generate_latest in ret (200, CONTENT_TYPE_LATEST, content))].

Inductive MetricsProvider := PROMETHEUS | MP_NOOP.
Inductive LogProvider := LOKI | LP_NOOP.
Inductive TraceProvider := OTLP | TP_NOOP.
Definition unsupported {A} (what provider : string) (known : list string) : outcome exn A :=
  Exc (PyErr ValueError ("Unsupported " +:+ what +:+ " provider: " +:+ provider +:+ ". Use one of: " +:+
    py_repr (JList (map JStr known)))).
Definition create_metrics_provider (provider : string) : outcome exn MetricsProvider :=
  let provider_lower := lower provider in
  if bool_decide (provider_lower = "prometheus") then Ret PROMETHEUS
  else if bool_decide (provider_lower = "noop") then Ret MP_NOOP
  else unsupported "metrics" provider ["prometheus"; "noop"].
Definition create_log_provider (provider : string) : outcome exn LogProvider :=
  let provider_lower := lower provider in
  if bool_decide (provider_lower = "loki") then Ret LOKI
  else if bool_decide (provider_lower = "noop") then Ret LP_NOOP
  else unsupported "log" provider ["loki"; "noop"].
Definition create_trace_provider (provider : string) : outcome exn TraceProvider :=
  let provider_lower := lower provider in
  if bool_decide (provider_lower = "otlp") then Ret OTLP
  else if bool_decide (provider_lower = "noop") then Ret TP_NOOP
  else unsupported "trace" provider ["otlp"; "noop"].
(** The adapters *)
Definition create_metric_reader (p : MetricsProvider) : bool := match p with PROMETHEUS => true | MP_NOOP => false end.
Definition start_server {W} `{PrometheusEnv W} (p : MetricsProvider) (port : Z) (service_name : string) : Py W bool :=
  match p with
  | PROMETHEUS => if port <=? 0 then ret false else start_prometheus_http_server port "0.0.0.0" service_name
  | MP_NOOP => ret false
  end.
(** The endpoint a span exporter ships to *)
Definition create_span_exporter (p : TraceProvider) (otlp_endpoint : string) : option string :=
  match p with OTLP => if nonempty otlp_endpoint then Some otlp_endpoint else None | TP_NOOP => None end.
Inductive log_handler := Shipping (h : LokiHandler) | NullHandler.
Definition create_handler (p : LogProvider) (loki_url service_name : string) (l : labels) : log_handler :=
  match p with LOKI => Shipping (loki_create_handler loki_url 100 5 service_name l) | LP_NOOP => NullHandler end.

(** ** [setup_tracing] and [setup_monitoring] *)

(** What the setup leaves in the process: the readers of the meter provider last handed to
    [set_meter_provider], the application's middleware, the scrape servers, the endpoint of the
    span processor of the tracer provider last handed to [set_tracer_provider], and the root
    logger's handlers (at level INFO). *)
Record telemetry := mkTelemetry {
  t_readers : list MetricsProvider;
  t_middleware : list MetricsMiddleware;
  t_servers : list Z;
  t_tracer : option (option string);
  t_handlers : list log_handler;
}.
(** An injected exporter is preferred to the endpoint. *)
Definition setup_tracing (otlp_endpoint : string) (span_exporter : option string) : option string :=
  match span_exporter with
  | Some e => Some e
  | None => if nonempty otlp_endpoint then Some otlp_endpoint else None
  end.
Record monitoring_args := mkMonitoringArgs {
  ma_service_name : string;
  prometheus_port : Z;
  enable_tracing : bool;
  ma_otlp_endpoint : string;
  ma_excluded_paths : option (list string);
  ma_classifier : option (string -> outcome exn (option string));
  ma_loki_url : string;
  environment : string;
  metrics_provider : string;
  log_provider : string;
  trace_provider : string;
}.
Section Setup.
Context {W : Type} `{PrometheusEnv W}.
Notation world := (telemetry * W)%type.
Definition update (f : telemetry -> telemetry) : Py world unit := modify (fun st => (f st.1, st.2)).

Definition setup_metrics (a : monitoring_args) : Py world unit :=
  let! metrics_adapter := lift_out (create_metrics_provider (metrics_provider a)) in
  do! update (fun t => mkTelemetry (if create_metric_reader metrics_adapter then [metrics_adapter] else [])
                         (t_middleware t) (t_servers t) (t_tracer t) (t_handlers t)) in
  do! update (fun t => mkTelemetry (t_readers t)
                (MetricsMiddleware_init (ma_service_name a) (Some create_instruments) (ma_excluded_paths a)
                   (ma_classifier a) :: t_middleware t)
                (t_servers t) (t_tracer t) (t_handlers t)) in
  if 0 <? prometheus_port a then
    let! started := on_snd (start_server metrics_adapter (prometheus_port a) (ma_service_name a)) in
    if (started : bool) then
      update (fun t => mkTelemetry (t_readers t) (t_middleware t) (prometheus_port a :: t_servers t) (t_tracer t) (t_handlers t))
    else ret tt
  else ret tt.
Definition setup_traces (a : monitoring_args) : Py world unit :=
  if enable_tracing a then
    let! trace_adapter := lift_out (create_trace_provider (trace_provider a)) in
    let exporter := setup_tracing (ma_otlp_endpoint a) (create_span_exporter trace_adapter (ma_otlp_endpoint a)) in
    update (fun t => mkTelemetry (t_readers t) (t_middleware t) (t_servers t) (Some exporter) (t_handlers t))
  else ret tt.
Definition loki_labels (a : monitoring_args) : labels :=
  if nonempty (environment a) then [("environment", environment a)] else [].
Definition setup_logs (a : monitoring_args) : Py world unit :=
  if nonempty (ma_loki_url a) then
    let! log_adapter := lift_out (create_log_provider (log_provider a)) in
    let handler := create_handler log_adapter (ma_loki_url a) (ma_service_name a) (loki_labels a) in
    update (fun t => mkTelemetry (t_readers t) (t_middleware t) (t_servers t) (t_tracer t) (t_handlers t ++ [handler]))
  else ret tt.
Definition setup_monitoring (a : monitoring_args) : Py world unit :=
  do! setup_metrics a in do! setup_traces a in setup_logs a.
End Setup.

(** Choosing the no-op trace provider does not switch tracing off: with an endpoint
    configured, [setup_tracing] takes the missing exporter for a caller of the old interface
    and ships to the endpoint. *)
Theorem noop_tracing_still_exports {W} `{PrometheusEnv W} (a : monitoring_args) (t : telemetry) (w : W) :
  enable_tracing a = true -> lower (trace_provider a) = "noop" -> ma_otlp_endpoint a <> "" ->
  setup_traces a (t, w) =
    (Ret tt, (mkTelemetry (t_readers t) (t_middleware t) (t_servers t) (Some (Some (ma_otlp_endpoint a))) (t_handlers t), w)).
Proof.
  intros He Hn Hu. unfold setup_traces, create_trace_provider. rewrite He, Hn. cbn.
  unfold bind, lift_out, update, modify, ret, setup_tracing. cbn. by rewrite (proj2 (nonempty_spec _) Hu).
Qed.

(** A service whose provider names exist, in any case of letters, comes up: whatever else is
    configured the middleware is installed, the metrics are served or their port was taken, and
    logs are shipped exactly when a Loki URL is set and the provider is not the no-op one. *)
Definition known (provider real : string) : Prop := lower provider = real \/ lower provider = "noop".
Theorem setup_monitoring_total {W} `{PrometheusEnv W} (a : monitoring_args) (t : telemetry) (w : W) :
  known (metrics_provider a) "prometheus" -> known (trace_provider a) "otlp" -> known (log_provider a) "loki" ->
  (forall p b w, exists w', start_http_server p b w = (Ret tt, w') \/
     exists e, start_http_server p b w = (Exc e, w') /\ isinstance e OSError = true /\ exc_errno (W := W) e = Some EADDRINUSE) ->
  exists readers servers tracer w', setup_monitoring a (t, w) = (Ret tt, (
    mkTelemetry readers
      (MetricsMiddleware_init (ma_service_name a) (Some create_instruments) (ma_excluded_paths a) (ma_classifier a)
         :: t_middleware t) servers tracer
      (t_handlers t ++
         (if nonempty (ma_loki_url a) then
            [if bool_decide (lower (log_provider a) = "loki")
             then Shipping (loki_create_handler (ma_loki_url a) 100 5 (ma_service_name a) (loki_labels a))
             else NullHandler] else [])), w')).
Proof.
  intros Hm Ht Hl Hstart.
  assert (Hserve : forall p, exists b w1, start_server p (prometheus_port a) (ma_service_name a) w = (Ret b, w1)).
  { intros [|]; cbn; [| by eexists _, _]. case_match; [by eexists _, _ |].
    unfold start_prometheus_http_server, catch, bind.
    destruct (Hstart (prometheus_port a) "0.0.0.0" w) as (w1 & [E | (e & E & Ho & En)]); rewrite E; [by eexists _, _ |].
    rewrite Ho, bool_decide_true by done. by eexists _, _. }
  assert (Hmetrics : exists readers servers w1, setup_metrics a (t, w) = (Ret tt, (mkTelemetry readers
      (MetricsMiddleware_init (ma_service_name a) (Some create_instruments) (ma_excluded_paths a) (ma_classifier a)
         :: t_middleware t) servers (t_tracer t) (t_handlers t), w1))).
  { unfold setup_metrics. destruct (create_metrics_provider (metrics_provider a)) as [p|e] eqn:Ep.
    - unfold bind, lift_out, update, modify, on_snd, ret. cbn -[start_server]. destruct (0 <? prometheus_port a); [| by eexists _, _, _].
      destruct (Hserve p) as (b & w1 & E). cbn [fst snd]. rewrite E. destruct b; by eexists _, _, _.
    - unfold create_metrics_provider in Ep. destruct Hm as [-> | ->] in Ep; discriminate. }
  destruct Hmetrics as (readers & servers & w1 & E1).
  assert (Htraces : exists tracer, forall t1, t_tracer t1 = t_tracer t -> setup_traces a (t1, w1) = (Ret tt,
      (mkTelemetry (t_readers t1) (t_middleware t1) (t_servers t1) tracer (t_handlers t1), w1))).
  { unfold setup_traces. destruct (enable_tracing a).
    - destruct (create_trace_provider (trace_provider a)) as [p|e] eqn:Ep; [by eexists |].
      unfold create_trace_provider in Ep. destruct Ht as [-> | ->] in Ep; discriminate.
    - exists (t_tracer t). intros [] E. cbn in *. by subst. }
  destruct Htraces as (tracer & E2). exists readers, servers, tracer, w1.
  unfold setup_monitoring. rewrite (bind_Ret _ _ _ _ _ E1). rewrite (bind_Ret _ _ _ _ _ (E2 (mkTelemetry _ _ _ _ _) eq_refl)).
  unfold setup_logs. destruct (nonempty (ma_loki_url a)); [| by rewrite app_nil_r].
  unfold create_log_provider. destruct Hl as [-> | ->]; cbn; reflexivity.
Qed.
