(* ===== verification/Schemas.v ===== *)
(** * Declared schemas

    The language in which src/tr_shared/contracts/s2s/ and events/payloads/ declare their
    models: pydantic's field types and the three configurations of unknown keys.  What pydantic
    does with a declaration is a parameter ([Pydantic]) with its documentation as laws
    ([PydanticDoc]) and a reference implementation.  A value is the JSON form
    ([model_dump(mode="json")]) of what was validated. *)

From S2P Require Import Prelude Json Errors.
Local Open Scope Z_scope.

Inductive scalar := SStr | SInt | SFloat | SBool | SUuid | SDatetime | SAny.
#[export] Instance scalar_eq_dec : EqDecision scalar.
Proof. solve_decision. Defined.
Inductive ty :=
| TScalar (s : scalar)
| TEnum (values : list string)                     (* a [StrEnum], a [Literal] *)
| TStripped (lo hi : nat)                          (* [StringConstraints(strip_whitespace, ...)] *)
| TRange (lo hi : option Z)                        (* [int] with [ge], [le] *)
| TMatch (p : string -> bool)                      (* [str] with a pattern or an after-validator *)
| TOpt (t : ty)                                    (* [t | None] *)
| TUnion (ts : list ty)
| TList (lo : nat) (hi : option nat) (t : ty)
| TDict (t : ty)                                   (* [dict[str, t]] *)
| TModel (forbid : bool) (fields : list (string * (ty * option json)))    (* name, type, default *)
| TOpen (fields : list (string * (ty * option json))).                    (* [extra="allow"] *)
Notation field := (string * (ty * option json))%type.

Definition Str := TScalar SStr.
Definition Int := TScalar SInt.
Definition Bool := TScalar SBool.
Definition Uuid := TScalar SUuid.
Definition Datetime := TScalar SDatetime.
Definition Any := TScalar SAny.
Definition Dict := TDict Any.
(** [name: t], [name: t = d], [name: t | None = None] *)
Definition req (name : string) (t : ty) : field := (name, (t, None)).
Definition opt_default (name : string) (t : ty) (d : json) : field := (name, (t, Some d)).
Definition opt (name : string) (t : ty) : field := (name, (TOpt t, Some JNull)).
Definition listed (t : ty) : ty := TList 0 None t.
(** A subclass: the inherited fields come first. *)
Definition fields_of (t : ty) : list field := match t with TModel _ fs | TOpen fs => fs | _ => [] end.
Definition forbids (t : ty) : bool := match t with TModel f _ => f | _ => false end.
Definition subclass (base : ty) (own : list field) : ty := TModel (forbids base) (fields_of base ++ own).

Section ty_ind.
Variable P : ty -> Prop.
Hypothesis Hscalar : forall s, P (TScalar s).
Hypothesis Henum : forall l, P (TEnum l).
Hypothesis Hstripped : forall a b, P (TStripped a b).
Hypothesis Hrange : forall a b, P (TRange a b).
Hypothesis Hmatch : forall p, P (TMatch p).
Hypothesis Hopt : forall t, P t -> P (TOpt t).
Hypothesis Hunion : forall ts, Forall P ts -> P (TUnion ts).
Hypothesis Hlist : forall a b t, P t -> P (TList a b t).
Hypothesis Hdict : forall t, P t -> P (TDict t).
Hypothesis Hmodel : forall b fs, Forall (fun f => P f.2.1) fs -> P (TModel b fs).
Hypothesis Hopen : forall fs, Forall (fun f => P f.2.1) fs -> P (TOpen fs).
Fixpoint ty_nested_ind (t : ty) : P t :=
  match t with
  | TScalar s => Hscalar s
  | TEnum l => Henum l
  | TStripped a b => Hstripped a b
  | TRange a b => Hrange a b
  | TMatch p => Hmatch p
  | TOpt t => Hopt t (ty_nested_ind t)
  | TUnion ts =>
      Hunion ts ((fix go l : Forall P l :=
        match l with
        | [] => @List.Forall_nil _ P
        | x :: l' => @List.Forall_cons _ P x l' (ty_nested_ind x) (go l')
        end) ts)
  | TList a b t => Hlist a b t (ty_nested_ind t)
  | TDict t => Hdict t (ty_nested_ind t)
  | TModel b fs =>
      Hmodel b fs ((fix go l : Forall (fun f => P f.2.1) l :=
        match l with
        | [] => @List.Forall_nil _ _
        | x :: l' => @List.Forall_cons _ _ x l' (ty_nested_ind x.2.1) (go l')
        end) fs)
  | TOpen fs =>
      Hopen fs ((fix go l : Forall (fun f => P f.2.1) l :=
        match l with
        | [] => @List.Forall_nil _ _
        | x :: l' => @List.Forall_cons _ _ x l' (ty_nested_ind x.2.1) (go l')
        end) fs)
  end.
End ty_ind.

(** ** pydantic *)

Definition in_range (lo hi : option Z) (n : Z) : bool :=
  match lo with Some a => a <=? n | None => true end && match hi with Some b => n <=? b | None => true end.
Definition length_ok (lo : nat) (hi : option nat) (n : nat) : bool :=
  (lo <=? n)%nat && match hi with Some b => (n <=? b)%nat | None => true end.
Definition known_keys (fs : list field) (o : list (string * json)) : bool :=
  forallb (fun kv => bool_decide (kv.1 ∈ fs.*1)) o.
(** The keys that an open model carries along *)
Definition unknown_part (fs : list field) (o : list (string * json)) : list (string * json) :=
  filter (fun kv => kv.1 ∉ fs.*1) o.
(** The value of a field in an object *)
Definition field_value (validate : ty -> json -> option json) (o : list (string * json)) (f : field) : option (string * json) :=
  match dget f.1 o with
  | Some v => pair f.1 <$> validate f.2.1 v
  | None => pair f.1 <$> f.2.2
  end.

(** [validate t v]: the JSON form of the validated value, or [None] for a [ValidationError] *)
Class Pydantic := { validate : ty -> json -> option json }.
Class PydanticDoc `{Pydantic} : Prop := {
  scalar_null s : s <> SAny -> validate (TScalar s) JNull = None;
  scalar_any v : validate Any v = Some v;
  scalar_str v : validate Str v = match v with JStr _ => Some v | _ => None end;
  scalar_int n : validate Int (JInt n) = Some (JInt n);
  scalar_int_form v v' : validate Int v = Some v' -> exists n, v' = JInt n;
  scalar_bool b : validate Bool (JBool b) = Some (JBool b);
  scalar_dump s v v' : validate (TScalar s) v = Some v' -> validate (TScalar s) v' = Some v';
  scalar_flat s v v' : s <> SAny -> validate (TScalar s) v = Some v' ->
    match v' with JList _ | JObj _ => False | _ => True end;
  enum_doc l v : validate (TEnum l) v =
    match v with JStr s => if bool_decide (s ∈ l) then Some v else None | _ => None end;
  stripped_doc lo hi v : validate (TStripped lo hi) v =
    match v with
    | JStr s => if length_ok lo (Some hi) (String.length (strip s)) then Some (JStr (strip s)) else None
    | _ => None
    end;
  range_doc lo hi v : validate (TRange lo hi) v =
    match validate Int v with Some (JInt n) => if in_range lo hi n then Some (JInt n) else None | _ => None end;
  match_doc p v : validate (TMatch p) v = match v with JStr s => if p s then Some v else None | _ => None end;
  opt_doc t v : validate (TOpt t) v = match v with JNull => Some JNull | _ => validate t v end;
  union_some ts v v' : validate (TUnion ts) v = Some v' -> exists t, t ∈ ts /\ validate t v = Some v';
  union_exact ts t v : t ∈ ts -> validate t v = Some v -> validate (TUnion ts) v = Some v;
  list_doc lo hi t v : validate (TList lo hi t) v =
    match v with JList l => if length_ok lo hi (length l) then JList <$> mapM (validate t) l else None | _ => None end;
  dict_doc t v : validate (TDict t) v =
    match v with JObj o => JObj <$> mapM (fun kv => pair kv.1 <$> validate t kv.2) o | _ => None end;
  model_doc b fs v : validate (TModel b fs) v =
    match v with
    | JObj o => if b && negb (known_keys fs o) then None else JObj <$> mapM (field_value validate o) fs
    | _ => None
    end;
  open_doc fs v : validate (TOpen fs) v =
    match v with
    | JObj o => (fun r => JObj (r ++ unknown_part fs o)) <$> mapM (field_value validate o) fs
    | _ => None
    end;
}.
(** [Model.model_validate]; a [ValidationError] is a [ValueError]. *)
Definition model_validate `{Pydantic} (m : ty) (v : json) : outcome exn json :=
  match validate m v with Some v' => Ret v' | None => Exc (PyErr ValueError "validation error") end.

(** ** Well-formed declarations

    Field names are distinct, and a default is a value of its type. *)

Fixpoint default_okb (t : ty) (d : json) : bool :=
  match t, d with
  | TOpt _, JNull => true
  | TOpt t, d => default_okb t d
  | TScalar SStr, JStr _ | TScalar SInt, JInt _ | TScalar SBool, JBool _ | TScalar SAny, _ => true
  | TRange lo hi, JInt n => in_range lo hi n
  | TMatch p, JStr s => p s
  | TList lo hi t, JList l => length_ok lo hi (length l) && forallb (default_okb t) l
  | TDict _, JObj [] => true
  | _, _ => false
  end.
Fixpoint schema_ok (t : ty) : bool :=
  match t with
  | TOpt t | TList _ _ t | TDict t => schema_ok t
  | TUnion ts => forallb schema_ok ts
  | TModel _ fs | TOpen fs =>
      bool_decide (NoDup fs.*1) &&
      forallb (fun f => match f.2.2 with Some d => default_okb f.2.1 d | None => true end && schema_ok f.2.1) fs
  | _ => true
  end.

Lemma mapM_keys {A} (g : field -> option (string * A)) fs o :
  (forall f kv, g f = Some kv -> kv.1 = f.1) -> mapM g fs = Some o -> o.*1 = fs.*1.
Proof.
  intros Hg. revert o. induction fs as [|f fs IH]; intros o; cbn; [by intros [= <-] |].
  destruct (g f) as [kv|] eqn:E; cbn; [| done]. destruct (mapM g fs) as [o'|]; cbn; [| done].
  intros [= <-]. cbn. by rewrite (Hg _ _ E), (IH o').
Qed.
Lemma rstrip_idem s : rstrip (rstrip s) = rstrip s.
Proof.
  induction s as [|c s IH]; [done |]. cbn. destruct (rstrip s) as [|d t] eqn:E.
  - destruct (is_space c) eqn:Ec; [done |]. cbn. by rewrite Ec.
  - cbn [rstrip] in *. by rewrite IH.
Qed.
Lemma strip_idem s : strip (strip s) = strip s.
Proof.
  unfold strip. assert (Hl : lstrip (rstrip (lstrip s)) = rstrip (lstrip s)); [| by rewrite Hl, rstrip_idem].
  assert (Hhead : lstrip s = "" \/ exists c t, lstrip s = String c t /\ is_space c = false).
  { induction s as [|c s IH]; [by left |]. cbn. destruct (is_space c) eqn:E; [exact IH |]. right. eauto. }
  destruct Hhead as [-> | (c & t & -> & Hc)]; [done |]. cbn. destruct (rstrip t) as [|d t']; rewrite ?Hc; cbn; by rewrite Hc.
Qed.

Section Laws.
Context `{PydanticDoc}.

Lemma default_ok t : forall d, default_okb t d = true -> validate t d = Some d.
Proof.
  induction t as [s | l | a b | lo hi | p | t IH | ts IH | lo hi t IH | t IH | b fs IH | fs IH] using ty_nested_ind;
    intros d Hd; cbn in Hd; try done.
  - destruct s, d; try done; [apply scalar_str | apply scalar_int | apply scalar_bool | apply scalar_any ..].
  - destruct d as [| |n| | |]; try done. rewrite range_doc, scalar_int. by rewrite Hd.
  - destruct d as [| | |s| |]; try done. by rewrite match_doc, Hd.
  - rewrite opt_doc. destruct d; auto.
  - destruct d as [| | | |l|]; try done. apply andb_true_iff in Hd as [Hl Hd]. rewrite list_doc, Hl.
    assert (E : mapM (validate t) l = Some l); [| by rewrite E].
    clear Hl. induction l as [|x l IHl]; [done |]. cbn in *. apply andb_true_iff in Hd as [Hx Hd].
    by rewrite (IH x Hx), (IHl Hd).
  - destruct d as [| | | | |[|]]; try done. by rewrite dict_doc.
Qed.

(** What validation accepted and dumped, it accepts again and leaves as it is. *)
Definition stable (t : ty) : Prop := forall v v', validate t v = Some v' -> validate t v' = Some v'.
Lemma mapM_stable {A} (g : A -> option A) l l' :
  (forall x x', x ∈ l -> g x = Some x' -> g x' = Some x') -> mapM g l = Some l' -> mapM g l' = Some l'.
Proof.
  intros Hg. revert l'. induction l as [|x l IH]; intros l'; cbn; [by intros [= <-] |].
  destruct (g x) as [y|] eqn:E; cbn; [| done]. destruct (mapM g l) as [l2|]; cbn; [| done].
  intros [= <-]. cbn. rewrite (Hg x y ltac:(left) E). cbn.
  by rewrite (IH (fun a b Ha => Hg a b (list_elem_of_further _ _ _ Ha)) l2 eq_refl).
Qed.

Lemma mapM_field_lookup o fs r k v : NoDup fs.*1 -> mapM (field_value validate o) fs = Some r -> dget k r = Some v ->
  exists f, f ∈ fs /\ f.1 = k /\ field_value validate o f = Some (k, v).
Proof.
  revert r. induction fs as [|f fs IH]; intros r Hn; cbn; [by intros [= <-] |].
  destruct (field_value validate o f) as [[k' v']|] eqn:E; cbn; [| done].
  destruct (mapM _ fs) as [r'|]; cbn; [| done]. intros [= <-]. cbn.
  apply NoDup_cons in Hn as [Hf Hn]. case_bool_decide as Ek.
  - subst k'. intros [= <-]. exists f. split; [left |]. split; [| done].
    unfold field_value in E. destruct (dget f.1 o); [destruct (validate _ _) | destruct f.2.2]; by simplify_eq/=.
  - intros Hv. destruct (IH r' Hn eq_refl Hv) as (f' & Hin & ? & ?). exists f'. split; [by right | done].
Qed.
Lemma field_value_name o f kv : field_value validate o f = Some kv -> kv.1 = f.1.
Proof. unfold field_value. destruct (dget f.1 o); [destruct (validate _ _) | destruct f.2.2]; intros; by simplify_eq/=. Qed.

Lemma dget_app_l {V} k (a b : list (string * V)) : k ∉ b.*1 -> dget k (a ++ b) = dget k a.
Proof.
  intros Hk. induction a as [|[k' v] a IH]; cbn; [by apply dget_None_notin |]. by rewrite IH.
Qed.
(** The fields of a validated object, whatever unknown keys stand behind them *)
Lemma fields_stable fs o r extra : schema_ok (TModel false fs) = true -> Forall (fun f => stable f.2.1) fs ->
  mapM (field_value validate o) fs = Some r -> (forall k, k ∈ extra.*1 -> k ∉ fs.*1) ->
  mapM (field_value validate (r ++ extra)) fs = Some r.
Proof.
  intros [Hn Hd]%andb_true_iff Hs E Hextra. apply bool_decide_eq_true in Hn.
  pose proof (mapM_keys _ _ _ (field_value_name o) E) as Hk.
  assert (Hpart : forall f v, f ∈ fs -> field_value validate o f = Some (f.1, v) ->
            dget f.1 r = Some v -> field_value validate (r ++ extra) f = Some (f.1, v)).
  { intros f v Hf Hv Hg. unfold field_value in *.
    rewrite dget_app_l by (intros Hx; by apply (Hextra _ Hx), list_elem_of_fmap_2). rewrite Hg.
    enough (validate f.2.1 v = Some v) as -> by done. destruct (dget f.1 o) as [v0|].
    - destruct (validate f.2.1 v0) as [v1|] eqn:E1; simplify_eq/=. rewrite Forall_forall in Hs. by eapply (Hs f Hf).
    - destruct f.2.2 as [d|] eqn:Ed; simplify_eq/=. apply default_ok.
      rewrite forallb_forall in Hd. specialize (Hd f ltac:(by apply list_elem_of_In)). rewrite Ed in Hd.
      by apply andb_true_iff in Hd as [? _]. }
  assert (Hnr : NoDup r.*1) by by rewrite Hk.
  revert Hpart Hnr. clear Hs Hd.
  assert (Hgen : forall fs' r', mapM (field_value validate o) fs' = Some r' -> (forall x, x ∈ fs' -> x ∈ fs) ->
            (forall x, x ∈ r' -> x ∈ r) ->
            (forall f v, f ∈ fs -> field_value validate o f = Some (f.1, v) ->
               dget f.1 r = Some v -> field_value validate (r ++ extra) f = Some (f.1, v)) ->
            NoDup r.*1 -> mapM (field_value validate (r ++ extra)) fs' = Some r').
  { induction fs' as [|f fs' IH]; intros r' E' Hin Hin' Hpart Hnr; cbn in *; [done |].
    destruct (field_value validate o f) as [[k v]|] eqn:Ef; cbn in *; [| done].
    destruct (mapM _ fs') as [r2|]; cbn in *; [| done]. injection E' as <-.
    pose proof (field_value_name _ _ _ Ef) as Hkf. cbn in Hkf. subst k.
    rewrite (Hpart f v (Hin f ltac:(left)) Ef (dget_NoDup f.1 v r Hnr (Hin' _ ltac:(left)))). cbn.
    by rewrite (IH r2 eq_refl (fun x Hx => Hin x (list_elem_of_further _ _ _ Hx))
                  (fun x Hx => Hin' x (list_elem_of_further _ _ _ Hx)) Hpart Hnr). }
  intros Hpart Hnr. by apply (Hgen fs r).
Qed.
Lemma model_stable b fs : schema_ok (TModel b fs) = true -> Forall (fun f => stable f.2.1) fs -> stable (TModel b fs).
Proof.
  intros Hok Hs v v'. rewrite !model_doc. destruct v as [| | | | |o]; try done. destruct (b && _); [done |].
  destruct (mapM (field_value validate o) fs) as [r|] eqn:E; [| done]. intros [= <-].
  pose proof (mapM_keys _ _ _ (field_value_name o) E) as Hk.
  assert (Hknown : known_keys fs r = true).
  { apply forallb_forall. intros kv Hin%list_elem_of_In. apply bool_decide_eq_true. rewrite <- Hk. by apply list_elem_of_fmap_2. }
  rewrite Hknown, andb_false_r.
  pose proof (fields_stable fs o r [] Hok Hs E ltac:(intros k []%elem_of_nil)) as Hr.
  rewrite app_nil_r in Hr. by rewrite Hr.
Qed.
Lemma unknown_part_key fs (o : list (string * json)) k : k ∈ (unknown_part fs o).*1 -> k ∉ fs.*1.
Proof. intros (kv & -> & Hin)%list_elem_of_fmap. by apply list_elem_of_filter in Hin as [? _]. Qed.
Lemma unknown_part_all fs (o : list (string * json)) : (forall k, k ∈ o.*1 -> k ∉ fs.*1) -> unknown_part fs o = o.
Proof.
  intros Ho. unfold unknown_part. induction o as [|kv o IH]; [done |]. rewrite filter_cons_True by (apply Ho; left).
  rewrite IH; [done |]. intros k Hk. apply Ho. by right.
Qed.
Lemma open_stable fs : schema_ok (TOpen fs) = true -> Forall (fun f => stable f.2.1) fs -> stable (TOpen fs).
Proof.
  intros Hok Hs v v'. rewrite !open_doc. destruct v as [| | | | |o]; try done.
  destruct (mapM (field_value validate o) fs) as [r|] eqn:E; [| done]. intros [= <-].
  pose proof (mapM_keys _ _ _ (field_value_name o) E) as Hk.
  rewrite (fields_stable fs o r (unknown_part fs o) Hok Hs E (unknown_part_key fs o)). cbn.
  do 2 f_equal. unfold unknown_part at 1. rewrite filter_app. fold (unknown_part fs (unknown_part fs o)).
  rewrite (unknown_part_all fs (unknown_part fs o)) by apply unknown_part_key.
  rewrite filter_none; [done |]. intros kv Hin Hx. apply Hx. rewrite <- Hk. by apply list_elem_of_fmap_2.
Qed.

Lemma fields_ok fs f : schema_ok (TModel false fs) = true -> f ∈ fs -> schema_ok f.2.1 = true.
Proof.
  intros [_ Hok]%andb_true_iff Hf. rewrite forallb_forall in Hok.
  specialize (Hok f ltac:(by apply list_elem_of_In)). by apply andb_true_iff in Hok as [_ ?].
Qed.
Theorem validate_stable t : schema_ok t = true -> stable t.
Proof.
  induction t as [s | l | a b | lo hi | p | t IH | ts IH | lo hi t IH | t IH | b fs IH | fs IH] using ty_nested_ind;
    intros Hok v v'; cbn in Hok.
  - apply scalar_dump.
  - rewrite enum_doc. destruct v; try done. case_bool_decide; [| done]. intros [= <-]. rewrite enum_doc. by rewrite bool_decide_true.
  - rewrite !stripped_doc. destruct v; try done. destruct (length_ok _ _ _) eqn:E; [| done]. intros [= <-].
    by rewrite strip_idem, E.
  - rewrite range_doc. destruct (validate Int v) as [[| |n| | |]|]; try done. destruct (in_range lo hi n) eqn:E; [| done].
    intros [= <-]. by rewrite range_doc, scalar_int, E.
  - rewrite !match_doc. destruct v as [| | |s| |]; try done. destruct (p s) eqn:E; [| done]. intros [= <-]. by rewrite E.
  - rewrite !opt_doc. intros Hv. assert (Hc : v = JNull /\ v' = JNull \/ validate t v = Some v') by (destruct v; naive_solver).
    destruct Hc as [[-> ->] | Hv']; [done |]. destruct v'; try done; by apply (IH Hok v).
  - intros (t & Hin & Hv)%union_some. apply (union_exact _ t); [done |].
    rewrite Forall_forall in IH. rewrite forallb_forall in Hok. eapply (IH t Hin); [| exact Hv]. apply Hok. by apply list_elem_of_In.
  - rewrite !list_doc. destruct v as [| | | |l|]; try done. destruct (length_ok lo hi (length l)) eqn:E; [| done].
    destruct (mapM (validate t) l) as [l'|] eqn:El; [| done]. intros [= <-].
    rewrite (length_mapM _ _ _ El) in E. rewrite E, (mapM_stable _ _ _ (fun x x' _ => IH Hok x x') El). done.
  - rewrite !dict_doc. destruct v as [| | | | |o]; try done.
    destruct (mapM _ o) as [o'|] eqn:Eo; [| done]. intros [= <-].
    enough (mapM (fun kv => pair kv.1 <$> validate t kv.2) o' = Some o') as -> by done.
    revert o' Eo. induction o as [|[k x] o IHo]; intros o'; cbn; [by intros [= <-] |].
    destruct (validate t x) as [y|] eqn:Ex; cbn; [| done]. destruct (mapM _ o) as [o2|]; cbn; [| done].
    intros [= <-]. cbn. rewrite (IH Hok _ _ Ex). cbn. by rewrite (IHo o2 eq_refl).
  - apply model_stable; [exact Hok |]. rewrite Forall_forall in *. intros f Hf. apply (IH f Hf). by eapply fields_ok.
  - apply open_stable; [exact Hok |]. rewrite Forall_forall in *. intros f Hf. apply (IH f Hf). by eapply fields_ok.
Qed.

(** What a model accepts and keeps, it accepts with the keys in another order, and keeps up to
    the order of keys.  (A union may settle on another member, an open model keeps what it is given
    in the order it is given.) *)
Fixpoint fixed_keys (t : ty) : bool :=
  match t with
  | TOpt t | TList _ _ t | TDict t => fixed_keys t
  | TModel _ fs => forallb (fun f => fixed_keys f.2.1) fs
  | TUnion _ | TOpen _ => false
  | _ => true
  end.
Lemma mapM_Forall2 {A B} (g : A -> option B) (R : A -> B -> Prop) l :
  (forall x, x ∈ l -> exists y, g x = Some y /\ R x y) -> exists l', mapM g l = Some l' /\ Forall2 R l l'.
Proof.
  induction l as [|x l IH]; intros Hg; [by exists [] |]. destruct (Hg x ltac:(left)) as (y & Hy & HR).
  destruct IH as (l' & Hl & HRl); [intros z Hz; apply Hg; by right |].
  exists (y :: l'). cbn. rewrite Hy. cbn. rewrite Hl. by repeat constructor.
Qed.
Lemma Forall2_elem_r {A B} (R : A -> B -> Prop) l l' y : Forall2 R l l' -> y ∈ l' -> exists x, x ∈ l /\ R x y.
Proof.
  intros Hl [i Hi]%list_elem_of_lookup. destruct (Forall2_lookup_r _ _ _ _ _ Hl Hi) as (x & Hx & HR).
  exists x. split; [by eapply list_elem_of_lookup_2 | done].
Qed.
Lemma mapM_fixed {A} (g : A -> option A) l : mapM g l = Some l -> forall x, x ∈ l -> g x = Some x.
Proof.
  induction l as [|y l IH]; cbn; [by intros _ ? ?%elem_of_nil |].
  destruct (g y) as [z|] eqn:E; cbn; [| done]. destruct (mapM g l) as [l2|]; cbn; [| done].
  intros [= -> ->] x [-> | Hx]%elem_of_cons; auto.
Qed.
Lemma known_keys_perm fs o o' : o.*1 ≡ₚ o'.*1 -> known_keys fs o = true -> known_keys fs o' = true.
Proof.
  intros P. unfold known_keys. rewrite !forallb_forall. intros Hk kv Hin. apply bool_decide_eq_true.
  assert (Hx : kv.1 ∈ o.*1) by (rewrite P; apply list_elem_of_fmap_2; by apply list_elem_of_In).
  apply list_elem_of_fmap in Hx as (kv' & -> & Hin'). specialize (Hk kv' ltac:(by apply list_elem_of_In)).
  by apply bool_decide_eq_true in Hk.
Qed.
Definition keeps_order (t : ty) : Prop := forall v v', json_wf v = true -> validate t v = Some v -> same_json v v' ->
  exists w, validate t v' = Some w /\ same_json v w.
Lemma dget_same k y o o' : NoDup o.*1 -> (k, y) ∈ o' -> NoDup o'.*1 ->
  (forall k, option_Forall2 same_json (dget k o) (dget k o')) -> exists x, (k, x) ∈ o /\ same_json x y.
Proof.
  intros N Hin N' Hd. specialize (Hd k). rewrite (dget_NoDup k y o' N' Hin) in Hd.
  inversion Hd as [x ? Hs E |]; subst. exists x. split; [by apply dget_in | done].
Qed.
Lemma json_wf_obj o : json_wf (JObj o) = true -> NoDup o.*1 /\ forall k x, (k, x) ∈ o -> json_wf x = true.
Proof.
  intros [N Hw]%andb_true_iff. apply bool_decide_eq_true in N. split; [done |].
  intros k x Hin. rewrite forallb_forall in Hw. apply (Hw (k, x)). by apply list_elem_of_In.
Qed.
Lemma list_keeps_order lo hi t : keeps_order t -> keeps_order (TList lo hi t).
Proof.
  intros IH v v' Hw Hv Hs. rewrite list_doc in Hv. destruct v as [| | | |l|]; try done.
  apply same_list in Hs as (l' & -> & Hs). destruct (length_ok _ _ _) eqn:El; [| done].
  destruct (mapM _ l) as [l0|] eqn:E; [| done]. injection Hv as ->.
  destruct (mapM_Forall2 (validate t) same_json l') as (l2 & E2 & HR).
  { intros y Hy. destruct (Forall2_elem_r _ _ _ _ Hs Hy) as (x & Hx & Hxy).
    cbn in Hw. rewrite forallb_forall in Hw.
    destruct (IH x y) as (w & Hw' & Hs'); [apply Hw; by apply list_elem_of_In | by eapply mapM_fixed | done |].
    exists w. split; [done |]. by rewrite <- Hxy. }
  exists (JList l2). rewrite list_doc, <- (Forall2_length _ _ _ Hs), El, E2. split; [done |].
  transitivity (JList l'); by apply same_list_intro.
Qed.
Lemma dict_keeps_order t : keeps_order t -> keeps_order (TDict t).
Proof.
  intros IH v v' Hw Hv Hs. rewrite dict_doc in Hv. destruct v as [| | | | |o]; try done.
  destruct (json_wf_obj o Hw) as [N Hwf]. pose proof Hs as Hsame. apply same_obj in Hs as (o' & -> & P & Hd). specialize (Hd N).
  destruct (mapM _ o) as [o0|] eqn:E; [| done]. injection Hv as ->.
  destruct (mapM_Forall2 (fun kv => pair kv.1 <$> validate t kv.2) same_member o') as (o2 & E2 & HR).
  { intros [k y] Hin. destruct (dget_same k y o o') as (x & Hx & Hxy); [done | done | by rewrite <- P | done |].
    pose proof (mapM_fixed _ _ E _ Hx) as Ex. cbn in Ex. destruct (validate t x) as [x1|] eqn:Ex1; [| done].
    injection Ex as ->. destruct (IH x y (Hwf k x Hx) Ex1 Hxy) as (w & Hw' & Hs').
    exists (k, w). cbn. rewrite Hw'. split; [done |]. split; [done |]. cbn. by rewrite <- Hxy. }
  exists (JObj o2). rewrite dict_doc, E2. split; [done |]. rewrite Hsame. by apply same_obj_intro.
Qed.
Lemma model_keeps_order b fs : Forall (fun f => keeps_order f.2.1) fs -> keeps_order (TModel b fs).
Proof.
  intros IH v v' Hw Hv Hs. rewrite model_doc in Hv. destruct v as [| | | | |o]; try done.
  destruct (json_wf_obj o Hw) as [N Hwf]. apply same_obj in Hs as (o' & -> & P & Hd). specialize (Hd N).
  destruct (b && negb (known_keys fs o)) eqn:Eb; [done |].
  destruct (mapM _ fs) as [o0|] eqn:E; [| done]. injection Hv as ->.
  assert (Hk : b && negb (known_keys fs o') = false).
  { destruct b; [| done]. cbn in *. apply negb_false_iff in Eb. apply negb_false_iff. by eapply known_keys_perm. }
  enough (Hgen : forall fs' r, Forall (fun f => keeps_order f.2.1) fs' -> (forall x, x ∈ r -> x ∈ o) ->
    mapM (field_value validate o) fs' = Some r ->
    exists r', mapM (field_value validate o') fs' = Some r' /\ Forall2 same_member r r').
  { destruct (Hgen fs o IH (fun _ H => H) E) as (r' & Er & HR). exists (JObj r'). rewrite model_doc, Hk, Er.
    split; [done | by apply same_obj_intro]. }
  clear IH E Eb Hk. induction fs' as [|f fs' IHfs]; intros r IH Hin E; cbn in E; [injection E as <-; by exists [] |].
  destruct (field_value validate o f) as [[k x]|] eqn:Ef; cbn in E; [| done].
  destruct (mapM _ fs') as [r0|]; cbn in E; [| done]. injection E as <-. inversion_clear IH as [| ? ? Hf IHf].
  destruct (IHfs r0 IHf (fun z Hz => Hin z (list_elem_of_further _ _ _ Hz)) eq_refl) as (r' & Er & HR).
  pose proof (field_value_name _ _ _ Ef) as Hkf. cbn in Hkf. subst k.
  pose proof (Hin _ (list_elem_of_here _ _)) as Hx. pose proof (dget_NoDup _ _ _ N Hx) as Hdx.
  unfold field_value in Ef. rewrite Hdx in Ef. destruct (validate f.2.1 x) as [x1|] eqn:Ex; [| done]. injection Ef as ->.
  pose proof (Hd f.1) as Hdf. rewrite Hdx in Hdf.
  assert (exists y, dget f.1 o' = Some y /\ same_json x y) as (y & Ey & Hxy) by (inversion Hdf; eauto).
  destruct (Hf x y (Hwf _ _ Hx) Ex Hxy) as (w & Hw' & Hs').
  exists ((f.1, w) :: r'). cbn.
  assert (field_value validate o' f = Some (f.1, w)) as -> by (unfold field_value; by rewrite Ey, Hw').
  cbn. rewrite Er. by repeat constructor.
Qed.
Lemma flat_keeps_order t : (forall v, validate t v = Some v -> match v with JList _ | JObj _ => False | _ => True end) ->
  keeps_order t.
Proof. intros Hflat v v' _ Hv Hs. exists v. by rewrite (same_flat v v' (Hflat v Hv) Hs). Qed.
Theorem validate_keeps_order t : fixed_keys t = true -> keeps_order t.
Proof.
  induction t as [s | l | a b | lo hi | p | t IH | ts IH | lo hi t IH | t IH | b fs IH | fs IH] using ty_nested_ind; cbn; intros Ht.
  - destruct (decide (s = SAny)) as [-> | Hs]; [intros v v' _ _ Hvv; exists v'; by rewrite scalar_any |].
    apply flat_keeps_order. intros v. by apply scalar_flat.
  - apply flat_keeps_order. intros v. rewrite enum_doc. by destruct v.
  - apply flat_keeps_order. intros v. rewrite stripped_doc. by destruct v.
  - apply flat_keeps_order. intros v. rewrite range_doc. destruct (validate Int v) as [[| |n| | |]|]; try done.
    destruct (in_range lo hi n); [| done]. by intros [= <-].
  - apply flat_keeps_order. intros v. rewrite match_doc. by destruct v.
  - intros v v' Hw Hv Hs. rewrite opt_doc in Hv. destruct (decide (v = JNull)) as [-> | Hn].
    { rewrite (same_flat JNull v') by done. exists JNull. by rewrite opt_doc. }
    destruct (IH Ht v v' Hw ltac:(by destruct v) Hs) as (w & Ew & Hw'). exists w. split; [| done].
    rewrite opt_doc. destruct v'; try done. exfalso. apply Hn. symmetry in Hs. by apply (same_flat JNull v).
  - done.
  - by apply list_keeps_order, IH.
  - by apply dict_keeps_order, IH.
  - apply model_keeps_order. rewrite Forall_forall in *. rewrite forallb_forall in Ht. intros f Hf. apply IH; [done |].
    apply Ht. by apply list_elem_of_In.
  - done.
Qed.
End Laws.

(** ** Drift

    What the two configurations of unknown keys promise between services. *)

Section Drift.
Context `{PydanticDoc}.

(** A model that forbids unknown keys refuses them; *)
Lemma unknown_key_refused fs o k : k ∈ o.*1 -> k ∉ fs.*1 -> validate (TModel true fs) (JObj o) = None.
Proof.
  intros Hk Hf. rewrite model_doc. assert (E : known_keys fs o = false); [| by rewrite E].
  apply not_true_is_false. intros Hx. apply Hf. apply list_elem_of_fmap in Hk as (kv & -> & Hin).
  unfold known_keys in Hx. rewrite forallb_forall in Hx.
  by specialize (Hx kv ltac:(by apply list_elem_of_In)); apply bool_decide_eq_true in Hx.
Qed.
(** one that ignores them does not see them; *)
Lemma mapM_ext_in {A B} (g g' : A -> option B) l : (forall x, x ∈ l -> g x = g' x) -> mapM g l = mapM g' l.
Proof.
  induction l as [|x l IH]; intros Hg; [done |]. cbn. rewrite (Hg x) by left.
  by rewrite IH by (intros y Hy; apply Hg; by right).
Qed.
Lemma extra_keys_ignored fs o extra : (forall k, k ∈ extra.*1 -> k ∉ fs.*1) ->
  validate (TModel false fs) (JObj (o ++ extra)) = validate (TModel false fs) (JObj o).
Proof.
  intros He. rewrite !model_doc. cbn [andb]. f_equal. apply mapM_ext_in. intros f Hf.
  unfold field_value. rewrite dget_app_l; [done |]. intros Hx. by apply (He _ Hx), list_elem_of_fmap_2.
Qed.
(** and both refuse a value without a field that has no default. *)
Lemma mapM_None_in {A B} (g : A -> option B) l x : x ∈ l -> g x = None -> mapM g l = None.
Proof.
  induction l as [|y l IH]; [by intros ?%elem_of_nil |]. intros [<- | Hx]%elem_of_cons E; cbn; [by rewrite E |].
  destruct (g y); cbn; [| done]. by rewrite IH.
Qed.
Lemma missing_key_refused b fs f o : f ∈ fs -> f.2.2 = None -> f.1 ∉ o.*1 -> validate (TModel b fs) (JObj o) = None.
Proof.
  intros Hf Hd Ho. rewrite model_doc. destruct (b && _); [done |].
  rewrite (mapM_None_in _ _ f); [done | done |]. unfold field_value.
  by rewrite (proj2 (dget_None_notin _ _) Ho), Hd.
Qed.

(** [model_dump(mode="json", exclude_none=True)] of a flat model *)
Definition exclude_none (v : json) : json :=
  match v with JObj o => JObj (filter (fun kv => kv.2 <> JNull) o) | _ => v end.
Definition nulls_are_defaults (fs : list field) : Prop :=
  forall f, f ∈ fs -> f.2.2 = Some JNull \/ forall v, validate f.2.1 v <> Some JNull.
Lemma dget_nonnull k (o : list (string * json)) : NoDup o.*1 ->
  dget k (filter (fun kv => kv.2 <> JNull) o) =
  match dget k o with Some JNull => None | r => r end.
Proof.
  induction o as [|[k' v] o IH]; [done |]. intros Hno. rewrite filter_cons.
  cbn in Hno. apply NoDup_cons in Hno as [Hk Hn]. specialize (IH Hn). cbn [dget snd].
  case_decide as Hv; cbn [dget].
  - case_bool_decide; [by destruct v | exact IH].
  - assert (v = JNull) as -> by (destruct v; naive_solver).
    case_bool_decide; [| exact IH]. subst. rewrite IH. by rewrite (proj2 (dget_None_notin _ _) Hk).
Qed.
Lemma exclude_none_stable b fs v v' : schema_ok (TModel b fs) = true -> nulls_are_defaults fs ->
  validate (TModel b fs) v = Some v' -> validate (TModel b fs) (exclude_none v') = Some v'.
Proof.
  intros Hok Hnull Hv. pose proof (validate_stable _ Hok v v' Hv) as Hs. revert Hs.
  rewrite model_doc in Hv. destruct v as [| | | | |o]; try done. destruct (b && _); [done |].
  destruct (mapM (field_value validate o) fs) as [r|] eqn:E; [| done]. injection Hv as <-.
  pose proof (mapM_keys _ _ _ (field_value_name o) E) as Hk.
  apply andb_true_iff in Hok as [Hn Hd]. apply bool_decide_eq_true in Hn. rewrite !model_doc. cbn [exclude_none].
  assert (Hnr : NoDup r.*1) by by rewrite Hk.
  assert (Hkn : forall o', (forall k, k ∈ o'.*1 -> k ∈ r.*1) -> known_keys fs o' = true).
  { intros o' Hsub. apply forallb_forall. intros kv Hin%list_elem_of_In. apply bool_decide_eq_true.
    rewrite <- Hk. apply Hsub. by apply list_elem_of_fmap_2. }
  rewrite (Hkn r), (Hkn (filter _ r)), andb_false_r by
    (try done; intros k (kv & -> & Hin)%list_elem_of_fmap; apply list_elem_of_filter in Hin as [_ Hin]; by apply list_elem_of_fmap_2).
  intros <-. f_equal. apply mapM_ext_in. intros f Hf. unfold field_value.
  rewrite dget_nonnull by done. destruct (dget f.1 r) as [x|] eqn:Ex; [| done].
  destruct (mapM_field_lookup o fs r f.1 x Hn E Ex) as (f' & Hf' & Ef & Efv).
  assert (f' = f) as ->.
  { destruct f as [k1 d1], f' as [k2 d2]. cbn in Ef. subst k2. f_equal.
    pose proof (dget_NoDup _ _ _ Hn Hf). pose proof (dget_NoDup _ _ _ Hn Hf'). congruence. }
  destruct (decide (x = JNull)) as [-> | Hx]; [| by destruct x].
  assert (Hdef : f.2.2 = Some JNull).
  { destruct (Hnull f Hf) as [Hx | Hx]; [exact Hx |]. unfold field_value in Efv.
    destruct (dget f.1 o) as [v0|].
    - destruct (validate f.2.1 v0) as [v1|] eqn:E1; simplify_eq/=. by apply Hx in E1.
    - destruct f.2.2; by simplify_eq/=. }
  rewrite Hdef, default_ok; [done |]. rewrite forallb_forall in Hd.
  specialize (Hd f ltac:(by apply list_elem_of_In)). rewrite Hdef in Hd. by apply andb_true_iff in Hd as [? _].
Qed.
End Drift.

(** ** A reference implementation *)

Definition is_uuid_text (s : string) : bool := (String.length s =? 36)%nat.
Definition ref_scalar (s : scalar) (v : json) : option json :=
  match s, v with
  | SStr, JStr _ | SInt, JInt _ | SFloat, JInt _ | SBool, JBool _ | SAny, _ => Some v
  | SInt, JBool b => Some (JInt (if b then 1 else 0))
  | SUuid, JStr u => if is_uuid_text u then Some v else None
  | SDatetime, JStr t => if nonempty t then Some v else None
  | _, _ => None
  end.
Fixpoint first_some {A} (l : list (option A)) : option A :=
  match l with [] => None | Some a :: _ => Some a | None :: l => first_some l end.
Fixpoint all_some {A} (l : list (option A)) : option (list A) :=
  match l with
  | [] => Some []
  | Some a :: l => cons a <$> all_some l
  | None :: _ => None
  end.
Fixpoint ref_validate (t : ty) (v : json) {struct t} : option json :=
  match t with
  | TScalar s => ref_scalar s v
  | TEnum l => match v with JStr s => if bool_decide (s ∈ l) then Some v else None | _ => None end
  | TStripped lo hi =>
      match v with
      | JStr s => if length_ok lo (Some hi) (String.length (strip s)) then Some (JStr (strip s)) else None
      | _ => None
      end
  | TRange lo hi =>
      match ref_scalar SInt v with Some (JInt n) => if in_range lo hi n then Some (JInt n) else None | _ => None end
  | TMatch p => match v with JStr s => if p s then Some v else None | _ => None end
  | TOpt t => match v with JNull => Some JNull | _ => ref_validate t v end
  | TUnion ts =>
      let results := map (fun t => ref_validate t v) ts in
      if bool_decide (Some v ∈ results) then Some v else first_some results
  | TList lo hi t =>
      match v with
      | JList l => if length_ok lo hi (length l) then JList <$> all_some (map (ref_validate t) l) else None
      | _ => None
      end
  | TDict t =>
      match v with
      | JObj o => JObj <$> all_some (map (fun kv => pair kv.1 <$> ref_validate t kv.2) o)
      | _ => None
      end
  | TModel b fs =>
      match v with
      | JObj o =>
          if b && negb (known_keys fs o) then None
          else JObj <$> all_some (map (fun f =>
                 match dget f.1 o with
                 | Some v => pair f.1 <$> ref_validate f.2.1 v
                 | None => pair f.1 <$> f.2.2
                 end) fs)
      | _ => None
      end
  | TOpen fs =>
      match v with
      | JObj o =>
          (fun r => JObj (r ++ unknown_part fs o)) <$> all_some (map (fun f =>
                 match dget f.1 o with
                 | Some v => pair f.1 <$> ref_validate f.2.1 v
                 | None => pair f.1 <$> f.2.2
                 end) fs)
      | _ => None
      end
  end.
Lemma all_some_mapM {A B} (g : A -> option B) l : all_some (map g l) = mapM g l.
Proof. induction l as [|x l IH]; [done |]. cbn. destruct (g x); cbn; [| done]. rewrite IH. by destruct (mapM g l). Qed.
Lemma first_some_in {A} (l : list (option A)) a : first_some l = Some a -> Some a ∈ l.
Proof. induction l as [|[x|] l IH]; [done | |]; cbn; [intros [= ->]; left | intros ?; right; auto]. Qed.
#[export] Instance ref_pydantic : Pydantic := { validate := ref_validate }.
#[export] Instance ref_pydantic_doc : PydanticDoc.
Proof.
  split; cbn -[strip length_ok in_range known_keys unknown_part]; intros; try done.
  - by destruct s.
  - destruct v as [|b| | | |]; simplify_eq/=; eauto.
  - destruct s, v; simplify_eq/=; try done; repeat case_match; simplify_eq/=; congruence.
  - destruct s, v; simplify_eq/=; try done; repeat case_match; by simplify_eq/=.
  - case_bool_decide as E.
    + apply list_elem_of_fmap in E as (t & Ht & Hin). exists t. naive_solver.
    + apply first_some_in, list_elem_of_fmap in H as (t & Ht & Hin). eauto.
  - rewrite bool_decide_true; [done |]. apply list_elem_of_fmap. eauto.
  - destruct v; try done. by rewrite all_some_mapM.
  - destruct v; try done. by rewrite all_some_mapM.
  - destruct v; try done. by rewrite all_some_mapM.
  - destruct v; try done. by rewrite all_some_mapM.
Qed.
