(* ===== verification/Vault.v ===== *)
(** * The vault of per-tenant secrets

    Models src/tr_shared/vault.py: create, read, update and delete of one secret through the session the
    caller injects, each under [asyncio.wait_for].  The Vault extension and [wait_for] are
    parameters ([VaultDb]) with the behaviour their documentation gives ([VaultDoc]); [mvault] is an
    in-memory instance. *)

From stdpp Require Import fin_maps fin_map_dom gmap infinite.
From S2P Require Import Prelude Json Errors.
Local Open Scope Z_scope.

(** A row of [vault.secrets]; [sec_value] is what [vault.decrypted_secrets] shows. *)
Record secret := mkSecret { sec_value : string; sec_name : option string; sec_description : string }.

Class VaultDb (W : Type) := {
  secrets : W -> gmap N secret;
  delete_by_name : string -> Py W unit;            (* DELETE FROM vault.secrets WHERE name = :name *)
  vault_create : string -> option string -> string -> Py W N;  (* SELECT vault.create_secret(...) *)
  select_decrypted : N -> Py W (option string);    (* SELECT decrypted_secret ... WHERE id = :secret_id *)
  vault_update : N -> string -> option string -> option string -> Py W unit;
  delete_by_id : N -> Py W unit;
  wait_for : forall {A}, Py W A -> Z -> Py W A;
  healthy : W -> Prop;                             (* the database answers, in time *)
}.

(** ** VaultService *)

Section Service.
Context {W : Type} `{VaultDb W}.
Variable _timeout : Z.

Definition _guard {A} (op : Py W A) : Py W A :=
  catch (wait_for op _timeout) (fun e =>
    if isinstance e TimeoutError
    then raise (ApiError (ServiceUnavailableError (JStr "Vault operation timed out") JNull None))
    else raise e).

Definition truthy_name (name : option string) : option string :=
  match name with Some n => if nonempty n then Some n else None | None => None end.
Definition create_secret (secret_value : string) (name description : option string) : Py W N :=
  _guard (do! match truthy_name name with Some n => delete_by_name n | None => ret tt end in
          vault_create secret_value name (default "" description)).
Definition read_secret (secret_id : N) : Py W (option string) :=
  _guard (let! row := select_decrypted secret_id in ret row).
Definition update_secret (secret_id : N) (new_secret : string) (name description : option string)
    : Py W unit :=
  _guard (vault_update secret_id new_secret name description).
Definition delete_secret (secret_id : N) : Py W unit := _guard (delete_by_id secret_id).
End Service.

(** ** What the extension documents *)

Definition named (n : string) (s : secret) : Prop := sec_name s = Some n.
#[export] Instance named_dec n s : Decision (named n s) := decide (sec_name s = Some n).
Definition without_name (n : string) (t : gmap N secret) : gmap N secret :=
  filter (fun kv => ~ named n kv.2) t.
(** The unique index on [name], of the rows that have one. *)
Definition name_taken (name : option string) (t : gmap N secret) : Prop :=
  exists n i s, name = Some n /\ t !! i = Some s /\ named n s.
Definition updated (new : string) (name description : option string) (s : secret) : secret :=
  mkSecret new (match name with Some n => Some n | None => sec_name s end)
           (default (sec_description s) description).

(** A statement that answers has done its work and nothing else; one that raises may have lost the
    transaction.  On a healthy database a statement answers, unless it breaks the unique index. *)
Class VaultDoc (W : Type) `{VaultDb W} := {
  doc_delete_by_name n w w' : delete_by_name n w = (Ret tt, w') ->
    secrets w' = without_name n (secrets w);
  doc_create v n d w i w' : vault_create v n d w = (Ret i, w') ->
    ~ name_taken n (secrets w) /\ secrets w !! i = None /\
    secrets w' = <[i := mkSecret v n d]> (secrets w);
  doc_select i w o w' : select_decrypted i w = (Ret o, w') ->
    o = sec_value <$> secrets w !! i /\ secrets w' = secrets w;
  doc_update i v n d w w' : vault_update i v n d w = (Ret tt, w') ->
    secrets w' = alter (updated v n d) i (secrets w);
  doc_delete_by_id i w w' : delete_by_id i w = (Ret tt, w') -> secrets w' = delete i (secrets w);
  (** [wait_for] gives the answer of the operation, or a [TimeoutError]. *)
  doc_wait_for {A} (op : Py W A) t w : wait_for op t w = op w \/
    exists m w', wait_for op t w = (Exc (PyErr TimeoutError m), w');
  doc_wait_healthy {A} (op : Py W A) t w : healthy w -> wait_for op t w = op w;
  doc_delete_healthy n w : healthy w -> exists w', delete_by_name n w = (Ret tt, w') /\ healthy w';
  doc_create_healthy v n d w : healthy w -> ~ name_taken n (secrets w) ->
    exists i w', vault_create v n d w = (Ret i, w') /\ healthy w';
  doc_select_healthy i w : healthy w -> exists o w', select_decrypted i w = (Ret o, w') /\ healthy w';
}.

(** ** What the service guarantees *)

Section Facts.
Context {W : Type} `{VaultDoc W}.
Variable timeout : Z.

Lemma guard_ret {A} (op : Py W A) w a w' :
  _guard timeout op w = (Ret a, w') -> op w = (Ret a, w').
Proof.
  unfold _guard, catch. destruct (doc_wait_for op timeout w) as [-> | (m & w1 & ->)].
  - destruct (op w) as [[b | e] w1]; [done |]. by destruct (isinstance e TimeoutError).
  - done.
Qed.
Lemma guard_healthy {A} (op : Py W A) w a w' :
  healthy w -> op w = (Ret a, w') -> _guard timeout op w = (Ret a, w').
Proof. intros Hh Hop. unfold _guard, catch. by rewrite doc_wait_healthy, Hop. Qed.
(** A timeout never leaves the service as a [TimeoutError]: the caller sees a 503. *)
Lemma guard_error {A} (op : Py W A) w e w' :
  _guard timeout op w = (Exc e, w') -> isinstance e TimeoutError = false /\
  (e = ApiError (ServiceUnavailableError (JStr "Vault operation timed out") JNull None) \/
   op w = (Exc e, w')).
Proof.
  unfold _guard, catch. destruct (doc_wait_for op timeout w) as [-> | (m & w1 & ->)].
  - destruct (op w) as [[b | e1] w1]; [done |]. destruct (isinstance e1 TimeoutError) eqn:Et.
    + intros [= <- <-]. auto.
    + intros [= <- <-]. auto.
  - intros [= <- <-]. auto.
Qed.

Lemma without_name_free n t : ~ name_taken (Some n) (without_name n t).
Proof.
  intros (n' & i & s & [= <-] & Hl & Hs). apply map_lookup_filter_Some in Hl as [_ Hn]. by apply Hn.
Qed.
Lemma without_name_lookup n t i s :
  without_name n t !! i = Some s <-> t !! i = Some s /\ sec_name s <> Some n.
Proof. apply map_lookup_filter_Some. Qed.

(** The table after storing under a name: no other row has the name any more. *)
Definition stored (i : N) (v : string) (name description : option string) (t : gmap N secret) : gmap N secret :=
  <[i := mkSecret v name (default "" description)]>
    (match truthy_name name with Some n => without_name n t | None => t end).
Lemma create_ret v name d w i w' :
  create_secret timeout v name d w = (Ret i, w') ->
  secrets w' = stored i v name d (secrets w) /\
  match truthy_name name with Some n => without_name n (secrets w) | None => secrets w end !! i = None.
Proof.
  intros Hc%guard_ret. unfold stored, bind in *. destruct (truthy_name name) as [n|].
  - destruct (delete_by_name n w) as [[[] | e] w1] eqn:Ed; [| done].
    apply doc_delete_by_name in Ed. apply doc_create in Hc as (_ & Hf & ->). by rewrite Ed in *.
  - cbn in Hc. apply doc_create in Hc as (_ & Hf & ->). done.
Qed.
Lemma stored_lookup i v name d t j s :
  j <> i -> stored i v name d t !! j = Some s <->
  t !! j = Some s /\ (forall n, truthy_name name = Some n -> sec_name s <> Some n).
Proof.
  intros Hj. unfold stored. rewrite lookup_insert_ne by done. destruct (truthy_name name) as [n|].
  - rewrite without_name_lookup. naive_solver.
  - naive_solver.
Qed.

(** What a call that returns has done: a stored secret is readable under a new id, and it replaces
    every row of its name and touches no other; reading gives the value of the row, or [None]
    when there is none, and changes nothing; updating changes that row alone and keeps the name
    and description that are not given; deleting removes that row alone.  And a call never raises a
    [TimeoutError]. *)
Theorem vault_contract :
  (forall v name d w i w', create_secret timeout v name d w = (Ret i, w') ->
     secrets w' !! i = Some (mkSecret v name (default "" d)) /\
     forall j s, j <> i -> secrets w' !! j = Some s <->
       secrets w !! j = Some s /\ (forall n, truthy_name name = Some n -> sec_name s <> Some n)) /\
  (forall i w o w', read_secret timeout i w = (Ret o, w') ->
     o = sec_value <$> secrets w !! i /\ secrets w' = secrets w) /\
  (forall i v n d w w', update_secret timeout i v n d w = (Ret tt, w') ->
     secrets w' = alter (updated v n d) i (secrets w)) /\
  (forall i w w', delete_secret timeout i w = (Ret tt, w') -> secrets w' = delete i (secrets w)) /\
  (forall A (op : Py W A), raises_only (fun e => isinstance e TimeoutError = false) (_guard timeout op)).
Proof.
  split; [| split; [| split; [| split]]].
  - intros v name d w i w' Hc%create_ret. destruct Hc as [-> _]. split.
    + unfold stored. by rewrite lookup_insert_eq.
    + intros j s Hj. by apply stored_lookup.
  - intros i w o w' Hr%guard_ret. unfold bind in Hr.
    destruct (select_decrypted i w) as [[row | e] w1] eqn:Es; [| done].
    apply doc_select in Es. injection Hr as <- <-. done.
  - intros i v n d w w' Hu%guard_ret. by apply doc_update.
  - intros i w w' Hd%guard_ret. by apply doc_delete_by_id.
  - intros A op w e w' He%guard_error. tauto.
Qed.

(** Storing under a name heals itself: on a database that answers, storing a secret under a name
    always succeeds, whatever row an earlier attempt left under the name, and reading the id it
    returned gives the secret back. *)
Theorem named_store_heals v n d w :
  healthy w -> nonempty n = true ->
  exists i w1 w2, create_secret timeout v (Some n) d w = (Ret i, w1) /\
    read_secret timeout i w1 = (Ret (Some v), w2) /\
    (forall j s, secrets w2 !! j = Some s -> sec_name s = Some n -> j = i).
Proof.
  intros Hh Hn. destruct (doc_delete_healthy n w Hh) as (w0 & Hdel & Hh0).
  pose proof (doc_delete_by_name _ _ _ Hdel) as Ht.
  destruct (doc_create_healthy v (Some n) (default "" d) w0 Hh0) as (i & w1 & Hcr & Hh1).
  { rewrite Ht. apply without_name_free. }
  destruct (doc_select_healthy i w1 Hh1) as (o & w2 & Hsel & _).
  assert (create_secret timeout v (Some n) d w = (Ret i, w1)) as Hc.
  { apply guard_healthy; [done |]. unfold truthy_name. rewrite Hn. unfold bind. by rewrite Hdel. }
  destruct (create_ret _ _ _ _ _ _ Hc) as [Hs _]. destruct (doc_select _ _ _ _ Hsel) as [Ho Hs2].
  exists i, w1, w2. split; [done |]. split.
  - apply guard_healthy; [done |]. unfold bind. rewrite Hsel, Ho, Hs.
    unfold stored. by rewrite lookup_insert_eq.
  - intros j s Hj Hname. rewrite Hs2, Hs in Hj. destruct (decide (j = i)) as [| Hne]; [done |].
    apply stored_lookup in Hj as [_ Hj]; [| done]. exfalso. apply (Hj n); [| done].
    unfold truthy_name. by rewrite Hn.
Qed.
End Facts.

(** ** An instance *)

Definition row_named (n : string) (t : gmap N secret) : bool :=
  existsb (fun kv => bool_decide (named n kv.2)) (map_to_list t).
Definition taken (name : option string) (t : gmap N secret) : bool :=
  match name with Some n => row_named n t | None => false end.
#[export] Instance mvault : VaultDb (gmap N secret) := {|
  secrets := id;
  delete_by_name n t := (Ret tt, without_name n t);
  vault_create v n d t :=
    if taken n t then (Exc (PyErr OtherException "duplicate key value violates unique constraint"), t)
    else let i := fresh (dom t) in (Ret i, <[i := mkSecret v n d]> t);
  select_decrypted i t := (Ret (sec_value <$> t !! i), t);
  vault_update i v n d t := (Ret tt, alter (updated v n d) i t);
  delete_by_id i t := (Ret tt, delete i t);
  wait_for A op _ := op;
  healthy _ := True;
|}.
Lemma taken_spec name t : taken name t = true <-> name_taken name t.
Proof.
  unfold taken, name_taken, row_named. destruct name as [n|]; [| naive_solver].
  rewrite existsb_exists. split.
  - intros ([i s] & Hin & Hs%bool_decide_eq_true). apply list_elem_of_In, elem_of_map_to_list in Hin. by exists n, i, s.
  - intros (n' & i & s & [= <-] & Hl & Hs). exists (i, s).
    split; [by apply list_elem_of_In, elem_of_map_to_list | by apply bool_decide_eq_true].
Qed.
#[export] Instance mvault_doc : VaultDoc (gmap N secret).
Proof.
  split; cbn; unfold id.
  - by intros n w w' [= <-].
  - intros v n d w i w'. destruct (taken n w) eqn:Et; [done |]. intros [= <- <-].
    split; [by rewrite <- taken_spec, Et |]. split; [| done].
    apply not_elem_of_dom, is_fresh.
  - intros i w o w' [= <- <-]. done.
  - by intros i v n d w w' [= <-].
  - by intros i w w' [= <-].
  - intros A op t w. by left.
  - done.
  - intros n w _. by eexists.
  - intros v n d w _ Hn. rewrite <- taken_spec, not_true_iff_false in Hn. rewrite Hn. by eexists _, _.
  - intros i w _. by eexists _, _.
Qed.

Definition stale : gmap N secret := {[ 0%N := mkSecret "old" (Some "calendar:conn:7") "" ]}.
Lemma named_store_heals_witness :
  exists i w1 w2, create_secret 5 "new" (Some "calendar:conn:7") None stale = (Ret i, w1) /\
    read_secret 5 i w1 = (Ret (Some "new"), w2) /\
    (forall j s, secrets w2 !! j = Some s -> sec_name s = Some "calendar:conn:7" -> j = i).
Proof. apply (named_store_heals 5 "new" "calendar:conn:7" None stale); [exact I | reflexivity]. Defined.
(** An empty name is a name to the database, but not to [create_secret]: its stale row stays. *)
Lemma empty_name_not_cleared :
  exists m, fst (create_secret 5 "new" (Some "") None
               ({[ 0%N := mkSecret "old" (Some "") "" ]} : gmap N secret)) = Exc (PyErr OtherException m).
Proof. eexists. vm_compute. reflexivity. Qed.
Lemma vault_contract_witness :
  exists t, create_secret 5 "v" (Some "a") None (∅ : gmap N secret) = (Ret 0%N, t) /\
    t !! 0%N = Some (mkSecret "v" (Some "a") "") /\
    forall j s, j <> 0%N -> t !! j = Some s -> False.
Proof.
  set (t := snd (create_secret 5 "v" (Some "a") None (∅ : gmap N secret))).
  assert (create_secret 5 "v" (Some "a") None (∅ : gmap N secret) = (Ret 0%N, t)) as E
    by (vm_compute; reflexivity).
  destruct (proj1 (vault_contract (W := gmap N secret) 5) "v" (Some "a") None ∅ 0%N t E) as [Hi Hj].
  exists t. split; [exact E |]. split; [exact Hi |]. intros j s Hne Hs.
  apply Hj in Hs as [Hs _]; [discriminate Hs | exact Hne].
Defined.
