(* ===== verification/Settings.v ===== *)
(** * Settings

    Models src/tr_shared/config/base.py (the production checks of [BaseServiceSettings]), csv_list.py,
    env_audit.py with the ownership check of testing/env_contract.py, and contracts/environment.py.
    A settings object is the record of the fields the code reads; pydantic's parsing of the
    environment is not modelled, its naming of variables is ([binds]). *)

From stdpp Require Import sorting.
From S2P Require Import Prelude Json Errors Text DbSession.
From Stdlib Require Import Ascii.
Local Open Scope Z_scope.

(** ** contracts/environment.py *)

Inductive Environment := DEVELOPMENT | TEST | STAGING | PRODUCTION.
#[export] Instance Environment_eq_dec : EqDecision Environment.
Proof. solve_decision. Defined.
Definition environment_value (e : Environment) : string :=
  match e with
  | DEVELOPMENT => "development" | TEST => "test" | STAGING => "staging" | PRODUCTION => "production"
  end.
(** [Environment(value)]: no aliases *)
Definition environment_of (s : string) : outcome exn Environment :=
  match find (fun e => bool_decide (environment_value e = s)) [DEVELOPMENT; TEST; STAGING; PRODUCTION] with
  | Some e => Ret e
  | None => Exc (PyErr ValueError (repr_str s +:+ " is not a valid Environment"))
  end.
Definition is_local (e : Environment) : bool := bool_decide (e = DEVELOPMENT \/ e = TEST).

(** ** config/base.py *)

(** [CORS_ORIGINS]: a string, or the list one service redeclares it as. *)
Inductive cors := CorsText (s : string) | CorsList (l : list string).
Record settings := mkSettings {
  ENVIRONMENT : Environment;
  SUPABASE_URL : string; SUPABASE_JWT_AUDIENCE : string; JWKS_URL : string; SERVICE_TOKEN : string;
  REDIS_URL : string; CELERY_BROKER_URL : string; CELERY_RESULT_BACKEND : string; DATABASE_URL : string;
  CORS_ORIGINS : cors;
  STATEMENT_TIMEOUT_PROFILE : StatementTimeoutProfile;
}.
Definition split_origins (s : string) : list string :=
  filter (fun o => o <> "") (map strip (split_on "," s)).
Definition get_cors_origins (c : settings) : outcome exn (list string) :=
  match CORS_ORIGINS c with
  | CorsText s => Ret (split_origins s)
  | CorsList _ => Exc (PyErr AttributeError "'list' object has no attribute 'split'")
  end.
Definition _cors_origin_list (c : settings) : list string :=
  match CORS_ORIGINS c with
  | CorsText s => split_origins s
  | CorsList l => filter (fun o => o <> "") (map strip l)
  end.
Definition is_production (c : settings) : bool := bool_decide (ENVIRONMENT c = PRODUCTION).
Definition is_development (c : settings) : bool := bool_decide (ENVIRONMENT c = DEVELOPMENT).
Definition settings_is_local (c : settings) : bool := is_local (ENVIRONMENT c).
Definition database_statement_timeout_seconds (c : settings) : Z :=
  DB_STATEMENT_TIMEOUT_SECONDS (STATEMENT_TIMEOUT_PROFILE c).

Definition value_error (m : string) : exn := PyErr ValueError m.
(** ["*" in self.CORS_ORIGINS]: a substring of the string, an element of the list *)
Definition cors_wildcard (c : settings) : bool :=
  match CORS_ORIGINS c with
  | CorsText s => contains "*" s
  | CorsList l => bool_decide ("*" ∈ l)
  end.
Fixpoint check_urls (urls : list (string * string)) : outcome exn unit :=
  match urls with
  | [] => Ret tt
  | (url_field, value) :: urls =>
      if nonempty value && contains "localhost" value
      then Exc (value_error (url_field +:+ " must not point to localhost in production"))
      else check_urls urls
  end.
Definition guarded_urls (c : settings) : list (string * string) :=
  [("REDIS_URL", REDIS_URL c); ("CELERY_BROKER_URL", CELERY_BROKER_URL c); ("DATABASE_URL", DATABASE_URL c)].
Definition insecure_origins (c : settings) : list string :=
  filter (fun o => startswith o "https://" = false) (_cors_origin_list c).
Definition validate_production_config (c : settings) : outcome exn settings :=
  if negb (is_production c) then Ret c
  else if nonempty (SUPABASE_URL c) && negb (nonempty (SUPABASE_JWT_AUDIENCE c)) then
    Exc (value_error "SUPABASE_JWT_AUDIENCE required when SUPABASE_URL is set")
  else if nonempty (SUPABASE_URL c) && negb (nonempty (JWKS_URL c)) then
    Exc (value_error "JWKS_URL required when SUPABASE_URL is set")
  else if cors_wildcard c then Exc (value_error "CORS wildcard not allowed in production")
  else match insecure_origins c with
  | _ :: _ => Exc (value_error ("CORS_ORIGINS must be https:// in production; remove or replace: " +:+
                                join ", " (insecure_origins c)))
  | [] =>
    if negb (nonempty (SERVICE_TOKEN c)) then Exc (value_error "SERVICE_TOKEN required in production")
    else outcome_bind (check_urls (guarded_urls c)) (fun _ => Ret c)
  end.

(** ** config/csv_list.py *)

(** [split_csv] on a string; any other value is passed through. *)
Definition split_csv (value : string) : outcome exn (list string) :=
  if startswith (lstrip value) "[" || startswith (lstrip value) "{" then
    Exc (value_error "JSON is not accepted in an environment value; use a comma-separated list")
  else Ret (filter (fun i => i <> "") (map strip (split_on "," value))).

(** ** config/env_audit.py *)

Definition key_start (c : ascii) : bool :=
  let n := nat_of_ascii c in
  (65 <=? n)%nat && (n <=? 90)%nat || (97 <=? n)%nat && (n <=? 122)%nat || (n =? 95)%nat.
Definition key_char (c : ascii) : bool := key_start c || is_decimal c.
#[local] Arguments key_start : simpl never.
#[local] Arguments key_char : simpl never.
Fixpoint span_key (s : string) : string * string :=
  match s with
  | EmptyString => ("", "")
  | String c s' => if key_char c then let (k, r) := span_key s' in (String c k, r) else ("", s)
  end.
(** [([A-Za-z_][A-Za-z0-9_]* )\s*=] at the start of [s] *)
Definition key_at (s : string) : option string :=
  match s with
  | String c _ =>
      if key_start c then
        let (k, r) := span_key s in if startswith (lstrip r) "=" then Some k else None
      else None
  | EmptyString => None
  end.
(** [_KEY_RE.match(line)]: the prefix [export] is tried first, and given up when no key follows it. *)
Definition _KEY_RE (line : string) : option string :=
  let s := lstrip line in
  let exported :=
    if startswith s "export" then
      let r := drop_str 6 s in
      match r with String c _ => if is_space c then key_at (lstrip r) else None | EmptyString => None end
    else None in
  match exported with Some k => Some k | None => key_at s end.

Definition is_line_break (c : ascii) : bool :=
  bool_decide (nat_of_ascii c ∈ [10; 11; 12; 13; 28; 29; 30; 133]%nat).
#[local] Arguments is_line_break : simpl never.
Fixpoint lines (s : string) : list string :=
  match s with
  | EmptyString => [""]
  | String c s' =>
      if is_line_break c then "" :: lines s'
      else match lines s' with l :: ls => String c l :: ls | [] => [String c ""] end
  end.
(** [str.splitlines] of a text whose line ends are single characters; no empty line at the end *)
Definition splitlines (s : string) : list string :=
  if bool_decide (last (lines s) = Some "") then removelast (lines s) else lines s.
(** The key names of a dotenv text, as a set. *)
Definition parse_env_keys (text : string) : list string := omap _KEY_RE (splitlines text).

(** A field's [validation_alias]. *)
Inductive alias :=
| NoAlias
| AliasStr (s : string)
| AliasChoices (choices : list (option string))     (* [None]: a choice that is not a string *)
| AliasPath (head : option string).                 (* its first element, where that is a string *)
Definition _aliases (a : alias) : list string :=
  match a with
  | NoAlias => []
  | AliasStr s => [s]
  | AliasChoices cs => omap id cs
  | AliasPath (Some s) => [s]
  | AliasPath None => []
  end.
Record settings_class := mkClass {
  env_prefix : string;
  env_prefix_target : string;          (* "variable" where not given *)
  case_sensitive : bool;
  populate_by_name : bool;
  model_fields : list (string * alias);
}.
(** The names one field contributes, before [normalize]. *)
Definition field_names (cls : settings_class) (field : string * alias) : list string :=
  let alias_names := _aliases (snd field) in
  let alias_prefix := if bool_decide (env_prefix_target cls ∈ ["alias"; "all"]) then env_prefix cls else "" in
  let name_prefix := if bool_decide (env_prefix_target cls ∈ ["variable"; "all"]) then env_prefix cls else "" in
  map (fun a => alias_prefix +:+ a) alias_names ++
  match alias_names with
  | [] => [name_prefix +:+ fst field]
  | _ => if populate_by_name cls then [name_prefix +:+ fst field] else []
  end.
Definition class_names (cls : settings_class) : list string := flat_map (field_names cls) (model_fields cls).
Definition declared_env_keys_by_sensitivity (classes : list settings_class) : list string * list string :=
  (flat_map (fun cls => if case_sensitive cls then class_names cls else []) classes,
   flat_map (fun cls => if case_sensitive cls then [] else map upper (class_names cls)) classes).
Definition _declared_env_keys (classes : list settings_class) : list string :=
  let (cs, ci) := declared_env_keys_by_sensitivity classes in cs ++ ci.

Definition key_le (a b : string) : Prop := str_leb a b = true.
#[export] Instance key_le_dec a b : Decision (key_le a b) := decide (str_leb a b = true).
Definition _unclaimed (keys : list string) (owners : list settings_class) : list string :=
  let (cs, ci) := declared_env_keys_by_sensitivity owners in
  merge_sort key_le (filter (fun k => k ∉ cs /\ upper k ∉ ci) (remove_dups keys)).
Definition unclaimed_env_keys (text : string) (classes : list settings_class) : list string :=
  _unclaimed (parse_env_keys text) classes.

(** ** Production configuration *)

(** What a production configuration must be. *)
Definition production_safe (c : settings) : Prop :=
  (SUPABASE_URL c <> "" -> SUPABASE_JWT_AUDIENCE c <> "" /\ JWKS_URL c <> "") /\
  cors_wildcard c = false /\
  (forall o, o ∈ _cors_origin_list c -> startswith o "https://" = true) /\
  SERVICE_TOKEN c <> "" /\
  (forall u, u ∈ [REDIS_URL c; CELERY_BROKER_URL c; DATABASE_URL c] -> contains "localhost" u = false).

Lemma contains_empty : contains "localhost" "" = false.
Proof. reflexivity. Qed.
Lemma check_urls_ret urls :
  check_urls urls = Ret tt <-> (forall u, u ∈ urls.*2 -> contains "localhost" u = false).
Proof.
  induction urls as [|[n v] urls IH]; cbn; [split; [intros _ u Hu; by apply elem_of_nil in Hu | done] |].
  setoid_rewrite elem_of_cons. destruct (nonempty v) eqn:En; cbn [andb].
  - destruct (contains "localhost" v) eqn:Ec.
    + split; [done |]. intros H. rewrite (H v) in Ec by auto. done.
    + rewrite IH. split; [intros H u [-> | Hu]; auto | auto].
  - apply nonempty_false in En as ->. rewrite IH. split; [intros H u [-> | Hu]; auto | auto].
Qed.
Lemma check_urls_exc urls e : check_urls urls = Exc e -> isinstance e ValueError = true.
Proof. induction urls as [|[n v] urls IH]; cbn; [done |]. destruct (nonempty v && _); [by intros [= <-] | done]. Qed.
Lemma filter_nil_iff {A} (P : A -> Prop) `{forall x, Decision (P x)} (l : list A) :
  filter P l = [] <-> forall x, x ∈ l -> ~ P x.
Proof.
  split; [| apply filter_none]. intros Hf x Hx Hp.
  assert (x ∈ filter P l) as Hin by (by apply list_elem_of_filter). rewrite Hf in Hin. by apply elem_of_nil in Hin.
Qed.

Lemma insecure_nil c :
  insecure_origins c = [] <-> forall o, o ∈ _cors_origin_list c -> startswith o "https://" = true.
Proof.
  unfold insecure_origins. rewrite filter_nil_iff. split; intros H o Ho.
  - specialize (H o Ho). by destruct (startswith o "https://").
  - by rewrite H.
Qed.
Lemma required_when a b : (nonempty a && negb (nonempty b) = false) <-> (a <> "" -> b <> "").
Proof.
  rewrite andb_false_iff, negb_false_iff, nonempty_false, nonempty_spec.
  destruct (decide (a = "")); tauto.
Qed.
Lemma validate_ret c :
  ENVIRONMENT c = PRODUCTION -> validate_production_config c = Ret c <-> production_safe c.
Proof.
  intros He. unfold validate_production_config, is_production, production_safe.
  rewrite bool_decide_true by done. cbn [negb]. rewrite <- insecure_nil.
  assert ((SUPABASE_URL c <> "" -> SUPABASE_JWT_AUDIENCE c <> "" /\ JWKS_URL c <> "") <->
    (nonempty (SUPABASE_URL c) && negb (nonempty (SUPABASE_JWT_AUDIENCE c)) = false /\
     nonempty (SUPABASE_URL c) && negb (nonempty (JWKS_URL c)) = false)) as ->
    by (rewrite !required_when; tauto).
  rewrite <- nonempty_spec.
  destruct (nonempty (SUPABASE_URL c) && negb (nonempty (SUPABASE_JWT_AUDIENCE c))); [by split; [| intros [[]]] |].
  destruct (nonempty (SUPABASE_URL c) && negb (nonempty (JWKS_URL c))); [by split; [| intros [[]]] |].
  destruct (cors_wildcard c); [by split; [| intros (_ & [=] & _)] |].
  destruct (insecure_origins c); [| by split; [| intros (_ & _ & [=] & _)]].
  destruct (nonempty (SERVICE_TOKEN c)); cbn [negb]; [| by split; [| intros (_ & _ & _ & [=] & _)]].
  pose proof (check_urls_ret (guarded_urls c)) as Hu. cbn [guarded_urls fmap list_fmap snd] in Hu.
  destruct (check_urls (guarded_urls c)) as [[]|e]; cbn [outcome_bind].
  - split; [intros _; split_and!; try done; by apply Hu | done].
  - split; [done |]. intros (_ & _ & _ & _ & H). by apply Hu in H.
Qed.
Lemma validate_outcome c :
  validate_production_config c = Ret c \/
  exists e, validate_production_config c = Exc e /\ isinstance e ValueError = true.
Proof.
  unfold validate_production_config. repeat case_match; eauto.
  destruct (check_urls (guarded_urls c)) as [[]|e] eqn:Eu; cbn; [auto |]. apply check_urls_exc in Eu. eauto.
Qed.

(** A production process starts exactly with a safe configuration: an unsafe one is a [ValueError]
    before anything runs, and outside production nothing is checked. *)
Theorem production_guard c :
  match validate_production_config c with
  | Ret c' => c' = c /\ (ENVIRONMENT c = PRODUCTION -> production_safe c)
  | Exc e => isinstance e ValueError = true /\ ENVIRONMENT c = PRODUCTION /\ ~ production_safe c
  end.
Proof.
  pose proof (validate_ret c) as Hr.
  destruct (validate_outcome c) as [E | (e & E & Hv)]; rewrite E in *.
  - split; [done | intros He; by apply Hr].
  - split; [done |]. destruct (decide (ENVIRONMENT c = PRODUCTION)) as [He | He].
    + split; [done |]. intros Hs. by apply Hr in Hs.
    + unfold validate_production_config, is_production in E. by rewrite bool_decide_false in E.
Qed.

(** What the guard does not look at: the Celery result backend, which defaults to localhost; other
    spellings of the loopback address; and a wildcard inside an origin of the list form, which the
    string form refuses. *)
Definition prod (redis backend : string) (origins : cors) : settings :=
  mkSettings PRODUCTION "" "" "" "t" redis "redis://r:6379/1" backend "postgres://db/x" origins REQUEST.
Lemma production_guard_gaps :
  production_safe (prod "redis://r:6379/0" "redis://localhost:6379/2" (CorsText "")) /\
  production_safe (prod "redis://127.0.0.1:6379/0" "redis://r:6379/2" (CorsText "")) /\
  production_safe (prod "redis://r:6379/0" "redis://r:6379/2" (CorsList ["https://*.example.com"])) /\
  ~ production_safe (prod "redis://r:6379/0" "redis://r:6379/2" (CorsText "https://*.example.com")).
Proof.
  split_and!; [apply (validate_ret (prod _ _ _) eq_refl); vm_compute; reflexivity.. |].
  intros (_ & Hw & _). vm_compute in Hw. discriminate Hw.
Qed.

(** ** Ownership of environment variables *)

(** How pydantic-settings reads the environment: a class reads the variable of each name of a field, in
    that case if the class is case-sensitive, in any case if not (it compares lower-cased
    names). *)
Definition binds (cls : settings_class) (key : string) : Prop :=
  exists name, name ∈ class_names cls /\
    if case_sensitive cls then key = name else lower key = lower name.

Lemma upper_lower_ascii c : upper_ascii (lower_ascii c) = upper_ascii c.
Proof. destruct c as [[] [] [] [] [] [] [] []]; reflexivity. Qed.
Lemma lower_upper_ascii c : lower_ascii (upper_ascii c) = lower_ascii c.
Proof. destruct c as [[] [] [] [] [] [] [] []]; reflexivity. Qed.
Lemma upper_lower s : upper (lower s) = upper s.
Proof. induction s as [|c s IH]; cbn; [done |]. by rewrite upper_lower_ascii, IH. Qed.
Lemma lower_upper s : lower (upper s) = lower s.
Proof. induction s as [|c s IH]; cbn; [done |]. by rewrite lower_upper_ascii, IH. Qed.
Lemma same_name a b : lower a = lower b <-> upper a = upper b.
Proof. split; intros H; [rewrite <- (upper_lower a), H | rewrite <- (lower_upper a), H]; auto using upper_lower, lower_upper. Qed.

Lemma declared_binds classes k :
  k ∈ (declared_env_keys_by_sensitivity classes).1 \/
  upper k ∈ (declared_env_keys_by_sensitivity classes).2 <->
  exists cls, cls ∈ classes /\ binds cls k.
Proof.
  unfold declared_env_keys_by_sensitivity, binds. cbn [fst snd].
  rewrite !list_elem_of_In, !in_flat_map. setoid_rewrite <- list_elem_of_In. split.
  - intros [(cls & Hc & Hk) | (cls & Hc & Hk)]; exists cls; (split; [done |]).
    + destruct (case_sensitive cls); [eauto | by apply elem_of_nil in Hk].
    + destruct (case_sensitive cls); [by apply elem_of_nil in Hk |].
      apply list_elem_of_fmap in Hk as (n & Hn & Hin). exists n. split; [done | by apply same_name].
  - intros (cls & Hc & n & Hn & Hb). destruct (case_sensitive cls) eqn:Es; [left | right];
      exists cls; (split; [done |]); rewrite Es; [by subst |].
    apply list_elem_of_fmap. exists n. split; [by apply same_name | done].
Qed.

(** ** A dotenv file and its keys *)

Inductive env_line := Blank | Comment (text : string) | Entry (exported : bool) (key value : string).
Definition show_line (l : env_line) : string :=
  match l with
  | Blank => ""
  | Comment t => "#" +:+ t
  | Entry exported k v => (if exported then "export " else "") +:+ k +:+ "=" +:+ v
  end.
Definition one_line (s : string) : bool := all_chars (fun c => negb (is_line_break c)) s.
Definition key_ok (k : string) : bool :=
  match k with String c k' => key_start c && all_chars key_char k' | EmptyString => false end.
Definition line_ok (l : env_line) : bool :=
  match l with
  | Blank => true
  | Comment t => one_line t
  | Entry _ k v => key_ok k && one_line v
  end.
(** Every line ends in a line feed. *)
Definition dotenv (ls : list env_line) : string :=
  foldr (fun l r => show_line l +:+ String (ascii_of_nat 10) r) "" ls.

Lemma append_cons c s t : String c s +:+ t = String c (s +:+ t).
Proof. reflexivity. Qed.
Lemma lines_append s t : one_line s = true -> lines (s +:+ String (ascii_of_nat 10) t) = s :: lines t.
Proof.
  induction s as [|c s IH]; cbn; [done |]. intros [Hc Hs]%andb_true_iff. apply negb_true_iff in Hc.
  rewrite append_cons. cbn [lines]. by rewrite Hc, IH.
Qed.
Lemma key_char_no_break c : key_char c = true -> is_line_break c = false /\ is_space c = false.
Proof. destruct c as [[] [] [] [] [] [] [] []]; vm_compute; auto. Qed.
Lemma key_one_line k : all_chars key_char k = true -> one_line k = true.
Proof.
  induction k as [|c k IH]; cbn; [done |]. intros [Hc Hk]%andb_true_iff.
  apply key_char_no_break in Hc as [-> _]. auto.
Qed.
Lemma key_ok_chars k : key_ok k = true -> all_chars key_char k = true.
Proof.
  destruct k as [|c k]; [done |]. cbn. intros [Hc Hk]%andb_true_iff. unfold key_char at 1. by rewrite Hc, Hk.
Qed.
Lemma show_one_line l : line_ok l = true -> one_line (show_line l) = true.
Proof.
  destruct l as [|t|e k v]; cbn; [done | done |]. intros [Hk Hv]%andb_true_iff.
  pose proof (key_one_line k (key_ok_chars k Hk)) as H1.
  unfold one_line in *. rewrite !all_chars_append, Hv, H1. by destruct e.
Qed.
Lemma dotenv_lines ls :
  forallb line_ok ls = true -> splitlines (dotenv ls) = map show_line ls.
Proof.
  intros Hl. assert (lines (dotenv ls) = map show_line ls ++ [""]) as E.
  { induction ls as [|l ls IH]; [done |]. apply andb_true_iff in Hl as [H1 H2].
    change (dotenv (l :: ls)) with (show_line l +:+ String (ascii_of_nat 10) (dotenv ls)).
    rewrite lines_append by (by apply show_one_line). by rewrite IH. }
  unfold splitlines. rewrite E, last_snoc, bool_decide_true by done. by rewrite removelast_last.
Qed.

Lemma span_key_append k t : all_chars key_char k = true ->
  (match t with String c _ => key_char c = false | EmptyString => True end) -> span_key (k +:+ t) = (k, t).
Proof.
  induction k as [|c k IH].
  { intros _ Ht. change ("" +:+ t) with t. destruct t as [|c t]; [done |]. cbn [span_key]. by rewrite Ht. }
  cbn [all_chars]. intros [Hc Hk]%andb_true_iff Ht. rewrite append_cons. cbn [span_key]. by rewrite Hc, IH.
Qed.
Lemma key_at_entry k v : key_ok k = true -> key_at (k +:+ "=" +:+ v) = Some k.
Proof.
  intros Hk. pose proof (key_ok_chars k Hk) as Hc. unfold key_at.
  destruct k as [|c k']; [done |]. cbn in Hk. apply andb_true_iff in Hk as [Hs _].
  rewrite append_cons. rewrite Hs. rewrite <- append_cons.
  rewrite (span_key_append (String c k') ("=" +:+ v)) by done.
  change (lstrip ("=" +:+ v)) with ("=" +:+ v). by rewrite startswith_append.
Qed.
Lemma lstrip_key k t : key_ok k = true -> lstrip (k +:+ t) = k +:+ t.
Proof.
  destruct k as [|c k]; [done |]. intros Hk%key_ok_chars. cbn [all_chars] in Hk.
  apply andb_true_iff in Hk as [Hc _]. rewrite append_cons. cbn [lstrip].
  by destruct (key_char_no_break c Hc) as [_ ->].
Qed.
Lemma after_key_prefix p k c t rest :
  all_chars key_char p = true -> all_chars key_char k = true ->
  k +:+ "=" +:+ rest = p +:+ String c t -> is_space c = false.
Proof.
  revert k. induction p as [|d p IH]; intros k Hp Hk; destruct k as [|e k].
  - change ("" +:+ ?x) with x. intros [= <- _]. reflexivity.
  - change ("" +:+ ?x) with x. rewrite append_cons. intros [= <- _].
    cbn [all_chars] in Hk. apply andb_true_iff in Hk as [Hk _]. by apply key_char_no_break in Hk as [_ Hk].
  - change ("" +:+ ?x) with x. rewrite append_cons. intros [= <- _]. discriminate Hp.
  - rewrite !append_cons. intros [= <- E]. cbn [all_chars] in Hp, Hk.
    apply andb_true_iff in Hp as [_ Hp]. apply andb_true_iff in Hk as [_ Hk]. by apply (IH k).
Qed.
Lemma entry_key l :
  line_ok l = true -> _KEY_RE (show_line l) = match l with Entry _ k _ => Some k | _ => None end.
Proof.
  intros Hl. destruct l as [|t|e k v]; [done | done |].
  cbn [line_ok] in Hl. apply andb_true_iff in Hl as [Hk Hv]. unfold _KEY_RE, show_line. destruct e.
  - change (lstrip ("export " +:+ k +:+ "=" +:+ v)) with ("export" +:+ String " " (k +:+ "=" +:+ v)).
    rewrite startswith_append. change 6%nat with (String.length "export"). rewrite drop_str_append.
    cbn beta iota zeta. change (is_space " ") with true. cbn beta iota.
    change (lstrip (String " " (k +:+ "=" +:+ v))) with (lstrip (k +:+ "=" +:+ v)).
    by rewrite lstrip_key, key_at_entry by done.
  - change ("" +:+ k +:+ "=" +:+ v) with (k +:+ "=" +:+ v). rewrite lstrip_key, key_at_entry by done.
    destruct (startswith (k +:+ "=" +:+ v) "export") eqn:Es; [| done].
    apply startswith_inv in Es as [r Er]. rewrite Er.
    change 6%nat with (String.length "export"). rewrite drop_str_append. destruct r as [|c r]; [done |].
    by rewrite (after_key_prefix "export" k c r v eq_refl (key_ok_chars k Hk) Er).
Qed.

(** The keys of a dotenv file are those of its entries, exported or not: comments, blank lines and
    values add none. *)
Theorem env_keys_roundtrip ls k :
  forallb line_ok ls = true ->
  k ∈ parse_env_keys (dotenv ls) <-> exists exported v, Entry exported k v ∈ ls.
Proof.
  intros Hl. unfold parse_env_keys. rewrite dotenv_lines by done. rewrite list_elem_of_omap. split.
  - intros (s & Hs & Hk). apply list_elem_of_fmap in Hs as (l & -> & Hin).
    rewrite entry_key in Hk by (apply forallb_forall with (x := l) in Hl; [done | by apply list_elem_of_In]).
    destruct l; simplify_eq. eauto.
  - intros (e & v & Hin). exists (show_line (Entry e k v)). split; [by apply list_elem_of_fmap_2 |].
    by rewrite entry_key by (apply forallb_forall with (x := Entry e k v) in Hl; [done | by apply list_elem_of_In]).
Qed.
(** A key is reported exactly when the file has it and no settings class would read it. *)
Theorem unclaimed_iff_unread text classes k :
  k ∈ unclaimed_env_keys text classes <->
  k ∈ parse_env_keys text /\ ~ exists cls, cls ∈ classes /\ binds cls k.
Proof.
  unfold unclaimed_env_keys, _unclaimed. pose proof (declared_binds classes k) as Hd.
  destruct (declared_env_keys_by_sensitivity classes) as [cs ci]. cbn [fst snd] in Hd.
  rewrite merge_sort_Permutation, list_elem_of_filter, elem_of_remove_dups, <- Hd. tauto.
Qed.
(** The flat set of names is not fit to decide ownership: it claims [service_name] for a case-sensitive
    [SERVICE_NAME] as soon as names are compared in upper case. *)
Definition exact_class : settings_class := mkClass "" "variable" true false [("SERVICE_NAME", NoAlias)].
Lemma flat_names_overclaim :
  upper "service_name" ∈ _declared_env_keys [exact_class] /\
  unclaimed_env_keys ("service_name=x" +:+ String (ascii_of_nat 10) "") [exact_class] = ["service_name"].
Proof. split; [left | vm_compute; reflexivity]. Qed.

Lemma production_guard_witness :
  exists c, validate_production_config c = Ret c /\ ENVIRONMENT c = PRODUCTION /\ production_safe c.
Proof.
  set (c := prod "redis://r:6379/0" "redis://r:6379/2" (CorsText "https://a.example, https://b.example")).
  exists c. assert (validate_production_config c = Ret c) as E by (vm_compute; reflexivity).
  split; [exact E |]. split; [reflexivity |].
  pose proof (production_guard c) as H. rewrite E in H. exact (proj2 H eq_refl).
Defined.
Lemma env_keys_roundtrip_witness :
  "DB" ∈ parse_env_keys (dotenv [Comment " local"; Entry true "export" "1"; Blank; Entry false "DB" "a=b"]).
Proof. apply (env_keys_roundtrip _ "DB"); [reflexivity |]. exists false, "a=b". right. right. right. left. Defined.
