(* ===== verification/Platform.v ===== *)
(** * Small shared parts

    Models src/tr_shared/redis/pool.py and redis/client.py (one client per event loop), health/router.py, schemas/responses.py (the page count, in the floating-point arithmetic
    of the code), contracts/entity_types.py, web/dependencies.py and phone.py. *)

From S2P Require Import Prelude Json Errors Text Redis Events.
From Stdlib Require Import Ascii.
Local Open Scope Z_scope.

(** ** redis/pool.py and redis/client.py *)

(** Event loops and clients by their identity; a client remembers the URL of its pool. *)
Record redis_client := mkClient { rc_id : nat; rc_url : string }.
Record LoopBoundRedis := mkBound { lb_url : string; _bound : option (nat * redis_client) }.
(** What the process has done so far: the number of clients built, those closed. *)
Record process := mkProcess { built : nat; closed : list nat }.

Definition LoopBoundRedis_init (url : string) : outcome exn LoopBoundRedis :=
  outcome_bind (require_plain_redis_url url) (fun _ => Ret (mkBound url None)).
(** [client()] on the running loop *)
Definition client (loop : nat) (st : LoopBoundRedis * process) : redis_client * (LoopBoundRedis * process) :=
  let '(lb, p) := st in
  let fresh := mkClient (built p) (lb_url lb) in
  match _bound lb with
  | Some (l, c) =>
      if bool_decide (l = loop) then (c, st)
      else (fresh, (mkBound (lb_url lb) (Some (loop, fresh)), mkProcess (S (built p)) (closed p)))
  | None => (fresh, (mkBound (lb_url lb) (Some (loop, fresh)), mkProcess (S (built p)) (closed p)))
  end.
Definition aclose (loop : nat) (st : LoopBoundRedis * process) : LoopBoundRedis * process :=
  let '(lb, p) := st in
  (mkBound (lb_url lb) None,
   match _bound lb with
   | Some (l, c) => if bool_decide (l = loop) then mkProcess (built p) (rc_id c :: closed p) else p
   | None => p
   end).

(** The module's shared client. *)
Definition get_redis_client (loop : nat) (url : string) (st : option LoopBoundRedis * process)
    : outcome exn redis_client * (option LoopBoundRedis * process) :=
  match (match fst st with Some lb => Ret lb | None => LoopBoundRedis_init url end) with
  | Exc e => (Exc e, st)
  | Ret lb => let '(c, (lb', p)) := client loop (lb, snd st) in (Ret c, (Some lb', p))
  end.
Definition close_redis_client (loop : nat) (st : option LoopBoundRedis * process)
    : option LoopBoundRedis * process :=
  match fst st with
  | Some lb => let (_, p) := aclose loop (lb, snd st) in (None, p)
  | None => st
  end.

(** Calls of any loops, in any order, and the clients they were given. *)
Inductive redis_call := GetClient (loop : nat) (url : string) | CloseClient (loop : nat).
Fixpoint redis_calls (calls : list redis_call) (st : option LoopBoundRedis * process)
    : list (nat * redis_client) * (option LoopBoundRedis * process) :=
  match calls with
  | [] => ([], st)
  | GetClient loop url :: calls =>
      let (o, st) := get_redis_client loop url st in
      let (given, st) := redis_calls calls st in
      (match o with Ret c => (loop, c) :: given | Exc _ => given end, st)
  | CloseClient loop :: calls => redis_calls calls (close_redis_client loop st)
  end.

(** The client in place was handed to its loop only, and client numbers are fresh. *)
Definition bound_ok (given : list (nat * redis_client)) (st : option LoopBoundRedis * process) : Prop :=
  (forall l c, (l, c) ∈ given -> (rc_id c < built (snd st))%nat) /\
  (forall l1 c1 l2 c2, (l1, c1) ∈ given -> (l2, c2) ∈ given -> rc_id c1 = rc_id c2 -> l1 = l2) /\
  (forall lb l c, fst st = Some lb -> _bound lb = Some (l, c) -> (rc_id c < built (snd st))%nat /\
     forall l' c', (l', c') ∈ given -> rc_id c' = rc_id c -> l' = l).
Lemma bound_ok_fresh given lb p loop :
  bound_ok given (Some lb, p) \/ bound_ok given (None, p) ->
  let c := mkClient (built p) (lb_url lb) in
  bound_ok (given ++ [(loop, c)])
    (Some (mkBound (lb_url lb) (Some (loop, c))), mkProcess (S (built p)) (closed p)).
Proof.
  intros Hok c. assert (Hb : forall l c, (l, c) ∈ given -> (rc_id c < built p)%nat) by (destruct Hok as [[H _] | [H _]]; exact H).
  assert (Hu : forall l1 c1 l2 c2, (l1, c1) ∈ given -> (l2, c2) ∈ given -> rc_id c1 = rc_id c2 -> l1 = l2)
    by (destruct Hok as [(_ & H & _) | (_ & H & _)]; exact H).
  unfold bound_ok. cbn [fst snd built]. setoid_rewrite elem_of_app. setoid_rewrite list_elem_of_singleton. split_and!.
  - intros l c' [Hin | [= -> ->]]; [apply Hb in Hin; lia | cbn; lia].
  - intros l1 c1 l2 c2 [H1 | [= -> ->]] [H2 | [= -> ->]] E; [by eapply Hu | | | done];
      cbn in E; [apply Hb in H1 | apply Hb in H2]; lia.
  - intros lb' l c' [= <-] [= <- <-]. cbn. split; [lia |].
    intros l' c2 [Hin | [= -> _]] E; [apply Hb in Hin; lia | done].
Qed.
Lemma bound_ok_get given st loop url c st' :
  bound_ok given st -> get_redis_client loop url st = (Ret c, st') -> bound_ok (given ++ [(loop, c)]) st'.
Proof.
  intros Hok. destruct st as [ol p]. unfold get_redis_client. cbn [fst snd].
  assert (forall lb, bound_ok given (Some lb, p) ->
            (let '(c, (lb', p')) := client loop (lb, p) in (Ret (E := exn) c, (Some lb', p'))) = (Ret c, st') ->
            bound_ok (given ++ [(loop, c)]) st') as Hcl.
  { intros lb Hlb E. unfold client in E. destruct (_bound lb) as [[l c0]|] eqn:Eb.
    - case_bool_decide as Hl.
      + injection E as <- <-. subst l. destruct Hlb as (Hb & Hu & Hc). destruct (Hc lb loop c0 eq_refl Eb) as [Hlt Hsame].
        unfold bound_ok. cbn [fst snd] in *. setoid_rewrite elem_of_app. setoid_rewrite list_elem_of_singleton.
        split_and!.
        * intros l c' [Hin | [= -> ->]]; eauto.
        * intros l1 c1 l2 c2 [H1 | [= -> ->]] [H2 | [= -> ->]] Ei; eauto; symmetry; eauto.
        * intros lb' l c' [= <-] Hb'. rewrite Eb in Hb'. injection Hb' as <- <-. split; [done |].
          intros l' c2 [Hin | [= -> _]] Ei; eauto.
      + injection E as <- <-. apply bound_ok_fresh. by left.
    - injection E as <- <-. apply bound_ok_fresh. by left. }
  destruct ol as [lb|]; [by apply Hcl |].
  unfold LoopBoundRedis_init, outcome_bind. destruct (require_plain_redis_url url); [| done].
  apply Hcl. destruct Hok as (Hb & Hu & _). split_and!; [exact Hb | exact Hu | by intros lb l c0 [= <-]].
Qed.
Lemma bound_ok_close given st loop : bound_ok given st -> bound_ok given (close_redis_client loop st).
Proof.
  destruct st as [[lb|] p]; [| done]. intros (Hb & Hu & _). unfold close_redis_client, aclose. cbn [fst snd] in *.
  assert (forall (op : option nat), bound_ok given (None, match op with Some i => mkProcess (built p) (i :: closed p) | None => p end)) as H.
  { intros op. split_and!; [by destruct op | exact Hu | done]. }
  destruct (_bound lb) as [[l c]|]; [case_bool_decide |];
    [apply (H (Some (rc_id c))) | apply (H None) | apply (H None)].
Qed.
Lemma redis_calls_ok calls : forall given st,
  bound_ok given st -> bound_ok (given ++ (redis_calls calls st).1) (redis_calls calls st).2.
Proof.
  induction calls as [|[loop url | loop] calls IH]; intros given st Hok; cbn [redis_calls].
  - by rewrite app_nil_r.
  - destruct (get_redis_client loop url st) as [[c|e] st1] eqn:E.
    + specialize (IH _ _ (bound_ok_get _ _ _ _ _ _ Hok E)).
      destruct (redis_calls calls st1) as [g st2]. cbn [fst snd] in *. by rewrite <- app_assoc in IH.
    + assert (st1 = st) as ->.
      { unfold get_redis_client in E. destruct (match fst st with Some _ => _ | None => _ end) as [lb|].
        - by destruct (client loop (lb, snd st)) as [c0 [lb' p']]. - by injection E. }
      specialize (IH _ _ Hok). by destruct (redis_calls calls st) as [g st2].
  - apply IH, bound_ok_close, Hok.
Qed.

(** A Redis client never crosses event loops: in any sequence of [get_redis_client] and
    [close_redis_client] from any loops, two loops are never given the same client. *)
Theorem clients_stay_on_their_loop calls l1 c1 l2 c2 :
  let given := (redis_calls calls (None, mkProcess 0 [])).1 in
  (l1, c1) ∈ given -> (l2, c2) ∈ given -> rc_id c1 = rc_id c2 -> l1 = l2.
Proof.
  intros given H1 H2 E.
  assert (bound_ok [] (None, mkProcess 0 [])) as H0.
  { split_and!; [intros l c Hin; by apply elem_of_nil in Hin | intros ? ? ? ? Hin; by apply elem_of_nil in Hin | done]. }
  destruct (redis_calls_ok calls _ _ H0) as (_ & Hu & _). by apply (Hu l1 c1 l2 c2).
Qed.
(** The URL of a later call is not looked at: the caller gets the client of the first URL. *)
Lemma later_url_ignored :
  redis_calls [GetClient 0 "redis://a:6379/0"; GetClient 0 "redis://b:6379/1"] (None, mkProcess 0 []) =
  ([(0%nat, mkClient 0 "redis://a:6379/0"); (0%nat, mkClient 0 "redis://a:6379/0")],
   (Some (mkBound "redis://a:6379/0" (Some (0%nat, mkClient 0 "redis://a:6379/0"))), mkProcess 1 [])).
Proof. vm_compute. reflexivity. Qed.
(** Closing from another loop drops the client without closing its connections. *)
Lemma close_elsewhere_leaks :
  (redis_calls [GetClient 0 "redis://a:6379/0"; CloseClient 1] (None, mkProcess 0 [])).2 = (None, mkProcess 1 []).
Proof. vm_compute. reflexivity. Qed.

(** ** schemas/responses.py *)

(** Python's [a / b] on integers is a correctly rounded 53-bit float: [m] times two to the [-s].  (Both
    operands are taken below 2^1000, where neither overflow nor underflow can occur.) *)
Definition round_half_even (n d : Z) : Z :=
  let q := n / d in
  let r := n mod d in
  if 2 * r <? d then q else if d <? 2 * r then q + 1 else if Z.even q then q else q + 1.
Definition scaled (a b s : Z) : Z * Z := (a * 2 ^ Z.max 0 s, b * 2 ^ Z.max 0 (- s)).
Definition float_scale (a b : Z) : Z :=
  let s := 52 - (Z.log2 a - Z.log2 b) in
  let (n, d) := scaled a b s in if n <? 2 ^ 52 * d then s + 1 else s.
Definition true_divide (a b : Z) : Z * Z :=
  let s := float_scale a b in
  let (n, d) := scaled a b s in (round_half_even n d, s).
Definition ceil_float (f : Z * Z) : Z :=
  let (m, s) := f in - ((- m * 2 ^ Z.max 0 (- s)) / 2 ^ Z.max 0 s).
(** [math.ceil(total / page_size)] for a positive [page_size] *)
Definition ceil_div (total page_size : Z) : Z :=
  if total =? 0 then 0
  else if 0 <? total then ceil_float (true_divide total page_size)
  else let (m, s) := true_divide (- total) page_size in ceil_float (- m, s).

Record PaginationData := mkPagination { p_total : Z; p_page : Z; p_page_size : Z; p_total_pages : option Z }.
(** The fields' own constraints, then [_validate_total_pages]. *)
Definition field_errors (d : PaginationData) : bool :=
  (p_page d <? 1) || (p_page_size d <? 1) || match p_total_pages d with Some n => n <? 0 | None => false end.
Definition _validate_total_pages (d : PaginationData) : PaginationData :=
  let expected := if p_page_size d =? 0 then 0 else ceil_div (p_total d) (p_page_size d) in
  mkPagination (p_total d) (p_page d) (p_page_size d) (Some expected).
Definition PaginationData_init (d : PaginationData) : outcome exn PaginationData :=
  if field_errors d then Exc (PyErr ValueError "validation error for PaginationData")
  else Ret (_validate_total_pages d).

Lemma round_nearest n d : 0 < d -> 2 * Z.abs (round_half_even n d * d - n) <= d.
Proof.
  intros Hd. unfold round_half_even. pose proof (Z.div_mod n d ltac:(lia)) as E.
  pose proof (Z.mod_pos_bound n d Hd) as Hr. set (q := n / d) in *. set (r := n mod d) in *.
  destruct (2 * r <? d) eqn:E1; [nia |]. destruct (d <? 2 * r) eqn:E2; [nia |]. destruct (Z.even q); nia.
Qed.
Lemma log2_ratio a b : 0 < a < 2 ^ 53 -> 0 < b -> Z.log2 a - Z.log2 b <= 52.
Proof.
  intros Ha Hb. pose proof (Z.log2_nonneg b). assert (Z.log2 a < 53) by (apply Z.log2_lt_pow2; lia). lia.
Qed.
(** For dividends that fit a float's mantissa the scale is not negative and the quotient has at least 53 bits. *)
Lemma float_scale_spec a b : 0 < a < 2 ^ 53 -> 0 < b ->
  0 <= float_scale a b /\ 2 ^ 52 * b <= a * 2 ^ float_scale a b.
Proof.
  intros Ha Hb. pose proof (log2_ratio a b Ha Hb) as Hl. unfold float_scale, scaled.
  set (s := 52 - (Z.log2 a - Z.log2 b)) in *. assert (0 <= s) as Hs by lia.
  replace (Z.max 0 s) with s by lia. replace (Z.max 0 (- s)) with 0 by lia. rewrite Z.mul_1_r.
  destruct (a * 2 ^ s <? 2 ^ 52 * b) eqn:E; [| lia]. split; [lia |].
  pose proof (Z.log2_spec a ltac:(lia)) as [Hla _]. pose proof (Z.log2_spec b Hb) as [_ Hlb].
  assert (2 ^ (Z.log2 a) * 2 ^ (s + 1) = 2 ^ 52 * 2 ^ Z.succ (Z.log2 b)) as Hp.
  { rewrite <- !Z.pow_add_r by (pose proof (Z.log2_nonneg a); pose proof (Z.log2_nonneg b); lia). f_equal. lia. }
  assert (0 < 2 ^ (s + 1)) by (apply Z.pow_pos_nonneg; lia). nia.
Qed.
Lemma ceil_unique m d k : 0 < d -> (k - 1) * d < m <= k * d -> - ((- m) / d) = k.
Proof. intros Hd Hm. assert ((- m) / d = - k) as ->; [| lia]. symmetry. apply (Z.div_unique_pos _ _ _ (k * d - m)); lia. Qed.

Lemma ceil_div_exact total page_size k :
  0 < total < 2 ^ 53 -> 0 < page_size -> (k - 1) * page_size < total <= k * page_size ->
  ceil_div total page_size = k.
Proof.
  intros Ht Hp Hk. unfold ceil_div. destruct (total =? 0) eqn:E0; [lia |]. destruct (0 <? total) eqn:E1; [| lia].
  destruct (float_scale_spec total page_size Ht Hp) as [Hs Hq]. unfold true_divide, scaled.
  set (s := float_scale total page_size) in *. replace (Z.max 0 (- s)) with 0 by lia.
  replace (Z.max 0 s) with s by lia. rewrite Z.mul_1_r.
  pose proof (round_nearest (total * 2 ^ s) page_size Hp) as Hn.
  set (m := round_half_even (total * 2 ^ s) page_size) in *. unfold ceil_float.
  replace (Z.max 0 s) with s by lia. replace (Z.max 0 (- s)) with 0 by lia. rewrite Z.mul_1_r.
  assert (0 < 2 ^ s) as H2 by (apply Z.pow_pos_nonneg; lia).
  set (P := 2 ^ s) in *. clearbody m P.
  assert (page_size < 2 * P) as Hb by nia. apply ceil_unique; [done |]. split.
  - apply Z.nle_gt. intros Hm. assert (m * page_size <= (k - 1) * P * page_size) by nia.
    assert ((k - 1) * P * page_size <= (total - 1) * P) by nia. lia.
  - apply Z.nlt_ge. intros Hm. assert ((k * P + 1) * page_size <= m * page_size) by nia.
    assert (total * P <= k * P * page_size) by nia. lia.
Qed.

(** The page count is exact below 2^53: a valid page's [total_pages] is the number of pages of
    [page_size] that hold [total] items, whatever the caller gave, although it is computed with a
    floating-point division. *)
Theorem total_pages_exact d d' :
  PaginationData_init d = Ret d' -> 0 <= p_total d < 2 ^ 53 ->
  exists n, p_total_pages d' = Some n /\ 0 <= n /\
    (n - 1) * p_page_size d < p_total d <= n * p_page_size d /\
    p_total d' = p_total d /\ p_page d' = p_page d /\ p_page_size d' = p_page_size d.
Proof.
  unfold PaginationData_init. destruct (field_errors d) eqn:Ef; [done |]. intros [= <-] Ht.
  unfold field_errors in Ef. apply orb_false_iff in Ef as [Ef _]. apply orb_false_iff in Ef as [_ Ep].
  apply Z.ltb_ge in Ep. unfold _validate_total_pages. destruct (p_page_size d =? 0) eqn:E0; [lia |].
  cbn [p_total_pages p_total p_page p_page_size].
  destruct (decide (p_total d = 0)) as [-> | Hz]; [exists 0; split_and!; (done || lia) |].
  set (k := - ((- p_total d) / p_page_size d)).
  pose proof (Z.div_mod (- p_total d) (p_page_size d) ltac:(lia)) as E.
  pose proof (Z.mod_pos_bound (- p_total d) (p_page_size d) ltac:(lia)) as Hr.
  assert ((k - 1) * p_page_size d < p_total d <= k * p_page_size d) as Hk by (unfold k; nia).
  exists k. rewrite (ceil_div_exact _ _ k) by (done || lia). split_and!; (done || nia).
Qed.
Lemma total_pages_exact_witness :
  exists d', PaginationData_init (mkPagination 101 1 20 (Some 9)) = Ret d' /\ p_total_pages d' = Some 6.
Proof.
  set (d := mkPagination 101 1 20 (Some 9)).
  assert (PaginationData_init d = Ret (_validate_total_pages d)) as E by reflexivity.
  exists (_validate_total_pages d). split; [exact E |].
  destruct (total_pages_exact d _ E ltac:(cbn; lia)) as (n & Hn & H0 & [H1 H2] & _).
  rewrite Hn. f_equal. cbn in H1, H2. lia.
Defined.
(** From 2^53 on it may be one too small, and a negative total, which the model accepts, gives a
    negative page count although the field is declared [ge=0]. *)
Lemma page_count_limits :
  ceil_div (2 ^ 53 + 1) 1 = 2 ^ 53 /\
  outcome_bind (PaginationData_init (mkPagination (-50) 1 20 None)) (fun d => Ret (p_total_pages d)) =
    Ret (Some (-2)).
Proof. split; vm_compute; reflexivity. Qed.

(** ** contracts/entity_types.py *)

Inductive EntityType :=
| E_LEAD | E_DEAL | E_CONTACT | E_PROPERTY | E_LISTING | E_CMS_BLOG | E_CMS_PAGE | E_LMS_COURSE
| E_LMS_CERTIFICATE | E_TASK | E_ACTIVITY_COMMENT | E_HR_EMPLOYEE | E_HR_APPLICATION | E_HR_OFFER
| E_HR_ATTENDANCE_RECORD | E_HR_ATTENDANCE_EXCEPTION | E_HR_ATTENDANCE_MANUAL_ENTRY
| E_HR_ATTENDANCE_SYNC_JOB | E_FINANCE_COMMISSION | E_FINANCE_INVOICE | E_FINANCE_EXPENSE
| E_ADMIN_USER | E_MEDIA.
Definition entity_value (e : EntityType) : string :=
  match e with
  | E_LEAD => "lead" | E_DEAL => "deal" | E_CONTACT => "contact" | E_PROPERTY => "property"
  | E_LISTING => "listing" | E_CMS_BLOG => "cms.blog" | E_CMS_PAGE => "cms.page"
  | E_LMS_COURSE => "lms.course" | E_LMS_CERTIFICATE => "lms.certificate" | E_TASK => "task"
  | E_ACTIVITY_COMMENT => "activity.comment" | E_HR_EMPLOYEE => "hr.employee"
  | E_HR_APPLICATION => "hr.application" | E_HR_OFFER => "hr.offer"
  | E_HR_ATTENDANCE_RECORD => "hr.attendance_record"
  | E_HR_ATTENDANCE_EXCEPTION => "hr.attendance_exception"
  | E_HR_ATTENDANCE_MANUAL_ENTRY => "hr.attendance_manual_entry"
  | E_HR_ATTENDANCE_SYNC_JOB => "hr.attendance_sync_job"
  | E_FINANCE_COMMISSION => "finance.commission" | E_FINANCE_INVOICE => "finance.invoice"
  | E_FINANCE_EXPENSE => "finance.expense" | E_ADMIN_USER => "admin.user" | E_MEDIA => "media"
  end.
(** [Feature(self.value.split(".", 1)[0])] *)
Definition entity_feature (e : EntityType) : outcome exn Feature :=
  match feature_of (before_first "."%char (entity_value e)) with
  | Some f => Ret f
  | None => Exc (PyErr ValueError (repr_str (entity_value e) +:+ " is not a valid Feature"))
  end.

(** Every entity type belongs to a feature, and its name is the feature's, alone or followed by a
    dot; no two types share a name. *)
Theorem entity_types_are_prefixed e :
  (exists f, entity_feature e = Ret f /\
     (entity_value e = feature_value f \/ exists rest, entity_value e = feature_value f +:+ "." +:+ rest)) /\
  forall e', entity_value e' = entity_value e -> e' = e.
Proof.
  split.
  - destruct e; (eexists; split; [reflexivity |]); ((left; reflexivity) || (right; eexists; reflexivity)).
  - destruct e; intros []; done.
Qed.

(** ** web/dependencies.py *)

(** [request.state.identity], which the middlewares of the gateway's signature have put there. *)
Record gateway_identity := mkIdentity { gi_tenant_id : option string; gi_site_id : option string }.
Definition get_gateway_tenant_id (identity : option gateway_identity) : outcome exn string :=
  match (match identity with Some i => gi_tenant_id i | None => None end) with
  | Some t => Ret t
  | None => Exc (ApiError (AuthenticationError (JStr "Request carries no verified tenant identity") JNull None))
  end.
Definition get_gateway_site_id (identity : option gateway_identity) : option string :=
  match identity with Some i => gi_site_id i | None => None end.

(** ** health/router.py *)

Record ComponentCheck := mkCheck { cc_name : string; cc_healthy : bool; cc_latency : Z }.
Section Health.
Context {W : Type}.
Variable monotonic : W -> Z.
Variable within_timeout : Py W unit -> Py W unit.       (* [async with asyncio.timeout(...)] *)

Definition _probe (name : string) (check : Py W unit) : Py W ComponentCheck :=
  let! started := gets monotonic in
  let! healthy := catch_Exception (do! within_timeout check in ret true) (fun _ => ret false) in
  let! now := gets monotonic in
  ret (mkCheck name healthy (now - started)).
(** The Redis check: no client is a failure. *)
Definition ping_redis (redis : Py W (option (Py W unit))) : Py W unit :=
  let! client := redis in
  match client with
  | Some ping => ping
  | None => raise (PyErr ConnectionError "Redis client unavailable")
  end.
(** The two probes of the gather run one after the other here. *)
Definition readiness (ping_database : Py W unit) (redis : Py W (option (Py W unit)))
    : Py W (Z * string * list ComponentCheck) :=
  let! database := _probe "database" ping_database in
  let! cache := _probe "redis" (ping_redis redis) in
  let details := [database; cache] in
  let ready := forallb cc_healthy details in
  ret (if ready then 200 else 503, if ready then "ready" else "not_ready", details).

(** The database check: one statement on a connection of its own. *)
Definition ping_database (connect close : Py W unit) (exec_driver_sql : string -> Py W unit) : Py W unit :=
  do! connect in finally (exec_driver_sql "SELECT 1") close.

(** The bodies (health/schemas.py); [latency_json] renders [round(..., 2)] milliseconds. *)
Variable now_iso : W -> string.
Variable latency_json : Z -> json.
Definition HealthResponse (service version timestamp : string) : json :=
  JObj [("status", JStr "healthy"); ("service", JStr service); ("version", JStr version); ("timestamp", JStr timestamp)].
Definition check_json (c : ComponentCheck) : json :=
  JObj [("name", JStr (cc_name c)); ("healthy", JBool (cc_healthy c)); ("latency_ms", latency_json (cc_latency c))].
Definition ReadinessResponse (status service : string) (details : list ComponentCheck) : json :=
  JObj [("status", JStr status); ("service", JStr service);
        ("checks", JObj (foldl (fun checks c => dset (cc_name c) (JBool (cc_healthy c)) checks) [] details));
        ("details", JList (map check_json details))].
Definition LivenessResponse : json := JObj [("status", JStr "alive")].
(** The routes: path and endpoint *)
Definition create_health_router (service version : string) (database : Py W unit) (redis : Py W (option (Py W unit)))
    : list (string * Py W (Z * json)) :=
  [("", let! now := gets now_iso in ret (200, HealthResponse service version now));
   ("/ready", let! r := readiness database redis in
              let '(status, text, details) := r in ret (status, ReadinessResponse text service details));
   ("/live", ret (200, LivenessResponse))].

Lemma probe_returns :
  (forall c, raises_only (fun e => is_Exception e = true) (within_timeout c)) ->
  forall n c v, exists h t v', _probe n c v = (Ret (mkCheck n h t), v').
Proof.
  intros Hc n c v. unfold _probe, bind, gets, catch_Exception, catch.
  destruct (within_timeout c v) as [[u|e] v1] eqn:E; cbn; [eauto |]. rewrite (Hc _ _ _ _ E). cbn. eauto.
Qed.
(** The readiness probe answers whatever the checks raise: 200 exactly when both passed. *)
Lemma readiness_answers ping_database redis w :
  (forall c, raises_only (fun e => is_Exception e = true) (within_timeout c)) ->
  exists status text details w', readiness ping_database redis w = (Ret (status, text, details), w') /\
    (status = 200 <-> Forall (fun c => cc_healthy c = true) details) /\ (status = 200 \/ status = 503) /\
    map cc_name details = ["database"; "redis"].
Proof.
  intros Hc. pose proof (probe_returns Hc) as Hp.
  unfold readiness. destruct (Hp "database" ping_database w) as (h1 & t1 & w1 & E1).
  destruct (Hp "redis" (ping_redis redis) w1) as (h2 & t2 & w2 & E2).
  rewrite (bind_Ret _ _ _ _ _ E1), (bind_Ret _ _ _ _ _ E2). cbn. eexists _, _, _, _. split; [done |].
  destruct h1, h2; cbn; split_and!; try done; auto; rewrite !Forall_cons; cbn; naive_solver.
Qed.
(** The health and liveness endpoints answer 200 whatever the dependencies do and without calling
    them; the readiness endpoint names each dependency with its verdict. *)
Lemma health_routes_answer service version database redis w :
  (forall c, raises_only (fun e => is_Exception e = true) (within_timeout c)) ->
  forall path endpoint, (path, endpoint) ∈ create_health_router service version database redis ->
  exists status body w', endpoint w = (Ret (status, body), w') /\
    (path <> "/ready" -> status = 200 /\ w' = w) /\
    (path = "/ready" -> exists db_ok redis_ok details, body =
       JObj [("status", JStr (if db_ok && redis_ok then "ready" else "not_ready")); ("service", JStr service);
             ("checks", JObj [("database", JBool db_ok); ("redis", JBool redis_ok)]); ("details", JList details)] /\
       status = if db_ok && redis_ok then 200 else 503).
Proof.
  intros Hc path endpoint Hin. unfold create_health_router in Hin. rewrite !elem_of_cons in Hin.
  destruct Hin as [[= -> ->] | [[= -> ->] | [[= -> ->] | Hin]]]; [| | | by apply elem_of_nil in Hin].
  - by eexists _, _, _.
  - destruct (probe_returns Hc "database" database w) as (h1 & t1 & w1 & E1).
    destruct (probe_returns Hc "redis" (ping_redis redis) w1) as (h2 & t2 & w2 & E2).
    assert (E : readiness database redis w =
      (Ret (if h1 && h2 then 200 else 503, if h1 && h2 then "ready" else "not_ready",
            [mkCheck "database" h1 t1; mkCheck "redis" h2 t2]), w2)).
    { unfold readiness. rewrite (bind_Ret _ _ _ _ _ E1), (bind_Ret _ _ _ _ _ E2). cbn. by destruct h1, h2. }
    rewrite (bind_Ret _ _ _ _ _ E). cbn beta iota. do 3 eexists. split; [reflexivity |]. split; [done |].
    intros _. exists h1, h2. eexists. by destruct h1, h2.
  - by eexists _, _, _.
Qed.
End Health.

(** ** phone.py *)

(** The phonenumbers library: parsing against a region, validity, formatting, the kind of a number. *)
Class PhoneLib (N : Type) := {
  ph_parse : string -> option string -> option N;         (* [None]: NumberParseException *)
  ph_valid : N -> bool;
  ph_e164 : N -> string;
  ph_mobile : N -> bool;                                  (* MOBILE or FIXED_LINE_OR_MOBILE *)
}.
Definition to_e164 {N} `{PhoneLib N} (value : option string) (default_region : string) : option string :=
  match value with
  | Some v => if nonempty v then
                match ph_parse v (Some default_region) with
                | Some n => if ph_valid n then Some (ph_e164 n) else None
                | None => None
                end
              else None
  | None => None
  end.
Definition is_whatsapp_reachable {N} `{PhoneLib N} (e164 : string) : outcome exn bool :=
  match ph_parse e164 None with
  | Some n => Ret (ph_mobile n)
  | None => Exc (PyErr OtherException "NumberParseException")
  end.
(** Normalising again changes nothing, and a normalised number can be asked about, when the library
    reads back the format it writes. *)
Lemma to_e164_idempotent {N} `{PhoneLib N} value region e :
  (forall n r, ph_valid n = true -> nonempty (ph_e164 n) = true /\ ph_parse (ph_e164 n) r = Some n) ->
  to_e164 value region = Some e ->
  to_e164 (Some e) region = Some e /\ exists b, is_whatsapp_reachable e = Ret b.
Proof.
  intros Hlib E. unfold to_e164 in E. destruct value as [v|]; [| done]. destruct (nonempty v); [| done].
  destruct (ph_parse v (Some region)) as [n|]; [| done]. destruct (ph_valid n) eqn:Ev; [| done].
  injection E as <-. unfold to_e164, is_whatsapp_reachable.
  destruct (Hlib n (Some region) Ev) as [-> ->]. destruct (Hlib n None Ev) as [_ ->]. rewrite Ev. eauto.
Qed.
