(* ===== verification/Contracts.v ===== *)
(** * Contracts between services

    Models src/tr_shared/contracts/s2s/ (path builders, request and response models, the
    vocabulary of assignment rules), contracts/bedrooms.py, emirates.py, enums.py, glossary.py
    and the entitlement check of taxonomy.py.  Models are declarations of Schemas. *)

From S2P Require Import Prelude Json Errors Text Schemas Events Platform.
From Stdlib Require Import Ascii.
Local Open Scope Z_scope.

(** ** Path builders *)

(** listing_internal.py; a [UUID] argument is its text. *)
Definition INTERNAL_ROOT := "/api/v1/listing/internal".
Definition LISTINGS_BASE_PATH := INTERNAL_ROOT +:+ "/listings".
Definition PORTAL_PUBLICATIONS_BASE_PATH := INTERNAL_ROOT +:+ "/portal-publications".
Definition by_reference (reference_number : string) := LISTINGS_BASE_PATH +:+ "/by-reference/" +:+ reference_number.
Definition active_count := LISTINGS_BASE_PATH +:+ "/active-count".
Definition by_agent (agent_id : string) := LISTINGS_BASE_PATH +:+ "/by-agent/" +:+ agent_id.
Definition leads_increment (listing_id : string) := LISTINGS_BASE_PATH +:+ "/" +:+ listing_id +:+ "/leads:increment".
Definition listing_access_check (listing_id : string) := LISTINGS_BASE_PATH +:+ "/" +:+ listing_id +:+ "/access-check".
Definition agent_listing_counts_batch := LISTINGS_BASE_PATH +:+ "/agents:batch-count".
Definition listing_owners_batch := LISTINGS_BASE_PATH +:+ "/owners:batch".
Definition apply_for_owner := LISTINGS_BASE_PATH +:+ "/owner-sheet/apply-for-owner".
Definition recent_sync_activity := PORTAL_PUBLICATIONS_BASE_PATH +:+ "/recent-sync-activity".

(** lead_internal.py *)
Definition LEADS_BASE_PATH := "/api/v1/internal/leads".
Definition lead_access_check (lead_id : string) := LEADS_BASE_PATH +:+ "/" +:+ lead_id +:+ "/access-check".
Definition agent_lead_counts_batch := LEADS_BASE_PATH +:+ "/agents/kpi-batch".
Definition by_agent_counts := LEADS_BASE_PATH +:+ "/by-agent".
Definition by_agent_leads (agent_id : string) := LEADS_BASE_PATH +:+ "/by-agent/" +:+ agent_id.

(** admin_internal.py, auth_internal.py, gateway_internal.py, media_internal.py, wam_leads.py *)
Definition ADMIN_BASE_PATH := "/api/v1/internal/admin".
Definition assignment_rules := ADMIN_BASE_PATH +:+ "/assignment-rules".
Definition agent_groups := ADMIN_BASE_PATH +:+ "/agent-groups".
Definition AUTH_BASE_PATH := "/api/v1/internal".
Definition user_by_id (user_id : string) := AUTH_BASE_PATH +:+ "/users/" +:+ user_id.
Definition tenant_status (tenant_id : string) := AUTH_BASE_PATH +:+ "/tenant-status/" +:+ tenant_id.
Definition portal_agents_resolve := AUTH_BASE_PATH +:+ "/portal-agents/resolve".
Definition portal_agents_resolve_or_create := AUTH_BASE_PATH +:+ "/portal-agents/resolve-or-create".
Definition internal_call_headers (calling_service tenant_id : string) : list (string * string) :=
  [(HttpHeader.CALLING_SERVICE, calling_service); (HttpHeader.CALLING_TENANT_ID, tenant_id)].
Definition GATEWAY_BASE_PATH := "/api/v1/internal/cache".
Definition webhook_config (token : string) := GATEWAY_BASE_PATH +:+ "/webhook-config/" +:+ token.
Definition site_key (key_hash : string) := GATEWAY_BASE_PATH +:+ "/site-key/" +:+ key_hash.
Definition MEDIA_BASE_PATH := "/api/v1/media".
Definition signed_url (media_file_id : string) := MEDIA_BASE_PATH +:+ "/" +:+ media_file_id +:+ "/url".
Definition WAM_BASE_PATH := "/api/v1/internal/leads".
Definition link := WAM_BASE_PATH +:+ "/link".
Definition start_conversation := WAM_BASE_PATH +:+ "/start-conversation".
Definition close_by_phone := WAM_BASE_PATH +:+ "/close-by-phone".
Definition status (lead_id : string) := WAM_BASE_PATH +:+ "/" +:+ lead_id +:+ "/status".

(** ** Models *)

Definition model (fields : list field) : ty := TModel false fields.      (* pydantic's default: ignore *)
Definition strict (fields : list field) : ty := TModel true fields.      (* [extra="forbid"] *)

Definition AccessCheckRequest := model [req "user_id" Uuid].
Definition AccessCheckResponse := model [req "allowed" Bool; req "reason" Str].

Inductive PortalSyncStatus := PENDING | SYNCING | SYNCED | ERROR | DISABLED | ACTION_REQUIRED.
Definition sync_status_value (s : PortalSyncStatus) : string :=
  match s with
  | PENDING => "pending" | SYNCING => "syncing" | SYNCED => "synced" | ERROR => "error"
  | DISABLED => "disabled" | ACTION_REQUIRED => "action_required"
  end.
Definition TPortalSyncStatus :=
  TEnum (map sync_status_value [PENDING; SYNCING; SYNCED; ERROR; DISABLED; ACTION_REQUIRED]).
Definition ListingInternalRef := model
  [req "id" Uuid; opt "reference_number" Str; req "listing_status" Str; opt "title_en" Str; req "tenant_id" Uuid;
   opt_default "leads_count" Int (JInt 0); opt "last_lead_at" Datetime; opt "listing_owner" Dict; opt "listing_agent" Dict].
Definition ListingLeadCountOut := model
  [req "listing_id" Uuid; req "leads_count" Int; opt "last_lead_at" Datetime].
Definition ListingActiveCountOut := model [req "count" Int].
Definition AgentListingCountsRequest := model [req "tenant_id" Uuid; req "agent_ids" (TList 0 (Some 500%nat) Uuid)].
Definition AgentListingCountRow := model [req "agent_id" Uuid; req "listings_count" Int].
Definition AgentListingCountsResponse := model [req "rows" (listed AgentListingCountRow)].
Definition ListingOwnersRequest := strict [req "tenant_id" Uuid; req "listing_ids" (TList 1 (Some 500%nat) Uuid)].
Definition ListingOwnerRow := model [req "listing_id" Uuid; req "owner_id" (TOpt Str); req "owner_name" (TOpt Str)].
Definition ListingOwnersResponse := model [req "rows" (listed ListingOwnerRow)].
Definition SheetOwnerName := TStripped 1 255.
Definition ApplyForOwnerRequest := strict [req "crm_user_id" Uuid; req "names" (TList 1 (Some 50%nat) SheetOwnerName)].
Definition ApplyForOwnerResponse := model [req "sheet_enabled" Bool; req "matched_rows" Int; req "listings_written" Int].
Definition PortalSyncActivityQuery := strict
  [opt "portal_name" Str; opt "sync_status" TPortalSyncStatus;
   opt_default "limit" (TRange (Some 1) (Some 100)) (JInt 20);
   opt_default "hours_back" (TRange (Some 1) (Some 168)) (JInt 24)].
Definition PortalSyncActivityRow := model
  [req "id" Uuid; req "portal_name" Str; req "portal_sync_status" TPortalSyncStatus; req "portal_sync_error" (TOpt Str);
   req "last_synced_at" (TOpt Datetime); req "portal_listing_status" (TOpt Str); req "enabled" Bool].
Definition PortalSyncActivityPage := model [req "activities" (listed PortalSyncActivityRow); req "total_count" Int].

Definition AgentLeadCountsRequest := model [req "tenant_id" Uuid; req "agent_ids" (TList 0 (Some 500%nat) Uuid)].
Definition AgentLeadCountPair := model [req "agent_id" Uuid; req "active_count" Int; req "total_count" Int].
Definition AgentLeadCountRow := model [req "agent_id" Uuid; req "leads_count" Int].
Definition AgentLeadCountsResponse := model [req "rows" (listed AgentLeadCountRow)].

Definition TenantStatusRef := model [req "is_active" Bool].
Definition UserDetailRef := model
  [req "id" Uuid; opt "email" Str; opt "full_name" Str; opt "name" Str; opt "department_id" Uuid; opt "portal_info" Dict;
   opt "pf_public_profile_id" Str; opt "bayut_user_id" Int].
Definition PortalAgentRef := model [req "crm_user_id" Uuid; opt "name" Str].
Definition PortalAgentResolveRef := model [opt_default "resolved" (TDict PortalAgentRef) (JObj [])].
Definition PortalAgentUpsertRef := model [opt "crm_user_id" Uuid; opt "name" Str].
Definition PortalAgentResolveOrCreateRef := model [opt_default "resolved" (TDict PortalAgentUpsertRef) (JObj [])].

(** ** Assignment rules (admin_internal.py) *)

Inductive ConditionName := LEAD_SCORE | LEAD_SOURCE | LANGUAGE | PROPERTY_TYPE | BUDGET | LOCATION | URGENCY.
Definition ConditionName_value (n : ConditionName) : string :=
  match n with
  | LEAD_SCORE => "Lead Score" | LEAD_SOURCE => "Lead Source" | LANGUAGE => "Language"
  | PROPERTY_TYPE => "Property Type" | BUDGET => "Budget" | LOCATION => "Location" | URGENCY => "Urgency"
  end.
Definition all_conditions := [LEAD_SCORE; LEAD_SOURCE; LANGUAGE; PROPERTY_TYPE; BUDGET; LOCATION; URGENCY].
Inductive ConditionComparison := EQUALS | NOT_EQUALS | GREATER_THAN | LESS_THAN | IN.
Definition ConditionComparison_value (c : ConditionComparison) : string :=
  match c with
  | EQUALS => "Equals" | NOT_EQUALS => "Not Equals" | GREATER_THAN => "Greater Than" | LESS_THAN => "Less Than" | IN => "In"
  end.
Definition all_comparisons := [EQUALS; NOT_EQUALS; GREATER_THAN; LESS_THAN; IN].
Definition RuleConditionLogic := ["ALL"; "ANY"].
Definition AssignmentMethod :=
  ["round_robin"; "specific_agent"; "specific_agent_team"; "specific_user"; "team_based"; "lead_load_queue"].
Definition CONDITION_OPERATORS (n : ConditionName) : list ConditionComparison :=
  match n with
  | LEAD_SCORE | BUDGET => all_comparisons
  | LEAD_SOURCE | LANGUAGE | PROPERTY_TYPE | LOCATION | URGENCY => [EQUALS; NOT_EQUALS; IN]
  end.
Definition RuleCondition := model
  [req "condition_name" (TEnum (map ConditionName_value all_conditions));
   req "condition_comparison" (TEnum (map ConditionComparison_value all_comparisons));
   req "condition_value" (TUnion [Str; Int; TScalar SFloat])].
Definition RuleNotifications := model
  [opt_default "notify_assigned_agent" Bool (JBool true); opt_default "notify_team_leader" Bool (JBool false);
   opt_default "notification_channels" (listed Str) (JList [JStr "in_app"])].
Definition AssignmentRuleRef := model
  [req "id" Uuid; opt "rule_name" Str; req "priority_number" Int; req "is_active" Bool;
   opt_default "conditions" (listed RuleCondition) (JList []);
   opt "rule_condition_logic" (TEnum RuleConditionLogic); opt "assignment_method" (TEnum AssignmentMethod);
   opt "agent_group_id" Uuid; opt_default "agents_team" Any JNull; opt "max_leads_per_day" Int;
   opt_default "active_days" (listed Str) (JList []); opt "start_time" Str; opt "end_time" Str; opt "timezone" Str;
   opt "auto_reassign_after_minutes" Int; opt_default "escalate_to_manager_if_no_response" Bool (JBool false);
   opt "notifications" RuleNotifications].
Definition AgentGroupMemberRef := model [req "agent_id" Uuid; opt_default "sort_order" Int (JInt 0)].
Definition AgentGroupRef := model
  [req "id" Uuid; req "group_name" Str; opt_default "is_active" Bool (JBool true);
   opt_default "members" (listed AgentGroupMemberRef) (JList [])].

(** ** Vocabularies and the glossary *)

Definition BedroomCount := ["studio"; "1"; "2"; "3"; "4"; "5"; "6"; "7+"].
Definition Emirate := ["Dubai"; "Abu Dhabi"; "Sharjah"; "Ajman"; "Ras Al Khaimah"; "Fujairah"; "Umm Al Quwain"].
Definition Priority := ["low"; "medium"; "high"; "critical"].
Definition Channel := ["in_app"; "email"; "sms"; "push"; "whatsapp"].
Definition CommentAction := ["created"; "edited"; "deleted"].

Record Term := mkTerm { canonical : string; term_type : string; migrations : list (string * string) }.
Definition retired_aliases (t : Term) : list string := (migrations t).*1.
Definition GLOSSARY : list (string * Term) :=
  [("feature", mkTerm "Feature" "tr_shared.contracts.taxonomy.Feature" []);
   ("entity_type", mkTerm "EntityType" "tr_shared.contracts.entity_types.EntityType" [("comment", "activity.comment")]);
   ("priority", mkTerm "Priority" "tr_shared.contracts.enums.Priority" [("urgent", "critical")]);
   ("channel", mkTerm "Channel" "tr_shared.contracts.enums.Channel" [("mobile_push", "push")]);
   ("bedroom_count", mkTerm "BedroomCount" "tr_shared.contracts.bedrooms.BedroomCount"
      [("bed1", "1"); ("1 Bedroom", "1"); ("bed7plus", "7+")])].
Definition entity_types : list EntityType :=
  [E_LEAD; E_DEAL; E_CONTACT; E_PROPERTY; E_LISTING; E_CMS_BLOG; E_CMS_PAGE; E_LMS_COURSE; E_LMS_CERTIFICATE; E_TASK;
   E_ACTIVITY_COMMENT; E_HR_EMPLOYEE; E_HR_APPLICATION; E_HR_OFFER; E_HR_ATTENDANCE_RECORD; E_HR_ATTENDANCE_EXCEPTION;
   E_HR_ATTENDANCE_MANUAL_ENTRY; E_HR_ATTENDANCE_SYNC_JOB; E_FINANCE_COMMISSION; E_FINANCE_INVOICE; E_FINANCE_EXPENSE;
   E_ADMIN_USER; E_MEDIA].
(** The members of the enum that a term's import path names *)
Definition live_members (path : string) : list string :=
  match path with
  | "tr_shared.contracts.taxonomy.Feature" => map feature_value features
  | "tr_shared.contracts.entity_types.EntityType" => map entity_value entity_types
  | "tr_shared.contracts.enums.Priority" => Priority
  | "tr_shared.contracts.enums.Channel" => Channel
  | "tr_shared.contracts.bedrooms.BedroomCount" => BedroomCount
  | _ => []
  end.
(** No retired alias is a live member, and every replacement is one. *)
Theorem glossary_is_current k t alias replacement :
  (k, t) ∈ GLOSSARY -> (alias, replacement) ∈ migrations t ->
  alias ∉ live_members (term_type t) /\ replacement ∈ live_members (term_type t).
Proof.
  assert (Hall : forallb (fun kt => forallb (fun ar =>
            bool_decide (ar.1 ∉ live_members (term_type kt.2)) && bool_decide (ar.2 ∈ live_members (term_type kt.2)))
            (migrations kt.2)) GLOSSARY = true) by (vm_compute; reflexivity).
  intros Hk Ha. rewrite forallb_forall in Hall. specialize (Hall (k, t) ltac:(by apply list_elem_of_In)).
  rewrite forallb_forall in Hall. specialize (Hall (alias, replacement) ltac:(by apply list_elem_of_In)).
  apply andb_true_iff in Hall as [H1%bool_decide_eq_true H2%bool_decide_eq_true]. done.
Qed.

(** ** Routes do not collide

    The calls that services make of one provider, with their arguments. *)

Inductive route :=
| ByReference (reference_number : string) | ActiveCount | ByAgent (agent_id : string) | LeadsIncrement (listing_id : string)
| ListingAccess (listing_id : string) | ListingCounts | OwnersBatch | ApplyForOwner | RecentSync
| LeadAccess (lead_id : string) | LeadCounts | ByAgentCounts | ByAgentLeads (agent_id : string)
| AssignmentRules | AgentGroups
| UserById (user_id : string) | TenantStatus (tenant_id : string) | AgentsResolve | AgentsResolveOrCreate
| WebhookConfig (token : string) | SiteKey (key_hash : string) | SignedUrl (media_file_id : string)
| Link | StartConversation | CloseByPhone | Status (lead_id : string).
Definition route_path (r : route) : string :=
  match r with
  | ByReference n => by_reference n | ActiveCount => active_count | ByAgent a => by_agent a
  | LeadsIncrement l => leads_increment l | ListingAccess l => listing_access_check l
  | ListingCounts => agent_listing_counts_batch | OwnersBatch => listing_owners_batch | ApplyForOwner => apply_for_owner
  | RecentSync => recent_sync_activity | LeadAccess l => lead_access_check l | LeadCounts => agent_lead_counts_batch
  | ByAgentCounts => by_agent_counts | ByAgentLeads a => by_agent_leads a | AssignmentRules => assignment_rules
  | AgentGroups => agent_groups | UserById u => user_by_id u | TenantStatus t => tenant_status t
  | AgentsResolve => portal_agents_resolve | AgentsResolveOrCreate => portal_agents_resolve_or_create
  | WebhookConfig t => webhook_config t | SiteKey k => site_key k | SignedUrl m => signed_url m
  | Link => link | StartConversation => start_conversation | CloseByPhone => close_by_phone | Status l => status l
  end.
(** The segments of a path *)
Definition route_segments (r : route) : list string :=
  match r with
  | ByReference n => [""; "api"; "v1"; "listing"; "internal"; "listings"; "by-reference"; n]
  | ActiveCount => [""; "api"; "v1"; "listing"; "internal"; "listings"; "active-count"]
  | ByAgent a => [""; "api"; "v1"; "listing"; "internal"; "listings"; "by-agent"; a]
  | LeadsIncrement l => [""; "api"; "v1"; "listing"; "internal"; "listings"; l; "leads:increment"]
  | ListingAccess l => [""; "api"; "v1"; "listing"; "internal"; "listings"; l; "access-check"]
  | ListingCounts => [""; "api"; "v1"; "listing"; "internal"; "listings"; "agents:batch-count"]
  | OwnersBatch => [""; "api"; "v1"; "listing"; "internal"; "listings"; "owners:batch"]
  | ApplyForOwner => [""; "api"; "v1"; "listing"; "internal"; "listings"; "owner-sheet"; "apply-for-owner"]
  | RecentSync => [""; "api"; "v1"; "listing"; "internal"; "portal-publications"; "recent-sync-activity"]
  | LeadAccess l => [""; "api"; "v1"; "internal"; "leads"; l; "access-check"]
  | LeadCounts => [""; "api"; "v1"; "internal"; "leads"; "agents"; "kpi-batch"]
  | ByAgentCounts => [""; "api"; "v1"; "internal"; "leads"; "by-agent"]
  | ByAgentLeads a => [""; "api"; "v1"; "internal"; "leads"; "by-agent"; a]
  | AssignmentRules => [""; "api"; "v1"; "internal"; "admin"; "assignment-rules"]
  | AgentGroups => [""; "api"; "v1"; "internal"; "admin"; "agent-groups"]
  | UserById u => [""; "api"; "v1"; "internal"; "users"; u]
  | TenantStatus t => [""; "api"; "v1"; "internal"; "tenant-status"; t]
  | AgentsResolve => [""; "api"; "v1"; "internal"; "portal-agents"; "resolve"]
  | AgentsResolveOrCreate => [""; "api"; "v1"; "internal"; "portal-agents"; "resolve-or-create"]
  | WebhookConfig t => [""; "api"; "v1"; "internal"; "cache"; "webhook-config"; t]
  | SiteKey k => [""; "api"; "v1"; "internal"; "cache"; "site-key"; k]
  | SignedUrl m => [""; "api"; "v1"; "media"; m; "url"]
  | Link => [""; "api"; "v1"; "internal"; "leads"; "link"]
  | StartConversation => [""; "api"; "v1"; "internal"; "leads"; "start-conversation"]
  | CloseByPhone => [""; "api"; "v1"; "internal"; "leads"; "close-by-phone"]
  | Status l => [""; "api"; "v1"; "internal"; "leads"; l; "status"]
  end.
Lemma route_path_segments r : route_path r = join "/" (route_segments r).
Proof. destruct r; reflexivity. Qed.
(** The arguments: ids are as long as the text of a UUID; no argument has a slash. *)
Definition id_text (s : string) : bool := free_of "/" s && (String.length s =? 36)%nat.
Definition route_ok (r : route) : bool :=
  match r with
  | ByReference n | WebhookConfig n | SiteKey n => free_of "/" n
  | ByAgent a | LeadsIncrement a | ListingAccess a | LeadAccess a | ByAgentLeads a | UserById a | TenantStatus a
  | SignedUrl a | Status a => id_text a
  | _ => true
  end.
Lemma id_text_split s : id_text s = true -> free_of "/" s = true /\ String.length s = 36%nat.
Proof. unfold id_text. rewrite andb_true_iff, Nat.eqb_eq. done. Qed.
Lemma route_segments_free r : route_ok r = true -> Forall (fun s => free_of "/" s = true) (route_segments r).
Proof.
  intros Hr. destruct r; cbn [route_ok] in Hr; try apply id_text_split in Hr as [Hr _];
    repeat (apply List.Forall_cons; [(reflexivity || exact Hr) |]); apply List.Forall_nil.
Qed.
Lemma join_segments_inj (l1 l2 : list string) : l1 <> [] -> l2 <> [] ->
  Forall (fun s => free_of "/" s = true) l1 -> Forall (fun s => free_of "/" s = true) l2 ->
  join "/" l1 = join "/" l2 -> l1 = l2.
Proof.
  assert (Hslash : forall x y t, free_of "/" x = true -> x = y +:+ String "/" t -> False).
  { intros x y t Hx ->. rewrite free_of_append in Hx. cbn in Hx. by rewrite andb_false_r in Hx. }
  revert l2. induction l1 as [|x l1 IH]; intros [|y l2] Hn1 Hn2 F1 F2; try done.
  apply Forall_cons in F1 as [Hx F1], F2 as [Hy F2].
  destruct l1 as [|x' l1], l2 as [|y' l2]; cbn [join].
  - by intros ->.
  - intros E. exfalso. exact (Hslash x y _ Hx E).
  - intros E. exfalso. exact (Hslash y x _ Hy (eq_sym E)).
  - intros E. destruct (free_of_split "/" x y _ _ Hx Hy E) as [-> E'].
    f_equal. by apply IH.
Qed.

(** Calls do not reach another route.  For ids of a UUID's length and arguments without a
    slash, two calls of any of the services' internal routes have the same path only if they
    are the same call: no id can turn one route into another, and nothing of an id is lost. *)
Theorem routes_do_not_collide r1 r2 :
  route_ok r1 = true -> route_ok r2 = true -> route_path r1 = route_path r2 -> r1 = r2.
Proof.
  intros H1 H2. rewrite !route_path_segments. intros E.
  apply join_segments_inj in E; [| by destruct r1 | by destruct r2 | by apply route_segments_free ..].
  destruct r1, r2; cbn [route_segments] in E; try discriminate E; try done; simplify_eq; try done;
    repeat match goal with H : id_text _ = true |- _ => apply id_text_split in H as [_ H] end.
Qed.

(** ** The models keep their word *)

Definition contract_models : list ty :=
  [AccessCheckRequest; AccessCheckResponse; ListingInternalRef; ListingLeadCountOut; ListingActiveCountOut;
   AgentListingCountsRequest; AgentListingCountRow; AgentListingCountsResponse; ListingOwnersRequest; ListingOwnerRow;
   ListingOwnersResponse; ApplyForOwnerRequest; ApplyForOwnerResponse; PortalSyncActivityQuery; PortalSyncActivityRow;
   PortalSyncActivityPage; AgentLeadCountsRequest; AgentLeadCountPair; AgentLeadCountRow; AgentLeadCountsResponse;
   TenantStatusRef; UserDetailRef; PortalAgentRef; PortalAgentResolveRef; PortalAgentUpsertRef; PortalAgentResolveOrCreateRef;
   RuleCondition; RuleNotifications; AssignmentRuleRef; AgentGroupMemberRef; AgentGroupRef].
Lemma contract_models_ok m : m ∈ contract_models -> schema_ok m = true.
Proof.
  assert (Hall : forallb schema_ok contract_models = true) by (vm_compute; reflexivity).
  rewrite forallb_forall in Hall. intros Hm. apply Hall. by apply list_elem_of_In.
Qed.
Lemma model_validate_Ret `{Pydantic} m v v' : model_validate m v = Ret v' <-> validate m v = Some v'.
Proof. unfold model_validate. destruct (validate m v); split; congruence. Qed.
Definition refused `{Pydantic} (m : ty) (v : json) : Prop :=
  exists e, model_validate m v = Exc e /\ isinstance e ValueError = true.
Lemma refused_None `{Pydantic} m v : validate m v = None -> refused m v.
Proof. intros E. unfold refused, model_validate. rewrite E. by eexists. Qed.

(** ** The strict requests, field by field *)

Section Strict.
Context `{PydanticDoc}.

(** No key of [o] but the declared ones *)
Definition only_keys (keys : list string) (o : list (string * json)) : Prop := forall k, k ∈ o.*1 -> k ∈ keys.
(** The key [k] is present and [P] relates its value to the validated one. *)
Definition present (P : json -> json -> Prop) (k : string) (o : list (string * json)) (v : json) : Prop :=
  exists x, dget k o = Some x /\ P x v.
(** The key is absent, and the value is the default, or it is present. *)
Definition present_or (d : json) (P : json -> json -> Prop) (k : string) (o : list (string * json)) (v : json) : Prop :=
  dget k o = None /\ v = d \/ present P k o v.
Definition a_uuid (x v : json) : Prop := validate (TScalar SUuid) x = Some v.
(** A list of [lo] to [hi] UUIDs *)
Definition uuids (lo hi : nat) (x v : json) : Prop :=
  exists l l', x = JList l /\ v = JList l' /\ (lo <= length l <= hi)%nat /\ Forall2 a_uuid l l'.
(** A list of 1 to 50 names, each of 1 to 255 characters between its white space, which is dropped *)
Definition owner_names (x v : json) : Prop :=
  exists names, x = JList (map JStr names) /\ v = JList (map (fun n => JStr (strip n)) names) /\
    (1 <= length names <= 50)%nat /\ forall n, n ∈ names -> (1 <= String.length (strip n) <= 255)%nat.
Definition text_or_null (x v : json) : Prop := v = x /\ (x = JNull \/ exists s, x = JStr s).
Definition status_or_null (x v : json) : Prop := v = x /\ (x = JNull \/
  exists s, x = JStr s /\ s ∈ ["pending"; "syncing"; "synced"; "error"; "disabled"; "action_required"]).
(** What pydantic reads as an integer of [1] to [hi] *)
Definition up_to (hi : Z) (x v : json) : Prop := exists n, validate (TScalar SInt) x = Some (JInt n) /\ 1 <= n <= hi /\ v = JInt n.

Lemma model_iff b fs o v : model_validate (TModel b fs) (JObj o) = Ret v <->
  (b = true -> only_keys fs.*1 o) /\
  exists r, v = JObj r /\ Forall2 (fun f kv => field_value validate o f = Some kv) fs r.
Proof.
  rewrite model_validate_Ret, model_doc.
  assert (Hk : known_keys fs o = true <-> only_keys fs.*1 o).
  { unfold known_keys, only_keys. rewrite forallb_forall. split.
    - intros Hx k ([k' x] & -> & Hin)%list_elem_of_fmap. specialize (Hx (k', x) ltac:(by apply list_elem_of_In)).
      by apply bool_decide_eq_true in Hx.
    - intros Hx kv Hin%list_elem_of_In. apply bool_decide_eq_true, Hx. by apply list_elem_of_fmap_2. }
  destruct (b && negb (known_keys fs o)) eqn:Eb.
  - apply andb_true_iff in Eb as [-> Eb%negb_true_iff]. split; [done |]. intros [Hx _].
    rewrite (proj2 Hk (Hx eq_refl)) in Eb. done.
  - split.
    + destruct (mapM _ fs) as [r|] eqn:E; cbn; [| done]. intros [= <-]. apply mapM_Some in E. split; [| by exists r].
      intros ->. cbn in Eb. apply negb_false_iff in Eb. by apply Hk.
    + intros [_ (r & -> & Hr)]. apply mapM_Some in Hr. by rewrite Hr.
Qed.
Lemma required_iff o k t y (P : json -> json -> Prop) :
  (forall x v, validate t x = Some v <-> P x v) ->
  field_value validate o (req k t) = Some y <-> exists v, present P k o v /\ y = (k, v).
Proof.
  intros HP. unfold field_value, present. cbn. destruct (dget k o) as [x|]; cbn.
  - destruct (validate t x) as [v|] eqn:E; cbn; split.
    + intros [= <-]. exists v. split; [| done]. exists x. by rewrite <- HP.
    + intros (v' & (x' & [= <-] & Hx) & ->). apply HP in Hx. congruence.
    + done.
    + intros (v' & (x' & [= <-] & Hx) & ->). apply HP in Hx. congruence.
  - split; [done |]. by intros (v & (x & E & _) & _).
Qed.
Lemma optional_iff o k t d y (P : json -> json -> Prop) :
  (forall x v, validate t x = Some v <-> P x v) ->
  field_value validate o (opt_default k t d) = Some y <-> exists v, present_or d P k o v /\ y = (k, v).
Proof.
  intros HP. unfold present_or. destruct (dget k o) as [x|] eqn:Ex.
  - assert (field_value validate o (opt_default k t d) = field_value validate o (req k t)) as ->
      by (unfold field_value; cbn; by rewrite Ex).
    rewrite (required_iff o k t y P HP). split; [intros (v & Hv & ->); eauto |].
    intros (v & [[E _] | Hv] & ->); [done | eauto].
  - unfold field_value. cbn. rewrite Ex. cbn. split; [intros [= <-]; eauto |].
    intros (v & [[_ ->] | (x & E & _)] & ->); [done | congruence].
Qed.
Lemma uuids_iff lo hi x v : validate (TList lo (Some hi) Uuid) x = Some v <-> uuids lo hi x v.
Proof.
  rewrite list_doc. unfold uuids, length_ok. split.
  - destruct x as [| | | |l|]; try done. case_match eqn:E; [| done].
    apply andb_true_iff in E as [E1%Nat.leb_le E2%Nat.leb_le].
    destruct (mapM _ l) as [l'|] eqn:Em; cbn; [| done]. intros [= <-]. apply mapM_Some in Em. by exists l, l'.
  - intros (l & l' & -> & -> & [E1%Nat.leb_le E2%Nat.leb_le] & Hl). rewrite E1, E2. cbn.
    apply mapM_Some in Hl. change (TScalar SUuid) with Uuid in Hl. by rewrite Hl.
Qed.
Lemma owner_names_iff x v : validate (TList 1 (Some 50%nat) SheetOwnerName) x = Some v <-> owner_names x v.
Proof.
  rewrite list_doc. unfold owner_names, length_ok, SheetOwnerName. split.
  - destruct x as [| | | |l|]; try done. case_match eqn:E; [| done].
    apply andb_true_iff in E as [E1%Nat.leb_le E2%Nat.leb_le].
    destruct (mapM _ l) as [l'|] eqn:Em; cbn; [| done]. intros [= <-]. apply mapM_Some in Em.
    assert (Hn : exists names, l = map JStr names /\ l' = map (fun n => JStr (strip n)) names /\
      forall n, n ∈ names -> (1 <= String.length (strip n) <= 255)%nat).
    { clear E1 E2. induction Em as [|y y' l l' Hy _ (names & -> & -> & Hn)]; [exists []; by split_and!; [..| intros n ?%elem_of_nil] |].
      rewrite stripped_doc in Hy. destruct y as [| | |n| |]; try done. unfold length_ok in Hy.
      case_match eqn:Ey; [| done]. injection Hy as <-. apply andb_true_iff in Ey as [E1%Nat.leb_le E2%Nat.leb_le].
      exists (n :: names). split_and!; [done | done |]. intros m [-> | Hm]%elem_of_cons; [done | by apply Hn]. }
    destruct Hn as (names & -> & -> & Hn). rewrite length_map in *. by exists names.
  - intros (names & -> & -> & [E1%Nat.leb_le E2%Nat.leb_le] & Hn). rewrite length_map, E1, E2. cbn.
    assert (Em : mapM (validate (TStripped 1 255)) (map JStr names) = Some (map (fun n => JStr (strip n)) names)).
    { apply mapM_Some. clear E1 E2. induction names as [|n names IH]; [constructor |]. cbn. constructor.
      - rewrite stripped_doc. unfold length_ok. destruct (Hn n ltac:(left)) as [L1%Nat.leb_le L2%Nat.leb_le]. by rewrite L1, L2.
      - apply IH. intros m Hm. apply Hn. by right. }
    by rewrite Em.
Qed.
Lemma text_iff x v : validate (TOpt Str) x = Some v <-> text_or_null x v.
Proof.
  rewrite opt_doc. unfold text_or_null. destruct x; rewrite ?scalar_str; split; intros Hx; simplify_eq; eauto;
    destruct Hx as [-> [? | [? ?]]]; try done.
Qed.
Lemma status_iff x v : validate (TOpt TPortalSyncStatus) x = Some v <-> status_or_null x v.
Proof.
  rewrite opt_doc. unfold status_or_null, TPortalSyncStatus. destruct x as [| | |s| |]; rewrite ?enum_doc.
  4: { cbn [map sync_status_value]. case_bool_decide as Hs; split.
       - intros [= <-]. eauto.
       - by intros [-> _].
       - done.
       - intros [_ [? | (s' & [= <-] & Hx)]]; done. }
  all: split; intros Hx; simplify_eq; eauto; destruct Hx as [-> [? | (? & ? & _)]]; done.
Qed.
Lemma up_to_iff hi x v : validate (TRange (Some 1) (Some hi)) x = Some v <-> up_to hi x v.
Proof.
  rewrite range_doc. unfold up_to, in_range. split.
  - destruct (validate Int x) as [[| |n| | |]|] eqn:E; try done. case_match eqn:En; [| done]. intros [= <-].
    apply andb_true_iff in En as [E1%Z.leb_le E2%Z.leb_le]. by exists n.
  - intros (n & E & [E1%Z.leb_le E2%Z.leb_le] & ->). change (TScalar SInt) with Int in E. by rewrite E, E1, E2.
Qed.
End Strict.

(** C27. The contracts between services.  A request to claim a user's listings is accepted exactly if it has the
    two keys [crm_user_id] and [names] and no other, the user is a UUID and the names are a list of 1 to
    50, each of 1 to 255 characters once trimmed; both sides then see the trimmed names.  The batch
    request for owners is accepted exactly with the keys [tenant_id] and [listing_ids], a UUID
    and 1 to 500 UUIDs, and no other.  The query of the sync activity takes no key but its four: a
    portal name, one of six statuses, a limit of 1 to 100 (20 if absent) and an age of 1 to 168
    hours (24 if absent); it survives being sent without its [None]s.  Every other model of the
    contracts ignores keys it does not declare, so that a provider may grow its answers; and what one
    side validated and dumped, the other side accepts as the same value. *)
Theorem contracts_hold `{PydanticDoc} :
  (forall o v, model_validate ApplyForOwnerRequest (JObj o) = Ret v <->
     only_keys ["crm_user_id"; "names"] o /\ exists user names,
       present a_uuid "crm_user_id" o user /\ present owner_names "names" o names /\
       v = JObj [("crm_user_id", user); ("names", names)]) /\
  (forall o v, model_validate ListingOwnersRequest (JObj o) = Ret v <->
     only_keys ["tenant_id"; "listing_ids"] o /\ exists tenant ids,
       present a_uuid "tenant_id" o tenant /\ present (uuids 1 500) "listing_ids" o ids /\
       v = JObj [("tenant_id", tenant); ("listing_ids", ids)]) /\
  (forall o v, model_validate PortalSyncActivityQuery (JObj o) = Ret v <->
     only_keys ["portal_name"; "sync_status"; "limit"; "hours_back"] o /\ exists portal status limit hours,
       present_or JNull text_or_null "portal_name" o portal /\
       present_or JNull status_or_null "sync_status" o status /\
       present_or (JInt 20) (up_to 100) "limit" o limit /\
       present_or (JInt 24) (up_to 168) "hours_back" o hours /\
       v = JObj [("portal_name", portal); ("sync_status", status); ("limit", limit); ("hours_back", hours)]) /\
  (forall v v', model_validate PortalSyncActivityQuery v = Ret v' ->
     model_validate PortalSyncActivityQuery (exclude_none v') = Ret v') /\
  (forall m, m ∈ contract_models ->
     (m = ApplyForOwnerRequest \/ m = ListingOwnersRequest \/ m = PortalSyncActivityQuery \/
      forall o new, (forall k, k ∈ new.*1 -> k ∉ (fields_of m).*1) ->
        model_validate m (JObj (o ++ new)) = model_validate m (JObj o)) /\
     forall v v', model_validate m v = Ret v' -> model_validate m v' = Ret v').
Proof.
  split_and!.
  - intros o v. unfold ApplyForOwnerRequest, strict. rewrite model_iff. split.
    + intros [Hk (r & -> & Hr)]. split; [by apply Hk |]. apply Forall2_cons_inv_l in Hr as (y1 & r1 & H1 & Hr & ->).
      apply Forall2_cons_inv_l in Hr as (y2 & r2 & H2 & Hr & ->). apply Forall2_nil_inv_l in Hr as ->.
      apply (required_iff _ _ _ _ a_uuid) in H1 as (u & Hu & ->); [| done].
      apply (required_iff _ _ _ _ owner_names owner_names_iff) in H2 as (n & Hn & ->). by exists u, n.
    + intros [Hk (u & n & Hu & Hn & ->)]. split; [done |]. eexists. split; [done |].
      constructor; [apply (required_iff _ _ _ _ a_uuid); [done | by exists u] |].
      constructor; [apply (required_iff _ _ _ _ owner_names owner_names_iff); by exists n | constructor].
  - intros o v. unfold ListingOwnersRequest, strict. rewrite model_iff. split.
    + intros [Hk (r & -> & Hr)]. split; [by apply Hk |]. apply Forall2_cons_inv_l in Hr as (y1 & r1 & H1 & Hr & ->).
      apply Forall2_cons_inv_l in Hr as (y2 & r2 & H2 & Hr & ->). apply Forall2_nil_inv_l in Hr as ->.
      apply (required_iff _ _ _ _ a_uuid) in H1 as (u & Hu & ->); [| done].
      apply (required_iff _ _ _ _ _ (uuids_iff 1 500)) in H2 as (n & Hn & ->). by exists u, n.
    + intros [Hk (u & n & Hu & Hn & ->)]. split; [done |]. eexists. split; [done |].
      constructor; [apply (required_iff _ _ _ _ a_uuid); [done | by exists u] |].
      constructor; [apply (required_iff _ _ _ _ _ (uuids_iff 1 500)); by exists n | constructor].
  - intros o v. unfold PortalSyncActivityQuery, strict. rewrite model_iff. split.
    + intros [Hk (r & -> & Hr)]. split; [by apply Hk |]. apply Forall2_cons_inv_l in Hr as (y1 & r1 & H1 & Hr & ->).
      apply Forall2_cons_inv_l in Hr as (y2 & r2 & H2 & Hr & ->). apply Forall2_cons_inv_l in Hr as (y3 & r3 & H3 & Hr & ->).
      apply Forall2_cons_inv_l in Hr as (y4 & r4 & H4 & Hr & ->). apply Forall2_nil_inv_l in Hr as ->.
      apply (optional_iff _ _ _ _ _ _ text_iff) in H1 as (a & Ha & ->).
      apply (optional_iff _ _ _ _ _ _ status_iff) in H2 as (b & Hb & ->).
      apply (optional_iff _ _ _ _ _ _ (up_to_iff 100)) in H3 as (c & Hc & ->).
      apply (optional_iff _ _ _ _ _ _ (up_to_iff 168)) in H4 as (d & Hd & ->). by exists a, b, c, d.
    + intros [Hk (a & b & c & d & Ha & Hb & Hc & Hd & ->)]. split; [done |]. eexists. split; [done |].
      constructor; [apply (optional_iff _ _ _ _ _ _ text_iff); by exists a |].
      constructor; [apply (optional_iff _ _ _ _ _ _ status_iff); by exists b |].
      constructor; [apply (optional_iff _ _ _ _ _ _ (up_to_iff 100)); by exists c |].
      constructor; [apply (optional_iff _ _ _ _ _ _ (up_to_iff 168)); by exists d | constructor].
  - intros v v'. rewrite !model_validate_Ret. apply exclude_none_stable; [reflexivity |].
    intros f Hf. rewrite !elem_of_cons in Hf. destruct Hf as [-> | [-> | [-> | [-> | Hf]]]]; [..| by apply elem_of_nil in Hf].
    + by left.
    + by left.
    + right. intros x. cbn. rewrite range_doc. by repeat case_match.
    + right. intros x. cbn. rewrite range_doc. by repeat case_match.
  - intros m Hm. split.
    + assert (Htol : forall fs, m = TModel false fs -> forall o new, (forall k, k ∈ new.*1 -> k ∉ (fields_of m).*1) ->
          model_validate m (JObj (o ++ new)) = model_validate m (JObj o)).
      { intros fs -> o new Hn. unfold model_validate. by rewrite extra_keys_ignored. }
      unfold contract_models in Hm. rewrite !elem_of_cons in Hm.
      repeat match goal with
      | Hm : _ \/ _ |- _ => destruct Hm as [Hm | Hm];
          [first [by left | by right; left | by right; right; left | right; right; right; by apply (Htol _ Hm)] |]
      end. by apply elem_of_nil in Hm.
    + intros v v'. rewrite !model_validate_Ret. by apply validate_stable, contract_models_ok.
Qed.

(** ** Witnesses *)

Definition demo_id : string := "00000000-0000-0000-0000-000000000001".
Lemma glossary_is_current_witness : "urgent" ∉ live_members "tr_shared.contracts.enums.Priority".
Proof.
  apply (glossary_is_current "priority" (mkTerm "Priority" "tr_shared.contracts.enums.Priority" [("urgent", "critical")])
    "urgent" "critical"); [by apply (bool_decide_eq_true_1 (_ ∈ GLOSSARY)) || (unfold GLOSSARY; set_solver) | cbn; set_solver].
Defined.
Lemma routes_do_not_collide_witness :
  route_path (LeadAccess demo_id) = "/api/v1/internal/leads/00000000-0000-0000-0000-000000000001/access-check" /\
  forall a, id_text a = true -> route_path (ByAgentLeads a) = route_path (LeadAccess demo_id) -> ByAgentLeads a = LeadAccess demo_id.
Proof. split; [reflexivity |]. intros a Ha. by apply routes_do_not_collide. Defined.
Lemma contracts_hold_witness :
  model_validate PortalSyncActivityQuery (JObj [("sync_status", JStr "error"); ("limit", JInt 5); ("hours_back", JInt 24)]) =
    Ret (JObj [("portal_name", JNull); ("sync_status", JStr "error"); ("limit", JInt 5); ("hours_back", JInt 24)]) /\
  model_validate ApplyForOwnerRequest (JObj [("crm_user_id", JStr demo_id); ("names", JList [JStr " M. Haider Ali "])]) =
    Ret (JObj [("crm_user_id", JStr demo_id); ("names", JList [JStr "M. Haider Ali"])]).
Proof.
  destruct (@contracts_hold ref_pydantic ref_pydantic_doc) as (Happly & _ & _ & Hquery & _). split.
  - exact (Hquery (JObj [("limit", JInt 5); ("sync_status", JStr "error")]) _ eq_refl).
  - apply Happly. split.
    + intros k Hk. exact Hk.
    + exists (JStr demo_id), (JList [JStr "M. Haider Ali"]). split; [| split; [| reflexivity]].
      * exists (JStr demo_id). split; reflexivity.
      * exists (JList [JStr " M. Haider Ali "]). split; [reflexivity |]. exists [" M. Haider Ali "].
        split; [reflexivity |]. split; [reflexivity |]. split; [cbn; lia |].
        intros n Hn. apply list_elem_of_singleton in Hn as ->. vm_compute. lia.
Defined.
