(* ===== verification/Payloads.v ===== *)
(** * Event types and payloads

    Models src/tr_shared/events/event_types.py and events/payloads/: the registry of event
    types, a class per feature, and the declared payload of each event, in the language of
    Schemas.  The digits of [user_number] are ASCII ones. *)

From S2P Require Import Prelude Json Errors Text Schemas Redis Streams Events Consumer Platform Contracts.
From Stdlib Require Import Ascii.
Local Open Scope Z_scope.

(** ** event_types.py: the constants of each class *)

Definition LeadEvents : list (string * string) :=
  [("CREATED", "lead.created"); ("UPDATED", "lead.updated"); ("ASSIGNED", "lead.assigned"); ("REASSIGNED", "lead.reassigned");
   ("REASSIGN_ESCALATED", "lead.reassigned.escalated"); ("SOURCE_CHANGED", "lead.source_changed");
   ("PRIORITY_CHANGED", "lead.priority_changed"); ("OWNER_CHANGED", "lead.owner_changed");
   ("CONTACT_ATTEMPTED", "lead.contact_attempted"); ("CONTACTED", "lead.contacted"); ("QUALIFIED", "lead.qualified");
   ("DISQUALIFIED", "lead.disqualified"); ("CONVERTED", "lead.converted"); ("LOST", "lead.lost"); ("WON", "lead.won");
   ("ARCHIVED", "lead.archived"); ("UNARCHIVED", "lead.unarchived"); ("NOTE_ADDED", "lead.note_added");
   ("REMINDER_SET", "lead.reminder_set"); ("REMINDER_DUE", "lead.reminder_due"); ("ROLLBACK", "lead.rollback");
   ("FOLLOWUP_DUE", "lead.followup_due")].
Definition DealEvents : list (string * string) :=
  [("CREATED", "deal.created"); ("WON", "deal.won"); ("LOST", "deal.lost"); ("STAGE_CHANGED", "deal.stage_changed");
   ("AMOUNT_CHANGED", "deal.amount_changed"); ("COMPLETED", "deal.completed"); ("CANCELLED", "deal.cancelled");
   ("ROLLED_BACK", "deal.rolled_back")].
Definition ListingEvents : list (string * string) :=
  [("CREATED", "listing.created"); ("UPDATED", "listing.updated"); ("PUBLISHED", "listing.published");
   ("UNPUBLISHED", "listing.unpublished"); ("ARCHIVED", "listing.archived"); ("VERIFIED", "listing.verified");
   ("REJECTED", "listing.rejected"); ("RESUBMITTED", "listing.resubmitted");
   ("DOCUMENT_SUBMITTED", "listing.document_submitted"); ("PUBLISH_REQUESTED", "listing.publish_requested");
   ("PRICE_CHANGED", "listing.price_changed"); ("OWNER_CHANGED", "listing.owner_changed"); ("REFRESHED", "listing.refreshed");
   ("PERMIT_EXPIRED", "listing.permit_expired"); ("PERMIT_EXPIRING", "listing.permit_expiring");
   ("PORTAL_SYNC_FAILED", "listing.portal_sync_failed")].
Definition CMSEvents : list (string * string) :=
  [("BLOG_CREATED", "cms.blog.created"); ("BLOG_UPDATED", "cms.blog.updated"); ("BLOG_PUBLISHED", "cms.blog.published");
   ("BLOG_UNPUBLISHED", "cms.blog.unpublished"); ("BLOG_DELETED", "cms.blog.deleted"); ("PAGE_CREATED", "cms.page.created");
   ("PAGE_UPDATED", "cms.page.updated"); ("PAGE_PUBLISHED", "cms.page.published"); ("PAGE_DELETED", "cms.page.deleted");
   ("PAGE_UNPUBLISHED", "cms.page.unpublished"); ("PAGE_REVIEW_REQUESTED", "cms.page.review_requested");
   ("PAGE_APPROVED", "cms.page.approved"); ("PAGE_REJECTED", "cms.page.rejected");
   ("LANDING_PAGE_PUBLISHED", "cms.landing_page.published")].
Definition ActivityEvents : list (string * string) :=
  [("COMMENT_ADDED", "activity.comment.added"); ("COMMENT_EDITED", "activity.comment.edited");
   ("COMMENT_DELETED", "activity.comment.deleted"); ("LOG_CREATED", "activity.log.created");
   ("MENTION_CREATED", "activity.mention.created"); ("LOGGED", "activity.logged")].
Definition AdminEvents : list (string * string) :=
  [("USER_CREATED", "admin.user.created"); ("USER_UPDATED", "admin.user.updated"); ("ROLE_ASSIGNED", "admin.role.assigned");
   ("INTEGRATION_PLATFORM_CREATED", "admin.integration.platform.created");
   ("PORTAL_AGENT_PROMOTED", "admin.portal_agent.promoted");
   ("INTEGRATION_PLATFORM_UPDATED", "admin.integration.platform.updated");
   ("INTEGRATION_PLATFORM_DELETED", "admin.integration.platform.deleted");
   ("MODULE_CONFIGURATION_UPDATED", "admin.module.configuration.updated");
   ("ASSIGNMENT_RULE_CREATED", "admin.assignment_rule.created"); ("ASSIGNMENT_RULE_UPDATED", "admin.assignment_rule.updated");
   ("ASSIGNMENT_RULE_DELETED", "admin.assignment_rule.deleted"); ("AGENT_GROUP_CREATED", "admin.agent_group.created");
   ("AGENT_GROUP_UPDATED", "admin.agent_group.updated"); ("AGENT_GROUP_DELETED", "admin.agent_group.deleted");
   ("LEAD_SOURCE_CREATED", "admin.lead_source.created"); ("LEAD_SOURCE_UPDATED", "admin.lead_source.updated");
   ("LEAD_SOURCE_DELETED", "admin.lead_source.deleted"); ("TENANT_SITE_CREATED", "admin.tenant_site.created");
   ("TENANT_SITE_UPDATED", "admin.tenant_site.updated"); ("TENANT_SITE_DELETED", "admin.tenant_site.deleted")].
Definition MediaEvents : list (string * string) :=
  [("UPLOADED", "media.uploaded"); ("OCR_COMPLETED", "media.ocr_completed"); ("DELETED", "media.deleted")].
Definition HREvents : list (string * string) :=
  [("EMPLOYEE_CREATED", "hr.employee.created"); ("EMPLOYEE_UPDATED", "hr.employee.updated");
   ("EMPLOYEE_SYNC_COMPLETED", "hr.employee.sync_completed"); ("SYNC_FAILED", "hr.sync.failed");
   ("ATTENDANCE_SYNCED", "hr.attendance.synced"); ("ATTENDANCE_SYNC_FAILED", "hr.attendance.sync_failed");
   ("ATTENDANCE_EXCEPTION_CREATED", "hr.attendance.exception.created");
   ("ATTENDANCE_EXCEPTION_RESOLVED", "hr.attendance.exception.resolved");
   ("ATTENDANCE_MANUAL_ENTRY_CREATED", "hr.attendance.manual_entry.created");
   ("ATTENDANCE_MANUAL_ENTRY_APPROVED", "hr.attendance.manual_entry.approved");
   ("ATTENDANCE_MANUAL_ENTRY_REJECTED", "hr.attendance.manual_entry.rejected");
   ("ATTENDANCE_RECORD_CORRECTED", "hr.attendance.record.corrected"); ("PAYROLL_CALCULATED", "hr.payroll.calculated");
   ("PAYROLL_APPROVED", "hr.payroll.approved"); ("PAYROLL_REJECTED", "hr.payroll.rejected");
   ("JOB_POSTING_PUBLISHED", "hr.job_posting.published"); ("JOB_POSTING_CLOSED", "hr.job_posting.closed");
   ("JOB_POSTING_ARCHIVED", "hr.job_posting.archived"); ("OFFER_SENT", "hr.offer.sent"); ("OFFER_ACCEPTED", "hr.offer.accepted");
   ("APPLICATION_SUBMITTED", "hr.application.submitted"); ("APPLICATION_STAGE_CHANGED", "hr.application.stage_changed");
   ("APPLICATION_HIRED", "hr.application.hired"); ("APPLICATION_REJECTED", "hr.application.rejected")].
Definition LMSEvents : list (string * string) :=
  [("COURSE_COMPLETED", "lms.course.completed"); ("CERTIFICATE_ISSUED", "lms.certificate.issued");
   ("QUIZ_GENERATED", "lms.quiz.generated"); ("QUIZ_ASSIGNED", "lms.quiz.assigned"); ("QUIZ_EXPIRED", "lms.quiz.expired")].
Definition FinanceEvents : list (string * string) :=
  [("EXPENSE_CREATED", "finance.expense.created"); ("EXPENSE_SUBMITTED", "finance.expense.submitted");
   ("EXPENSE_APPROVED", "finance.expense.approved"); ("EXPENSE_REJECTED", "finance.expense.rejected");
   ("EXPENSE_PAID", "finance.expense.paid"); ("EXPENSE_REIMBURSED", "finance.expense.reimbursed");
   ("EXPENSE_APPROVAL_REMINDER", "finance.expense.approval_reminder"); ("INVOICE_CREATED", "finance.invoice.created");
   ("INVOICE_SENT", "finance.invoice.sent"); ("INVOICE_PAYMENT_RECORDED", "finance.invoice.payment_recorded");
   ("INVOICE_PAID", "finance.invoice.paid"); ("CARD_TRANSACTION_IMPORTED", "finance.card_transaction.imported");
   ("CARD_TRANSACTION_MATCHED", "finance.card_transaction.matched"); ("COMMISSION_PAID", "finance.commission.paid")].
Definition TaskEvents : list (string * string) :=
  [("CREATED", "task.created"); ("ASSIGNED", "task.assigned"); ("CO_ASSIGNED", "task.co_assigned");
   ("STATUS_CHANGED", "task.status_changed"); ("DUE_SOON", "task.due_soon"); ("WATCHER_ADDED", "task.watcher_added")].
Definition NotificationEvents : list (string * string) :=
  [("LEAD_OVERDUE_REQUESTED", "notification.lead.overdue_requested"); ("SENT", "notification.sent")].
Definition WAMEvents : list (string * string) := [("LEAD_QUALIFIED", "wam.lead.qualified")].

(** The classes and the features they belong to *)
Definition event_classes : list (Feature * list (string * string)) :=
  [(F_LEAD, LeadEvents); (F_DEAL, DealEvents); (F_LISTING, ListingEvents); (F_CMS, CMSEvents); (F_ACTIVITY, ActivityEvents);
   (F_ADMIN, AdminEvents); (F_MEDIA, MediaEvents); (F_HR, HREvents); (F_LMS, LMSEvents); (F_FINANCE, FinanceEvents);
   (F_TASK, TaskEvents); (F_NOTIFICATION, NotificationEvents); (F_WAM, WAMEvents)].
Definition registered : list (Feature * string) :=
  flat_map (fun fc => map (fun nv => (fc.1, nv.2)) fc.2) event_classes.

(** ** payloads/_base.py *)

(** [extra="forbid"] *)
Definition EventPayload : ty := TModel true [].
Definition Float := TScalar SFloat.
Definition Strs := listed Str.

(** ** payloads/activity.py, admin.py, auth.py *)

Definition TEntityType := TEnum (map entity_value entity_types).
Definition TCommentAction := TEnum CommentAction.
Definition comment_keys : list field :=
  [req "entity_type" Str; req "entity_id" Str; req "action" TCommentAction; req "comment_id" Str;
   req "parent_entity_type" Str; req "parent_entity_id" Str].
Definition ActivityCommentAddedV1 := subclass EventPayload
  (comment_keys ++ [req "mentioned_user_ids" Strs; req "mentions" Strs]).
Definition ActivityCommentEditedV1 := subclass ActivityCommentAddedV1 [req "newly_mentioned_user_ids" Strs].
Definition ActivityCommentDeletedV1 := subclass EventPayload comment_keys.
Definition ActivityLogCreatedV1 := subclass EventPayload
  [req "recipient_id" Str; req "log_id" Str; req "entity_type" Str; req "entity_id" Str; req "event_type" Str;
   req "description" Str; opt "actor_name" Str].

Definition AdminLeadSourceCreatedV1 := subclass EventPayload [req "lead_source_id" Str; req "source_name" Str].
Definition AdminLeadSourceUpdatedV1 := subclass EventPayload [req "lead_source_id" Str; req "source_name" Str].
Definition AdminLeadSourceDeletedV1 := subclass EventPayload [req "lead_source_id" Str].
Definition AdminAssignmentRuleCreatedV1 := subclass EventPayload [req "rule_id" Str; req "rule_name" Str].
Definition AdminAssignmentRuleUpdatedV1 := subclass EventPayload [req "rule_id" Str; req "rule_name" Str].
Definition AdminAssignmentRuleDeletedV1 := subclass EventPayload [req "rule_id" Str].
Definition AdminAgentGroupCreatedV1 := subclass EventPayload [req "group_id" Str; req "group_name" Str].
Definition AdminAgentGroupUpdatedV1 := subclass EventPayload [req "group_id" Str; req "group_name" Str].
Definition AdminAgentGroupDeletedV1 := subclass EventPayload [req "group_id" Str].
Definition AdminModuleConfigurationUpdatedV1 := subclass EventPayload [req "module_count" Int].
Definition AdminTenantSiteCreatedV1 := subclass EventPayload [req "site_id" Str; req "key_hash" Str].
Definition AdminTenantSiteUpdatedV1 := subclass EventPayload
  [req "site_id" Str; req "key_hash" Str; opt "previous_key_hash" Str].
Definition AdminTenantSiteDeletedV1 := subclass EventPayload [req "site_id" Str; req "key_hash" Str].
(** The pattern [^1\.\d+$]; no code point below 256 is in [\d] but the ten ASCII digits. *)
Definition version_1 (s : string) : bool :=
  startswith s "1." && (nonempty (after_first "."%char s) && all_chars is_decimal (after_first "."%char s)).
Definition IntegrationPlatformEventV1 := subclass EventPayload
  [opt_default "schema_version" (TMatch version_1) (JStr "1.0"); req "platform_id" Str; req "platform_name" Str;
   req "tenant_id" Str; opt "webhook_token" Str].

Definition AdminUserCreatedV1 := subclass EventPayload
  [req "entity_type" TEntityType; req "entity_id" Str; req "user_id" Str; req "user_name" Str; req "role_names" Strs;
   req "recipient_id" Str; opt "actor_name" Str].
Definition AdminUserUpdatedV1 := subclass EventPayload
  [req "entity_type" TEntityType; req "entity_id" Str; req "user_id" Str; req "user_name" Str; req "changes" Dict;
   req "recipient_id" Str; opt "actor_name" Str].
Definition AdminRoleAssignedV1 := subclass EventPayload
  [req "user_id" Str; req "user_name" Str; req "role_id" Str; req "role_name" Str; req "assigned_by" Str;
   req "recipient_id" Str].
Definition PortalAgentIdentityV1 := subclass EventPayload [req "portal" Str; req "external_id" Str].
Definition AdminPortalAgentPromotedV1 := subclass EventPayload
  [req "crm_user_id" Str; req "agents" (listed PortalAgentIdentityV1)].

(** ** payloads/cms.py *)

Definition CMSLifecycleAction :=
  ["created"; "updated"; "deleted"; "published"; "unpublished"; "review_requested"; "approved"; "rejected"; "archived"].
Definition CMSPageEventV1 := subclass EventPayload
  [req "entity_type" TEntityType; req "entity_id" Str; req "page_id" Str; req "page_title" Str; req "page_slug" Str;
   req "action" (TEnum CMSLifecycleAction); opt "actor_id" Str; opt "actor_name" Str; opt "recipient_id" Str;
   opt "status" Str].
Definition CMSPageUpdatedV1 := subclass CMSPageEventV1 [opt "changes" Dict].
Definition CMSPagePublishedV1 := subclass CMSPageEventV1 [opt "page_url" Str].
Definition CMSPageReviewRequestedV1 := subclass CMSPageEventV1 [opt "requested_by" Str].
Definition CMSPageApprovedV1 := subclass CMSPageEventV1 [opt "page_url" Str; opt "review_notes" Str].
Definition CMSPageRejectedV1 := subclass CMSPageEventV1 [opt "review_notes" Str].
Definition CMSBlogEventV1 := subclass EventPayload
  [req "entity_type" TEntityType; req "entity_id" Str; req "blog_id" Str; req "blog_title" Str; opt "blog_slug" Str;
   req "action" (TEnum CMSLifecycleAction); opt "actor_id" Str; opt "actor_name" Str; opt "recipient_id" Str;
   opt "status" Str].
Definition CMSBlogUpdatedV1 := subclass CMSBlogEventV1 [opt "changes" Dict].
Definition CMSLandingPageMediaV1 := subclass EventPayload [req "media_id" Str; req "media_url" Str; opt "category" Str].
Definition CMSLandingPageContextV1 := subclass EventPayload
  [req "developer_name" Str; opt "about_project_summary" Str; req "project_type" Str; opt "project_status" Str;
   opt_default "property_types" Strs (JList []); opt "starting_price" Float; opt "starting_price_currency" Str;
   opt "handover_date" Str; opt "area_name" Str; opt "community_name" Str; opt_default "amenities" Strs (JList []);
   opt_default "media" (listed CMSLandingPageMediaV1) (JList [])].
Definition CMSLandingPagePublishedV1 := subclass EventPayload
  [opt "project_id" Str; req "project_title" Str; req "landing_page_context" CMSLandingPageContextV1].

(** ** payloads/finance.py *)

Definition FinanceExpenseEventV1 := subclass EventPayload
  [req "entity_type" Str; req "entity_id" Str; req "expense_id" Str; req "title" Str; req "amount" Str; req "currency" Str;
   req "base_amount" Str; req "status" Str; req "payment_type" Str; opt "category_id" Str; opt "description" Str;
   opt "expense_date" Str; opt "submitted_by" Str; opt "submitted_at" Str; opt "notification_recipient_id" Str].
Definition FinanceExpenseRejectedV1 := subclass FinanceExpenseEventV1 [req "rejection_comment" Str].
Definition FinanceInvoiceEventV1 := subclass EventPayload
  [req "entity_type" Str; req "entity_id" Str; req "invoice_number" Str; req "status" Str; req "total_amount" Str;
   opt "invoice_type" Str; opt "party_name" Str; opt "payment_amount" Str; opt "payment_method" Str;
   opt "notification_recipient_id" Str].
Definition FinanceCardTransactionImportedV1 := subclass EventPayload
  [req "entity_type" Str; req "entity_id" Str; req "total_submitted" Int; req "created" Int; req "skipped_duplicates" Int;
   req "auto_matched" Int; req "requires_manual_review" Int; req "match_error_count" Int;
   opt_default "match_errors" (listed Dict) (JList []); opt_default "created_transaction_ids" Strs (JList []);
   opt "notification_recipient_id" Str].
Definition FinanceCardTransactionMatchedV1 := subclass EventPayload
  [req "entity_type" Str; req "entity_id" Str; opt "merchant_name" Str; req "amount" Str; req "currency" Str;
   opt "transaction_date" Str; opt "external_reference" Str; req "matched_expense_id" Str; req "match_type" Str;
   opt "notification_recipient_id" Str].

(** ** payloads/hr.py *)

Definition HREventV1 := subclass EventPayload
  [req "entity_id" Str; req "entity_type" Str; req "action" Str; req "notification_event" Str].
Definition HRManualEntryCreatedV1 := subclass HREventV1
  [req "manual_entry_id" Str; req "employee_id" Str; opt "attendance_id" Str].
Definition HRAttendanceCorrectionV1 := subclass HREventV1
  [req "manual_entry_id" Str; req "attendance_id" Str; req "employee_id" Str].
Definition HRSyncFailedV1 := subclass HREventV1 [req "sync_type" Str; req "error" Str; opt "task_id" Str].
Definition HRJobPostingPublishedV1 := subclass HREventV1 [req "job_id" Str; req "title" Str; req "slug" Str; opt "share_url" Str].
Definition HRJobPostingClosedV1 := subclass HREventV1 [req "job_id" Str; req "title" Str].
Definition HRApplicationSubmittedV1 := subclass HREventV1 [req "application_id" Str; req "job_id" Str].
Definition HRApplicationStageChangedV1 := subclass HREventV1
  [req "application_id" Str; req "job_id" Str; req "new_stage" Str; opt "old_stage" Str].

(** ** payloads/lead.py *)

Definition LeadEventV1 := subclass EventPayload
  [req "entity_type" Str; req "entity_id" Str; req "lead_id" Str; opt "lead_name" Str].
Definition LeadCreatedV1 := subclass LeadEventV1
  [opt "hashed_phone" Str; opt "hashed_email" Str; opt "source" Str; opt "listing_reference" Str; opt "tenant_id" Str;
   opt "lead_type" Str; opt "stage" Str; opt "lead_score" Int; opt "lead_quality_tier" Str; opt "assigned_to" Str;
   opt "recipient_id" Str; opt "created_by" Str; opt "actor_id" Str].
Definition LeadAssignedV1 := subclass LeadEventV1
  [req "assigned_to" Str; opt "assigned_by" Str; opt "hashed_phone" Str; opt "listing_reference" Str;
   opt "assignment_reason" Str].
Definition LeadQualifiedV1 := subclass LeadEventV1 [opt "qualification_score" Int; opt "assigned_to" Str].
Definition LeadFollowupDueV1 := subclass LeadEventV1 [opt "followup_date" Str; opt "assigned_to" Str].

(** ** payloads/listing.py *)

Definition ListingPermitEventV1 := subclass EventPayload
  [req "entity_id" Str; req "entity_type" Str; req "listing_id" Str; req "permit_number" Str; opt "permit_type" Str;
   req "expires_at" Str; req "days_until_expiry" Int; opt "notification_recipient_id" Str].
Definition ListingPortalSyncFailedV1 := subclass EventPayload
  [req "entity_id" Str; req "entity_type" Str; req "listing_id" Str; opt "listing_title" Str; req "portal_name" Str;
   opt "error_message" Str; opt "notification_recipient_id" Str].
Definition ListingAuditEventV1 := subclass EventPayload
  [req "entity_id" Str; req "entity_type" Str; req "action" Str; opt "new_status" Str; opt "old_status" Str;
   opt "new_verification_state" Str; opt "old_verification_state" Str; opt "changes" Dict;
   opt "notification_recipient_id" Str].

(** ** payloads/lms.py, notification.py, task.py *)

Definition LMSQuizGeneratedV1 := subclass EventPayload
  [req "recipient_id" Str; req "entity_type" Str; req "entity_id" Str; req "quiz_title" Str; req "questions_count" Int;
   req "review_url" Str].
Definition LMSQuizAssignedV1 := subclass EventPayload
  [req "recipient_id" Str; req "entity_type" Str; req "entity_id" Str; req "quiz_id" Str; req "quiz_title" Str;
   opt "expires_at" Str; req "questions_count" Int].
Definition LMSQuizExpiredV1 := subclass EventPayload
  [req "recipient_id" Str; req "entity_type" Str; req "entity_id" Str; req "quiz_id" Str; req "quiz_title" Str;
   opt "expired_at" Str; req "audit" Bool].
Definition NotificationSentV1 := subclass EventPayload
  [req "notification_id" Str; req "recipient_id" Str; req "module" Str; req "event" Str; req "channels" Strs;
   req "priority" Str].
Definition NotificationLeadOverdueRequestedV1 := subclass EventPayload
  [opt "notification_id" Str; req "lead_id" Str; req "entity_type" Str].
Definition TaskEventV1 := subclass EventPayload
  [req "task_id" Str; req "title" Str; req "status" Str; req "priority" Str; opt "entity_type" Str; opt "entity_id" Str;
   opt "assigned_to" Str; req "action" Str].
Definition TaskCreatedV1 := subclass TaskEventV1 [].
Definition TaskAssignedV1 := subclass TaskEventV1 [].
Definition TaskDueSoonV1 := subclass TaskEventV1 [].
Definition TaskStatusChangedV1 := subclass TaskEventV1 [req "prev_status" Str; req "new_status" Str].
Definition TaskWatcherAddedV1 := subclass TaskEventV1 [req "watcher_user_id" Str].
Definition TaskCoAssignedV1 := subclass TaskEventV1 [req "co_assignee_user_id" Str].

(** ** payloads/wam.py *)

Definition WAMQualificationResultV1 := subclass EventPayload
  [opt "buyer_type" Str; opt "individual_or_corp" Str; opt "funds_location" Str; opt "bank_account_status" Str;
   opt "financing_method" Str; opt "pre_approval_status" Str; opt "financial_readiness" Str; opt "purpose" Str;
   opt "comparing_markets" Str; opt "timeline" Str; opt "legal_readiness" Str; opt "property_type_pref" Str;
   opt "budget" Str; opt "location" Str; opt "qualification_status" Str; opt "next_step" Str].
Definition tiers := ["hot"; "warm"; "cold"; "low_priority"].
(** [str.isdigit] on the code points below 256, the alphabet of the model's strings: the ASCII digits
    and the superscripts two, three and one; it is false of the empty string. *)
Definition digit_char (c : ascii) : bool :=
  is_decimal c || bool_decide (nat_of_ascii c ∈ [178; 179; 185]%nat).
Definition isdigit (s : string) : bool := nonempty s && all_chars digit_char s.
(** The validator of [user_number] *)
Definition _digits_only (v : string) : bool := negb (negb (nonempty v) || negb (isdigit v)).
Definition WAMLeadQualifiedV1 := subclass EventPayload
  [req "user_number" (TMatch _digits_only); req "lead_score" (TRange (Some 0) None); req "tier" (TEnum tiers);
   opt "buyer_type" Str; opt "budget" Str; opt "location" Str; opt "booking_uid" Str; opt "persona" Str;
   opt "crm_agent_id" Str; opt "qualification_result" WAMQualificationResultV1].

(** payloads/__init__.py: [__all__] but for the base *)
Definition payload_models : list (string * ty) :=
  [("ActivityCommentAddedV1", ActivityCommentAddedV1); ("ActivityCommentDeletedV1", ActivityCommentDeletedV1);
   ("ActivityCommentEditedV1", ActivityCommentEditedV1); ("ActivityLogCreatedV1", ActivityLogCreatedV1);
   ("AdminAgentGroupCreatedV1", AdminAgentGroupCreatedV1); ("AdminAgentGroupDeletedV1", AdminAgentGroupDeletedV1);
   ("AdminAgentGroupUpdatedV1", AdminAgentGroupUpdatedV1); ("AdminAssignmentRuleCreatedV1",
   AdminAssignmentRuleCreatedV1); ("AdminAssignmentRuleDeletedV1", AdminAssignmentRuleDeletedV1);
   ("AdminAssignmentRuleUpdatedV1", AdminAssignmentRuleUpdatedV1); ("AdminLeadSourceCreatedV1",
   AdminLeadSourceCreatedV1); ("AdminLeadSourceDeletedV1", AdminLeadSourceDeletedV1); ("AdminLeadSourceUpdatedV1",
   AdminLeadSourceUpdatedV1); ("AdminModuleConfigurationUpdatedV1", AdminModuleConfigurationUpdatedV1);
   ("AdminTenantSiteCreatedV1", AdminTenantSiteCreatedV1); ("AdminTenantSiteDeletedV1", AdminTenantSiteDeletedV1);
   ("AdminTenantSiteUpdatedV1", AdminTenantSiteUpdatedV1); ("IntegrationPlatformEventV1",
   IntegrationPlatformEventV1); ("AdminPortalAgentPromotedV1", AdminPortalAgentPromotedV1); ("AdminRoleAssignedV1",
   AdminRoleAssignedV1); ("AdminUserCreatedV1", AdminUserCreatedV1); ("PortalAgentIdentityV1",
   PortalAgentIdentityV1); ("AdminUserUpdatedV1", AdminUserUpdatedV1); ("CMSBlogEventV1", CMSBlogEventV1);
   ("CMSBlogUpdatedV1", CMSBlogUpdatedV1); ("CMSLandingPageContextV1", CMSLandingPageContextV1);
   ("CMSLandingPageMediaV1", CMSLandingPageMediaV1); ("CMSLandingPagePublishedV1", CMSLandingPagePublishedV1);
   ("CMSPageApprovedV1", CMSPageApprovedV1); ("CMSPageEventV1", CMSPageEventV1); ("CMSPagePublishedV1",
   CMSPagePublishedV1); ("CMSPageRejectedV1", CMSPageRejectedV1); ("CMSPageReviewRequestedV1",
   CMSPageReviewRequestedV1); ("CMSPageUpdatedV1", CMSPageUpdatedV1); ("FinanceCardTransactionImportedV1",
   FinanceCardTransactionImportedV1); ("FinanceCardTransactionMatchedV1", FinanceCardTransactionMatchedV1);
   ("FinanceExpenseEventV1", FinanceExpenseEventV1); ("FinanceExpenseRejectedV1", FinanceExpenseRejectedV1);
   ("FinanceInvoiceEventV1", FinanceInvoiceEventV1); ("HRApplicationStageChangedV1", HRApplicationStageChangedV1);
   ("HRApplicationSubmittedV1", HRApplicationSubmittedV1); ("HRAttendanceCorrectionV1", HRAttendanceCorrectionV1);
   ("HREventV1", HREventV1); ("HRJobPostingClosedV1", HRJobPostingClosedV1); ("HRJobPostingPublishedV1",
   HRJobPostingPublishedV1); ("HRManualEntryCreatedV1", HRManualEntryCreatedV1); ("HRSyncFailedV1",
   HRSyncFailedV1); ("LeadAssignedV1", LeadAssignedV1); ("LeadCreatedV1", LeadCreatedV1); ("LeadEventV1",
   LeadEventV1); ("LeadFollowupDueV1", LeadFollowupDueV1); ("LeadQualifiedV1", LeadQualifiedV1);
   ("ListingAuditEventV1", ListingAuditEventV1); ("ListingPermitEventV1", ListingPermitEventV1);
   ("ListingPortalSyncFailedV1", ListingPortalSyncFailedV1); ("LMSQuizAssignedV1", LMSQuizAssignedV1);
   ("LMSQuizExpiredV1", LMSQuizExpiredV1); ("LMSQuizGeneratedV1", LMSQuizGeneratedV1);
   ("NotificationLeadOverdueRequestedV1", NotificationLeadOverdueRequestedV1); ("NotificationSentV1",
   NotificationSentV1); ("TaskAssignedV1", TaskAssignedV1); ("TaskCoAssignedV1", TaskCoAssignedV1);
   ("TaskCreatedV1", TaskCreatedV1); ("TaskDueSoonV1", TaskDueSoonV1); ("TaskEventV1", TaskEventV1);
   ("TaskStatusChangedV1", TaskStatusChangedV1); ("TaskWatcherAddedV1", TaskWatcherAddedV1); ("WAMLeadQualifiedV1",
   WAMLeadQualifiedV1); ("WAMQualificationResultV1", WAMQualificationResultV1)].

(** ** Routing by feature

    A consumer that registers handlers for event types and for "<feature>.*". *)

Definition feature_pattern (f : Feature) : string := feature_value f +:+ ".*".
Definition routing_key (k : string) : Prop := (exists f, k = feature_pattern f) \/ k ∈ registered.*2.

Lemma registered_cases (P : Feature * string -> bool) fe : forallb P registered = true -> fe ∈ registered -> P fe = true.
Proof. intros Hall Hin. rewrite forallb_forall in Hall. apply Hall. by apply list_elem_of_In. Qed.
Lemma feature_in f : f ∈ features.
Proof. apply (bool_decide_unpack _). by destruct f. Qed.
Lemma registered_startswith f e g : (f, e) ∈ registered -> startswith e (feature_value g) = bool_decide (g = f).
Proof.
  intros Hin.
  assert (Hall : forallb (fun fe : Feature * string => forallb (fun g =>
    Bool.eqb (startswith fe.2 (feature_value g)) (bool_decide (g = fe.1))) features) registered = true)
    by (vm_compute; reflexivity).
  pose proof (registered_cases _ _ Hall Hin) as H.
  cbn beta in H. rewrite forallb_forall in H. apply eqb_prop, (H g). apply list_elem_of_In, feature_in.
Qed.
Lemma registered_no_pattern e : e ∈ registered.*2 -> endswith e ".*" = false.
Proof.
  intros (fe & -> & Hin)%list_elem_of_fmap.
  apply negb_true_iff, (registered_cases (fun fe => negb (endswith fe.2 ".*"))); [by vm_compute | done].
Qed.
Lemma feature_pattern_match f : endswith (feature_pattern f) ".*" = true /\ strip_suffix_len 2 (feature_pattern f) = feature_value f.
Proof. by destruct f. Qed.
Lemma feature_pattern_inj f g : feature_pattern f = feature_pattern g -> f = g.
Proof. by destruct f, g. Qed.
Lemma registered_NoDup : NoDup registered.*2.
Proof. apply (bool_decide_unpack _). by vm_compute. Qed.

(** The handler of an event among those registered for types and feature wildcards *)
Lemma resolve_routed {W} (hs : list (string * handler W)) f e : (f, e) ∈ registered -> Forall routing_key hs.*1 ->
  _resolve_handler hs (JStr e) = Ret (match dget e hs with Some h => Some h | None => dget (feature_pattern f) hs end).
Proof.
  intros He Hk.
  unfold _resolve_handler. cbn [outcome_bind hash_key].
  destruct (dget e hs) as [h|] eqn:Ed; [done |]. clear Ed.
  induction hs as [|[k h] hs IH]; [done |]. inversion_clear Hk as [|? ? Hkey Hrest]. specialize (IH Hrest).
  cbn [match_wildcard dget]. cbn in Hkey. destruct Hkey as [[g ->] | Hkey].
  - destruct (feature_pattern_match g) as [-> ->]. rewrite (registered_startswith f e g He).
    destruct (decide (g = f)) as [-> | Hn]; [by rewrite !bool_decide_true |].
    rewrite !bool_decide_false; [exact IH | | done]. intros E. by apply Hn, feature_pattern_inj.
  - rewrite (registered_no_pattern k Hkey). rewrite bool_decide_false; [exact IH |].
    intros E. apply registered_no_pattern in Hkey. rewrite <- E, (proj1 (feature_pattern_match f)) in Hkey. done.
Qed.

(** The event types are pairwise distinct and each belongs to one feature.  A consumer whose
    handlers are registered for event types and for feature wildcards gives an event to the
    handler of its type, and without one to the wildcard of its own feature - never to that of
    another feature, although the wildcard matches by the feature's name without the dot. *)
Theorem feature_wildcards_route {W} (hs : list (string * handler W)) f e :
  (f, e) ∈ registered -> Forall routing_key hs.*1 ->
  NoDup registered.*2 /\ (forall g, (g, e) ∈ registered -> g = f) /\
  _resolve_handler hs (JStr e) = Ret (match dget e hs with Some h => Some h | None => dget (feature_pattern f) hs end).
Proof.
  intros He Hk. split; [exact registered_NoDup |]. split.
  { intros g Hg. pose proof (registered_startswith _ _ f Hg) as E.
    rewrite (registered_startswith _ _ f He), bool_decide_true in E by done. symmetry in E.
    by apply bool_decide_eq_true in E. }
  by apply resolve_routed.
Qed.

(** ** Payloads over the bus *)

Lemma payload_model name m : (name, m) ∈ payload_models -> schema_ok m = true /\ exists fs, m = TModel true fs.
Proof.
  intros Hin. assert (Hall : forallb (fun nm : string * ty => schema_ok nm.2 &&
    match nm.2 with TModel true _ => true | _ => false end) payload_models = true) by (vm_compute; reflexivity).
  rewrite forallb_forall in Hall. specialize (Hall (name, m) ltac:(by apply list_elem_of_In)). cbn [snd] in Hall.
  apply andb_true_iff in Hall as [Hok Hm]. split; [exact Hok |]. destruct m as [| | | | | | | | |[] fs |]; try discriminate Hm. eauto.
Qed.

(** A payload that a producer built and published is, parsed by a consumer with the same model,
    the payload that was built; the event keeps its type. *)
Theorem payload_survives_the_bus {W S} `{RedisDoc S, !StreamServer S, !StreamDoc S}
    `{RedisConn W S, !RedisConnDoc W S} `{EventEnv W} `{PydanticDoc}
    p name m v payload etype tenant actor metadata cid c w eid c' w' :
  (name, m) ∈ payload_models -> model_validate m v = Ret payload ->
  json_wf payload = true -> json_wf (JObj (event_metadata metadata cid)) = true ->
  publish_event p (fun payload => payload) etype payload tenant actor metadata cid (c, w) = (Ret eid, (c', w')) ->
  exists id f env, (id, f) ∈ srv_entries (srv w') (pr_stream_name p) /\ from_flat id f = Ret env /\
    event_type env = JStr etype /\ parse_payload (model_validate m) env = Ret payload.
Proof.
  intros Hm Hv Hwf Hmeta E. destruct (payload_model name m Hm) as [Hok _].
  unfold publish_event in E. apply publish_parses in E as (id & f & ts & Hin & Hf); [| done ..].
  do 3 eexists. split; [exact Hin |]. split; [exact Hf |]. split; [done |].
  unfold parse_payload. cbn [data sent_envelope]. rewrite model_validate_Ret in *. by apply (validate_stable m Hok v).
Qed.

(** Drift is caught at the consumer: data with a key that the payload does not declare, or
    without one that it requires, is refused with a [ValueError]. *)
Theorem payload_drift_refused `{PydanticDoc} name m env o :
  (name, m) ∈ payload_models -> data env = JObj o ->
  (exists k, k ∈ o.*1 /\ k ∉ (fields_of m).*1) \/ (exists f, f ∈ fields_of m /\ f.2.2 = None /\ f.1 ∉ o.*1) ->
  exists e, parse_payload (model_validate m) env = Exc e /\ isinstance e ValueError = true.
Proof.
  intros Hm Hd Hdrift. destruct (payload_model name m Hm) as [_ [fs ->]].
  unfold parse_payload. rewrite Hd. apply refused_None. destruct Hdrift as [(k & Hk & Hf) | (f & Hf & Hr & Hk)].
  - by eapply unknown_key_refused.
  - by eapply missing_key_refused.
Qed.

Lemma field_validated `{PydanticDoc} b fs v o k t d : validate (TModel b fs) v = Some (JObj o) -> NoDup fs.*1 ->
  (k, (t, d)) ∈ fs -> exists x, dget k o = Some x /\ ((exists x0, validate t x0 = Some x) \/ d = Some x).
Proof.
  rewrite model_doc. destruct v as [| | | | |o0]; try done. destruct (b && _); [done |].
  destruct (mapM _ fs) as [r|] eqn:E; [| done]. intros [= <-] Hn Hin.
  pose proof (mapM_keys _ _ _ (field_value_name o0) E) as Hk.
  assert (Hkr : k ∈ r.*1) by (rewrite Hk; by apply (list_elem_of_fmap_2 fst fs (k, (t, d)))).
  destruct (dget k r) as [x|] eqn:Ex; [| by apply dget_None_notin in Ex].
  exists x. split; [done |]. destruct (mapM_field_lookup o0 fs r k x Hn E Ex) as (f & Hf & Ef & Efv).
  assert (f.2 = (t, d)) as Ef2.
  { pose proof (dget_NoDup f.1 f.2 fs Hn ltac:(by destruct f)) as H1.
    pose proof (dget_NoDup k (t, d) fs Hn Hin) as H2. congruence. }
  unfold field_value in Efv. rewrite Ef2 in Efv. cbn in Efv. destruct (dget f.1 o0) as [x0|].
  - destruct (validate t x0) eqn:Ev; simplify_eq/=. eauto.
  - destruct d; simplify_eq/=. eauto.
Qed.

(** Every character of a text, as its code point *)
Definition each_code (P : nat -> Prop) (text : string) : Prop :=
  forall before c after, text = before +:+ String c after -> P (nat_of_ascii c).
Lemma each_code_chars p (P : nat -> Prop) text :
  (forall c, p c = true -> P (nat_of_ascii c)) -> all_chars p text = true -> each_code P text.
Proof.
  intros Hp Ha before c after ->. rewrite all_chars_append in Ha. cbn [all_chars] in Ha.
  apply andb_true_iff in Ha as [_ [Hc _]%andb_true_iff]. by apply Hp.
Qed.
Lemma digit_code c : digit_char c = true -> (48 <= nat_of_ascii c <= 57)%nat \/ nat_of_ascii c ∈ [178; 179; 185]%nat.
Proof.
  unfold digit_char, is_decimal. rewrite orb_true_iff, bool_decide_eq_true, andb_true_iff, !Nat.leb_le. tauto.
Qed.
Lemma decimal_code c : is_decimal c = true -> (48 <= nat_of_ascii c <= 57)%nat.
Proof. unfold is_decimal. by rewrite andb_true_iff, !Nat.leb_le. Qed.

(** C40. What the lead-management consumer may rely on: a qualified lead has a number with at least one
    character, each a digit for [str.isdigit] (which takes the superscripts two, three and one as
    digits too), a score that is not negative and one of the four tiers; a platform event has the
    version 1.n with n in ASCII digits.  Strings are those of code points below 256. *)
Theorem payload_guarantees `{PydanticDoc} v o :
  (model_validate WAMLeadQualifiedV1 v = Ret (JObj o) ->
     exists number score tier, dget "user_number" o = Some (JStr number) /\ number <> "" /\
       each_code (fun n => (48 <= n <= 57)%nat \/ n ∈ [178; 179; 185]%nat) number /\
       dget "lead_score" o = Some (JInt score) /\ 0 <= score /\
       dget "tier" o = Some (JStr tier) /\ tier ∈ ["hot"; "warm"; "cold"; "low_priority"]) /\
  (model_validate IntegrationPlatformEventV1 v = Ret (JObj o) ->
     exists minor, dget "schema_version" o = Some (JStr ("1." +:+ minor)) /\ minor <> "" /\
       each_code (fun n => (48 <= n <= 57)%nat) minor).
Proof.
  rewrite !model_validate_Ret. split; intros E.
  - pose proof (fun k t d => field_validated _ _ v o k t d E ltac:(by apply (bool_decide_unpack _); vm_compute)) as Hf.
    destruct (Hf "user_number" _ _ ltac:(left)) as (x1 & Hx1 & [[y1 Hy1] |]); [| done].
    destruct (Hf "lead_score" _ _ ltac:(right; left)) as (x2 & Hx2 & [[y2 Hy2] |]); [| done].
    destruct (Hf "tier" _ _ ltac:(do 2 right; left)) as (x3 & Hx3 & [[y3 Hy3] |]); [| done].
    rewrite match_doc in Hy1. rewrite range_doc in Hy2. rewrite enum_doc in Hy3.
    destruct y1 as [| | |n| |]; try done. destruct (_digits_only n) eqn:En; [| done]. injection Hy1 as <-.
    destruct (validate Int y2) as [[| |s| | |]|]; try done. destruct (in_range _ _ s) eqn:Es; [| done]. injection Hy2 as <-.
    destruct y3 as [| | |t| |]; try done. case_bool_decide as Et; [| done]. injection Hy3 as <-.
    unfold _digits_only in En. rewrite negb_true_iff, orb_false_iff, !negb_false_iff in En.
    destruct En as [Hn%nonempty_spec Hd]. unfold isdigit in Hd. apply andb_true_iff in Hd as [_ Hd].
    exists n, s, t. split_and!; try done.
    + exact (each_code_chars _ _ _ digit_code Hd).
    + unfold in_range in Es. rewrite andb_true_r in Es. by apply Z.leb_le in Es.
  - destruct (field_validated _ _ v o "schema_version" (TMatch version_1) (Some (JStr "1.0")) E) as (x & Hx & Hcase);
      [by apply (bool_decide_unpack _); vm_compute | left |].
    assert (Hs : exists s, x = JStr s /\ version_1 s = true).
    { destruct Hcase as [[y Hy] | [= <-]]; [| by exists "1.0"].
      rewrite match_doc in Hy. destruct y as [| | |s| |]; try done. destruct (version_1 s) eqn:Ev; [| done].
      injection Hy as <-. eauto. }
    destruct Hs as (s & -> & Hv). apply andb_true_iff in Hv as [(t & ->)%startswith_inv Hv].
    change (after_first "." ("1." +:+ t)) with t in Hv. apply andb_true_iff in Hv as [Ht%nonempty_spec Hv].
    exists t. split_and!; [done.. | exact (each_code_chars _ _ _ decimal_code Hv)].
Qed.

(** ** Witnesses *)

Definition lead_handlers : list (string * handler (conn smem)) :=
  [("hr.*", fun _ w => (Ret tt, w)); ("lead.*", failing_handler)].
Lemma feature_wildcards_route_witness :
  _resolve_handler lead_handlers (JStr "lead.reassigned.escalated") = Ret (Some failing_handler).
Proof.
  refine (proj2 (proj2 (feature_wildcards_route lead_handlers F_LEAD "lead.reassigned.escalated" _ _))).
  - do 4 right. left.
  - repeat constructor; [exists F_HR | exists F_LEAD]; reflexivity.
Defined.

Definition qualified_lead : json :=
  JObj [("user_number", JStr "971501234567"); ("lead_score", JInt 80); ("tier", JStr "hot"); ("buyer_type", JNull);
        ("budget", JStr "2M"); ("location", JNull); ("booking_uid", JNull); ("persona", JNull); ("crm_agent_id", JNull);
        ("qualification_result", JNull)].
Definition qualified_input : json :=
  JObj [("tier", JStr "hot"); ("user_number", JStr "971501234567"); ("lead_score", JInt 80); ("budget", JStr "2M")].
Definition wam_producer : EventProducer := mkProducer (Some "redis://bus") "tr_event_bus" "wam" 100000 1048576.
Lemma payload_survives_the_bus_witness :
  model_validate WAMLeadQualifiedV1 qualified_input = Ret qualified_lead /\
  exists w' id f env,
    publish_event wam_producer (fun payload => payload) "wam.lead.qualified" qualified_lead "t1" None [] JNull
      (false, mkConn smem0 5 []) = (Ret "event-5", (true, w')) /\
    (id, f) ∈ srv_entries (srv w') "tr_event_bus" /\ from_flat id f = Ret env /\
    parse_payload (model_validate WAMLeadQualifiedV1) env = Ret qualified_lead.
Proof.
  split; [vm_compute; reflexivity |].
  assert (E : exists w', publish_event wam_producer (fun payload => payload) "wam.lead.qualified" qualified_lead "t1"
    None [] JNull (false, mkConn smem0 5 []) = (Ret "event-5", (true, w'))) by (eexists; vm_compute; reflexivity).
  destruct E as [w' E]. exists w'.
  destruct (payload_survives_the_bus wam_producer "WAMLeadQualifiedV1" WAMLeadQualifiedV1 qualified_input qualified_lead
    "wam.lead.qualified" "t1" None [] JNull false (mkConn smem0 5 []) "event-5" true w')
    as (id & f & env & Hin & Hf & _ & Hp);
    [apply list_elem_of_In; repeat first [left; reflexivity | right] | vm_compute; reflexivity | vm_compute; reflexivity
    | reflexivity | exact E |].
  exists id, f, env. auto.
Defined.
Definition renamed_lead : EventEnvelope :=
  mkEnvelope (JStr "e1") (JStr "wam.lead.qualified") (JStr "1.0") (JStr "t1") (JStr "") (JStr "wam") JNull
    (JObj [("phone", JStr "971501234567"); ("lead_score", JInt 80); ("tier", JStr "hot")]) (JObj []) "1-0".
Lemma payload_drift_refused_witness :
  exists e, parse_payload (model_validate WAMLeadQualifiedV1) renamed_lead = Exc e /\ isinstance e ValueError = true.
Proof.
  apply (payload_drift_refused "WAMLeadQualifiedV1" WAMLeadQualifiedV1 renamed_lead
    [("phone", JStr "971501234567"); ("lead_score", JInt 80); ("tier", JStr "hot")]);
    [apply list_elem_of_In; repeat first [left; reflexivity | right] | reflexivity |].
  left. exists "phone". split; [left |].
  apply (bool_decide_eq_false_1 ("phone" ∈ (fields_of WAMLeadQualifiedV1).*1)). reflexivity.
Defined.
Lemma payload_guarantees_witness :
  model_validate WAMLeadQualifiedV1 qualified_input = Ret qualified_lead /\
  exists number, dget "user_number" [("user_number", JStr "971501234567")] = Some (JStr number) /\ number <> "".
Proof.
  split; [vm_compute; reflexivity |].
  destruct (proj1 (@payload_guarantees ref_pydantic ref_pydantic_doc qualified_input
    (match qualified_lead with JObj o => o | _ => [] end)) ltac:(vm_compute; reflexivity))
    as (n & s & t & Hn & Hd & _).
  exists n. split; [| done]. cbn in Hn. exact Hn.
Defined.
