(* ===== verification/EventFlow.v ===== *)
(** * An event from the service that stores it to the handler that gets it

    Composes the outbox (Outbox: events/durable_publisher.py, outbox_drainer.py), the producer
    (Events), the stream, the consumer (Consumer) and the typed payloads (Payloads). *)

From S2P Require Import Prelude Json Errors Schemas Redis Streams Events Consumer Outbox Contracts Payloads.
Local Open Scope Z_scope.

(** The JSON value of a column, as the drainer reads it *)
Definition column_is (c : json_col) (v : json) : Prop :=
  match c with
  | ColDict o => v = JObj o
  | ColText s => loads s = Some v
  | ColNull => False
  | ColOther v' => v = v' /\ forall o, v <> JObj o
  end.
(** A JSONB column keeps the value up to the order of the keys, and no key twice. *)
Definition jsonb (c c' : json_col) : Prop := forall v, column_is c v -> json_wf v = true ->
  exists v', column_is c' v' /\ json_wf v' = true /\ same_json v v'.
(** What the columns that the INSERT names hold afterwards *)
Definition keeps_inserted (insert_defaults : Z -> outbox_row -> outbox_row) : Prop :=
  forall now r, let r' := insert_defaults now r in
    o_id r' = o_id r /\ o_event_type r' = o_event_type r /\ o_tenant_id r' = o_tenant_id r /\
    o_actor_id r' = o_actor_id r /\ jsonb (o_data r) (o_data r') /\ jsonb (o_metadata r) (o_metadata r').
Definition actor_json (actor : option string) : json :=
  match actor with Some a => if nonempty a then JStr a else JNull | None => JNull end.

Lemma dset_same {V} k (v : V) d : dget k d = Some v -> dset k v d = d.
Proof.
  induction d as [|[k' v'] d IH]; [done |]. cbn. case_bool_decide as E; [by intros [= ->]; subst |].
  intros Hd. by rewrite IH.
Qed.
Lemma event_metadata_own metadata :
  event_metadata metadata (default JNull (dget "correlation_id" metadata)) = metadata.
Proof.
  unfold event_metadata. destruct (dget "correlation_id" metadata) as [c|] eqn:E; cbn; [| done].
  destruct (truthy c); [| done]. by apply dset_same.
Qed.
Lemma read_data r o : column_is (o_data r) (JObj o) -> row_data r = Ret (JObj o).
Proof.
  unfold row_data, json_loads.
  destruct (o_data r) as [o' | s | | v']; cbn; [by intros -> | by intros -> | done | by intros [_ Hn]; destruct (Hn o)].
Qed.
Lemma read_metadata r o : column_is (o_metadata r) (JObj o) -> row_metadata r = Ret (JObj o).
Proof.
  unfold row_metadata, json_loads.
  destruct (o_metadata r) as [o' | s | | v']; cbn [column_is]; [by intros -> | | done | by intros [_ Hn]; destruct (Hn o)].
  intros Hs. assert (nonempty s = true) as -> by (by destruct s). by rewrite Hs.
Qed.

(** The row that [durable_publish] stores gives its data, an object, and its metadata back. *)
Lemma durable_row {W} `{EventEnv W} insert_defaults now etype tenant data actor metadata t (w : W) eid t' w' :
  keeps_inserted insert_defaults -> (exists o, data = JObj o) -> json_wf data = true -> json_wf (JObj metadata) = true ->
  durable_publish insert_defaults true now etype tenant data actor metadata (t, w) = (Ret eid, (t', w')) ->
  exists r data' metadata', t' = t ++ [r] /\
    o_id r = eid /\ o_event_type r = etype /\ o_tenant_id r = tenant /\ o_actor_id r = actor /\
    row_args r = Ret (data', metadata', default JNull (dget "correlation_id" metadata')) /\
    json_wf data' = true /\ json_wf (JObj metadata') = true /\
    same_json data data' /\ same_json (JObj metadata) (JObj metadata').
Proof.
  intros Hk [o Ho] Hd Hm E. unfold durable_publish in E. cbn [negb] in E.
  apply bind_Ret_inv in E as (eid' & [t1 w1] & E1 & E). apply bind_Ret_inv in E as ([] & st2 & E2 & E).
  unfold modify in E2. injection E2 as <-. injection E as <- <- _. cbn [fst].
  assert (t1 = t) as -> by (unfold on_snd in E1; cbn in E1; destruct (uuid4 w); by injection E1).
  set (r0 := mkRow _ _ _ _ _ _ _ _ _ _ _). destruct (Hk now r0) as (K1 & K2 & K3 & K4 & K5 & K6).
  destruct (K5 data (loads_dumps data Hd) Hd) as (data' & Cd & Wd & Sd).
  destruct (K6 (JObj metadata) (loads_dumps (JObj metadata) Hm) Hm) as (m' & Cm & Wm & Sm).
  destruct (same_obj _ _ Sm) as (metadata' & -> & _).
  rewrite Ho in Sd. pose proof Sd as (o' & -> & _)%same_obj. rewrite <- Ho in Sd.
  exists (insert_defaults now r0), (JObj o'), metadata'. split_and!; try done.
  unfold row_args. by rewrite (read_data _ _ Cd), (read_metadata _ _ Cm).
Qed.

(** What the consumer asks before it runs a handler, and what it does when it has run. *)
Section Delivery.
Context {W S : Type} `{StreamServer S} `{RedisConn W S}.
Variables (clock : W -> string) (cfg : consumer_config W).
Definition seen_before (env : EventEnvelope) : Py W bool :=
  match cs_idempotency cfg with Some ck => is_processed ck (event_id env) | None => ret false end.
Definition delivery (retry : bool) (id : string) (env : EventEnvelope) (h : handler W) : Py W unit :=
  do! h env in
  do! (match cs_idempotency cfg with Some ck => mark_processed ck (event_id env) | None => ret tt end) in
  (if retry then rs_clear (retry_store cfg) id else ret tt).

Lemma on_snd_Ret {A} (k : Py W A) (st : cstate * W) a w : k (snd st) = (Ret a, w) -> on_snd k st = (Ret a, (fst st, w)).
Proof. unfold on_snd. by intros ->. Qed.

(** A message that is new and whose handler returns is handled and acknowledged, and nothing else happens. *)
Lemma handled id f env h st w1 w2 :
  _parse cfg id f = Some env -> _resolve_handler (cs_handlers cfg) (event_type env) = Ret (Some h) ->
  seen_before env (snd st) = (Ret false, w1) -> delivery (c_retry (fst st)) id env h w1 = (Ret tt, w2) ->
  _process_message clock cfg id f st = (Ret (true, true), (fst st, w2)).
Proof.
  intros Hp Hr Hs Hd. unfold _process_message. rewrite Hp.
  rewrite (bind_Ret _ _ _ false (fst st, w1))
    by (unfold seen_before in Hs; destruct (cs_idempotency cfg); [by apply on_snd_Ret | by injection Hs as <-; destruct st]).
  rewrite Hr. unfold run_handler. unfold delivery in Hd.
  apply bind_Ret_inv in Hd as ([] & w3 & Hh & Hd). apply bind_Ret_inv in Hd as ([] & w4 & Hm & Hc).
  rewrite (bind_Ret _ _ _ None (fst st, w3)) by (unfold catch_Exception, catch, bind, on_snd; cbn; by rewrite Hh).
  rewrite (bind_Ret _ _ _ tt (fst st, w4)) by (destruct (cs_idempotency cfg); [by apply (on_snd_Ret _ (fst st, w3)) | by injection Hm as <-]).
  rewrite (bind_Ret _ _ _ tt (fst st, w2)); [done |]. cbn [fst].
  destruct (c_retry (fst st)); [by apply (on_snd_Ret _ (fst st, w4)) | by injection Hc as <-].
Qed.
End Delivery.

(** A payload that its model accepted is accepted again with its keys in another order. *)
Lemma payload_keeps_order `{PydanticDoc} name m v payload data' : (name, m) ∈ payload_models ->
  model_validate m v = Ret payload -> json_wf payload = true -> same_json payload data' ->
  exists typed, model_validate m data' = Ret typed /\ same_json payload typed.
Proof.
  intros Hm Hv Hp Hs. rewrite model_validate_Ret in Hv. destruct (payload_model name m Hm) as [Hok _].
  assert (Hall : forallb (fun nm : string * ty => fixed_keys nm.2) payload_models = true) by (vm_compute; reflexivity).
  rewrite forallb_forall in Hall. specialize (Hall (name, m) ltac:(by apply list_elem_of_In)).
  destruct (validate_keeps_order m Hall payload data' Hp (validate_stable m Hok v payload Hv) Hs) as (typed & Ht & St).
  exists typed. by rewrite model_validate_Ret.
Qed.

(** What a payload model accepts is an object. *)
Lemma payload_object `{PydanticDoc} name m v payload : (name, m) ∈ payload_models ->
  model_validate m v = Ret payload -> exists o, payload = JObj o.
Proof.
  rewrite model_validate_Ret. intros Hm. destruct (payload_model name m Hm) as [_ [fs ->]].
  rewrite model_doc. destruct v; try done. case_match; [done |].
  destruct (mapM _ _) as [x|]; cbn; [| done]. intros [= <-]. eauto.
Qed.

(** C3. The contract of the event bus.  A payload that its model accepted, stored in the outbox
    inside the caller's transaction, gives a row from which the drainer publishes what was stored:
    the same JSON, the keys in whatever order JSONB left them.  When the publish of that row
    succeeds, the stream holds an entry that any consumer in flat parse mode parses into an event with the published
    id, the stored type, tenant, actor and metadata and, under the same model, the stored payload.
    A consumer whose handlers are registered for event types and feature wildcards, and which
    has not seen the id, runs the handler of the event's own type, or else of its own feature, on
    that event; when it returns and its success could be recorded, the message is acknowledged. *)
Theorem durable_event_reaches_handler {W S} `{RedisDoc S, !StreamServer S, !StreamDoc S}
    `{RedisConn W S, !RedisConnDoc W S} `{EventEnv W} `{PydanticDoc} clock (cfg : consumer_config W) p
    insert_defaults name m v payload feature etype tenant actor metadata now t w0 row_id t1 w1 :
  (name, m) ∈ payload_models -> model_validate m v = Ret payload ->
  json_wf payload = true -> json_wf (JObj metadata) = true -> (feature, etype) ∈ registered ->
  keeps_inserted insert_defaults ->
  durable_publish insert_defaults true now etype tenant payload actor metadata (t, w0) = (Ret row_id, (t1, w1)) ->
  cs_payload_mode cfg = false -> Forall routing_key (cs_handlers cfg).*1 ->
  exists r a metadata', t1 = t ++ [r] /\ o_id r = row_id /\ row_args r = Ret a /\ same_json (JObj metadata) (JObj metadata') /\
    forall c w eid c' w', publish_row p r a (c, w) = (Ret eid, (c', w')) ->
    exists id f env typed, (id, f) ∈ srv_entries (srv w') (pr_stream_name p) /\ _parse cfg id f = Some env /\
      event_id env = JStr eid /\ event_type env = JStr etype /\ Events.tenant_id env = JStr tenant /\
      Events.actor_id env = actor_json actor /\ Events.metadata env = JObj metadata' /\
      parse_payload (model_validate m) env = Ret typed /\ same_json payload typed /\
      forall h st w2 w3,
        match dget etype (cs_handlers cfg) with
        | Some h => Some h
        | None => dget (feature_pattern feature) (cs_handlers cfg)
        end = Some h ->
        seen_before cfg env (snd st) = (Ret false, w2) -> delivery cfg (c_retry (fst st)) id env h w2 = (Ret tt, w3) ->
        _process_message clock cfg id f st = (Ret (true, true), (fst st, w3)).
Proof.
  intros Hm Hv Hp Hmeta Hf Hk Hd Hmode Hroute.
  destruct (durable_row _ _ _ _ _ _ _ _ _ _ _ _ Hk (payload_object name m v payload Hm Hv) Hp Hmeta Hd)
    as (r & data' & metadata' & -> & Ei & Et & En & Ea & Eargs & Wd & Wm & Sd & Sm).
  exists r. eexists. exists metadata'. split; [done |]. split; [exact Ei |]. split; [exact Eargs |]. split; [exact Sm |].
  intros c w eid c' w' Epub. unfold publish_row in Epub. rewrite Et, En, Ea in Epub.
  apply publish_parses in Epub as (id & f & ts & Hin & Hflat); [| done | by rewrite event_metadata_own].
  rewrite event_metadata_own in Hflat.
  destruct (payload_keeps_order name m v payload data' Hm Hv Hp Sd) as (typed & Hty & St).
  exists id, f. eexists. exists typed. split; [exact Hin |].
  assert (Hparse : forall e, from_flat id f = Ret e -> _parse cfg id f = Some e) by
    (intros e E; unfold _parse; by rewrite Hmode, E).
  split; [apply Hparse, Hflat |]. split_and!; [done | done | done | | done | exact Hty | exact St |].
  - unfold actor_json. cbn. by destruct actor as [[|]|].
  - intros h st w2 w3 Hh. apply (handled clock cfg); [apply Hparse, Hflat |]. cbn [event_type sent_envelope].
    rewrite (resolve_routed _ feature) by done. by rewrite Hh.
Qed.

(** ** Witness *)

(** A handler that leaves a trace: it moves the clock of the connection. *)
Definition scoring_handler : handler (conn smem) :=
  fun _ w => (Ret tt, mkConn (cn_srv w) (cn_wall w + 1) (cn_links w)).
Definition scoring_consumer : consumer_config (conn smem) :=
  mkConsumer "tr_event_bus" "lead-service" "c1" 10 (mkRetryPolicy 3 2 30) None false 30000 1000 86400000
    [("hr.*", failing_handler); ("wam.*", scoring_handler)].
Definition running : cstate := mkCstate true true true true.
(** A JSONB column that hands a decoded object back, its keys in the opposite order. *)
Definition column_back (c : json_col) : json_col :=
  match c with
  | ColText s => match loads s with Some (JObj o) => ColDict (reverse o) | _ => c end
  | _ => c
  end.
Definition insert_row (now : Z) (r : outbox_row) : outbox_row :=
  mkRow (o_id r) (o_event_type r) (o_tenant_id r) (o_actor_id r) (column_back (o_data r)) (column_back (o_metadata r))
    0 now None false None.
Lemma column_back_jsonb c : jsonb c (column_back c).
Proof.
  intros v Hv Hw. destruct c as [o | s | | v']; cbn in *; [by exists v | | done | by exists v]. rewrite Hv.
  destruct v as [| | | | |o]; try by eexists. exists (JObj (reverse o)). apply andb_true_iff in Hw as [N Hw].
  apply bool_decide_eq_true in N. split_and!; [done | |].
  - cbn [json_wf]. rewrite bool_decide_true by by rewrite (Permutation_map fst (reverse_Permutation o)).
    apply forallb_forall. intros x Hx%list_elem_of_In. rewrite reverse_Permutation in Hx.
    rewrite forallb_forall in Hw. apply Hw. by apply list_elem_of_In.
  - apply sort_keys_perm; [by rewrite reverse_Permutation | done].
Qed.
Definition stored : table :=
  fst (snd (durable_publish insert_row true 0 "wam.lead.qualified" "t1" qualified_lead (Some "u1")
    [("correlation_id", JStr "c1")] ([], mkConn smem0 5 []))).
Lemma durable_event_reaches_handler_witness :
  exists r, stored = [r] /\
  exists a w' id f, publish_row wam_producer r a (false, mkConn smem0 7 []) = (Ret "event-7", (true, w')) /\
    (id, f) ∈ srv_entries (srv w') "tr_event_bus" /\
    _process_message demo_clock scoring_consumer id f (running, mkConn smem0 9 []) =
      (Ret (true, true), (running, mkConn smem0 10 [])).
Proof.
  destruct (@durable_event_reaches_handler (conn smem) smem _ _ _ _ _ _ _ ref_pydantic ref_pydantic_doc
    demo_clock scoring_consumer wam_producer insert_row "WAMLeadQualifiedV1" WAMLeadQualifiedV1
    qualified_input qualified_lead F_WAM "wam.lead.qualified" "t1" (Some "u1") [("correlation_id", JStr "c1")] 0
    [] (mkConn smem0 5 []) "event-5" stored (mkConn smem0 5 []))
    as (r & a & metadata' & Hr & _ & Ha & _ & Hflow);
    [apply list_elem_of_In; repeat first [left; reflexivity | right] | vm_compute; reflexivity | reflexivity | reflexivity
    | apply (bool_decide_unpack _); vm_compute; exact I | repeat split; apply column_back_jsonb | vm_compute; reflexivity
    | reflexivity | repeat constructor; [exists F_HR | exists F_WAM]; reflexivity |].
  exists r. split; [exact Hr |]. exists a.
  assert (E : exists w', publish_row wam_producer r a (false, mkConn smem0 7 []) = (Ret "event-7", (true, w'))).
  { unfold stored in Hr. vm_compute in Hr. injection Hr as <-. vm_compute in Ha. injection Ha as <-.
    eexists. vm_compute. reflexivity. }
  destruct E as [w' E].
  destruct (Hflow false (mkConn smem0 7 []) "event-7" true w' E)
    as (id & f & env & typed & Hin & _ & _ & _ & _ & _ & _ & _ & _ & Hrun).
  exists w', id, f. split; [exact E |]. split; [exact Hin |].
  apply (Hrun scoring_handler (running, mkConn smem0 9 []) (mkConn smem0 9 [])); vm_compute; reflexivity.
Defined.
