(* ===== verification/Redelivery.v ===== *)
(** * An event that was handled is not handled again

    Composes the consumer (Consumer: events/consumer.py) with its own duplicate checker
    (Events: [InMemoryIdempotencyChecker]).  The consumer's world is the checker's memory and the rest. *)

From S2P Require Import Prelude Json Errors Redis Streams Events Consumer EventFlow.
Local Open Scope Z_scope.

#[export] Instance checker_redis {W S} `{RedisConn W S} : RedisConn (list json * W) S := {
  rexec A c := on_snd (rexec c);
  aclose := on_snd (aclose (S := S));
  srv st := srv (snd st);
  wall st := wall (snd st);
}.

Section Redelivery.
Context {W S : Type} `{StreamServer S} `{RedisConn W S}.
Variables (clock : list json * W -> string) (cfg : consumer_config (list json * W)).
Variables (use_redis : bool) (group : string) (ttl : Z).
Notation world := (cstate * (list json * W))%type.

(** The consumer of the code: its checker, and handlers that do not reach into the checker. *)
Record checked : Prop := {
  ck_own : cs_idempotency cfg = Some (InMemoryIdempotencyChecker use_redis group ttl);
  ck_handlers : forall p h env w, (p, h) ∈ cs_handlers cfg -> fst (snd (h env w)) = fst w;
}.
Hypothesis Hcfg : checked.
Definition memory (st : world) : list json := fst (snd st).
Definition process (m : string * fields) (st : world) : world := snd (_process_message clock cfg m.1 m.2 st).

(** ** What leaves the checker's memory alone *)

Definition keeps_memory {A} (k : Py world A) : Prop := forall I : list json -> Prop, preserves (fun st => I (memory st)) k.
Lemma keeps_own {A} (k : Py (list json * W) A) : (forall w, fst (snd (k w)) = fst w) -> keeps_memory (on_snd k).
Proof.
  intros Hk I [c w] Hw. unfold on_snd, memory in *. cbn in *. specialize (Hk w).
  destruct (k w) as [o w']. cbn in *. by rewrite Hk.
Qed.
Lemma keeps_bind {A B} (c : Py world A) (k : A -> Py world B) :
  keeps_memory c -> (forall a, keeps_memory (k a)) -> keeps_memory (bind c k).
Proof. intros Hc Hk I. apply preserves_bind; [apply Hc | intros a; apply Hk]. Qed.
Lemma keeps_catch {A} (c : Py world A) h : keeps_memory c -> (forall e, keeps_memory (h e)) -> keeps_memory (catch_Exception c h).
Proof.
  intros Hc Hh I. unfold catch_Exception. apply preserves_catch; [apply Hc |].
  intros e. case_match; [apply Hh | auto with py].
Qed.
Lemma keeps_if {A} (f : world -> bool) (a b : Py world A) : keeps_memory a -> keeps_memory b ->
  keeps_memory (fun st => (if f st then a else b) st).
Proof. intros Ha Hb I. apply (preserves_read _ f (fun x : bool => if x then a else b)). by intros [|]. Qed.
Lemma keeps_ret {A} (a : A) : keeps_memory (ret a).
Proof. intros I. auto with py. Qed.
Lemma keeps_raise {A} e : keeps_memory (@raise exn world A e).
Proof. intros I. auto with py. Qed.

Lemma rexec_own {A} (c : Srv S A) (w : list json * W) : fst (snd (rexec c w)) = fst w.
Proof. destruct w as [ids w]. cbn. unfold on_snd. cbn. by destruct (rexec c w). Qed.
Lemma bind_own {A B} (c : Py (list json * W) A) (k : A -> Py (list json * W) B) :
  (forall w, fst (snd (c w)) = fst w) -> (forall a w, fst (snd (k a w)) = fst w) ->
  forall w, fst (snd (bind c k w)) = fst w.
Proof. intros Hc Hk w. specialize (Hc w). unfold bind. destruct (c w) as [[a|e] w1]; cbn in *; [by rewrite Hk | done]. Qed.
Lemma increment_own id w : fst (snd (rs_increment (W := list json * W) (retry_store cfg) id w)) = fst w.
Proof. apply bind_own; [apply rexec_own | intros n]. by apply bind_own; [apply rexec_own |]. Qed.
Lemma clear_own id w : fst (snd (rs_clear (W := list json * W) (retry_store cfg) id w)) = fst w.
Proof. by apply bind_own; [apply rexec_own |]. Qed.
Lemma dlq_own stream grp id f reason w : fst (snd (dlq_move (W := list json * W) clock stream grp id f reason w)) = fst w.
Proof. apply bind_own; [done | intros now]. by apply bind_own; [apply rexec_own |]. Qed.
Lemma is_processed_own eid w : fst (snd (im_is_processed (W := W) use_redis group eid w)) = fst w.
Proof.
  unfold im_is_processed. destruct (hash_key eid) as [k|e]; [| done]. apply bind_own; [done | intros ids].
  case_bool_decide; [done |]. destruct use_redis; [| done]. apply bind_own; [| done].
  intros [l w0]. unfold on_snd. cbn. by destruct (rexec _ w0).
Qed.

Lemma clear_keeps_memory id : keeps_memory (fun st => (if c_retry (fst st) then on_snd (rs_clear (retry_store cfg) id) else ret tt) st).
Proof. apply keeps_if; [apply keeps_own, clear_own | apply keeps_ret]. Qed.
Lemma dead_letter_keeps_memory id d reason : keeps_memory (fun st => (if c_dlq (fst st)
  then catch_Exception (move_to_dlq clock cfg id d reason) (fun _ => ret tt) else ret tt) st).
Proof.
  apply keeps_if; [| apply keeps_ret]. apply keeps_catch; [| intros; apply keeps_ret].
  apply keeps_own. intros w. apply dlq_own.
Qed.
Lemma failure_keeps_memory id d e : keeps_memory (_handle_failure clock cfg id d e).
Proof.
  unfold _handle_failure. apply keeps_bind.
  - apply keeps_catch; [| intros; apply keeps_ret]. apply keeps_if; [apply keeps_own, increment_own | apply keeps_ret].
  - intros n. case_match; [| apply keeps_ret]. apply keeps_bind; [apply dead_letter_keeps_memory | intros _].
    apply keeps_bind; [apply clear_keeps_memory | intros; apply keeps_ret].
Qed.

(** ** A message marks one id at most *)

(** [eid] is remembered, with at most [k] younger ids behind it. *)
Definition remembered (eid : json) (k : nat) (ids : list json) : Prop :=
  (length ids <= Z.to_nat 10000)%nat /\ exists pre post, ids = pre ++ eid :: post /\ (length post <= k)%nat.
Lemma remembered_more eid k k' ids : (k <= k')%nat -> remembered eid k ids -> remembered eid k' ids.
Proof. intros Hk (Hl & pre & post & E & Hp). split; [done |]. exists pre, post. split; [done | lia]. Qed.

Lemma mark_ages eid k eid' (w : list json * W) : (k < Z.to_nat 5000)%nat -> remembered eid k (fst w) ->
  remembered eid (k + 1) (fst (snd (im_mark_processed use_redis group ttl eid' w))).
Proof.
  intros Hk Hw. unfold im_mark_processed. destruct (hash_key eid') as [x|e]; [| by apply (remembered_more _ k); [lia |]].
  assert (Hm : remembered eid (k + 1) (evict (remember x (fst w)))).
  { destruct Hw as (Hl & pre & post & E & Hp). split; [by apply evict_bound |].
    destruct (evict_keeps eid x (fst w) pre post Hl E) as (pre' & post' & E' & Hp'); [lia |].
    exists pre', post'. split; [done | lia]. }
  unfold bind, modify. destruct use_redis; [| exact Hm]. unfold on_snd. cbn [fst snd].
  by destruct (rexec _ (snd w)) as [[?|?] ?].
Qed.
Lemma process_ages eid k m (st : world) : (k < Z.to_nat 5000)%nat -> remembered eid k (memory st) ->
  remembered eid (k + 1) (memory (process m st)).
Proof.
  intros Hk Hst. unfold process, _process_message.
  assert (Hkeep : forall A (c : Py world A) st, keeps_memory c -> remembered eid k (memory st) ->
            remembered eid (k + 1) (memory (snd (c st)))).
  { intros A c s0 Hc Hs. apply (Hc (remembered eid (k + 1))), (remembered_more _ k); [lia | done]. }
  destruct (_parse cfg m.1 m.2) as [env|].
  2: { apply Hkeep; [| done]. apply keeps_bind; [apply dead_letter_keeps_memory | intros; apply keeps_ret]. }
  rewrite (ck_own Hcfg). unfold bind at 1.
  pose proof (keeps_own _ (is_processed_own (event_id env)) (remembered eid k) st Hst) as Hseen.
  destruct (on_snd _ st) as [[[|]|e] st1]; cbn in Hseen; [by apply Hkeep; [apply keeps_ret |] | | by apply (remembered_more _ k); [lia |]].
  destruct (_resolve_handler _ _) as [[h|]|e] eqn:Eh; [| by apply Hkeep; [apply keeps_ret |] | by apply Hkeep; [apply keeps_raise |]].
  apply resolve_registered in Eh as [p Hp]. unfold run_handler, bind at 1.
  assert (Hrun : keeps_memory (catch_Exception (do! on_snd (h env) in ret None) (fun e => ret (Some e)))).
  { apply keeps_catch; [| intros; apply keeps_ret]. apply keeps_bind; [| intros; apply keeps_ret].
    apply keeps_own. intros w. by eapply (ck_handlers Hcfg). }
  specialize (Hrun (remembered eid k) st1 Hseen).
  destruct (catch_Exception _ _ st1) as [[[e|]|e] st2]; cbn in Hrun; [| | by apply (remembered_more _ k); [lia |]].
  { by apply Hkeep; [apply failure_keeps_memory |]. }
  rewrite (ck_own Hcfg). unfold bind at 1. pose proof (mark_ages eid k (event_id env) (snd st2) Hk Hrun) as Hmark.
  unfold on_snd at 1. cbn [mark_processed InMemoryIdempotencyChecker].
  destruct (im_mark_processed _ _ _ _ (snd st2)) as [[[]|e] w3]; [| exact Hmark].
  apply (keeps_bind _ _ (clear_keeps_memory m.1) (fun _ => keeps_ret _) (remembered eid (k + 1))). exact Hmark.
Qed.
Lemma remembered_through eid ms : forall k (st : world), (k + length ms <= Z.to_nat 5000)%nat -> remembered eid k (memory st) ->
  remembered eid (k + length ms) (memory (foldl (fun st m => process m st) st ms)).
Proof.
  induction ms as [|m ms IH]; intros k st Hk Hst; cbn [foldl length] in *; [by rewrite Nat.add_0_r |].
  replace (k + Datatypes.S (length ms))%nat with (k + 1 + length ms)%nat by lia. apply IH; [lia |]. apply process_ages; [lia | done].
Qed.

(** A delivery remembers its event. *)
Lemma delivery_remembers retry id env h p e (w0 w1 w2 : list json * W) : event_id env = JStr e -> (p, h) ∈ cs_handlers cfg ->
  (length (fst w0) <= Z.to_nat 10000)%nat -> seen_before cfg env w0 = (Ret false, w1) ->
  delivery cfg retry id env h w1 = (Ret tt, w2) -> remembered (JStr e) 0 (fst w2).
Proof.
  intros He Hp Hl Hs Hd. unfold seen_before in Hs. unfold delivery in Hd. rewrite (ck_own Hcfg) in Hs, Hd. rewrite He in Hs, Hd.
  pose proof (is_processed_own (JStr e) w0) as Hm1. cbn [is_processed InMemoryIdempotencyChecker] in Hs. rewrite Hs in Hm1. cbn in Hm1.
  assert (Hn : JStr e ∉ fst w0).
  { intros Hin. unfold im_is_processed, bind, gets in Hs. cbn [hash_key] in Hs. by rewrite bool_decide_true in Hs. }
  apply bind_Ret_inv in Hd as ([] & w3 & Hh & Hd). apply bind_Ret_inv in Hd as ([] & w4 & Hm & Hc).
  pose proof (ck_handlers Hcfg p h env w1 Hp) as Hm3. rewrite Hh in Hm3. cbn in Hm3.
  pose proof (mark_ids use_redis group ttl e w3) as Hm4. cbn [mark_processed InMemoryIdempotencyChecker] in Hm. rewrite Hm in Hm4. cbn [fst snd] in Hm4.
  assert (Hm5 : fst w2 = fst w4).
  { destruct retry; [| by injection Hc as <-]. pose proof (clear_own id w4) as Hm5. by rewrite Hc in Hm5. }
  rewrite Hm5, Hm4, Hm3, Hm1. split; [by apply evict_bound |].
  assert (Hx : exists pre, evict (remember (JStr e) (fst w0)) = pre ++ [JStr e]).
  { unfold remember, evict. rewrite bool_decide_false by done. destruct (10000 <? _) eqn:E; [apply Z.ltb_lt in E | eauto].
    exists (drop (Z.to_nat 5000) (fst w0)). rewrite length_app in E. cbn [length] in E. by rewrite drop_app_le by lia. }
  destruct Hx as [pre ->]. exists pre, []. split; [done | cbn; lia].
Qed.
End Redelivery.

(** C5. Delivery is at least once - a claimed message, a lost acknowledgement - but a consumer with its own
    duplicate checker handles an event once: when the handler returned and the success was recorded,
    then, whatever happens to the next messages, up to 5,000 of them, every further delivery of the event
    is acknowledged at once, and neither the handler runs nor anything else changes. *)
Theorem handled_event_is_not_handled_again {W S} `{StreamServer S} `{RedisConn W S}
    (clock : list json * W -> string) (cfg : consumer_config (list json * W)) use_redis group ttl id f env e h st w1 w2 ms :
  checked cfg use_redis group ttl -> (length (memory st) <= Z.to_nat 10000)%nat ->
  _parse cfg id f = Some env -> event_id env = JStr e -> _resolve_handler (cs_handlers cfg) (event_type env) = Ret (Some h) ->
  seen_before cfg env (snd st) = (Ret false, w1) -> delivery cfg (c_retry (fst st)) id env h w1 = (Ret tt, w2) ->
  (length ms <= Z.to_nat 5000)%nat ->
  let st' := foldl (fun st m => process clock cfg m st) (process clock cfg (id, f) st) ms in
  _process_message clock cfg id f st = (Ret (true, true), (fst st, w2)) /\
  forall id' f' env', _parse cfg id' f' = Some env' -> event_id env' = JStr e ->
  _process_message clock cfg id' f' st' = (Ret (true, true), st').
Proof.
  intros Hcfg Hl Hp He Hh Hs Hd Hms st'. pose proof (handled clock cfg id f env h st w1 w2 Hp Hh Hs Hd) as E.
  split; [exact E |]. intros id' f' env' Hp' He'.
  destruct (resolve_registered _ _ _ Hh) as [p Hin].
  assert (Hr : remembered (JStr e) (0 + length ms) (memory st')).
  { apply (remembered_through clock cfg use_redis group ttl Hcfg); [lia |]. unfold process. cbn [fst snd]. rewrite E.
    by apply (delivery_remembers cfg use_redis group ttl Hcfg (c_retry (fst st)) id env h p e (snd st) w1). }
  destruct Hr as (_ & pre & post & Em & _). unfold _process_message. rewrite Hp', (ck_own _ _ _ _ Hcfg), He'.
  assert (Hdup : on_snd (im_is_processed use_redis group (JStr e)) st' = (Ret true, st')).
  { destruct st' as [c w]. unfold on_snd, im_is_processed, bind, gets, memory in *. cbn in *. rewrite Em.
    rewrite bool_decide_true by set_solver. by destruct w. }
  by rewrite (bind_Ret _ _ _ true st').
Qed.

(** ** Witness *)

(** Each run of this handler moves the clock of the connection. *)
Definition counted_handler : handler (list json * conn smem) :=
  fun _ w => (Ret tt, (fst w, mkConn (cn_srv (snd w)) (cn_wall (snd w) + 1) (cn_links (snd w)))).
Definition own_clock (w : list json * conn smem) : string := demo_clock (snd w).
Definition checked_consumer : consumer_config (list json * conn smem) :=
  mkConsumer "bus" "g" "c1" 10 (mkRetryPolicy 3 2 30) (Some (InMemoryIdempotencyChecker true "g" 7)) false 30000 1000
    86400000 [("lead.*", counted_handler)].
Definition fresh : cstate * (list json * conn smem) := (mkCstate true true true true, ([], mkConn demo_server 0 [])).
Definition between : list (string * fields) :=
  [("2-0", [("event_id", "e2"); ("event_type", "lead.created")]); ("3-0", [("event_id", "e3"); ("event_type", "hr.hired")])].
Definition later := foldl (fun st m => process own_clock checked_consumer m st)
  (process own_clock checked_consumer ("1-0", demo_message) fresh) between.
Lemma handled_event_is_not_handled_again_witness :
  cn_wall (snd (snd later)) = 2 /\
  _process_message own_clock checked_consumer "1-0" demo_message later = (Ret (true, true), later).
Proof.
  split; [vm_compute; reflexivity |].
  assert (Hck : checked checked_consumer true "g" 7).
  { split; [reflexivity |]. intros p h env w Hin. apply list_elem_of_singleton in Hin. injection Hin as -> ->. reflexivity. }
  assert (E : exists env, _parse checked_consumer "1-0" demo_message = Some env /\ event_id env = JStr "e1" /\
    event_type env = JStr "lead.created") by (eexists; repeat split; vm_compute; reflexivity).
  destruct E as (env & Ep & Ee & Et).
  assert (Ed : exists w1 w2, seen_before checked_consumer env (snd fresh) = (Ret false, w1) /\
    delivery checked_consumer (c_retry (fst fresh)) "1-0" env counted_handler w1 = (Ret tt, w2)).
  { unfold seen_before, delivery. cbn [checked_consumer cs_idempotency]. rewrite Ee. do 2 eexists.
    split; [vm_compute; reflexivity |]. vm_compute. reflexivity. }
  destruct Ed as (w1 & w2 & Es & Ed).
  refine (proj2 (handled_event_is_not_handled_again own_clock checked_consumer true "g" 7 "1-0" demo_message env "e1"
    counted_handler fresh w1 w2 between Hck _ Ep Ee _ Es Ed _) "1-0" demo_message env Ep Ee).
  - change (length (memory fresh)) with O. lia.
  - rewrite Et. vm_compute. reflexivity.
  - change (length between) with 2%nat. lia.
Defined.
