(* ===== verification/Pipeline.v ===== *)
(** * From the outbox table to the handlers: nothing is lost, nothing comes twice

    Composes the drainer's task (OutboxTask), the producer (Events) and the consumer's loop
    (Consumer).  A schedule says in which order runs of the task and passes of the loop take
    place; the services are taken to answer ([fault_free]).  What other components prove about
    faults - retries, duplicates, redelivery - is not assumed away there but here. *)

From S2P Require Import Prelude Json Errors Redis Streams Events Consumer Outbox Worker OutboxTask EventFlow.
Local Open Scope Z_scope.

(** The messages of an outbox row *)
Definition row_message (source : string) (r : outbox_row) (f : fields) : Prop :=
  exists eid ts data metadata cid, row_args r = Ret (data, metadata, cid) /\ json_wf data = true /\
    json_wf (JObj (event_metadata metadata cid)) = true /\
    f = envelope_fields eid (o_event_type r) (o_tenant_id r) ts source
          (match o_actor_id r with Some x => if nonempty x then Some x else None | None => None end)
          data (event_metadata metadata cid).
(** The event of a row: its type, tenant, actor, data and metadata *)
Definition carries (source : string) (r : outbox_row) (env : EventEnvelope) : Prop :=
  exists id eid ts data metadata cid, row_args r = Ret (data, metadata, cid) /\
    env = sent_envelope id eid (o_event_type r) (o_tenant_id r) ts source (o_actor_id r) data (event_metadata metadata cid).
Lemma row_message_parses source r f id : row_message source r f -> exists env, from_flat id f = Ret env /\ carries source r env.
Proof.
  intros (eid & ts & data & metadata & cid & Ha & Hd & Hm & ->).
  eexists. split; [by apply from_flat_envelope |]. exists id, eid, ts, data, metadata, cid. split; [done |].
  unfold sent_envelope. by destruct (o_actor_id r) as [[|]|].
Qed.

Inductive actor := DrainerRuns | ConsumerPasses.
#[export] Instance actor_eq_dec : EqDecision actor.
Proof. solve_decision. Defined.

Section Pipeline.
Context {W S : Type} `{StreamServer S} `{RedisConn W S} `{EventEnv W} `{DbConn W} `{LoopEnv (bool * W)}.
Variable session_factory_getter : Py (bool * W) unit.
Variable producer_getter : Py (bool * W) EventProducer.
Variables (batch_size : Z) (retry_policy : option RetryPolicy).
Variable on_dead_letter : option (outbox_row -> Z -> string -> Py W unit).
Variables (p : EventProducer) (loop : nat).
Variables (clock : W -> string) (cfg : consumer_config W).

(** What the group has not been handed yet, and the events its handlers have handled, in order *)
Variables (unread : W -> list (string * fields)) (log : W -> list EventEnvelope).
Variable up : W -> Prop.
Notation pel w := (srv_pel (srv w) (cs_stream cfg) (cs_group cfg)).

Definition parsed (ms : list (string * fields)) : list EventEnvelope := omap (fun m => _parse cfg m.1 m.2) ms.
(** Every event on the way *)
Definition flow (w : W) : list EventEnvelope := log w ++ parsed (unread w).

(** A step that leaves the table alone *)
Definition steady (w w' : W) : Prop := up w' /\ db_table w' = db_table w /\ db_now w <= db_now w'.
Definition still (w w' : W) : Prop := steady w w' /\ unread w' = unread w /\ pel w' = pel w /\ log w' = log w.

(** A message whose handler returns *)
Definition deliverable (m : string * fields) : Prop := exists env h,
  _parse cfg m.1 m.2 = Some env /\ _resolve_handler (cs_handlers cfg) (event_type env) = Ret (Some h) /\
  forall w, up w -> exists w', h env w = (Ret tt, w') /\ steady w w' /\ unread w' = unread w /\ pel w' = pel w /\
    log w' = log w ++ [env].
(** A row that can be read back, is small enough, and whose message has such a handler *)
Definition publishable (r : outbox_row) : Prop :=
  (exists data metadata cid, row_args r = Ret (data, metadata, cid) /\ json_wf data = true /\
     json_wf (JObj (event_metadata metadata cid)) = true /\
     (pr_max_data_bytes p = 0 \/ Z.of_nat (String.length (dumps data)) <= pr_max_data_bytes p)) /\
  forall id f, row_message (pr_source_service p) r f -> deliverable (id, f).

(** The services answer: PostgreSQL commits, Redis executes each command once (and trims
    nothing that the group has not read), the worker's loop is open. *)
Record fault_free : Prop := {
  ff_loop b w : up w -> loop_closed (b, w) loop = false;
  ff_factory b w : up w -> exists b' w', session_factory_getter (b, w) = (Ret tt, (b', w')) /\ still w w';
  ff_producer b w : up w -> exists b' w', producer_getter (b, w) = (Ret p, (b', w')) /\ still w w';
  ff_txn A (f : table -> A * table) w : up w -> exists w',
    db_txn f w = (Ret (fst (f (db_table w))), w') /\ db_table w' = snd (f (db_table w)) /\
    up w' /\ db_now w <= db_now w' /\ unread w' = unread w /\ pel w' = pel w /\ log w' = log w;
  ff_uuid w : up w -> exists eid w', uuid4 w = (Ret eid, w') /\ still w w';
  ff_url : exists u, pr_redis_url p = Some u /\ nonempty u = true /\ require_plain_redis_url u = Ret tt;
  ff_xadd f w : up w -> exists id w', rexec (cmd_xadd (pr_stream_name p) f (Some (pr_maxlen p))) w = (Ret id, w') /\
    steady w w' /\ unread w' = unread w ++ [(id, f)] /\ pel w' = pel w /\ log w' = log w;
  ff_read w : up w -> exists w',
    rexec (cmd_xreadgroup (cs_group cfg) (cs_name cfg) (cs_stream cfg) (cs_batch_size cfg)) w =
      (Ret (take (Z.to_nat (cs_batch_size cfg)) (unread w)), w') /\
    steady w w' /\ unread w' = drop (Z.to_nat (cs_batch_size cfg)) (unread w) /\ log w' = log w /\
    forall id, id ∉ (take (Z.to_nat (cs_batch_size cfg)) (unread w)).*1 -> pel w' !! id = pel w !! id;
  ff_ack id w : up w -> exists n w', rexec (cmd_xack (cs_stream cfg) (cs_group cfg) id) w = (Ret n, w') /\
    steady w w' /\ unread w' = unread w /\ pel w' = base.delete id (pel w) /\ log w' = log w;
  ff_clear id w : up w -> exists w', rs_clear (retry_store cfg) id w = (Ret tt, w') /\ still w w';
}.
Hypothesis Hff : fault_free.
Hypothesis Hmode : cs_payload_mode cfg = false.
Hypothesis Hidem : cs_idempotency cfg = None.

Lemma parsed_app a b : parsed (a ++ b) = parsed a ++ parsed b.
Proof. apply omap_app. Qed.
Lemma parsed_length ms : Forall deliverable ms -> length (parsed ms) = length ms.
Proof.
  induction 1 as [|m ms (env & h & Hp & _) _ IH]; [done |]. unfold parsed in *. cbn. rewrite Hp. cbn. by rewrite IH.
Qed.

(** ** The consumer's side *)

(** The state of the system since the moment when the log had [n] events and [P] was pending *)
Definition Inv (n : nat) (P : gmap string string) (w : W) : Prop :=
  up w /\ Forall deliverable (unread w) /\ (n <= length (log w))%nat /\ pel w ⊆ P.

Lemma message_handled c m w : c_redis c = true -> up w -> deliverable m -> exists w',
  process_and_ack clock cfg m (c, w) = (Ret tt, (c, w')) /\ steady w w' /\ unread w' = unread w /\
  pel w' = base.delete m.1 (pel w) /\ log w' = log w ++ parsed [m].
Proof.
  intros Hc Hw (env & h & Hp & Hr & Hh). destruct (Hh w Hw) as (w1 & E1 & (Hu1 & Ht1 & Hc1) & Hn1 & Hp1 & Hl1).
  assert (Hclear : exists w2, (if c_retry c then rs_clear (retry_store cfg) m.1 else ret tt) w1 = (Ret tt, w2) /\ still w1 w2).
  { destruct (c_retry c); [by apply (ff_clear Hff) |]. exists w1. split; [done |]. by repeat split. }
  destruct Hclear as (w2 & E2 & (Hu2 & Ht2 & Hc2) & Hn2 & Hp2 & Hl2).
  destruct (ff_ack Hff m.1 w2 Hu2) as (n & w3 & E3 & (Hu3 & Ht3 & Hc3) & Hn3 & Hp3 & Hl3).
  exists w3. split_and!; [| | congruence | congruence |].
  - unfold process_and_ack. rewrite (bind_Ret _ _ _ (true, true) (c, w2)).
    + cbn [snd]. unfold _ack, command. cbn [fst]. rewrite Hc. unfold bind, on_snd. cbn [fst snd]. by rewrite E3.
    + apply (handled clock cfg m.1 m.2 env h (c, w) w w2 Hp Hr); [unfold seen_before; by rewrite Hidem |].
      unfold delivery. rewrite (bind_Ret _ _ _ _ _ E1), Hidem. cbn [fst]. by rewrite (bind_Ret _ _ _ tt w1).
  - split_and!; [done | congruence | lia].
  - unfold parsed. cbn. rewrite Hp. cbn. congruence.
Qed.
Lemma messages_handled c P ms : c_redis c = true -> Forall deliverable ms -> forall w, up w ->
  (forall id o, pel w !! id = Some o -> id ∈ ms.*1 \/ P !! id = Some o) -> exists w',
  mfor ms (process_and_ack clock cfg) (c, w) = (Ret tt, (c, w')) /\ steady w w' /\ unread w' = unread w /\
  pel w' ⊆ P /\ log w' = log w ++ parsed ms.
Proof.
  intros Hc. induction 1 as [|m ms Hm _ IH]; intros w Hw Hp.
  - exists w. cbn. split; [done |]. split; [by split_and! |]. split; [done |].
    split; [| by rewrite app_nil_r]. apply map_subseteq_spec. intros id o Ho. by destruct (Hp id o Ho) as [?%elem_of_nil |].
  - destruct (message_handled c m w Hc Hw Hm) as (w1 & E1 & (Hu1 & Ht1 & Hc1) & Hn1 & Hp1 & Hl1).
    destruct (IH w1 Hu1) as (w2 & E2 & (Hu2 & Ht2 & Hc2) & Hn2 & Hp2 & Hl2).
    { intros id o. rewrite Hp1, lookup_delete_Some. intros [Hne Ho]. cbn in Hp. destruct (Hp id o Ho) as [Hi | Hi]; [| by right].
      apply elem_of_cons in Hi as [-> | Hi]; [done | by left]. }
    exists w2. cbn [mfor]. rewrite (bind_Ret _ _ _ _ _ E1). split; [exact E2 |].
    split_and!; [split_and!; [done | congruence | lia] | congruence | done |].
    rewrite Hl2, Hl1, <- app_assoc, <- parsed_app. done.
Qed.
Lemma iteration_handles c n P w : c_redis c = true -> c_running c = true -> Inv n P w -> exists w',
  consume_iteration clock cfg (c, w) = (Ret true, (c, w')) /\ Inv n P w' /\ flow w' = flow w /\
  unread w' = drop (Z.to_nat (cs_batch_size cfg)) (unread w) /\ db_table w' = db_table w /\ db_now w <= db_now w'.
Proof.
  intros Hr Hc (Hu & Hd & Hn & Hpel). destruct (ff_read Hff w Hu) as (w1 & E1 & (Hu1 & Ht1 & Hc1) & Hn1 & Hl1 & Hp1).
  set (ms := take _ (unread w)) in *.
  assert (Hms : Forall deliverable ms) by by apply Forall_take.
  destruct (messages_handled c P ms Hr Hms w1 Hu1) as (w2 & E2 & (Hu2 & Ht2 & Hc2) & Hn2 & Hp2 & Hl2).
  { intros id o Ho. destruct (decide (id ∈ ms.*1)) as [Hi | Hi]; [by left |]. right. rewrite (Hp1 id Hi) in Ho.
    by apply (lookup_weaken _ _ _ _ Ho). }
  assert (E : consume_once clock cfg (c, w) = (Ret tt, (c, w2))).
  { unfold consume_once, command. rewrite (bind_Ret _ _ _ ms (c, w1)); [exact E2 |]. unfold on_snd. cbn. by rewrite E1. }
  exists w2. split_and!.
  - unfold consume_iteration. cbn [fst]. rewrite Hc. cbn [negb]. rewrite E. done.
  - split_and!; [done | rewrite Hn2, Hn1; by apply Forall_drop | rewrite Hl2, Hl1, length_app; lia | done].
  - unfold flow. rewrite Hl2, Hl1, Hn2, Hn1, <- app_assoc, <- parsed_app. subst ms. by rewrite take_drop.
  - by rewrite Hn2.
  - by rewrite Ht2.
  - lia.
Qed.

(** ** The producer's side *)

Lemma connects (c : bool) w : (if c then ret tt else pr_connect (W := W) p) (c, w) = (Ret tt, (true, w)).
Proof.
  destruct (ff_url Hff) as (u & Hu & Hne & Hplain). destruct c; [done |]. cbn. rewrite Hu, Hne. by rewrite Hplain.
Qed.
Lemma row_published r c w : up w -> publishable r -> exists a eid w' id f,
  row_args r = Ret a /\ publish_row (S := S) p r a (c, w) = (Ret eid, (true, w')) /\ steady w w' /\
  unread w' = unread w ++ [(id, f)] /\ row_message (pr_source_service p) r f /\ pel w' = pel w /\ log w' = log w.
Proof.
  intros Hw [(data & metadata & cid & Ea & Hd & Hm & Hsize) _].
  destruct (ff_uuid Hff w Hw) as (eid & w1 & E1 & (Hu1 & Ht1 & Hc1) & Hn1 & Hp1 & Hl1).
  set (f := envelope_fields eid (o_event_type r) (o_tenant_id r) (now_iso w1) (pr_source_service p)
    (match o_actor_id r with Some x => if nonempty x then Some x else None | None => None end) data (event_metadata metadata cid)).
  destruct (ff_xadd Hff f w1 Hu1) as (id & w2 & E2 & (Hu2 & Ht2 & Hc2) & Hn2 & Hp2 & Hl2).
  exists (data, metadata, cid), eid, w2, id, f. split; [done |]. split.
  - unfold publish_row, publish. cbv iota. rewrite (bind_Ret _ _ _ tt (c, w)) by done.
    rewrite (bind_Ret _ _ _ tt (c, w)).
    2: { assert (negb (pr_max_data_bytes p =? 0) && (pr_max_data_bytes p <? Z.of_nat (String.length (dumps data))) = false) as ->; [| done].
         destruct Hsize as [-> | Hs]; [done |]. apply andb_false_iff. right. by apply Z.ltb_ge. }
    rewrite (bind_Ret _ _ _ eid (c, w1)) by (unfold on_snd; cbn; by rewrite E1).
    rewrite (bind_Ret _ _ _ (now_iso w1) (c, w1)) by done. rewrite (bind_Ret _ _ _ c (c, w1)) by done.
    rewrite (bind_Ret _ _ _ tt (true, w1)) by apply connects.
    rewrite (bind_Ret _ _ _ true (true, w1)) by done. cbn [negb].
    rewrite (bind_Ret _ _ _ tt (true, w2)); [done |]. unfold catch, on_snd, bind. cbn [fst snd]. fold f. by rewrite E2.
  - split_and!; [split_and!; [done | congruence | lia] | congruence | | congruence | congruence].
    exists eid, (now_iso w1), data, metadata, cid. done.
Qed.
Lemma flow_grows id f env w w' : log w' = log w -> unread w' = unread w ++ [(id, f)] -> from_flat id f = Ret env ->
  flow w' = flow w ++ [env].
Proof.
  intros Hl Hn Hf. unfold flow. rewrite Hl, Hn, parsed_app, app_assoc. f_equal. unfold parsed, _parse. cbn. by rewrite Hmode, Hf.
Qed.
Lemma still_inv n P w w' : still w w' -> Inv n P w -> Inv n P w'.
Proof. intros ((Hu & _) & Hn & Hp & Hl) (_ & Hd & Hlen & Hpel). unfold Inv. by rewrite Hn, Hp, Hl. Qed.
Lemma still_flow w w' : still w w' -> flow w' = flow w.
Proof. intros (_ & Hn & _ & Hl). unfold flow. by rewrite Hn, Hl. Qed.
Lemma drainer_healthy n P : healthy (S := S) session_factory_getter producer_getter p loop
  (fun st => Inv n P (snd st)) publishable (fun st => flow (snd st)) (carries (pr_source_service p)).
Proof.
  split.
  - intros [b w] (Hu & _). by apply (ff_loop Hff).
  - intros [b w] Hi. destruct (ff_factory Hff b w (proj1 Hi)) as (b' & w' & E & Hs). exists (b', w'). split; [done |].
    split; [split_and!; [by apply (still_inv n P w) | apply Hs | apply Hs] | by apply still_flow].
  - intros [b w] Hi. destruct (ff_producer Hff b w (proj1 Hi)) as (b' & w' & E & Hs). exists (b', w'). split; [done |].
    split; [split_and!; [by apply (still_inv n P w) | apply Hs | apply Hs] | by apply still_flow].
  - intros r [c w] Hi Hr. pose proof Hi as (Hu & Hd & Hn & Hpel).
    destruct (row_published r c w Hu Hr) as (a & eid & w' & id & f & Ea & E & (Hu' & Ht & Hc) & Hn' & Hm & Hp' & Hl').
    exists a, eid, (true, w'). split; [done |]. split; [done |]. split; [split_and!; [| done | done] |].
    + unfold Inv. cbn [snd]. rewrite Hn', Hp', Hl'. split_and!; [done | | done | done]. apply Forall_app. split; [done |].
      constructor; [by apply Hr | done].
    + destruct (row_message_parses _ r f id Hm) as (env & He & Hcar). exists env.
      split; [by apply (flow_grows id f) | exact Hcar].
  - intros A f [b w] (Hu & Hd & Hn & Hpel). destruct (ff_txn Hff A f w Hu) as (w' & E & Ht & Hu' & Hc & Hn' & Hp' & Hl').
    exists w'. split; [done |]. split; [done |]. split; [by unfold Inv; cbn; rewrite Hn', Hp', Hl' |].
    split; [done |]. unfold flow. cbn. by rewrite Hn', Hl'.
Qed.

(** ** Both sides, in any order *)

Notation system := (option nat * bool * cstate * W)%type.
(** A run of the drainer's task, a pass of the consumer's loop *)
Definition act (a : actor) : Py system unit := fun '(l, b, c, w) =>
  match a with
  | DrainerRuns =>
      let '(o, (l', (b', w'))) := _task (S := S) session_factory_getter producer_getter batch_size retry_policy on_dead_letter (l, (b, w)) in
      (match o with Ret _ => Ret tt | Exc e => Exc e end, (l', b', c, w'))
  | ConsumerPasses =>
      let '(o, (c', w')) := consume_iteration clock cfg (c, w) in
      (match o with Ret _ => Ret tt | Exc e => Exc e end, (l, b, c', w'))
  end.
Definition run_schedule (schedule : list actor) : Py system unit := mfor schedule act.
Definition runs_of (schedule : list actor) : nat := length (filter (fun a => a = DrainerRuns) schedule).

Notation ready n P := (OutboxTask.ready (fun st : bool * W => Inv n P (snd st)) publishable).
(** What a schedule with [k] runs of the task did: the rows [rows], each due by the end, became the
    events [l], those due at [T] before any other *)
Definition moved (T : Z) (k : nat) (w w' : W) (rows : table) (l : list EventEnvelope) : Prop :=
  backlog (db_table w) ≡ₚ rows ++ backlog (db_table w') /\ flow w' = flow w ++ l /\
  Forall2 (carries (pr_source_service p)) rows l /\
  (forall r, r ∈ rows -> due (db_now w') r) /\ db_now w <= db_now w' /\
  length (early T (db_table w')) = (length (early T (db_table w)) - k * Z.to_nat batch_size)%nat.

Lemma drainer_runs T n P b c w : ready n P (b, w) -> T <= db_now w -> exists b' w' rows l,
  act DrainerRuns (Some loop, b, c, w) = (Ret tt, (Some loop, b', c, w')) /\ ready n P (b', w') /\ moved T 1 w w' rows l.
Proof.
  intros Hr HT. destruct (task_healthy (S := S) session_factory_getter producer_getter batch_size retry_policy on_dead_letter
    p loop _ publishable _ _ (drainer_healthy n P) T (b, w) Hr HT)
    as (d & [b' w'] & rows & E & Hr' & _ & Hb & Hd & He & _ & Hc & l & Hl & Hf).
  exists b', w', rows, l. unfold act. rewrite E. by split_and!.
Qed.
Lemma consumer_passes T n P b c w : c_redis c = true -> c_running c = true -> ready n P (b, w) -> exists w',
  act ConsumerPasses (Some loop, b, c, w) = (Ret tt, (Some loop, b, c, w')) /\ ready n P (b, w') /\ moved T 0 w w' [] [] /\
  db_table w' = db_table w /\ unread w' = drop (Z.to_nat (cs_batch_size cfg)) (unread w).
Proof.
  intros Hc1 Hc2 (Hi & Hn & Hb). destruct (iteration_handles c n P w Hc1 Hc2 Hi) as (w' & E & Hi' & Hf & Hu & Ht & Hc).
  exists w'. unfold act. rewrite E. split; [done |]. split; [| split; [| done]].
  - split; [exact Hi' |]. cbn [snd] in *. rewrite Ht. split; [exact Hn | exact Hb].
  - split_and!; [by rewrite Ht | rewrite Hf; by rewrite app_nil_r | constructor | by intros r ?%elem_of_nil | done | rewrite Ht; lia].
Qed.
Lemma moved_trans T a b w1 w2 w3 rows1 rows2 l1 l2 : moved T a w1 w2 rows1 l1 -> moved T b w2 w3 rows2 l2 ->
  moved T (a + b) w1 w3 (rows1 ++ rows2) (l1 ++ l2).
Proof.
  intros (Hb1 & Hf1 & Hc1 & Hd1 & Ht1 & He1) (Hb2 & Hf2 & Hc2 & Hd2 & Ht2 & He2). split_and!; [| | | | lia | lia].
  - by rewrite Hb1, Hb2, app_assoc.
  - by rewrite Hf2, Hf1, app_assoc.
  - by apply Forall2_app.
  - intros r [Hr | Hr]%elem_of_app; [| by apply Hd2].
    destruct (Hd1 r Hr) as (? & ? & ?). repeat split; [done | done | lia].
Qed.
Lemma moved_nil T w : moved T 0 w w [] [].
Proof. split_and!; [done | by rewrite app_nil_r | constructor | by intros r ?%elem_of_nil | done | lia]. Qed.
Lemma moved_now T k w w' rows l : moved T k w w' rows l -> T <= db_now w -> T <= db_now w'.
Proof. intros (_ & _ & _ & _ & ? & _) ?. lia. Qed.
Lemma schedule_runs T n P c schedule : c_redis c = true -> c_running c = true -> forall b w, ready n P (b, w) -> T <= db_now w ->
  exists b' w' rows l, run_schedule schedule (Some loop, b, c, w) = (Ret tt, (Some loop, b', c, w')) /\
    ready n P (b', w') /\ moved T (runs_of schedule) w w' rows l.
Proof.
  intros Hc1 Hc2. induction schedule as [|[|] schedule IH]; intros b w Hr HT; unfold run_schedule in *; cbn [mfor].
  - exists b, w, [], []. split; [done |]. split; [done |]. apply moved_nil.
  - destruct (drainer_runs T n P b c w Hr HT) as (b1 & w1 & rows1 & l1 & E1 & Hr1 & Hm1).
    destruct (IH b1 w1 Hr1 (moved_now _ _ _ _ _ _ Hm1 HT)) as (b2 & w2 & rows2 & l2 & E2 & Hr2 & Hm2).
    rewrite (bind_Ret _ _ _ _ _ E1). exists b2, w2, (rows1 ++ rows2), (l1 ++ l2). split; [done |]. split; [done |].
    unfold runs_of. rewrite filter_cons_True by done. by apply (moved_trans T 1 _ w w1).
  - destruct (consumer_passes T n P b c w Hc1 Hc2 Hr) as (w1 & E1 & Hr1 & Hm1 & Ht1 & _).
    destruct (IH b w1 Hr1 (moved_now _ _ _ _ _ _ Hm1 HT)) as (b2 & w2 & rows2 & l2 & E2 & Hr2 & Hm2). rewrite (bind_Ret _ _ _ _ _ E1).
    exists b2, w2, rows2, l2. split; [done |]. split; [done |].
    unfold runs_of. rewrite filter_cons_False by done. by apply (moved_trans T 0 _ w w1 w2 [] rows2 [] l2).
Qed.
Lemma passes_run T n P c j : c_redis c = true -> c_running c = true -> forall b w, ready n P (b, w) ->
  exists w', run_schedule (repeat ConsumerPasses j) (Some loop, b, c, w) = (Ret tt, (Some loop, b, c, w')) /\
    ready n P (b, w') /\ moved T 0 w w' [] [] /\
    length (unread w') = (length (unread w) - j * Z.to_nat (cs_batch_size cfg))%nat.
Proof.
  intros Hc1 Hc2. induction j as [|j IH]; intros b w Hr; unfold run_schedule in *; cbn [repeat mfor].
  - exists w. split; [done |]. split; [done |]. split; [apply moved_nil | lia].
  - destruct (consumer_passes T n P b c w Hc1 Hc2 Hr) as (w1 & E1 & Hr1 & Hm1 & Ht1 & Hu1).
    destruct (IH b w1 Hr1) as (w2 & E2 & Hr2 & Hm2 & Hu2). rewrite (bind_Ret _ _ _ _ _ E1).
    exists w2. split_and!; [done | done | by apply (moved_trans T 0 0 w w1 w2 [] [] [] []) |].
    rewrite Hu2, Hu1, length_drop. lia.
Qed.
Lemma pipeline_schedule_app s1 s2 st st' : run_schedule s1 st = (Ret tt, st') -> run_schedule (s1 ++ s2) st = run_schedule s2 st'.
Proof.
  unfold run_schedule. revert st. induction s1 as [|a s1 IH]; intros st; cbn [mfor app]; [by intros [= ->] |].
  intros ([] & st1 & E & E')%bind_Ret_inv. rewrite (bind_Ret _ _ _ _ _ E). by apply IH.
Qed.
End Pipeline.
Arguments Inv {W S _ _ _ _} _ _ _ _ _ _ _.

(** C4. End to end.  In a fault-free system, take a consumer in flat parse mode without a duplicate
    checker, and let every unread message have a handler that returns, row ids be unique and every
    pending row of the outbox be publishable: readable, small enough, with such a handler.  Let the
    drainer's runs and the consumer's passes follow each other in any order, and then the passes
    be enough for everything on the stream.  Then no step raises, the unread part of the stream is
    empty, nothing became pending in the group, and the handlers have handled, after what they had
    handled before, exactly the messages that were unread at the start, in their order, and one
    event for each row of a part [rows] of the backlog, with the row's content - none twice, and
    every row that is not in [rows] is still in the backlog.  [rows] has only rows that have become due;
    when the runs are enough for the rows that were due at the start, it has all of those, and
    it is the whole backlog if all of it was due; rows backed off past the start may wait. *)
Theorem every_event_is_handled_once {W S} `{StreamServer S} `{RedisConn W S} `{EventEnv W} `{DbConn W} `{LoopEnv (bool * W)}
    session_factory_getter producer_getter batch_size retry_policy on_dead_letter p loop
    clock (cfg : consumer_config W) unread log up b c w schedule j :
  fault_free (S := S) session_factory_getter producer_getter p loop cfg unread log up ->
  cs_payload_mode cfg = false -> cs_idempotency cfg = None -> c_redis c = true -> c_running c = true ->
  up w -> Forall (deliverable (S := S) cfg unread log up) (unread w) ->
  NoDup (map o_id (db_table w)) ->
  (forall r, r ∈ backlog (db_table w) -> publishable (S := S) p cfg unread log up r) ->
  (length (unread w) + length (backlog (db_table w)) <= j * Z.to_nat (cs_batch_size cfg))%nat ->
  exists b' w' rows l,
    run_schedule (S := S) session_factory_getter producer_getter batch_size retry_policy on_dead_letter clock cfg
      (schedule ++ repeat ConsumerPasses j) (Some loop, b, c, w) = (Ret tt, (Some loop, b', c, w')) /\
    unread w' = [] /\
    srv_pel (srv w') (cs_stream cfg) (cs_group cfg) ⊆ srv_pel (srv w) (cs_stream cfg) (cs_group cfg) /\
    log w' = log w ++ parsed cfg (unread w) ++ l /\ Forall2 (carries (pr_source_service p)) rows l /\
    backlog (db_table w) ≡ₚ rows ++ backlog (db_table w') /\
    (forall r, r ∈ rows -> due (db_now w') r) /\
    ((length (filter (due (db_now w)) (db_table w)) <= runs_of schedule * Z.to_nat batch_size)%nat ->
       (forall r, r ∈ backlog (db_table w) -> due (db_now w) r -> r ∈ rows) /\
       ((forall r, r ∈ backlog (db_table w) -> due (db_now w) r) ->
          backlog (db_table w') = [] /\ rows ≡ₚ backlog (db_table w))).
Proof.
  intros Hff Hmode Hidem Hc1 Hc2 Hu Hd Hn Hb Hj. set (P := srv_pel (srv w) (cs_stream cfg) (cs_group cfg)).
  assert (Hr : OutboxTask.ready (fun st : bool * W => Inv cfg unread log up (length (log w)) P (snd st)) (publishable p cfg unread log up) (b, w)).
  { split; [by split_and! |]. split; [exact Hn | exact Hb]. }
  destruct (schedule_runs _ _ batch_size retry_policy on_dead_letter p loop clock cfg unread log up Hff Hmode Hidem
    (db_now w) (length (log w)) P c schedule Hc1 Hc2 b w Hr ltac:(done)) as (b1 & w1 & rows & l & E1 & Hr1 & Hm1).
  destruct (passes_run session_factory_getter producer_getter batch_size retry_policy on_dead_letter p loop clock cfg unread log up Hff
    Hidem (db_now w) (length (log w)) P c j Hc1 Hc2 b1 w1 Hr1) as (w2 & E2 & Hr2 & Hm2 & Hu2).
  destruct (moved_trans batch_size p cfg unread log (db_now w) _ _ w w1 w2 rows [] l [] Hm1 Hm2) as (Hb3 & Hf3 & Hc3 & Hd3 & _ & He3).
  rewrite !app_nil_r, Nat.add_0_r in *.
  assert (Hlen : forall w0, Inv cfg unread log up (length (log w)) P w0 ->
            length (flow cfg unread log w0) = (length (log w0) + length (unread w0))%nat).
  { intros w0 (_ & Hd0 & _). unfold flow. rewrite length_app. by erewrite parsed_length by exact Hd0. }
  assert (Hun : unread w2 = []).
  { apply nil_length_inv. rewrite Hu2. destruct Hr1 as ((Hu1 & Hd1 & Hlog & Hp1) & _).
    pose proof (Hlen w1 ltac:(by split_and!)) as L1. pose proof (Hlen w (proj1 Hr)) as L0. cbn [snd] in *.
    destruct Hm1 as (Hb1 & Hf1 & Hc1' & _). rewrite Hf1, length_app in L1. apply Permutation_length in Hb1. rewrite length_app in Hb1.
    pose proof (Forall2_length _ _ _ Hc1'). cbn [snd] in *. lia. }
  exists b1, w2, rows, l. split; [rewrite (pipeline_schedule_app _ _ _ _ _ _ _ _ _ _ _ E1); exact E2 |].
  split; [done |]. split; [apply Hr2 |].
  split; [unfold flow in Hf3; rewrite Hun in Hf3; cbn in Hf3; by rewrite app_nil_r, <- app_assoc in Hf3 |].
  split; [done |]. split; [done |]. split; [done |]. intros Hk. by apply (early_served (db_now w) (db_table w) (db_table w2) rows (runs_of schedule * Z.to_nat batch_size)).
Qed.

(** ** Witness: two rows and an unread message, steps of one *)

Record logged := mkLogged { lg_world : oworld; lg_log : list EventEnvelope }.
Definition on_world {A} (c : Py oworld A) : Py logged A := fun w =>
  let (o, w') := c (lg_world w) in (o, mkLogged w' (lg_log w)).
#[export] Instance logged_redis : RedisConn logged smem := {
  rexec A c := on_world (rexec c);
  aclose := on_world (aclose (S := smem));
  srv w := srv (lg_world w);
  wall w := wall (S := smem) (lg_world w);
}.
#[export] Instance logged_env : EventEnv logged := { uuid4 := on_world uuid4; now_iso w := now_iso (lg_world w) }.
#[export] Instance logged_db : DbConn logged := { db_txn A f := on_world (db_txn f); db_table w := db_table (lg_world w); db_now w := db_now (lg_world w) }.
#[export] Instance logged_loops : LoopEnv (bool * logged) := {
  new_event_loop := ret 1%nat;
  set_event_loop _ := ret tt;
  loop_closed _ _ := false;
  pending_tasks _ _ := [];
  cancel_task _ := ret tt;
  gather_on _ _ := ret tt;
  close_loop _ := ret tt;
}.
Definition logging_handler : handler logged := fun env w => (Ret tt, mkLogged (lg_world w) (lg_log w ++ [env])).
Definition logging_consumer : consumer_config logged :=
  mkConsumer "bus" "g" "c1" 1 (mkRetryPolicy 3 2 30) None false 30000 1000 86400000 [("lead.*", logging_handler)].
Definition group_unread (s : smem) : list (string * fields) :=
  drop (sg_read (group_of s "bus" "g")) (ss_entries (stream_of s "bus")).
Definition good_server (s : smem) : Prop :=
  sm_mem s = mem0 /\ (sg_read (group_of s "bus" "g") <= length (ss_entries (stream_of s "bus")))%nat.
Definition unread_of (w : logged) : list (string * fields) := group_unread (srv w).
Definition answering (w : logged) : Prop :=
  ow_db_up (lg_world w) = [] /\ cn_links (ow_conn (lg_world w)) = [] /\ good_server (srv w).
Definition with_server (s : smem) (w : logged) : logged :=
  let v := lg_world w in
  mkLogged (mkOworld (mkConn s (cn_wall (ow_conn v)) (cn_links (ow_conn v))) (ow_table v) (ow_next_id v) (ow_db_up v)) (lg_log w).
Lemma logged_exec {A} (c : Srv smem A) w a s' : answering w -> c (srv w) = (Ret a, s') -> good_server s' ->
  rexec c w = (Ret a, with_server s' w) /\ steady answering w (with_server s' w).
Proof.
  destruct w as [[[s t ls] tb n us] l]. intros (Hu & Hl & _) E Hs. cbn in *. subst. split; [| by repeat split; try apply Hs].
  unfold on_world, on_conn, with_server. cbn. by rewrite E.
Qed.

Lemma drop_taken {A} n k (l : list A) : drop (n + length (take k (drop n l))) l = drop k (drop n l).
Proof.
  rewrite <- drop_drop. generalize (drop n l). intros m. destruct (decide (k <= length m)%nat).
  - by rewrite length_take_le.
  - by rewrite take_ge, !drop_ge by lia.
Qed.
(** The server's side of the three stream commands *)
Lemma smem_xadd f m (s : smem) : exists id s', cmd_xadd "bus" f m s = (Ret id, s') /\ sm_mem s' = sm_mem s /\
  ss_entries (stream_of s' "bus") = ss_entries (stream_of s "bus") ++ [(id, f)] /\ group_of s' "bus" "g" = group_of s "bus" "g".
Proof.
  eexists _, _. split; [reflexivity |]. unfold group_of, stream_of. cbn. by rewrite lookup_insert_eq.
Qed.
Lemma smem_set_group x (s : smem) : sm_mem (set_group "bus" "g" x s) = sm_mem s /\
  ss_entries (stream_of (set_group "bus" "g" x s) "bus") = ss_entries (stream_of s "bus") /\
  group_of (set_group "bus" "g" x s) "bus" "g" = x.
Proof. split; [done |]. split; [apply entries_set |]. by rewrite group_of_set, bool_decide_true. Qed.

Lemma logging_fault_free :
  fault_free (S := smem) (ret tt) (ret demo_bus) demo_bus 1 logging_consumer unread_of lg_log answering.
Proof.
  assert (Hsame : forall w, answering w -> still logging_consumer unread_of lg_log answering w w)
    by (intros w Hw; by repeat split; try apply Hw).
  split; try done.
  - intros b w Hw. exists b, w. split; [done | by apply Hsame].
  - intros b w Hw. exists b, w. split; [done | by apply Hsame].
  - intros A f [[[s t ls] tb n us] l] (Hu & Hl & Hs). cbn in *. subst. destruct (f tb) as [a t'] eqn:E.
    eexists. split; [unfold on_world; cbn; by rewrite E |]. cbn. by split_and!.
  - intros [[[s t ls] tb n us] l] (Hu & Hl & Hs). cbn in *. subst. eexists _, _. split; [reflexivity |].
    by repeat split; try apply Hs.
  - by exists "redis://bus".
  - intros f w Hw. pose proof Hw as (_ & _ & Hm & Hr). destruct (smem_xadd f (Some 100000) (srv w)) as (id & s' & E & Em & Ee & Eg).
    destruct (logged_exec _ w id s' Hw E) as [Ex Hst]; [split; [congruence | rewrite Eg, Ee, length_app; lia] |].
    exists id, (with_server s' w). split; [exact Ex |]. split; [exact Hst |].
    cbn. unfold unread_of, group_unread. cbn. rewrite Ee, Eg. split; [by apply drop_app_le |]. done.
  - intros w Hw. pose proof Hw as (_ & _ & Hm & Hr). set (x := group_of (srv w) "bus" "g") in *.
    set (ms := take (Z.to_nat 1) (group_unread (srv w))).
    destruct (smem_set_group (mkGroup (sg_read x + length ms) (own "c1" (srv_now (srv w)) ms (sg_pel x))
      (<["c1" := srv_now (srv w)]> (sg_names x))) (srv w)) as (Em & Ee & Eg).
    set (s' := set_group "bus" "g" _ (srv w)) in *.
    assert (Hlen : (length ms <= length (ss_entries (stream_of (srv w) "bus")) - sg_read x)%nat).
    { subst ms. unfold group_unread. rewrite length_take, length_drop. fold x. lia. }
    assert (E : cmd_xreadgroup "g" "c1" "bus" 1 (srv w) = (Ret ms, s')) by (cbn -[Z.to_nat]; unfold s'; by f_equal).
    destruct (logged_exec (cmd_xreadgroup "g" "c1" "bus" 1) w ms s' Hw E) as [Ex Hst];
      [split; [by rewrite Em | rewrite Eg, Ee; cbn [sg_read]; lia] |].
    exists (with_server s' w). split; [exact Ex |]. split; [exact Hst |]. cbn -[Z.to_nat]. split; [| split; [done |]].
    + unfold unread_of, group_unread. cbn -[Z.to_nat]. rewrite Eg, Ee. apply drop_taken.
    + intros id Hid. rewrite Eg. cbn. by rewrite !lookup_fmap, own_notin.
  - intros id w Hw. pose proof Hw as (_ & _ & Hm & Hr). set (x := group_of (srv w) "bus" "g") in *.
    destruct (smem_set_group (mkGroup (sg_read x) (base.delete id (sg_pel x)) (sg_names x)) (srv w)) as (Em & Ee & Eg).
    set (s' := set_group "bus" "g" _ (srv w)) in *.
    assert (E : exists n, cmd_xack "bus" "g" id (srv w) = (Ret n, s')) by (eexists; cbn; unfold s'; f_equal; reflexivity).
    destruct E as [n E]. destruct (logged_exec (cmd_xack "bus" "g" id) w n s' Hw E) as [Ex Hst]; [split; [by rewrite Em | rewrite Eg, Ee; exact Hr] |].
    exists n, (with_server s' w). split; [exact Ex |]. split; [exact Hst |]. cbn. split; [| split; [| done]].
    + unfold unread_of, group_unread. cbn. by rewrite Eg, Ee.
    + rewrite Eg. cbn. by rewrite fmap_delete.
  - intros id w Hw. pose proof Hw as (_ & _ & Hm & Hr).
    assert (E : cmd_hdel (rs_key (retry_store logging_consumer)) id (srv w) = (Ret 0, srv w)).
    { destruct (srv w) as [m ss]. cbn in Hm. subst m. reflexivity. }
    destruct (logged_exec _ w 0 (srv w) Hw E) as [Ex Hst]; [by split |].
    exists (with_server (srv w) w). split; [unfold rs_clear; by rewrite (bind_Ret _ _ _ _ _ Ex) |]. by split.
Qed.

Definition logging_rows : table := [demo_row; second_row].
Definition before : logged :=
  mkLogged (mkOworld (mkConn (mkSmem mem0 {["bus" := mkStream [("1-0", demo_message)] ∅]}) 5 []) logging_rows 1 []) [].
Lemma logging_deliverable m env : _parse logging_consumer m.1 m.2 = Some env ->
  _resolve_handler (cs_handlers logging_consumer) (event_type env) = Ret (Some logging_handler) ->
  deliverable (S := smem) logging_consumer unread_of lg_log answering m.
Proof.
  intros Hp Hr. exists env, logging_handler. split; [done |]. split; [done |].
  intros w Hw. eexists. split; [reflexivity |]. by repeat split; try apply Hw.
Qed.
Lemma logging_publishable r : o_data r = ColText "{}" -> o_metadata r = ColNull -> startswith (o_event_type r) "lead" = true ->
  publishable (S := smem) demo_bus logging_consumer unread_of lg_log answering r.
Proof.
  intros Hd Hm Ht. split.
  - exists (JObj []), [], JNull. unfold row_args, row_data, row_metadata. rewrite Hd, Hm. split_and!; [done | done | done |]. right. apply Z.leb_le. vm_compute. reflexivity.
  - intros id f (eid & ts & data & metadata & cid & _ & Wd & Wm & ->).
    eapply logging_deliverable; cbn [fst snd].
    + unfold _parse. cbn [cs_payload_mode logging_consumer]. by rewrite from_flat_envelope.
    + cbn [event_type sent_envelope]. unfold _resolve_handler. cbn -[startswith endswith strip_suffix_len].
      case_bool_decide; [done |]. change (endswith "lead.*" ".*") with true.
      change (strip_suffix_len 2 "lead.*") with "lead". by rewrite Ht.
Qed.
Lemma every_event_is_handled_once_witness :
  exists b' w', run_schedule (S := smem) (ret tt) (ret demo_bus) 1 None None (fun _ => "0") logging_consumer
      ([ConsumerPasses; DrainerRuns; ConsumerPasses; DrainerRuns] ++ repeat ConsumerPasses 3)
      (Some 1%nat, false, mkCstate true true true true, before) =
    (Ret tt, (Some 1%nat, b', mkCstate true true true true, w')) /\
  backlog (db_table w') = [] /\ length (lg_log w') = 3%nat.
Proof.
  destruct (every_event_is_handled_once (S := smem) (ret tt) (ret demo_bus) 1 None None demo_bus 1 (fun _ => "0") logging_consumer
    unread_of lg_log answering false (mkCstate true true true true) before [ConsumerPasses; DrainerRuns; ConsumerPasses; DrainerRuns] 3)
    as (b' & w' & rows & l & E & _ & _ & Hl & Hf & _ & _ & Hall).
  - exact logging_fault_free.
  - reflexivity.
  - reflexivity.
  - reflexivity.
  - reflexivity.
  - repeat split. vm_compute. lia.
  - constructor; [| constructor]. eapply logging_deliverable; vm_compute; reflexivity.
  - apply (bool_decide_unpack _). vm_compute. exact I.
  - intros r Hr. assert (Hin : r ∈ logging_rows) by exact Hr. set_unfold in Hin.
    destruct Hin as [-> | [-> | []]]; by apply logging_publishable.
  - vm_compute. lia.
  - destruct Hall as [_ Hall]; [vm_compute; lia |]. destruct Hall as [Hb Hp].
    { intros r Hr. assert (Hin : r ∈ logging_rows) by exact Hr. set_unfold in Hin.
      destruct Hin as [-> | [-> | []]]; repeat split; vm_compute; congruence. }
    exists b', w'. split; [exact E |]. split; [exact Hb |]. rewrite Hl, !length_app, <- (Forall2_length _ _ _ Hf).
    by rewrite (Permutation_length Hp).
Defined.
