(* ===== verification/Purge.v ===== *)
(** * Draining a backlog of pending entries

    Models scripts/purge_stuck_pel.py.  The two commands it uses beyond [StreamServer] - XPENDING over a
    whole group and XACK of several ids - are an interface ([PurgeServer]) with their documentation as
    laws and a reference implementation.  The [while True] loop takes a number of rounds; [None] is what
    is left when they run out. *)

From S2P Require Import Prelude Json Errors Redis Streams.
Local Open Scope Z_scope.

Class PurgeServer (S : Type) `{StreamServer S} := {
  cmd_xpending_all : string -> string -> Z -> Srv S (list string);      (* [min="-", max="+", count] *)
  cmd_xack_ids : string -> string -> list string -> Srv S Z;
}.
Definition without (ids : list string) (pel : gmap string string) : gmap string string := filter (fun x => x.1 ∉ ids) pel.
(** Commands that change one group's pending list at most *)
Definition only_group {S} `{StreamServer S} (st g : string) (s s' : S) : Prop :=
  (forall st', srv_entries s' st' = srv_entries s st') /\
  (forall st' g', ~ (st' = st /\ g' = g) -> srv_pel s' st' g' = srv_pel s st' g').
Class PurgeDoc (S : Type) `{PurgeServer S} : Prop := {
  xpending_all_frame st g n : keeps_streams (cmd_xpending_all st g n);
  xpending_all_doc st g n s ids s' : 0 < n -> cmd_xpending_all st g n s = (Ret ids, s') ->
    NoDup ids /\ (forall id, id ∈ ids -> id ∈ dom (srv_pel s st g)) /\
    Z.of_nat (length ids) = Z.min n (Z.of_nat (size (srv_pel s st g)));
  xack_ids_frame st g ids s : only_group st g s (snd (cmd_xack_ids st g ids s));
  xack_ids_doc st g ids s n s' : cmd_xack_ids st g ids s = (Ret n, s') -> srv_pel s' st g = without ids (srv_pel s st g);
  xack_ids_error st g ids s e s' : cmd_xack_ids st g ids s = (Exc e, s') -> same_streams s s';
}.

Section Purge.
Context {W S : Type} `{PurgeServer S} `{RedisConn W S}.

Fixpoint purge_pending (rounds : nat) (stream group : string) (acked : Z) : Py W (option Z) :=
  match rounds with
  | O => ret None
  | Datatypes.S rounds =>
      let! ids := rexec (cmd_xpending_all stream group 500) in
      match ids with
      | [] => ret (Some acked)
      | _ => let! n := rexec (cmd_xack_ids stream group ids) in
             if Z.of_nat (length ids) <? 500 then ret (Some (acked + n))
             else purge_pending rounds stream group (acked + n)
      end
  end.
Fixpoint delete_empty (stream group : string) (cs : list consumer_info) (deleted : Z) : Py W Z :=
  match cs with
  | [] => ret deleted
  | c :: cs =>
      if ci_pending c =? 0 then
        do! rexec (cmd_xgroup_delconsumer stream group (ci_name c)) in delete_empty stream group cs (deleted + 1)
      else delete_empty stream group cs deleted
  end.
Definition _purge_group (rounds : nat) (stream group : string) : Py W (option (Z * Z)) :=
  let! acked := purge_pending rounds stream group 0 in
  match acked with
  | None => ret None
  | Some acked =>
      let! cs := rexec (cmd_xinfo_consumers stream group) in
      let! deleted := delete_empty stream group cs 0 in
      ret (Some (acked, deleted))
  end.
(** [main] inside its [try]: the groups named on the command line, or all of the stream's; the printed
    lines are left out, the totals are the result. *)
Fixpoint purge_groups (rounds : nat) (stream : string) (groups : list string) (total : Z * Z) : Py W (option (Z * Z)) :=
  match groups with
  | [] => ret (Some total)
  | g :: groups =>
      let! r := _purge_group rounds stream g in
      match r with
      | None => ret None
      | Some (acked, deleted) => purge_groups rounds stream groups (total.1 + acked, total.2 + deleted)
      end
  end.
Definition main (rounds : nat) (url : option string) (argv : list string) (aclose : Py W unit) : Py W (option (Z * Z)) :=
  if match url with Some u => nonempty u | None => false end then
    let stream := default "tr_event_bus" (head argv) in
    finally
      (let! groups := match tail argv with
                      | [] => let! gs := rexec (cmd_xinfo_groups stream) in ret (map gi_name gs)
                      | named => ret named
                      end in
       purge_groups rounds stream groups (0, 0))
      aclose
  else raise (PyErr SystemExit "REDIS_URL not set").
End Purge.

(** ** The commands on a connection that resends *)

Section Spec.
Context {W S : Type} `{RedisDoc S, !StreamServer S, !StreamDoc S, !PurgeServer S, !PurgeDoc S} `{RedisConn W S, !RedisConnDoc W S}.
Variables stream group : string.
Notation pel s := (srv_pel s stream group).

Lemma rexec_preserves {A} (c : Srv S A) (P : S -> Prop) w : P (srv w) -> (forall s, P s -> P (snd (c s))) ->
  P (srv (snd (rexec c w))) /\ forall a, fst (rexec c w) = Ret a -> exists s, P s /\ c s = (Ret a, srv (snd (rexec c w))).
Proof.
  intros Hw Hc. assert (Hr : forall n, P (runs n c (srv w))) by (intros n; by apply runs_fix).
  destruct (rexec c w) as [[a|e] w'] eqn:E; cbn.
  - apply rexec_ret in E as [n E]. specialize (Hc _ (Hr n)). rewrite E in Hc. split; [done |].
    intros a' [= <-]. eauto.
  - apply rexec_exc in E as [n ->]. split; [apply Hr | done].
Qed.
(** The part of the server that the purge of one group leaves alone, and the group's list, which only shrinks *)
Definition shrinks (s s' : S) : Prop := only_group stream group s s' /\ pel s' ⊆ pel s.
Lemma shrinks_refl s : shrinks s s.
Proof. by repeat split. Qed.
Lemma shrinks_trans s1 s2 s3 : shrinks s1 s2 -> shrinks s2 s3 -> shrinks s1 s3.
Proof.
  intros [[He Hp] Hs] [[He' Hp'] Hs']. split; [| by transitivity (pel s2)].
  split; intros; [by rewrite He' | rewrite Hp', Hp; done].
Qed.
Lemma same_shrinks s s' : same_streams s s' -> shrinks s s'.
Proof. intros [He Hp]. split; [split |]; intros; by rewrite ?He, ?Hp. Qed.

Lemma without_subseteq ids p : without ids p ⊆ p.
Proof. apply map_filter_subseteq. Qed.
Lemma without_idem ids p : without ids (without ids p) = without ids p.
Proof. unfold without. rewrite map_filter_filter. apply map_filter_ext. naive_solver. Qed.
Lemma size_without ids p : NoDup ids -> (forall id, id ∈ ids -> id ∈ dom p) -> size (without ids p) = (size p - length ids)%nat.
Proof.
  intros Hn Hi. rewrite <- !size_dom. assert (dom (without ids p) = dom p ∖ list_to_set (C := gset string) ids) as ->.
  { apply set_eq. intros id. unfold without. rewrite elem_of_difference, elem_of_list_to_set, !elem_of_dom. split.
    - intros [x [Hx Hid]%map_lookup_filter_Some]. split; [by exists x | done].
    - intros [[x Hx] Hid]. exists x. by apply map_lookup_filter_Some. }
  rewrite size_difference, size_list_to_set by (try set_solver; done). done.
Qed.

Lemma pending_read w : let r := rexec (cmd_xpending_all stream group 500) w in
  same_streams (srv w) (srv (snd r)) /\ forall ids, fst r = Ret ids ->
    NoDup ids /\ (forall id, id ∈ ids -> id ∈ dom (pel (srv w))) /\
    Z.of_nat (length ids) = Z.min 500 (Z.of_nat (size (pel (srv w)))).
Proof.
  intros r. destruct (rexec_preserves (cmd_xpending_all stream group 500) (same_streams (srv w)) w) as [Hs Hr].
  - by split.
  - intros s [He Hp]. destruct (xpending_all_frame stream group 500 s) as [He' Hp'].
    split; intros; [by rewrite He' | by rewrite Hp'].
  - split; [exact Hs |]. intros ids Hids. destruct (Hr ids Hids) as (s & [_ Hp] & E).
    apply xpending_all_doc in E; [| done]. by rewrite Hp in E.
Qed.
Lemma pending_acked ids w : let r := rexec (cmd_xack_ids stream group ids) w in
  shrinks (srv w) (srv (snd r)) /\ forall n, fst r = Ret n -> pel (srv (snd r)) = without ids (pel (srv w)).
Proof.
  cbn zeta. set (p := pel (srv w)).
  destruct (rexec_preserves (cmd_xack_ids stream group ids)
    (fun s => only_group stream group (srv w) s /\ (pel s = p \/ pel s = without ids p)) w) as [[Ho Hp] Hr].
  - split; [by split | by left].
  - intros s [Ho Hp]. split.
    + destruct Ho as [He Ho], (xack_ids_frame stream group ids s) as [He' Ho'].
      split; intros; [by rewrite He' | by rewrite Ho', Ho].
    + destruct (cmd_xack_ids stream group ids s) as [[n|e] s'] eqn:E; cbn.
      * apply xack_ids_doc in E. right. rewrite E. destruct Hp as [-> | ->]; [done | apply without_idem].
      * apply xack_ids_error in E as [_ E]. by rewrite E.
  - split.
    + split; [exact Ho |]. destruct Hp as [-> | ->]; [done | apply without_subseteq].
    + intros n Hn. destruct (Hr n Hn) as (s & [_ Hps] & E). apply xack_ids_doc in E. transitivity (without ids (pel s)); [exact E |].
      destruct Hps as [-> | ->]; [done | apply without_idem].
Qed.

Definition purged {A} (w : W) (r : outcome exn (option A) * W) : Prop :=
  shrinks (srv w) (srv (snd r)) /\ fst r <> Ret None /\ (forall a, fst r = Ret (Some a) -> pel (srv (snd r)) = ∅).
Lemma purge_pending_empties rounds : forall acked w, (size (pel (srv w)) < 500 * rounds)%nat ->
  purged w (purge_pending rounds stream group acked w).
Proof.
  induction rounds as [|rounds IH]; intros acked w Hw; [lia |]. cbn [purge_pending]. unfold bind at 1.
  destruct (pending_read w) as [Hs Hids]. destruct (rexec (cmd_xpending_all _ _ _) w) as [[ids|e] w1]; cbn [fst snd] in *.
  2: { split; [by apply same_shrinks | by split]. }
  destruct (Hids ids eq_refl) as (Hn & Hi & Hl). destruct Hs as [He Hp].
  pose proof (same_shrinks _ _ (conj He Hp)) as Hs1. rewrite <- (Hp stream group) in *. clear Hids He Hp.
  assert (Hempty : length ids = size (pel (srv w1)) -> without ids (pel (srv w1)) = ∅).
  { intros E. apply map_size_empty_iff. rewrite size_without by done. lia. }
  destruct ids as [|id ids']; [split; [exact Hs1 |]; split; [done |]; intros a _; apply map_size_empty_iff; cbn in Hl |- *; lia |].
  set (ids := id :: ids') in *. unfold bind at 1. destruct (pending_acked ids w1) as [Hs2 Hack].
  destruct (rexec (cmd_xack_ids _ _ _) w1) as [[n|e] w2]; cbn [fst snd] in *.
  2: { split; [by eapply shrinks_trans | by split]. }
  specialize (Hack n eq_refl). pose proof (shrinks_trans _ _ _ Hs1 Hs2) as Hs3.
  destruct (Z.ltb_spec (Z.of_nat (length ids)) 500).
  - split; [exact Hs3 |]. split; [done |]. intros a _. cbn [snd ret]. rewrite Hack. apply Hempty. lia.
  - assert (Hw2 : (size (pel (srv w2)) < 500 * rounds)%nat) by (rewrite Hack, size_without by done; lia).
    destruct (IH (acked + n) w2 Hw2) as (Hs4 & Hr). split; [by eapply shrinks_trans | exact Hr].
Qed.

Lemma delete_shrinks name w : shrinks (srv w) (srv (snd (rexec (cmd_xgroup_delconsumer stream group name) w))).
Proof.
  apply (rexec_preserves (cmd_xgroup_delconsumer stream group name) (shrinks (srv w)) w); [apply shrinks_refl |].
  intros s Hs. apply (shrinks_trans _ _ _ Hs). destruct (cmd_xgroup_delconsumer _ _ _ s) as [[n|e] s'] eqn:E; cbn.
  - apply delconsumer_doc in E as (_ & He & Hp). split; [split; [done |] |].
    + intros st' g' Hn. rewrite Hp. by rewrite bool_decide_false.
    + rewrite Hp, bool_decide_true by done. apply map_filter_subseteq.
  - by apply same_shrinks, (delconsumer_error stream group name s e s').
Qed.
Lemma delete_empty_shrinks cs : forall n w, shrinks (srv w) (srv (snd (delete_empty stream group cs n w))).
Proof.
  induction cs as [|c cs IH]; intros n w; cbn [delete_empty]; [apply shrinks_refl |].
  case_match; [| apply IH]. unfold bind. pose proof (delete_shrinks (ci_name c) w) as Hd.
  destruct (rexec _ w) as [[x|e] w1]; cbn in *; [| done]. by eapply shrinks_trans.
Qed.
Lemma info_shrinks w : shrinks (srv w) (srv (snd (rexec (cmd_xinfo_consumers stream group) w))).
Proof.
  apply (rexec_preserves (cmd_xinfo_consumers stream group) (shrinks (srv w)) w); [apply shrinks_refl |].
  intros s Hs. apply (shrinks_trans _ _ _ Hs), same_shrinks, info_frame.
Qed.
Lemma shrinks_empty s s' : shrinks s s' -> pel s = ∅ -> pel s' = ∅.
Proof. intros [_ Hs] E. rewrite E in Hs. apply map_eq. intros i. rewrite lookup_empty. apply eq_None_not_Some. intros [x Hx]. by apply (lookup_weaken _ _ _ _ Hx) in Hs. Qed.
End Spec.

(** C33. The purge of a group's backlog ends: one round per full 500 pending entries and one more is enough.  When it
    reports success nothing is pending in the group, also on a connection that resends commands whose
    reply was lost; and whether it succeeds or breaks off, no entry of a stream is touched, no other
    group's list changes and nothing becomes pending. *)
Theorem purge_empties_the_group {W S} `{RedisDoc S, !StreamServer S, !StreamDoc S, !PurgeServer S, !PurgeDoc S}
    `{RedisConn W S, !RedisConnDoc W S} rounds stream group (w : W) :
  (size (srv_pel (srv w) stream group) < 500 * rounds)%nat ->
  let r := _purge_group rounds stream group w in
  fst r <> Ret None /\
  (forall counts, fst r = Ret (Some counts) -> srv_pel (srv (snd r)) stream group = ∅) /\
  only_group stream group (srv w) (srv (snd r)) /\
  srv_pel (srv (snd r)) stream group ⊆ srv_pel (srv w) stream group.
Proof.
  intros Hw r. enough (Hr : purged stream group w r) by (destruct Hr as ([] & ? & ?); done).
  subst r. unfold _purge_group. unfold bind at 1.
  destruct (purge_pending_empties stream group rounds 0 w Hw) as (Hs & Hn & He).
  destruct (purge_pending rounds stream group 0 w) as [[[acked|]|e] w1]; cbn [fst snd] in *; [| done | by split].
  specialize (He acked eq_refl). unfold bind.
  pose proof (info_shrinks stream group w1) as Hi. destruct (rexec (cmd_xinfo_consumers _ _) w1) as [[cs|e] w2]; cbn [fst snd] in *.
  2: { split; [by eapply shrinks_trans | by split]. }
  pose proof (delete_empty_shrinks stream group cs 0 w2) as Hd.
  assert (Hall : shrinks stream group (srv w) (srv (snd (delete_empty stream group cs 0 w2)))).
  { eapply shrinks_trans; [exact Hs |]. by eapply shrinks_trans. }
  pose proof (shrinks_empty stream group _ _ Hd (shrinks_empty stream group _ _ Hi He)) as Hp.
  destruct (delete_empty stream group cs 0 w2) as [[d|e] w3]; cbn [fst snd ret] in *;
    (split; [exact Hall | by split]).
Qed.

(** ** The reference server *)

#[export] Instance smem_purge : PurgeServer smem := {
  cmd_xpending_all st g n s := (Ret (take (Z.to_nat n) (map_to_list (sg_pel (group_of s st g))).*1), s);
  cmd_xack_ids st g ids s :=
    let x := group_of s st g in
    (Ret (Z.of_nat (length (filter (fun id => is_Some (sg_pel x !! id)) ids))),
     set_group st g (mkGroup (sg_read x) (filter (fun e => e.1 ∉ ids) (sg_pel x)) (sg_names x)) s);
}.
#[export] Instance smem_purge_doc : PurgeDoc smem.
Proof.
  split.
  - done.
  - intros st g n s ids s' Hn. cbn. intros [= <- <-]. split_and!.
    + eapply sublist_NoDup; [apply (NoDup_fst_map_to_list (sg_pel (group_of s st g))) | apply sublist_take].
    + intros id Hid. apply subseteq_take in Hid. apply list_elem_of_fmap in Hid as ([i x] & -> & Hx).
      apply elem_of_map_to_list in Hx. rewrite dom_fmap. by apply elem_of_dom_2 in Hx.
    + rewrite length_take, length_fmap, length_map_to_list, map_size_fmap. lia.
  - intros st g ids s. split.
    + intros st'. apply entries_set.
    + intros st' g' Hn. cbn. rewrite pel_set. by rewrite bool_decide_false.
  - intros st g ids s n s'. cbn. intros [= <- <-]. rewrite pel_set, bool_decide_true by done. cbn.
    unfold without. by rewrite map_filter_fmap.
  - done.
Qed.

Definition message (n : string) : string * fields := (n, [("event_type", "lead.created")]).
(** Two messages; [dead] left the first unacknowledged, [live] has acknowledged what it read. *)
Definition backlog : smem :=
  mkSmem (mkMem ∅ 0) {["bus" := mkStream [message "1-0"; message "2-0"]
    {["g" := mkGroup 1 {["1-0" := ("dead", 0)]} {["dead" := 0; "live" := 0]}]}]}.
Definition backlogged : conn smem := mkConn backlog 0 [].
Lemma purge_empties_the_group_witness :
  fst (_purge_group 1 "bus" "g" backlogged) = Ret (Some (1, 2)) /\
  srv_pel (srv backlogged) "bus" "g" <> ∅ /\
  srv_pel (srv (snd (_purge_group 1 "bus" "g" backlogged))) "bus" "g" = ∅.
Proof.
  assert (Hs : (size (srv_pel (srv backlogged) "bus" "g") < 500 * 1)%nat).
  { assert (E : size (srv_pel (srv backlogged) "bus" "g") = 1%nat) by (vm_compute; reflexivity).
    revert E. generalize (size (srv_pel (srv backlogged) "bus" "g")). lia. }
  assert (E : fst (_purge_group 1 "bus" "g" backlogged) = Ret (Some (1, 2))) by (vm_compute; reflexivity).
  split; [exact E |]. split; [vm_compute; discriminate |].
  destruct (purge_empties_the_group 1 "bus" "g" backlogged Hs) as (_ & He & _). exact (He (1, 2) E).
Defined.

(** The purge takes a consumer for empty by what XINFO said: when [live] reads the second message before its
    DELCONSUMER, that message leaves the group's list with the consumer.  No claim and no read returns it
    again, so if [live] dies before it has handled it, nobody does. *)
Lemma purge_drops_a_concurrent_read :
  let w0 : conn smem := mkConn backlog 0 [] in
  let w1 := snd (purge_pending (S := smem) 1 "bus" "g" 0 w0) in
  match rexec (cmd_xinfo_consumers "bus" "g") w1 with
  | (Ret cs, w2) =>
      let '(read, w3) := rexec (W := conn smem) (cmd_xreadgroup "g" "live" "bus" 10) w2 in
      let w4 := snd (delete_empty (S := smem) "bus" "g" cs 0 w3) in
      let later : conn smem := mkConn (srv_tick (100 * 1000000) (cn_srv w4)) 100 [] in
      let '(claimed, w5) := rexec (cmd_xautoclaim "bus" "g" "other" 30000 100) later in
      read = Ret [message "2-0"] /\ claimed = Ret ([], []) /\
      fst (rexec (W := conn smem) (cmd_xreadgroup "g" "other" "bus" 10) w5) = Ret []
  | _ => False
  end.
Proof. vm_compute. repeat split. Qed.
