(* ===== verification/Envelopes.v ===== *)
(** * The declared error shape and what produces it

    Models the response schemas of src/tr_shared/schemas/responses.py, the registration of
    exception handlers (middleware/exception_handlers.py, db/exception_handlers.py) and which of
    them answers an exception.  A class is its qualified name; Starlette picks the handler of
    the first class in the exception's method resolution order that has one. *)

From S2P Require Import Prelude Json Errors DbSession ErrorMiddleware Schemas Contracts.
Local Open Scope Z_scope.

(** ** schemas/responses.py *)

Definition SuccessResponse (T : ty) : ty := TModel false
  [opt_default "status" Str (JStr "success"); opt_default "message" Str (JStr "Operation completed successfully");
   opt "data" T].
Definition ErrorDetail : ty := TOpen [req "message" Str; opt "code" Str; opt "correlation_id" Str].
Definition ErrorEnvelope : ty := TModel false [req "error" ErrorDetail].

(** ** Registration *)

Inductive handler_name :=
| base_api | http_error | request_validation | database_unavailable | pool_exhausted | statement_timeout.
Record fastapi_app := mkApp { error_code_prefix : option string; exception_handlers : list (string * handler_name) }.
Definition add_exception_handler (cls : string) (h : handler_name) (app : fastapi_app) : fastapi_app :=
  mkApp (error_code_prefix app) (dset cls h (exception_handlers app)).
Definition BASE_API := "tr_shared.exceptions.BaseAPIException".
Definition HTTP_EXCEPTION := "starlette.exceptions.HTTPException".
Definition REQUEST_VALIDATION := "fastapi.exceptions.RequestValidationError".
Definition DATABASE_UNAVAILABLE := "tr_shared.db.errors.DatabaseUnavailableError".
Definition POOL_TIMEOUT := "sqlalchemy.exc.TimeoutError".
Definition DATABASE_TIMEOUT := "tr_shared.db.errors.DatabaseTimeoutError".
Definition register_db_exception_handlers (app : fastapi_app) : fastapi_app :=
  add_exception_handler DATABASE_TIMEOUT statement_timeout
    (add_exception_handler POOL_TIMEOUT pool_exhausted
       (add_exception_handler DATABASE_UNAVAILABLE database_unavailable app)).
(** [sqlalchemy]: whether [find_spec] finds it *)
Definition register_exception_handlers (sqlalchemy : bool) (code_prefix : string) (app : fastapi_app)
    : outcome exn fastapi_app :=
  match set_error_code_prefix code_prefix with
  | Exc e => Exc e
  | Ret prefix =>
      let app := mkApp prefix (exception_handlers app) in
      let app := add_exception_handler BASE_API base_api app in
      let app := add_exception_handler HTTP_EXCEPTION http_error app in
      let app := add_exception_handler REQUEST_VALIDATION request_validation app in
      Ret (if sqlalchemy then register_db_exception_handlers app else app)
  end.

(** What an endpoint raises; an API exception comes with the names of its own classes. *)
Inductive raised :=
| RaisedApi (own : list string) (e : BaseAPIException)
| RaisedHttp (own : list string) (status : Z) (detail : string) (headers : option (list (string * string)))
| RaisedValidation (errors : json)
| RaisedDatabase (e : db_error).
Definition mro (x : raised) : list string :=
  match x with
  | RaisedApi own _ => own ++ [BASE_API; "fastapi.exceptions.HTTPException"; HTTP_EXCEPTION; "Exception"]
  | RaisedHttp own _ _ _ => own ++ [HTTP_EXCEPTION; "Exception"]
  | RaisedValidation _ => [REQUEST_VALIDATION; "fastapi.exceptions.ValidationException"; "Exception"]
  | RaisedDatabase (DatabaseUnavailableError _ _) => [DATABASE_UNAVAILABLE; "Exception"]
  | RaisedDatabase (DatabaseTimeoutError _) => [DATABASE_TIMEOUT; "Exception"]
  | RaisedDatabase PoolTimeoutError => [POOL_TIMEOUT; "sqlalchemy.exc.SQLAlchemyError"; "Exception"]
  | RaisedDatabase _ => ["Exception"]
  end.
Fixpoint first_handler (classes : list string) (hs : list (string * handler_name)) : option handler_name :=
  match classes with
  | [] => None
  | c :: classes => match dget c hs with Some h => Some h | None => first_handler classes hs end
  end.
(** A handler on the exception it was registered for; on another it would fail. *)
Definition run_handler (body_allowed : Z -> bool) (app : fastapi_app) (correlation_id : option string) (h : handler_name)
    (x : raised) : outcome exn http_reply :=
  match h, x with
  | base_api, RaisedApi _ e => base_api_exception_handler (error_code_prefix app) correlation_id e
  | http_error, RaisedApi _ e =>
      http_exception_handler body_allowed (error_code_prefix app) correlation_id (status_code e) (error e) (headers e)
  | http_error, RaisedHttp _ status detail hs =>
      http_exception_handler body_allowed (error_code_prefix app) correlation_id status detail hs
  | request_validation, RaisedValidation errors =>
      validation_exception_handler (error_code_prefix app) correlation_id errors
  | database_unavailable, RaisedDatabase (DatabaseUnavailableError _ code) =>
      _database_unavailable (error_code_prefix app) correlation_id code
  | pool_exhausted, RaisedDatabase _ => _pool_exhausted (error_code_prefix app) correlation_id
  | statement_timeout, RaisedDatabase _ => _statement_timeout (error_code_prefix app) correlation_id
  | _, _ => Exc (PyErr AttributeError "the exception has no such attribute")
  end.
(** [None]: no handler; the exception goes on to the error middleware. *)
Definition answer (body_allowed : Z -> bool) (app : fastapi_app) (correlation_id : option string) (x : raised)
    : option (outcome exn http_reply) :=
  (fun h => run_handler body_allowed app correlation_id h x) <$> first_handler (mro x) (exception_handlers app).

(** ** The envelope keeps its declaration *)

Definition detail_fields : list field := fields_of ErrorDetail.
Lemma dget_unknown_part fs k (o : list (string * json)) : k ∉ fs.*1 -> dget k (unknown_part fs o) = dget k o.
Proof.
  intros Hk. unfold unknown_part. induction o as [|[k' v] o IH]; [done |]. rewrite filter_cons. cbn [dget fst].
  case_decide; cbn [dget]; [by rewrite IH |]. rewrite bool_decide_false; [exact IH |]. by intros <-.
Qed.
Lemma dget_app_r {V} k (a b : list (string * V)) : k ∉ a.*1 -> dget k (a ++ b) = dget k b.
Proof.
  intros Hk. induction a as [|[k' v] a IH]; [done |]. cbn in *. rewrite elem_of_cons in Hk.
  rewrite bool_decide_false by naive_solver. naive_solver.
Qed.
Lemma envelope_correlation message code corr ex inner :
  Forall (fun kv => kv.1 ∉ ["message"; "code"; "correlation_id"]) ex ->
  build_error_envelope message code (jopt corr) ex = JObj [("error", JObj inner)] ->
  dget "correlation_id" inner = JStr <$> corr.
Proof.
  unfold build_error_envelope. intros Hex [= <-].
  rewrite dget_fold_fields by (eapply Forall_impl; [exact Hex | set_solver]).
  destruct corr; cbn [jopt add_field]; [by rewrite dget_dset_eq |]. by rewrite dget_add_field.
Qed.

(** An envelope with a string code is a value of [ErrorEnvelope]; validation keeps every key. *)
Definition conforms `{Pydantic} (body : json) (message code : string) (corr : option string) : Prop :=
  exists inner inner', body = JObj [("error", JObj inner)] /\
    model_validate ErrorEnvelope body = Ret (JObj [("error", JObj inner')]) /\
    dget "message" inner = Some (JStr message) /\ dget "code" inner = Some (JStr code) /\
    dget "correlation_id" inner = JStr <$> corr /\
    (forall k v, dget k inner = Some v -> dget k inner' = Some v).
Lemma envelope_conforms `{PydanticDoc} message code corr ex :
  Forall (fun kv => kv.1 ∉ ["message"; "code"; "correlation_id"]) ex ->
  conforms (build_error_envelope message (JStr code) (jopt corr) ex) message code corr.
Proof.
  intros Hex.
  destruct (envelope_core message (JStr code) (jopt corr) ex Hex ltac:(done)) as (inner & Eb & Em & Ec).
  pose proof (envelope_correlation message (JStr code) corr ex inner Hex Eb) as Hc. rewrite Eb.
  exists inner, ([("message", JStr message); ("code", JStr code); ("correlation_id", jopt corr)] ++ unknown_part detail_fields inner).
  split_and!; try done.
  - rewrite model_validate_Ret. unfold ErrorEnvelope. rewrite model_doc. cbn.
    unfold field_value. cbn. rewrite bool_decide_true by done. unfold ErrorDetail. rewrite open_doc. cbn. unfold field_value. cbn.
    rewrite Em, Ec, Hc. cbn. fold Str. rewrite !scalar_str, opt_doc, scalar_str. cbn.
    destruct corr as [c|]; cbn; [rewrite opt_doc, scalar_str |]; done.
  - intros k v Hk. destruct (decide (k ∈ detail_fields.*1)) as [Hin | Hn].
    + unfold detail_fields in Hin. cbn in Hin. rewrite !elem_of_cons in Hin.
      destruct Hin as [-> | [-> | [-> | Hin]]]; [..| by apply elem_of_nil in Hin].
      * by rewrite Em in Hk.
      * by rewrite Ec in Hk.
      * rewrite Hc in Hk. by destruct corr.
    + rewrite dget_app_r by exact Hn. by rewrite dget_unknown_part.
Qed.

(** ** One shape for every error *)

Definition status_of (x : raised) : Z :=
  match x with
  | RaisedApi _ e => status_code e
  | RaisedHttp _ status _ _ => status
  | RaisedValidation _ => 422
  | RaisedDatabase (DatabaseTimeoutError _) => 504
  | RaisedDatabase _ => 503
  end.
Definition message_of (x : raised) : string :=
  match x with
  | RaisedApi _ e => error e
  | RaisedHttp _ _ detail _ => detail
  | RaisedValidation _ => "Validation failed"
  | RaisedDatabase (DatabaseTimeoutError _) => "Service timeout"
  | RaisedDatabase _ => "Service unavailable"
  end.
Definition code_of (prefix : string) (x : raised) : string :=
  match x with
  | RaisedApi _ e =>
      match error_code e with
      | JStr (String _ _ as c) => c
      | _ => prefix +:+ "_" +:+ _default_code_suffix e
      end
  | RaisedHttp _ status _ _ => prefix +:+ "_HTTP_" +:+ str_of_Z status
  | RaisedValidation _ => prefix +:+ "_" +:+ VALIDATION_CODE
  | RaisedDatabase (DatabaseUnavailableError _ code) => outage_code_value code
  | RaisedDatabase (DatabaseTimeoutError _) => outage_code_value STATEMENT_TIMEOUT
  | RaisedDatabase _ => outage_code_value POOL_EXHAUSTED
  end.
(** The exceptions a service raises on purpose: its own classes have no handlers of their own, an
    error code is a string, the structured details do not repeat the envelope's fields. *)
Definition api_ok (e : BaseAPIException) : Prop :=
  existsb (fun kv => bool_decide (kv.1 ∈ handler_keywords)) (extra e) = false /\
  (error_code e = JNull \/ exists c, error_code e = JStr c).
Definition answerable (app : fastapi_app) (x : raised) : Prop :=
  match x with
  | RaisedApi own e => (forall c, c ∈ own -> dget c (exception_handlers app) = None) /\ api_ok e
  | RaisedHttp own _ _ _ => forall c, c ∈ own -> dget c (exception_handlers app) = None
  | RaisedValidation _ => True
  | RaisedDatabase (DatabaseUnavailableError _ _ | DatabaseTimeoutError _ | PoolTimeoutError) => True
  | RaisedDatabase _ => False
  end.

Lemma first_handler_own own rest hs : (forall c, c ∈ own -> dget c hs = None) ->
  first_handler (own ++ rest) hs = first_handler rest hs.
Proof.
  induction own as [|c own IH]; intros Ho; [done |]. cbn. rewrite (Ho c) by left. apply IH. intros c' Hc. apply Ho. by right.
Qed.
Lemma base_api_conforms `{PydanticDoc} prefix corr e : api_ok e ->
  exists r, base_api_exception_handler (Some prefix) corr e = Ret r /\ reply_status r = status_code e /\
    conforms (reply_body r) (error e) (code_of prefix (RaisedApi [] e)) corr.
Proof.
  intros [Hex Hcode]. unfold base_api_exception_handler.
  set (o := if truthy (error_code e) then _ else _).
  assert (o = Ret (JStr (code_of prefix (RaisedApi [] e)))) as ->.
  { unfold o. cbn [code_of]. destruct Hcode as [-> | [[|c s] ->]]; reflexivity. }
  rewrite Hex. eexists. split; [reflexivity |]. split; [done |]. cbn [reply_body].
  apply envelope_conforms. constructor; [set_solver | by apply extra_not_reserved].
Qed.
Lemma registered_handlers prefix app0 app : register_exception_handlers true prefix app0 = Ret app ->
  error_code_prefix app = Some prefix /\
  dget BASE_API (exception_handlers app) = Some base_api /\
  dget HTTP_EXCEPTION (exception_handlers app) = Some http_error /\
  dget REQUEST_VALIDATION (exception_handlers app) = Some request_validation /\
  dget DATABASE_UNAVAILABLE (exception_handlers app) = Some database_unavailable /\
  dget POOL_TIMEOUT (exception_handlers app) = Some pool_exhausted /\
  dget DATABASE_TIMEOUT (exception_handlers app) = Some statement_timeout.
Proof.
  unfold register_exception_handlers, set_error_code_prefix. destruct (_ && _); [| done]. intros [= <-].
  unfold register_db_exception_handlers, add_exception_handler. cbn [error_code_prefix exception_handlers].
  split; [done |]. split_and!; repeat first [by rewrite dget_dset_eq | rewrite dget_dset_ne by done].
Qed.

(** C24. Every error has the declared shape.  Once the handlers are registered, an API exception, an HTTP
    exception, a failed validation of the request and a database outage are each answered, with
    their status, by a body that [ErrorEnvelope] accepts and keeps key by key: their message,
    their own code or the default under the service's prefix, and the request's correlation id; only a status that allows no body has none. *)
Theorem errors_share_one_shape `{PydanticDoc} body_allowed prefix app0 app corr x :
  register_exception_handlers true prefix app0 = Ret app -> answerable app x ->
  exists r, answer body_allowed app corr x = Some (Ret r) /\ reply_status r = status_of x /\
    (conforms (reply_body r) (message_of x) (code_of prefix x) corr \/
     body_allowed (status_of x) = false /\ reply_body r = JNull).
Proof.
  intros Hr Hx. destruct (registered_handlers _ _ _ Hr) as (Hp & H1 & H2 & H3 & H4 & H5 & H6).
  assert (Hapi : forall own e, api_ok e -> exists r, 
    base_api_exception_handler (error_code_prefix app) corr e = Ret r /\ reply_status r = status_of (RaisedApi own e) /\
    (conforms (reply_body r) (error e) (code_of prefix (RaisedApi own e)) corr \/ body_allowed (status_code e) = false /\ reply_body r = JNull)).
  { intros own e He. rewrite Hp. destruct (base_api_conforms prefix corr e He) as (r & E & Hs & Hc). eauto 10. }
  unfold answer. destruct x as [own e | own status detail hs | errors | [msg code | msg | | | |]]; try done.
  - destruct Hx as [Hown He]. cbn [mro]. rewrite first_handler_own by done. cbn [first_handler]. rewrite H1.
    destruct (Hapi own e He) as (r & E & Hrest). exists r. cbn. by rewrite E.
  - cbn [mro]. rewrite first_handler_own by done. cbn [first_handler]. rewrite H2. cbn.
    unfold http_exception_handler. rewrite Hp. destruct (body_allowed status) eqn:Eb; cbn; eexists; (split; [reflexivity |]); cbn; [| auto].
    split; [done |]. left. apply envelope_conforms. constructor.
  - cbn. rewrite H3. cbn. unfold validation_exception_handler. rewrite Hp. cbn. eexists. split; [reflexivity |].
    split; [done |]. left. apply envelope_conforms. repeat constructor. set_solver.
  - cbn. rewrite H4. cbn. unfold _database_unavailable, _unavailable.
    destruct (Hapi [] (ServiceUnavailableError (JStr "Database unavailable") (JStr (outage_code_value code))
      (Some UNAVAILABLE_RETRY_AFTER_SECONDS))) as (r & E & Hs & Hc); [split; [done | right; eauto] |].
    exists r. rewrite E. split; [done |]. split; [exact Hs | destruct code; exact Hc].
  - cbn. rewrite H6. cbn. unfold _statement_timeout.
    destruct (Hapi [] (ServiceTimeoutError (JStr "Database statement timed out") (JStr (outage_code_value STATEMENT_TIMEOUT))))
      as (r & E & Hs & Hc); [split; [done | right; eauto] |].
    exists r. rewrite E. split; [done |]. split; [exact Hs | exact Hc].
  - cbn. rewrite H5. cbn. unfold _pool_exhausted, _unavailable.
    destruct (Hapi [] (ServiceUnavailableError (JStr "Database connection pool exhausted") (JStr (outage_code_value POOL_EXHAUSTED))
      (Some UNAVAILABLE_RETRY_AFTER_SECONDS))) as (r & E & Hs & Hc); [split; [done | right; eauto] |].
    exists r. rewrite E. split; [done |]. split; [exact Hs | exact Hc].
Qed.
(** What no handler answers, the error middleware does, in the same shape. *)
Lemma internal_error_conforms `{PydanticDoc} {W} `{AlertEnv W} cfg decode_replace traceback
    (call_next : Py W eh_response) request st r st' prefix :
  eh_app request = Some prefix ->
  ErrorMiddleware.dispatch cfg decode_replace traceback call_next request st = (Ret (Envelope r), st') ->
  reply_status r = 500 /\
  conforms (reply_body r) "Internal server error" (prefix +:+ "_" +:+ INTERNAL_CODE)
    (Some (default "unknown" (eh_correlation_id request))).
Proof.
  intros Hp. unfold ErrorMiddleware.dispatch, catch_Exception, catch.
  destruct (dispatch_body cfg decode_replace call_next request st) as [[reply|e] [w tasks]] eqn:E.
  - intros [= -> _]. exfalso. unfold dispatch_body in E. apply bind_Ret_inv in E as (resp & st1 & _ & E).
    destruct (_ && _); [| by simplify_eq/=].
    apply bind_Ret_inv in E as (body & st2 & _ & E). apply bind_Ret_inv in E as (ctx & st3 & _ & E).
    apply bind_Ret_inv in E as ([] & st4 & _ & E). by simplify_eq/=.
  - destruct (is_Exception e); [| done]. intros E'.
    apply bind_Ret_inv in E' as (ctx & st1 & E1 & E'). apply bind_Ret_inv in E' as ([] & st2 & _ & E').
    apply bind_Ret_inv in E' as (code & st3 & E3 & E'). rewrite Hp in E3. cbn in E3.
    injection E3 as <- <-. injection E' as <- _. split; [done |]. cbn [reply_body].
    assert (c_correlation_id ctx = default "unknown" (eh_correlation_id request)) as ->.
    { unfold gets in E1. injection E1 as <- _. unfold _build_context. by destruct (_extract_identity _). }
    apply (envelope_conforms _ _ (Some _)). constructor.
Qed.

(** ** Witnesses *)

Definition bare_app : fastapi_app := mkApp None [(HTTP_EXCEPTION, http_error)].
Definition lead_app : fastapi_app :=
  match register_exception_handlers true "LEAD" bare_app with Ret app => app | Exc _ => bare_app end.
Definition throttled : raised :=
  RaisedApi ["app.errors.TooManyLeads"; "tr_shared.exceptions.RateLimitError"]
    (RateLimitError (JStr "slow down") JNull (Some 3) None).
Lemma errors_share_one_shape_witness :
  exists r, answer (fun s => negb (s =? 204)) lead_app (Some "req-1") throttled = Some (Ret r) /\ reply_status r = 429 /\
    conforms (reply_body r) "Rate limit exceeded" "LEAD_RATE_LIMIT_000" (Some "req-1").
Proof.
  destruct (errors_share_one_shape (fun s => negb (s =? 204)) "LEAD" bare_app lead_app (Some "req-1") throttled)
    as (r & Ha & Hs & Hc); [reflexivity | |].
  - split; [| split; [reflexivity | by left]]. intros c. rewrite !elem_of_cons.
    intros [-> | [-> | Hc]]; [reflexivity | reflexivity | by apply elem_of_nil in Hc].
  - exists r. split; [exact Ha |]. split; [exact Hs |].
    destruct Hc as [Hc | [Hb _]]; [exact Hc | discriminate Hb].
Defined.
