(* ===== verification/RedisConnection.v ===== *)
(** * The pooled Redis connection

    Models src/tr_shared/redis/connection.py: the TCP options, and the two guards that
    [ProxySafeConnection] puts around redis-py's connection; the pool of redis/pool.py and the
    timeouts of the consumer's and the checker's clients (events/consumer.py).  The transport, the stream reader
    and the parent class are the interface [Transport]. *)

From S2P Require Import Prelude Json Errors Redis.
From stdpp Require Import gmap.
Local Open Scope Z_scope.

Definition KEEPALIVE_IDLE_S : Z := 60.
Definition KEEPALIVE_INTERVAL_S : Z := 10.
Definition KEEPALIVE_COUNT : Z := 3.
(** [socket_constant name]: [getattr(socket, name, None)] *)
Definition keepalive_options (socket_constant : string -> option Z) : gmap Z Z :=
  let wanted := [("TCP_KEEPIDLE", KEEPALIVE_IDLE_S); ("TCP_KEEPINTVL", KEEPALIVE_INTERVAL_S); ("TCP_KEEPCNT", KEEPALIVE_COUNT)] in
  foldl (fun options nv => match socket_constant nv.1 with Some option => <[option := nv.2]> options | None => options end)
    ∅ wanted.

(** [self._writer] and [self._reader] of the connection in the world, whether the writer's transport
    is closing, the reader's exception; and what the code calls. *)
Class Transport (W : Type) := {
  has_writer : W -> bool;
  has_reader : W -> bool;
  is_closing : W -> bool;
  reader_exception : W -> option exn;
  writelines : list string -> Py W unit;
  drain : Py W unit;
  super_can_read_destructive : Py W bool;
}.

(** The check of [__init__]; the rest is the parent's. *)
Definition ProxySafeConnection_init (kwargs : list (string * json)) : outcome exn (list (string * json)) :=
  if truthy (default JNull (dget "socket_timeout" kwargs)) then Ret kwargs
  else Exc (PyErr ValueError ("ProxySafeConnection requires a positive socket_timeout: redis-py only " +:+
         "routes writes through _send_packed_command when socket_timeout is set")).

Section Connection.
Context {W : Type} `{Transport W}.

Definition can_read_destructive : Py W bool :=
  let! dead := gets (fun w => has_writer w && has_reader w &&
                              (is_closing w || match reader_exception w with Some _ => true | None => false end)) in
  if (dead : bool) then raise (PyErr RedisConnectionError "Connection closed by peer while idle")
  else super_can_read_destructive.
Definition is_type_or_attribute_error (e : exn) : bool := isinstance e TypeError || isinstance e AttributeError.
Definition _send_packed_command (command : list string) : Py W unit :=
  let! gone := gets (fun w => negb (has_writer w) || is_closing w) in
  if (gone : bool) then raise (PyErr RedisConnectionError "Connection closed by the server before write")
  else
    catch (do! writelines command in drain)
      (fun e =>
         if is_type_or_attribute_error e then
           let! closing := gets is_closing in
           if (closing : bool) then raise (PyErr RedisConnectionError "Connection closed by the server while writing")
           else raise e
         else raise e).

(** C39. A reset shows as redis's [ConnectionError], which the pool and the retry policy act on.  The
    checkout check of a connection whose peer has gone raises it and leaves the connection as it
    was, and is the parent's check otherwise; a write on a connection that is closed raises it
    before anything is written; a [TypeError] or [AttributeError] of a write whose transport is then
    closing becomes it, and every other exception of the write passes unchanged, so that a write
    never ends in one of those two on a closed transport.  A write that succeeds wrote and drained
    the whole command. *)
Theorem resets_show_as_connection_errors command w :
  (has_writer w && has_reader w && (is_closing w || bool_decide (is_Some (reader_exception w))) = true ->
     exists msg, can_read_destructive w = (Exc (PyErr RedisConnectionError msg), w)) /\
  (has_writer w && has_reader w && (is_closing w || bool_decide (is_Some (reader_exception w))) = false ->
     can_read_destructive w = super_can_read_destructive w) /\
  (has_writer w = false \/ is_closing w = true ->
     exists msg, _send_packed_command command w = (Exc (PyErr RedisConnectionError msg), w)) /\
  (forall x w', has_writer w = true -> is_closing w = false ->
     (do! writelines command in drain) w = (Exc x, w') ->
     ((isinstance x TypeError = true \/ isinstance x AttributeError = true) -> is_closing w' = true ->
        exists msg, _send_packed_command command w = (Exc (PyErr RedisConnectionError msg), w')) /\
     ((isinstance x TypeError = false /\ isinstance x AttributeError = false) \/ is_closing w' = false ->
        _send_packed_command command w = (Exc x, w'))) /\
  (forall e w', _send_packed_command command w = (Exc e, w') -> is_closing w' = true ->
     isinstance e TypeError = false /\ isinstance e AttributeError = false) /\
  (forall w', _send_packed_command command w = (Ret tt, w') ->
     has_writer w = true /\ is_closing w = false /\
     exists w1, writelines command w = (Ret tt, w1) /\ drain w1 = (Ret tt, w')).
Proof.
  assert (Hr : match reader_exception w with Some _ => true | None => false end = bool_decide (is_Some (reader_exception w)))
    by (destruct (reader_exception w); [by rewrite bool_decide_true | by rewrite bool_decide_false by (intros []%is_Some_None)]).
  assert (Hsend : has_writer w = true -> is_closing w = false -> _send_packed_command command w =
    catch (do! writelines command in drain)
      (fun e => if is_type_or_attribute_error e then
         let! closing := gets is_closing in
         if (closing : bool) then raise (PyErr RedisConnectionError "Connection closed by the server while writing")
         else raise e else raise e) w) by (intros E1 E2; unfold _send_packed_command, bind at 1, gets at 1; by rewrite E1, E2).
  assert (Hgone : has_writer w = false \/ is_closing w = true ->
     exists msg, _send_packed_command command w = (Exc (PyErr RedisConnectionError msg), w)).
  { intros Hg. unfold _send_packed_command, bind, gets.
    assert (negb (has_writer w) || is_closing w = true) as -> by (destruct Hg as [-> | ->]; [done | apply orb_true_r]).
    by eexists. }
  split; [| split; [| split; [exact Hgone | split; [| split]]]].
  - unfold can_read_destructive, bind, gets. rewrite Hr. intros ->. by eexists.
  - unfold can_read_destructive, bind, gets. rewrite Hr. by intros ->.
  - intros x w' E1 E2 Eb. rewrite Hsend by done. unfold catch. rewrite Eb.
    unfold is_type_or_attribute_error, bind, gets. split.
    + intros Ht Hc. replace (isinstance x TypeError || isinstance x AttributeError) with true
        by (destruct Ht as [-> | ->]; by rewrite ?orb_true_r).
      destruct (is_closing w'); [by eexists | done].
    + intros [[-> ->] | Hc]; [done |]. destruct (_ || _); [cbv beta; by rewrite Hc | done].
  - intros e w'. destruct (has_writer w) eqn:E1; [destruct (is_closing w) eqn:E2 |].
    1, 3: destruct Hgone as [msg ->]; [auto |]; by intros [= <- <-].
    rewrite Hsend by done. unfold catch. destruct (bind _ _ w) as [[u|x] w1]; [done |].
    destruct (is_type_or_attribute_error x) eqn:Ex; [| by intros [= <- <-] _; apply orb_false_iff in Ex].
    unfold bind, gets. destruct (is_closing w1) eqn:E3; intros [= <- <-]; [done | congruence].
  - intros w' E. destruct (has_writer w) eqn:E1; [destruct (is_closing w) eqn:E2 |].
    1, 3: destruct Hgone as [msg Hm]; [auto |]; congruence.
    rewrite Hsend in E by done. unfold catch in E. do 2 (split; [done |]).
    destruct (bind _ _ w) as [[u|x] w1] eqn:Eb.
    + destruct u. injection E as <-. apply bind_Ret_inv in Eb as ([] & w2 & Ew & Ed). eauto.
    + destruct (is_type_or_attribute_error x); [| done]. unfold bind, gets in E. by destruct (is_closing w1).
Qed.
End Connection.

(** ** The pool (redis/pool.py) *)

(** What [ConnectionPool.from_url] is given; times are seconds, the backoff's tenths. *)
Record pool_options := mkPool {
  po_url : string;
  po_max_connections : Z;
  po_decode_responses : bool;
  po_socket_timeout : Z;
  po_socket_connect_timeout : Z;
  po_health_check_interval : Z;
  po_keepalive : gmap Z Z;
  po_backoff : Z * Z;                  (* [ExponentialBackoff(cap, base)] *)
  po_retries : Z;
  po_retry_on_error : list py_class;
}.
Definition build_connection_pool (socket_constant : string -> option Z) (url : string)
    (max_connections socket_timeout socket_connect_timeout : Z) (decode_responses : bool) : outcome exn pool_options :=
  outcome_bind (require_plain_redis_url url) (fun _ =>
  Ret (mkPool url max_connections decode_responses socket_timeout socket_connect_timeout 10
         (keepalive_options socket_constant) (20, 1) 3 [ConnectionError; TimeoutError; OSError])).
(** [EventConsumer._new_client] *)
Definition CONSUMER_REDIS_MAX_CONNECTIONS : Z := 10.
Definition CONSUMER_REDIS_TIMEOUT_SECONDS : Z := 5.
Definition CONSUMER_READ_MARGIN_SECONDS : Z := 5.
Definition _new_client (socket_constant : string -> option Z) (redis_url : string) (block_ms : Z) : outcome exn pool_options :=
  build_connection_pool socket_constant redis_url CONSUMER_REDIS_MAX_CONNECTIONS
    (block_ms / 1000 + CONSUMER_READ_MARGIN_SECONDS) CONSUMER_REDIS_TIMEOUT_SECONDS true.

(** A consumer's blocking read ends before its socket times out, by more than four seconds, and every
    pool has the socket timeout that [ProxySafeConnection] asks for, when the callers give one. *)
Lemma blocking_read_fits socket_constant url block_ms o : 0 <= block_ms ->
  _new_client socket_constant url block_ms = Ret o ->
  block_ms + 4000 < 1000 * po_socket_timeout o /\
  exists kwargs, ProxySafeConnection_init [("socket_timeout", JInt (po_socket_timeout o))] = Ret kwargs.
Proof.
  intros Hb. unfold _new_client, build_connection_pool. destruct (require_plain_redis_url url); [| done].
  intros [= <-]. cbn [po_socket_timeout]. unfold CONSUMER_READ_MARGIN_SECONDS.
  assert (Hd : block_ms = 1000 * (block_ms / 1000) + block_ms mod 1000) by (apply Z.div_mod; lia).
  pose proof (Z.mod_pos_bound block_ms 1000 ltac:(lia)) as Hm. split; [lia |].
  unfold ProxySafeConnection_init. cbn [dget default truthy]. rewrite bool_decide_true by done. cbn.
  assert (block_ms / 1000 + 5 =? 0 = false) as -> by (apply Z.eqb_neq; lia). cbn. eauto.
Qed.

(** ** Witnesses *)

(** A connection that the proxy resets while the second command is written *)
Record socket := mkSocket { so_written : list string; so_reset_after : nat; so_closed : bool }.
#[export] Instance socket_transport : Transport socket := {
  has_writer _ := true;
  has_reader _ := true;
  is_closing := so_closed;
  reader_exception _ := None;
  writelines command w :=
    if (so_reset_after w <=? length (so_written w))%nat
    then (Exc (PyErr TypeError "'NoneType' object is not callable"), mkSocket (so_written w) (so_reset_after w) true)
    else (Ret tt, mkSocket (so_written w ++ command) (so_reset_after w) (so_closed w));
  drain w := (Ret tt, w);
  super_can_read_destructive w := (Ret false, w);
}.
Lemma resets_show_as_connection_errors_witness :
  let w1 := snd (_send_packed_command ["PING"] (mkSocket [] 1 false)) in
  let w2 := snd (_send_packed_command ["GET k"] w1) in
  (exists msg, fst (_send_packed_command ["GET k"] w1) = Exc (PyErr RedisConnectionError msg)) /\
  exists msg, can_read_destructive w2 = (Exc (PyErr RedisConnectionError msg), w2).
Proof.
  intros w1 w2. split; [by eexists |].
  exact (proj1 (resets_show_as_connection_errors ["GET k"] w2) eq_refl).
Defined.
