(* ===== verification/Logging.v ===== *)
(** * Logging setup

    Models src/tr_shared/logging/setup.py: the two processor chains, the root logger, and the
    processor that copies a record's [extra] into the event.  structlog's and the standard
    library's own processors are names here; the context variables are those of Worker. *)

From S2P Require Import Prelude Json Errors HttpClient Worker.
Local Open Scope Z_scope.

Inductive processor :=
| merge_contextvars | add_stdlib_extras | add_log_level | add_logger_name | TimeStamper (fmt : string) | StackInfoRenderer
| wrap_for_formatter | remove_processors_meta | format_exc_info | JSONRenderer | ConsoleRenderer (colors : bool).
Record formatter := mkFormatter { processors : list processor; foreign_pre_chain : list processor }.
Inductive root_handler := StdoutHandler (f : formatter) | OtherHandler (name : string).
(** structlog's configuration and the root logger *)
Record logging_setup := mkLogging {
  structlog_processors : list processor;
  root_handlers : list root_handler;
  root_level : string;
}.
(** [logging.setLevel] takes the names of the standard levels. *)
Definition level_names : list string :=
  ["CRITICAL"; "FATAL"; "ERROR"; "WARN"; "WARNING"; "INFO"; "DEBUG"; "NOTSET"].
Definition setLevel {W} (level : string) : Py (W * logging_setup) unit :=
  if bool_decide (level ∈ level_names)
  then modify (fun st => (st.1, mkLogging (structlog_processors st.2) (root_handlers st.2) level))
  else raise (PyErr ValueError ("Unknown level: " +:+ repr_str level)).

Definition shared_processors : list processor :=
  [merge_contextvars; add_stdlib_extras; add_log_level; add_logger_name; TimeStamper "iso"; StackInfoRenderer].
Definition renderer (log_format : string) : processor :=
  if bool_decide (log_format = "json") then JSONRenderer else ConsoleRenderer true.
Definition formatter_processors (log_format : string) : list processor :=
  [remove_processors_meta] ++ (if bool_decide (log_format = "json") then [format_exc_info] else []) ++ [renderer log_format].
Definition stdout_handler (log_format : string) : root_handler :=
  StdoutHandler (mkFormatter (formatter_processors log_format) shared_processors).
Definition setup_logging (log_level log_format service_name : string) : Py (log_state * logging_setup) unit :=
  do! on_fst (configure_logging service_name) in
  do! modify (fun st => (st.1, mkLogging (shared_processors ++ [wrap_for_formatter]) (root_handlers st.2) (root_level st.2))) in
  do! modify (fun st => (st.1, mkLogging (structlog_processors st.2)
                (match root_handlers st.2 with [] => [stdout_handler log_format] | hs => hs end) (root_level st.2))) in
  setLevel log_level.

Definition bind_correlation_id (correlation_id : string) : Log unit :=
  bind_contextvars [("correlation_id", JStr correlation_id)].

(** [_add_stdlib_extras]; [_extra_adder] is structlog's [ExtraAdder]. *)
Definition _add_stdlib_extras (_extra_adder : list (string * json) -> list (string * json)) (event_dict : list (string * json))
    : outcome exn (list (string * json)) :=
  match dget "event" event_dict with
  | None => Exc (PyErr KeyError "'event'")
  | Some message =>
      let event_dict := _extra_adder event_dict in
      match dget "event" event_dict with
      | None => Exc (PyErr KeyError "'event'")
      | Some event =>
          if bool_decide (event = message) then Ret event_dict
          else Ret (dset "event" message (dset "extra_event" event event_dict))
      end
  end.

(** The extras of a record never replace its message: with [ExtraAdder] adding [extra] over the event,
    the message stays, an [extra] called "event" moves to "extra_event", and every other key is
    what the adder made of it. *)
Lemma dset_keeps_key {V} k k' (v : V) d x : dget k d = Some x -> exists y, dget k (dset k' v d) = Some y.
Proof.
  intros E. destruct (decide (k = k')) as [-> |]; [rewrite dget_dset_eq; eauto |]. rewrite dget_dset_ne by done. eauto.
Qed.
Lemma merge_keeps_key {V} k (d extra : list (string * V)) x : dget k d = Some x -> exists y, dget k (dict_merge d extra) = Some y.
Proof.
  unfold dict_merge. revert d x. induction extra as [|[k' v] extra IH]; intros d x E; cbn; [eauto |].
  destruct (dset_keeps_key k k' v d x E) as [y Ey]. by apply (IH _ y).
Qed.
Theorem extras_keep_message extra event_dict message :
  dget "event" event_dict = Some message ->
  exists d other, _add_stdlib_extras (fun d => dict_merge d extra) event_dict = Ret d /\
    dget "event" (dict_merge event_dict extra) = Some other /\
    dget "event" d = Some message /\
    dget "extra_event" d = (if bool_decide (other = message) then dget "extra_event" (dict_merge event_dict extra) else Some other) /\
    forall k, k <> "event" -> k <> "extra_event" -> dget k d = dget k (dict_merge event_dict extra).
Proof.
  intros E. destruct (merge_keeps_key _ _ extra _ E) as [other Eo]. unfold _add_stdlib_extras. rewrite E. cbv zeta. rewrite Eo.
  destruct (decide (other = message)) as [Em | Em]; [rewrite bool_decide_true by done | rewrite bool_decide_false by done];
    (eexists _, other; split; [reflexivity |]; split; [done |]).
  - rewrite bool_decide_true by done. split; [by rewrite Eo, Em |]. done.
  - rewrite bool_decide_false by done. split; [by rewrite dget_dset_eq |]. split; [by rewrite dget_dset_ne, dget_dset_eq |].
    intros k H1 H2. by rewrite !dget_dset_ne.
Qed.

(** Setting logging up leaves a handler on the root logger - the one that was there, or one that
    writes to stdout; structlog's own and foreign records pass the same processors, in the same
    order, and the renderer comes last; the service name is on every later line; and doing it
    again changes nothing. *)
Theorem setup_logging_contract level fmt service st :
  level ∈ level_names ->
  exists st', setup_logging level fmt service st = (Ret tt, st') /\
    setup_logging level fmt service st' = (Ret tt, st') /\
    root_level st'.2 = level /\ root_handlers st'.2 <> [] /\
    (root_handlers st.2 <> [] -> root_handlers st'.2 = root_handlers st.2) /\
    (root_handlers st.2 = [] -> exists f, root_handlers st'.2 = [StdoutHandler f] /\
       structlog_processors st'.2 = foreign_pre_chain f ++ [wrap_for_formatter] /\
       last (processors f) = Some (renderer fmt) /\ (format_exc_info ∈ processors f <-> fmt = "json")) /\
    (nonempty service = true -> dget "service_name" (ls_context st'.1) = Some (JStr service)).
Proof.
  intros Hl. destruct st as [[ctx base] [ps hs lv]].
  set (ctx' := if nonempty service then dict_merge ctx [("service_name", JStr service)] else ctx).
  set (hs' := match hs with [] => [stdout_handler fmt] | _ => hs end).
  assert (E : forall ps lv, setup_logging level fmt service (mkLog ctx base, mkLogging ps hs lv) =
    (Ret tt, (mkLog ctx' base, mkLogging (shared_processors ++ [wrap_for_formatter]) hs' level))).
  { intros ps' lv'. unfold setup_logging, configure_logging, setLevel, on_fst, bind, modify. rewrite bool_decide_true by done.
    unfold ctx'. destruct (nonempty service); cbn; by destruct hs. }
  exists (mkLog ctx' base, mkLogging (shared_processors ++ [wrap_for_formatter]) hs' level).
  split; [apply E |]. split.
  { unfold setup_logging, configure_logging, setLevel, on_fst, bind, modify. rewrite bool_decide_true by done.
    unfold ctx', hs'. destruct (nonempty service); cbn; [| by destruct hs].
    do 2 f_equal; [| by destruct hs]. f_equal. unfold dict_merge. cbn.
    clear. induction ctx as [|[k v] ctx IH]; [done |]. cbn. case_bool_decide; cbn.
    - by rewrite bool_decide_true.
    - rewrite bool_decide_false by done. by rewrite IH. }
  cbn. split; [done |]. split; [unfold hs'; by destruct hs |]. split; [unfold hs'; by destruct hs |]. split.
  - intros ->. eexists. split; [reflexivity |]. split; [done |]. unfold stdout_handler, formatter_processors, renderer. cbn.
    case_bool_decide as Hf; cbn; (split; [done |]); split; try done; [intros _; set_solver | set_solver].
  - unfold ctx'. intros ->. unfold dict_merge. cbn. by rewrite dget_dset_eq.
Qed.
(** A correlation id bound by hand is the one the next call to a service sends. *)
Lemma bound_id_is_sent id st : nonempty id = true ->
  exists st', bind_correlation_id id st = (Ret tt, st') /\ get_correlation_id (ls_context st') = JStr id /\
    correlation_headers (Some id) = [(HttpHeader.CORRELATION_ID, id)].
Proof.
  intros Hid. eexists. split; [reflexivity |]. cbn. split; [unfold get_correlation_id, dict_merge; cbn; by rewrite dget_dset_eq |].
  by rewrite Hid.
Qed.
