(* ===== verification/TestConfig.v ===== *)
(** * Test configuration

    Models src/tr_shared/testing/config.py, lanes.py and the worker's index of isolation.py: the table a
    service declares in its pyproject, the variables that survive into a test run, the digest a test
    database is keyed on, and which lane a path belongs to.  The file system is what the code reads of
    it; TOML values are those of [Json] (a date or float is of none of the types the code accepts). *)

From stdpp Require Import sorting.
From Stdlib Require Import Ascii.
From S2P Require Import Prelude Json Hash Errors Text.
Local Open Scope Z_scope.

(** What the testing package raises: [pytest.UsageError], [stack.StackError], the errors of the
    docker package ([NotFound] is a subclass of [APIError]), and other exceptions. *)
Inductive test_exn :=
| UsageError (msg : string)
| StackError (msg : string)
| NotFound (msg : string)
| APIError (msg : string)
| Raised (e : exn).
Definition is_api_error (e : test_exn) : bool :=
  match e with NotFound _ | APIError _ => true | _ => false end.
Definition test_str (e : test_exn) : string :=
  match e with
  | UsageError m | StackError m | NotFound m | APIError m => m
  | Raised e => str_exn e
  end.

(** ** Constants *)

Definition _DEFAULT_POSTGRES_IMAGE := "supabase/postgres:17.6.1.178".
Definition _DEFAULT_REDIS_IMAGE := "redis:7-alpine".
Definition ADMIN_ROLE := "supabase_admin".
Definition APP_ROLE := "postgres".
Definition PASSWORD := "test".
Definition quoted (s : string) : string := String (ascii_of_nat 34) s +:+ String (ascii_of_nat 34) "".
Definition DATABASE_LAYOUT : list string :=
  ["CREATE SCHEMA extensions AUTHORIZATION " +:+ APP_ROLE;
   "CREATE EXTENSION pgcrypto WITH SCHEMA extensions";
   "CREATE EXTENSION " +:+ quoted "uuid-ossp" +:+ " WITH SCHEMA extensions";
   "CREATE EXTENSION pg_trgm WITH SCHEMA public";
   "CREATE EXTENSION supabase_vault"].

(** The keys; the values are reasons for a reader. *)
Definition ENV_PASSTHROUGH : list string :=
  ["PATH"; "HOME"; "USER"; "LOGNAME"; "TMPDIR"; "TMP"; "TEMP"; "LANG"; "LC_*"; "TZ"; "TERM"; "CI";
   "SSL_CERT_FILE"; "SSL_CERT_DIR"; "REQUESTS_CA_BUNDLE"; "HTTP_PROXY"; "HTTPS_PROXY"; "NO_PROXY";
   "ALL_PROXY"; "http_proxy"; "https_proxy"; "no_proxy"; "all_proxy"; "TEST_DATABASE_URL";
   "TEST_REDIS_URL"; "PYTHON*"; "PYTEST_*"; "COVERAGE_*"; "DOCKER_*"; "XDG_*"; "TR_TESTING_*";
   "GITHUB_ACTIONS"].
Definition INFRA_ENV : list string :=
  ["DATABASE_URL"; "REDIS_URL"; "CELERY_BROKER_URL"; "CELERY_RESULT_BACKEND"].
Definition POLICY_ENV : list (string * string) :=
  [("ENVIRONMENT", "test"); ("AUTH_LIB_GATEWAY_SIGNING_SECRET", "test-gateway-signing-secret");
   ("AUTH_LIB_SERVICE_TOKEN", "test-outbound-service-token"); ("SERVICE_TOKEN", "test-inbound-service-token")].
Definition CONTROL_ENV : list string :=
  ["TEST_DATABASE_URL"; "TEST_REDIS_URL"; "TR_TESTING_RUN_ID"; "TR_TESTING_FRESH"; "PYTEST_XDIST_WORKER"].
Definition PLUGIN_OWNED_ENV : list string := INFRA_ENV ++ POLICY_ENV.*1 ++ CONTROL_ENV.

Definition _PASSTHROUGH_NAMES : list string := filter (fun k => endswith k "*" = false) ENV_PASSTHROUGH.
Definition _PASSTHROUGH_PREFIXES : list string :=
  strip_suffix_len 1 <$> filter (fun k => endswith k "*" = true) ENV_PASSTHROUGH.
Definition passes_scrub (key : string) : bool :=
  bool_decide (key ∈ _PASSTHROUGH_NAMES) || existsb (startswith key) _PASSTHROUGH_PREFIXES.

(** ** The configuration of a service *)

Record TestingConfig := mkConfig {
  tc_service : string;
  tc_root : string;
  tc_migrate_command : list string;
  tc_migration_globs : list string;
  tc_postgres_image : string;
  tc_redis_image : string;
  tc_database_name : string;
  tc_env : list (string * string);
  tc_fingerprint : option string;      (* [_fingerprint], filled by the first call *)
}.

Definition _STRING_KEYS : list string := ["service"; "postgres_image"; "redis_image"; "database_name"].
Definition _LIST_KEYS : list string := ["migrate_command"; "migration_globs"].
Definition _KNOWN_KEYS : list string := _STRING_KEYS ++ _LIST_KEYS ++ ["env"].

Definition usage {A} (m : string) : outcome test_exn A := Exc (UsageError m).
Definition is_text (v : json) : bool := match v with JStr s => nonempty s | _ => false end.
Definition is_texts (v : json) : bool :=
  match v with JList l => negb (bool_decide (l = [])) && forallb is_text l | _ => false end.
(** Each key of [keys] that the table has must satisfy [good]. *)
Fixpoint check_keys (good : json -> bool) (complaint : string) (keys : list string) (table : list (string * json))
    : outcome test_exn unit :=
  match keys with
  | [] => Ret tt
  | key :: keys' =>
      match dget key table with
      | Some v => if good v then check_keys good complaint keys' table
                  else usage ("[tool.tr_testing] " +:+ key +:+ complaint)
      | None => check_keys good complaint keys' table
      end
  end.
Definition str_items (l : list json) : list string :=
  omap (fun v => match v with JStr s => Some s | _ => None end) l.
Definition _strings (table : list (string * json)) (key : string) (d : list string) : list string :=
  match dget key table with Some (JList l) => str_items l | _ => d end.
Definition _string (table : list (string * json)) (key : string) (d : string) : string :=
  match dget key table with Some (JStr s) => s | _ => d end.

(** The items of [tool.tr_testing.env], in order *)
Fixpoint env_items (items : list (string * json)) : outcome test_exn (list (string * string)) :=
  match items with
  | [] => Ret []
  | (key, item) :: items' =>
      match item with
      | JStr s =>
          if bool_decide (upper key ∈ upper <$> PLUGIN_OWNED_ENV)
          then usage ("[tool.tr_testing.env] " +:+ key +:+ " is owned by the plugin and cannot be set here")
          else outcome_bind (env_items items') (fun l => Ret ((key, s) :: l))
      | _ => usage ("[tool.tr_testing.env] " +:+ key +:+ " must be a string")
      end
  end.
Definition _env_table (value : json) : outcome test_exn (list (string * string)) :=
  match value with
  | JObj items => env_items items
  | _ => usage "[tool.tr_testing] env must be a table, [tool.tr_testing.env]"
  end.
Definition key_le (a b : string) : Prop := str_leb a b = true.
#[export] Instance key_le_dec a b : Decision (key_le a b).
Proof. unfold key_le. apply _. Defined.
Definition _build (table : list (string * json)) (root : string) : outcome test_exn TestingConfig :=
  let unknown := merge_sort key_le (filter (fun k => k ∉ _KNOWN_KEYS) table.*1) in
  if negb (bool_decide (unknown = [])) then
    usage ("[tool.tr_testing] has unknown keys: " +:+ py_repr (JList (JStr <$> unknown)))
  else if bool_decide (dget "service" table = None) then usage "[tool.tr_testing] must set service"
  else
    outcome_bind (check_keys is_text " must be a non-empty string" _STRING_KEYS table) (fun _ =>
    outcome_bind (check_keys is_texts " must be a non-empty list of non-empty strings" _LIST_KEYS table) (fun _ =>
    outcome_bind (_env_table (default (JObj []) (dget "env" table))) (fun env =>
    Ret (mkConfig (_string table "service" "") root
           (_strings table "migrate_command" ["alembic"; "upgrade"; "head"])
           (_strings table "migration_globs" ["**/alembic/versions/*.py"])
           (_string table "postgres_image" _DEFAULT_POSTGRES_IMAGE)
           (_string table "redis_image" _DEFAULT_REDIS_IMAGE)
           (_string table "database_name" "test") env None)))).

(** What [find_config] meets in a directory: no file, one that cannot be read or parsed, or its
    top-level table. *)
Inductive pyproject := NoFile | Unreadable | Toml (data : list (string * json)).

Section Find.
Variable read : string -> pyproject.
(** What Python raises where a value that should be a table is none *)
Variable not_a_table : json -> test_exn.

(** Over [start] and its parents *)
Fixpoint find_config (directories : list string) : outcome test_exn (option TestingConfig) :=
  match directories with
  | [] => Ret None
  | directory :: outer =>
      match read directory with
      | NoFile => find_config outer
      | Unreadable => Ret None
      | Toml data =>
          match default (JObj []) (dget "tool" data) with
          | JObj tool =>
              match dget "tr_testing" tool with
              | None => find_config outer
              | Some (JObj table) => outcome_bind (_build table directory) (fun c => Ret (Some c))
              | Some v => Exc (not_a_table v)
              end
          | v => Exc (not_a_table v)
          end
      end
  end.
End Find.

(** ** The fingerprint *)

(** Path objects compare by their parts. *)
Definition path_parts (path : string) : list string :=
  (if startswith path "/" then ["/"] else []) ++ filter (fun s => s <> "" /\ s <> ".") (split_on "/" path).
Fixpoint parts_leb (a b : list string) : bool :=
  match a, b with
  | [], _ => true
  | _, [] => false
  | x :: a', y :: b' => if bool_decide (x = y) then parts_leb a' b' else str_leb x y
  end.
Definition path_le (p q : string * string) : Prop :=
  parts_leb (path_parts p.1) (path_parts q.1) = true.
#[export] Instance path_le_dec p q : Decision (path_le p q).
Proof. unfold path_le. apply _. Defined.

(** What [root.glob(pattern)] yields: the path relative to the root, and the bytes of a file. *)
Notation glob_results := (string -> list (string * option string)).
Definition regular (entry : string * option string) : option (string * string) :=
  match entry.2 with Some content => Some (entry.1, content) | None => None end.
Definition migration_files (glob : glob_results) (self : TestingConfig) : list (string * string) :=
  merge_sort path_le (remove_dups (flat_map (fun p => omap regular (glob p)) (tc_migration_globs self))).
(** The digest is fed piece by piece; what counts is the concatenation. *)
Definition fingerprint_input (glob : glob_results) (self : TestingConfig) : list Z :=
  let text s := bytes_of (utf8_encode s) in
  text (tc_service self) ++ text (tc_postgres_image self) ++ text (tc_redis_image self) ++
  flat_map text DATABASE_LAYOUT ++
  flat_map (fun f => text f.1 ++ bytes_of f.2) (merge_sort path_le (migration_files glob self)).
Definition fingerprint (glob : glob_results) (self : TestingConfig) : string :=
  match tc_fingerprint self with
  | Some value => value
  | None => hexdigest (sha256 (fingerprint_input glob self))
  end.
(** The object after a call: the value is kept. *)
Definition fingerprinted (glob : glob_results) (self : TestingConfig) : TestingConfig :=
  mkConfig (tc_service self) (tc_root self) (tc_migrate_command self) (tc_migration_globs self)
    (tc_postgres_image self) (tc_redis_image self) (tc_database_name self) (tc_env self)
    (Some (fingerprint glob self)).
Definition key (glob : glob_results) (self : TestingConfig) : string :=
  String.substring 0 12 (fingerprint glob self).

Definition admin_database_url (host_ok : string -> bool) (database_url : string) : outcome exn string :=
  outcome_bind (urlsplit host_ok database_url) (fun parts =>
  let host := after_last "@" (u_netloc parts) in
  Ret (urlunsplit (mkSplit (u_scheme parts) (ADMIN_ROLE +:+ ":" +:+ PASSWORD +:+ "@" +:+ host)
                     (u_path parts) (u_query parts) (u_fragment parts)))).

(** ** Lanes *)

Definition POISON_DATABASE_URL := "postgresql+asyncpg://tr-unit-lane:x@127.0.0.1:1/unit_lane_no_db".
Definition POISON_REDIS_URL := "redis://127.0.0.1:1/0".
Definition UNIT_DIRS : list string := ["unit"; "architecture"; "contract"; "contracts"].
Definition INTEGRATION_DIRS : list string := ["integration"; "api"; "e2e"; "migrations"; "load"].

Definition meets (a b : list string) : bool := existsb (fun s => bool_decide (s ∈ b)) a.
Definition lane_for_path (path : string) : option string :=
  let segments := path_parts (replace_all "\" "/" path) in
  if meets segments INTEGRATION_DIRS then Some "integration"
  else if meets segments UNIT_DIRS then Some "unit"
  else None.

(** What the file system says of an argument, resolved against the invocation directory *)
Record resolved := mkResolved {
  rp_parts : list string;     (* the absolute path, without links *)
  rp_exists : bool;
}.
(** [path.relative_to(base).as_posix()], for a path at or below [base] *)
Fixpoint relative_parts (base path : list string) : option (list string) :=
  match base, path with
  | [], _ => Some path
  | b :: base', p :: path' => if bool_decide (b = p) then relative_parts base' path' else None
  | _ :: _, [] => None
  end.
Definition as_posix (parts : list string) : string :=
  match parts with [] => "." | _ => join "/" parts end.
(** [arg.split("::", 1)[0]] *)
Fixpoint before_selector (arg : string) : string :=
  match arg with
  | EmptyString => ""
  | String c s => if startswith arg "::" then "" else String c (before_selector s)
  end.

Section Lanes.
Variable resolve : string -> resolved.
Variable base : list string.

(** The existing paths of the arguments relative to the root; [None]: one lies outside it. *)
Fixpoint classify_args (args : list string) : option (list string) :=
  match args with
  | [] => Some []
  | arg :: args' =>
      let candidate := before_selector arg in
      if startswith arg "-" || negb (nonempty candidate) || negb (rp_exists (resolve candidate))
      then classify_args args'
      else
        match relative_parts base (rp_parts (resolve candidate)) with
        | None => None
        | Some rel => cons (as_posix rel) <$> classify_args args'
        end
  end.
Definition run_needs_infrastructure (args : list string) (markexpr : string) : bool :=
  match classify_args args with
  | None => true
  | Some paths => bool_decide (paths = []) || negb (forallb (fun p => bool_decide (lane_for_path p = Some "unit")) paths)
  end.
End Lanes.

(** ** The worker's Redis database *)

Definition worker_id (environ : string -> option string) : string := default "main" (environ "PYTEST_XDIST_WORKER").
Fixpoint decimals (s : string) : string :=
  match s with
  | EmptyString => ""
  | String c s' => if is_decimal c then String c (decimals s') else decimals s'
  end.
(** [int(digits) if digits else 0]; a worker's identifier is pytest-xdist's, so its digits are ASCII. *)
Definition worker_slot (worker : string) : Z := default 0 (Z_of_str (decimals worker)).
Definition redis_index_for_worker (environ : string -> option string) (offset : Z) : Z :=
  (worker_slot (worker_id environ) * 3 + offset) mod 60.

(** ** What a configuration guarantees *)

Record valid_config (c : TestingConfig) : Prop := {
  vc_service : tc_service c <> "";
  vc_command : tc_migrate_command c <> [] /\ "" ∉ tc_migrate_command c;
  vc_globs : tc_migration_globs c <> [] /\ "" ∉ tc_migration_globs c;
  vc_images : tc_postgres_image c <> "" /\ tc_redis_image c <> "" /\ tc_database_name c <> "";
  vc_env : forall k v, (k, v) ∈ tc_env c -> upper k ∉ upper <$> PLUGIN_OWNED_ENV;
}.

Lemma check_keys_good good complaint keys table :
  check_keys good complaint keys table = Ret tt ->
  forall k v, k ∈ keys -> dget k table = Some v -> good v = true.
Proof.
  induction keys as [|k0 keys IH]; cbn; intros E k v Hk Hv; [set_solver |].
  apply elem_of_cons in Hk as [-> | Hk].
  - rewrite Hv in E. by destruct (good v).
  - destruct (dget k0 table) as [v0|]; [destruct (good v0); [| done] |]; eauto.
Qed.
Lemma string_good table k d :
  (forall v, dget k table = Some v -> is_text v = true) -> d <> "" -> _string table k d <> "".
Proof.
  intros Hg Hd. unfold _string. destruct (dget k table) as [v|] eqn:E; [| done].
  specialize (Hg v eq_refl). destruct v; try done. by apply nonempty_spec.
Qed.
Lemma strings_good table k d :
  (forall v, dget k table = Some v -> is_texts v = true) -> d <> [] /\ "" ∉ d ->
  _strings table k d <> [] /\ "" ∉ _strings table k d.
Proof.
  intros Hg Hd. unfold _strings. destruct (dget k table) as [v|] eqn:E; [| done].
  specialize (Hg v eq_refl). destruct v as [| | | |l|]; try done.
  cbn in Hg. apply andb_true_iff in Hg as [Hn Hl]. rewrite forallb_forall in Hl.
  rewrite negb_true_iff, bool_decide_eq_false in Hn. unfold str_items. split.
  - destruct l as [|v l]; [done |]. specialize (Hl v (or_introl eq_refl)). by destruct v.
  - rewrite list_elem_of_omap. intros (v & Hv%list_elem_of_In%Hl & Hs). destruct v; try done.
    injection Hs as ->. done.
Qed.
Lemma env_items_unowned items l : env_items items = Ret l ->
  forall k v, (k, v) ∈ l -> upper k ∉ upper <$> PLUGIN_OWNED_ENV.
Proof.
  revert l. induction items as [|[key item] items IH]; cbn; intros l E k v Hin; [injection E as <-; set_solver |].
  destruct item as [| | |s| |]; try done. case_bool_decide as Ho; [done |].
  destruct (env_items items) as [l'|]; [| done]. injection E as <-.
  apply elem_of_cons in Hin as [[= -> ->] | Hin]; eauto.
Qed.
Lemma build_valid table root c : _build table root = Ret c -> valid_config c /\ tc_root c = root /\ tc_fingerprint c = None.
Proof.
  unfold _build. case_bool_decide as Hu; [| done]. cbn [negb]. case_bool_decide as Hs; [done |].
  destruct (check_keys is_text _ _ _) as [[]|] eqn:E1; [| done].
  destruct (check_keys is_texts _ _ _) as [[]|] eqn:E2; [| done].
  destruct (_env_table _) as [env|] eqn:E3; [| done]. cbn [outcome_bind]. intros [= <-].
  pose proof (check_keys_good _ _ _ _ E1) as H1. pose proof (check_keys_good _ _ _ _ E2) as H2.
  split; [| done]. split; cbn.
  - unfold _string. destruct (dget "service" table) as [v|] eqn:E; [| done].
    specialize (H1 "service" v ltac:(set_solver) E). destruct v; try done. by apply nonempty_spec.
  - apply strings_good; [intros v; apply H2; set_solver | split; [done | apply (bool_decide_unpack _); vm_compute; exact I]].
  - apply strings_good; [intros v; apply H2; set_solver | split; [done | apply (bool_decide_unpack _); vm_compute; exact I]].
  - split_and!; apply string_good; try done; intros v; apply H1; set_solver.
  - unfold _env_table in E3. destruct (default _ _) as [| | | | |items]; try done. by apply (env_items_unowned items).
Qed.
Lemma find_config_valid read not_a_table dirs c :
  find_config read not_a_table dirs = Ret (Some c) ->
  valid_config c /\ tc_root c ∈ dirs /\ tc_fingerprint c = None.
Proof.
  induction dirs as [|d dirs IH]; cbn; [done |].
  assert (Hrec : find_config read not_a_table dirs = Ret (Some c) ->
    valid_config c /\ tc_root c ∈ d :: dirs /\ tc_fingerprint c = None).
  { intros (H1 & H2 & H3)%IH. split_and!; [done | by right | done]. }
  destruct (read d) as [| |data]; [exact Hrec | done |].
  destruct (default _ _) as [| | | | |tool]; try done.
  destruct (dget "tr_testing" tool) as [[| | | | |table]|]; try done.
  destruct (_build table d) as [c'|] eqn:E; [| done]. intros [= ->].
  apply build_valid in E as (H1 & H2 & H3). subst d. split_and!; [done | left | done].
Qed.

(** ** Names *)

Lemma all_chars_substring p n m s : all_chars p s = true -> all_chars p (String.substring n m s) = true.
Proof.
  revert n m. induction s as [|c s IH]; intros n m; [by destruct n, m |].
  cbn [all_chars]. intros [Hc Hs]%andb_true_iff. destruct n, m; cbn [String.substring all_chars]; auto.
  rewrite Hc. by apply (IH 0%nat m).
Qed.
Lemma length_substring n s : (n <= String.length s)%nat -> String.length (String.substring 0 n s) = n.
Proof.
  revert n. induction s as [|c s IH]; intros [|n]; cbn; try lia. intros Hn. rewrite IH; lia.
Qed.
(** A digest that was computed, now or earlier *)
Definition digest_text (s : string) : Prop := all_chars is_hex s = true /\ String.length s = 64%nat.
Definition sound_memo (c : TestingConfig) : Prop := forall v, tc_fingerprint c = Some v -> digest_text v.
Lemma fingerprint_digest glob c : sound_memo c -> digest_text (fingerprint glob c).
Proof.
  intros Hm. unfold fingerprint. destruct (tc_fingerprint c) as [v|] eqn:E; [by apply Hm |].
  destruct (sha256_bytes (fingerprint_input glob c)) as [Hl Hb].
  destruct (hexdigest_hex _ Hb) as [H1 H2]. split; [done |]. by rewrite H2, Hl.
Qed.
Lemma key_digits glob c : sound_memo c -> all_chars is_hex (key glob c) = true /\ String.length (key glob c) = 12%nat.
Proof.
  intros [H1 H2]%(fingerprint_digest glob). unfold key. split; [by apply all_chars_substring |].
  apply length_substring. lia.
Qed.
(** The first call decides: a file changed afterwards does not change the key. *)
Lemma fingerprinted_fixed glob glob' c : key glob' (fingerprinted glob c) = key glob c.
Proof. reflexivity. Qed.
Lemma fingerprinted_sound glob c : sound_memo c -> sound_memo (fingerprinted glob c).
Proof. intros Hm v [= <-]. by apply fingerprint_digest. Qed.

Lemma fingerprinted_valid glob c : valid_config c -> valid_config (fingerprinted glob c).
Proof. by intros []. Qed.

(** ** The digest's input *)

(** Editing a migration in place changes what is hashed ... *)
Lemma edit_changes_input glob glob' c before f content content' after :
  merge_sort path_le (migration_files glob c) = before ++ (f, content) :: after ->
  merge_sort path_le (migration_files glob' c) = before ++ (f, content') :: after ->
  fingerprint_input glob c = fingerprint_input glob' c -> content = content'.
Proof.
  intros E E'. unfold fingerprint_input. rewrite E, E', !flat_map_app. cbn [flat_map fst snd].
  intros H. do 4 apply app_inv_head in H. apply app_inv_head in H. apply app_inv_tail in H.
  apply app_inv_head in H. clear E E'. revert content' H. induction content as [|a s IH]; intros [|b t]; cbn; try done.
  intros [= H1 H2]. f_equal; [| by apply IH]. apply ord_inj. lia.
Qed.
(** ... but names and contents are not told apart: two trees may hash alike. *)
Definition tree_of (files : list (string * string)) : glob_results :=
  fun _ => (fun f => (f.1, Some f.2)) <$> files.
Definition plain_config : TestingConfig :=
  mkConfig "svc" "/w/svc" ["alembic"] ["*"] _DEFAULT_POSTGRES_IMAGE _DEFAULT_REDIS_IMAGE "test" [] None.
Lemma fingerprint_collides :
  fingerprint (tree_of [("a.py", "b.py")]) plain_config =
  fingerprint (tree_of [("a.py", ""); ("b.py", "")]) plain_config.
Proof.
  assert (forall g1 g2, fingerprint_input g1 plain_config = fingerprint_input g2 plain_config ->
    fingerprint g1 plain_config = fingerprint g2 plain_config) as H by (intros g1 g2; unfold fingerprint; by intros ->).
  apply H. vm_compute. reflexivity.
Qed.

(** ** The URL of the superuser *)

Lemma after_last_at u h : free_of "@" h = true -> after_last "@" (u +:+ "@" +:+ h) = h.
Proof. intros Hh. unfold after_last. change ("@" +:+ h) with (String "@" h). by rewrite rsplit_first_append. Qed.
(** Only the user changes: the same scheme, host, port and database. *)
Lemma admin_url_same_database host_ok scheme netloc path query fragment :
  url_parts scheme netloc path query fragment -> host_ok netloc = true ->
  let host := after_last "@" netloc in
  admin_database_url host_ok (url_of scheme netloc path query fragment) =
    Ret (url_of scheme ("supabase_admin:test@" +:+ host) path query fragment) /\
  (free_of "@" host = true -> hostinfo ("supabase_admin:test@" +:+ host) = hostinfo netloc).
Proof.
  intros Hp Hok host. split.
  - unfold admin_database_url. rewrite urlsplit_url_of by done.
    cbn [outcome_bind u_netloc u_scheme u_path u_query u_fragment].
    destruct Hp as [(c & s & -> & _) _ _ _ _ Hpath _ _ _]. by rewrite urlunsplit_url_of.
  - intros Hh. unfold hostinfo. change ("supabase_admin:test@" +:+ host) with ("supabase_admin:test" +:+ "@" +:+ host).
    rewrite after_last_at by done. done.
Qed.

(** ** Lanes *)

Lemma classify_args_spec resolve base args paths : classify_args resolve base args = Some paths ->
  forall p, p ∈ paths <-> exists arg rel, arg ∈ args /\ startswith arg "-" = false /\
    before_selector arg <> "" /\ rp_exists (resolve (before_selector arg)) = true /\
    relative_parts base (rp_parts (resolve (before_selector arg))) = Some rel /\ p = as_posix rel.
Proof.
  revert paths. induction args as [|arg args IH]; cbn; intros paths E p.
  - injection E as <-. split; [set_solver | intros (arg & rel & Ha & _); set_solver].
  - destruct (startswith arg "-" || negb (nonempty (before_selector arg)) || negb (rp_exists (resolve (before_selector arg)))) eqn:Ec.
    + rewrite (IH _ E). split; intros (a & rel & Ha & H1 & H2 & H3 & H4); exists a, rel.
      * by split_and!; try apply H4; try right.
      * apply elem_of_cons in Ha as [-> | Ha]; [| by split_and!; try apply H4].
        rewrite H1, H3 in Ec. rewrite (proj2 (nonempty_spec _) H2) in Ec. done.
    + rewrite !orb_false_iff, !negb_false_iff in Ec. destruct Ec as [[H1 H2%nonempty_spec] H3].
      destruct (relative_parts base _) as [rel|] eqn:Er; [| done].
      destruct (classify_args resolve base args) as [ps|]; [| done]. injection E as <-.
      rewrite elem_of_cons, (IH _ eq_refl). split.
      * intros [-> | (a & r & Ha & Hr)]; [exists arg, rel; by split_and!; try left | exists a, r; split; [by right | done]].
      * intros (a & r & Ha & R1 & R2 & R3 & R4 & R5). apply elem_of_cons in Ha as [-> | Ha]; [left; congruence |].
        right. by exists a, r.
Qed.
(** Postgres and Redis are withheld exactly when some argument is a path and every one that is lies in a
    unit directory below the root; the marker expression has no say. *)
Lemma infrastructure_withheld resolve base args markexpr :
  run_needs_infrastructure resolve base args markexpr = false <->
  exists paths, classify_args resolve base args = Some paths /\ paths <> [] /\
    forall p, p ∈ paths -> lane_for_path p = Some "unit".
Proof.
  unfold run_needs_infrastructure. destruct (classify_args resolve base args) as [paths|]; [| naive_solver].
  rewrite orb_false_iff, negb_false_iff, bool_decide_eq_false, forallb_forall. split.
  - intros [Hn Hl]. exists paths. split_and!; [done | done |]. intros p Hp. apply list_elem_of_In, Hl in Hp.
    by apply bool_decide_eq_true in Hp.
  - intros (? & [= <-] & Hn & Hl). split; [done |]. intros p Hp%list_elem_of_In. by apply bool_decide_eq_true, Hl.
Qed.
(** A directory under a unit one may belong to the integration lane: the run that names the outer
    one has no infrastructure, the tests of the inner one carry the integration marker. *)
Lemma unit_run_collects_integration :
  run_needs_infrastructure (fun _ => mkResolved ["/"; "w"; "svc"; "tests"; "unit"] true) ["/"; "w"; "svc"]
    ["tests/unit"] "" = false /\
  lane_for_path "tests/unit/api/test_leads.py" = Some "integration".
Proof. split; reflexivity. Qed.

(** ** Redis databases of the workers *)

Definition xdist_worker (n : Z) : string := "gw" +:+ str_of_Z n.
Lemma decimals_uint d : decimals (DecimalString.NilEmpty.string_of_uint d) = DecimalString.NilEmpty.string_of_uint d.
Proof. induction d as [|d IH|d IH|d IH|d IH|d IH|d IH|d IH|d IH|d IH|d IH]; cbn; [done | by rewrite IH ..]. Qed.
Lemma worker_slot_xdist n : 0 <= n -> worker_slot (xdist_worker n) = n.
Proof.
  intros Hn. unfold worker_slot, xdist_worker. change (decimals ("gw" +:+ str_of_Z n)) with (decimals (str_of_Z n)).
  assert (decimals (str_of_Z n) = str_of_Z n) as ->; [| by rewrite Z_of_str_of_Z].
  destruct n as [|p|p]; [done | | lia]. by rewrite str_of_Z_pos, decimals_uint.
Qed.
(** Twenty workers have three databases each, all among the server's 64; the next one shares those
    of the first. *)
Lemma redis_indices_disjoint environ environ' n n' offset offset' :
  environ "PYTEST_XDIST_WORKER" = Some (xdist_worker n) -> environ' "PYTEST_XDIST_WORKER" = Some (xdist_worker n') ->
  0 <= n < 20 -> 0 <= n' < 20 -> n <> n' -> 0 <= offset < 3 -> 0 <= offset' < 3 ->
  redis_index_for_worker environ offset <> redis_index_for_worker environ' offset' /\
  0 <= redis_index_for_worker environ offset < 64.
Proof.
  intros He He' Hn Hn' Hne Ho Ho'. unfold redis_index_for_worker, worker_id. rewrite He, He', !default_Some.
  rewrite !worker_slot_xdist, !Z.mod_small by lia. lia.
Qed.
Lemma redis_indices_wrap n : 0 <= n ->
  (worker_slot (xdist_worker (n + 20)) * 3) mod 60 = (worker_slot (xdist_worker n) * 3) mod 60.
Proof.
  intros Hn. rewrite !worker_slot_xdist by lia. replace ((n + 20) * 3) with (n * 3 + 1 * 60) by lia.
  by rewrite Z.mod_add by lia.
Qed.
