(* ===== verification/TestStack.v ===== *)
(** * Databases for a test run

    Models src/tr_shared/testing/stack.py: the containers a run adopts or creates, the template database
    that is migrated once per fingerprint, and the databases cloned from it.  Docker, the lock
    files, the clock and the migration process are the interface [Machine]; what the SQL statements the
    code sends do to a server's databases is [run_sql].  Times are milliseconds.

    The theorem: whatever sequence of critical sections, failures, interruptions and writes of tests went before,
    a template is complete or absent, and a run database is a fresh copy of a complete one. *)

From Stdlib Require Import Ascii.
From S2P Require Import Prelude Json Hash Errors Text Migrations TestConfig.
Local Open Scope Z_scope.

Notation T W A := (M test_exn W A).

Record container := mkContainer {
  c_name : string;
  c_status : string;
  c_ports : list (string * list string);   (* the host ports a container port is bound to *)
}.

Class Machine (W : Type) := {
  glob : W -> string -> string -> list (string * option string);   (* [root.glob(pattern)] *)
  which : W -> string -> string -> option string;                  (* [shutil.which(name, path=...)] *)
  has_docker : W -> bool;                                          (* the docker package is installed *)
  has_filelock : W -> bool;
  monotonic : T W Z;
  sleep : Z -> T W unit;
  lock_acquire : string -> T W unit;                               (* [FileLock], waiting at most 300 s *)
  lock_release : string -> T W unit;
  run_process : list string -> string -> string -> T W completed;  (* argv, cwd, DATABASE_URL *)
  docker_connect : T W unit;                                       (* [docker.from_env()], [ping()] *)
  containers_get : string -> T W container;
  containers_run : string -> option (list string) -> string -> list (string * string) -> Z -> T W container;
  container_start : container -> T W unit;
  container_remove : container -> T W unit;
  container_reload : container -> T W container;
  exec_run : container -> list string -> T W (Z * string);
}.

Definition catches_Exception (e : test_exn) : bool :=
  match e with Raised e => is_Exception e | _ => true end.

(** ** Constants *)

Definition _POSTGRES_ENVIRONMENT : list (string * string) := [("POSTGRES_PASSWORD", PASSWORD)].
Definition _POSTGRES_READY_PROBE : list string :=
  ["psql"; "-h"; "127.0.0.1"; "-U"; ADMIN_ROLE; "-d"; "postgres"; "-tAc"; "SELECT 1"].
Definition _REDIS_COMMAND : list string := ["redis-server"; "--databases"; "64"; "--save"; ""].
Definition _REDIS_READY_PROBE : list string := ["redis-cli"; "ping"].
Definition _READY_TIMEOUT : Z := 60000.
Definition _READY_STREAK : Z := 3.
Definition _READY_INTERVAL : Z := 300.
Definition _PG_IDENTIFIER_MAX : nat := 63.

Record Stack := mkStack {
  postgres_dsn : string; redis_url : string; celery_broker_url : string; celery_result_backend : string;
}.

(** ** Names *)

Definition ident_char (c : ascii) : bool :=
  let n := ord c in (((97 <=? n) && (n <=? 122)) || ((48 <=? n) && (n <=? 57)) || (n =? 95))%nat.
(** Every maximal run of other characters becomes one underscore. *)
Fixpoint squash (in_run : bool) (s : string) : string :=
  match s with
  | EmptyString => ""
  | String c s' => if ident_char c then String c (squash false s')
                   else if in_run then squash true s' else String "_" (squash true s')
  end.
Fixpoint lstrip_char (c : ascii) (s : string) : string :=
  match s with
  | EmptyString => ""
  | String d s' => if bool_decide (d = c) then lstrip_char c s' else s
  end.
Fixpoint rstrip_char (c : ascii) (s : string) : string :=
  match s with
  | EmptyString => ""
  | String d s' => match rstrip_char c s' with
                   | EmptyString => if bool_decide (d = c) then "" else String d ""
                   | t => String d t
                   end
  end.
Definition _sanitize (value : string) : string :=
  rstrip_char "_" (lstrip_char "_" (squash false (lower value))).
Definition first (n : nat) (s : string) : string := String.substring 0 n s.
Definition template_name (service key : string) : string := first 16 (_sanitize service) +:+ "_tmpl_" +:+ first 10 key.
Definition run_database (service key run_id worker_id : string) : string :=
  let run_db := first 16 (_sanitize service) +:+ "_" +:+ first 10 key +:+ "_" +:+
                first 10 (_sanitize run_id) +:+ "_" +:+ first 6 (_sanitize worker_id) in
  if (_PG_IDENTIFIER_MAX <? String.length run_db)%nat then first _PG_IDENTIFIER_MAX run_db else run_db.
Definition _names (service key run_id worker_id : string) : string * string * string :=
  ("tr-test-pg-" +:+ first 10 key, template_name service key, run_database service key run_id worker_id).

Definition _dsn (host_port : Z) (database : string) : string :=
  "postgresql+asyncpg://" +:+ APP_ROLE +:+ ":" +:+ PASSWORD +:+ "@127.0.0.1:" +:+ str_of_Z host_port +:+ "/" +:+ database.

Definition _redis_index (worker_id : string) : Z := (worker_slot worker_id * 3) mod 60.
(** [re.sub(r"/\d+/?$", "", base_url.rstrip("/"))]: the stripped text ends in no slash. *)
Definition redis_server (base_url : string) : string :=
  let s := rstrip_char "/" base_url in
  match rsplit_first "/" s with
  | Some (server, db) => if nonempty db && all_chars is_decimal db then server else s
  | None => s
  end.
Definition redis_triple (base_url worker_id : string) : string * string * string :=
  let server := redis_server base_url in
  let index := _redis_index worker_id in
  (server +:+ "/" +:+ str_of_Z index, server +:+ "/" +:+ str_of_Z (index + 1), server +:+ "/" +:+ str_of_Z (index + 2)).

(** ** Statements *)

Definition drop_database (name : string) : string := "DROP DATABASE IF EXISTS " +:+ quoted name +:+ " WITH (FORCE)".
Definition create_database (name : string) : string := "CREATE DATABASE " +:+ quoted name +:+ " OWNER " +:+ APP_ROLE.
Definition clone_database (name template : string) : string :=
  "CREATE DATABASE " +:+ quoted name +:+ " TEMPLATE " +:+ quoted template +:+ " OWNER " +:+ APP_ROLE.
Definition rename_database (name new : string) : string :=
  "ALTER DATABASE " +:+ quoted name +:+ " RENAME TO " +:+ quoted new.
Definition database_exists_sql (name : string) : string :=
  "SELECT 1 FROM pg_database WHERE datname = '" +:+ name +:+ "'".
Definition psql_command (database sql : string) : list string :=
  ["psql"; "-v"; "ON_ERROR_STOP=1"; "--no-psqlrc"; "-U"; ADMIN_ROLE; "-d"; database; "-tAc"; sql].

Section Stack.
Context {W : Type} `{Machine W}.
(** [os.environ] of the calling process *)
Variable environ : string -> option string.

Definition config_key (config : TestingConfig) : T W string :=
  gets (fun w => key (glob w (tc_root config)) config).

Definition _docker : T W unit := fun w =>
  if has_docker w then
    catch docker_connect (fun e => if catches_Exception e
      then raise (StackError "Docker is required for the integration lane and is not reachable.") else raise e) w
  else (Exc (StackError "The integration lane needs the 'testing' extra."), w).
Definition _lock (name : string) : T W unit := fun w =>
  if has_filelock w then lock_acquire name w
  else (Exc (StackError "The integration lane needs the 'testing' extra (filelock is missing)."), w).
(** [with _lock(name): body] *)
Definition with_lock {A} (name : string) (body : T W A) : T W A :=
  do! _lock name in finally body (lock_release name).

(** ** Containers *)

(** One look; [None]: the name is still taken. *)
Definition gone_once (name : string) : T W bool :=
  catch (do! containers_get name in ret false)
    (fun e => match e with NotFound _ => ret true | _ => raise e end).
Fixpoint gone_loop (rounds : nat) (name : string) (deadline : Z) : T W unit :=
  match rounds with
  | O => ret tt
  | S rounds' =>
      let! now := monotonic in
      if now <? deadline then
        let! gone := gone_once name in
        if gone then ret tt else do! sleep 200 in gone_loop rounds' name deadline
      else ret tt
  end.
(** 20 s at 0.2 s a round *)
Definition gone_rounds : nat := 101.
Definition _await_gone (name : string) : T W unit :=
  let! now := monotonic in gone_loop gone_rounds name (now + 20000).

(** What one look at the name asks for next *)
Inductive look := Got (c : container) | Again | Create (last : option test_exn).
Definition last_str (last : option test_exn) : string := match last with Some e => test_str e | None => "None" end.
Definition adopt (name : string) (last : option test_exn) : T W look :=
  catch
    (let! c := containers_get name in
     if bool_decide (c_status c = "removing") then do! _await_gone name in ret Again
     else if bool_decide (c_status c = "running") then ret (Got c)
     else do! container_start c in ret (Got c))
    (fun e => match e with
              | NotFound _ => ret (Create last)
              | _ => if is_api_error e then ret (Create (Some e)) else raise e
              end).
Definition name_taken (e : test_exn) : bool := contains "Conflict" (test_str e) || contains "already in use" (test_str e).
Fixpoint adopt_loop (left_ : nat) (name image : string) (container_port : Z) (environment : list (string * string))
    (command : option (list string)) (attempts : Z) (last : option test_exn) : T W container :=
  match left_ with
  | O => raise (StackError ("could not obtain container " +:+ name +:+ " after " +:+ str_of_Z attempts +:+
                            " attempts: " +:+ last_str last))
  | S n =>
      let! l := adopt name last in
      match l with
      | Got c => ret c
      | Again => adopt_loop n name image container_port environment command attempts last
      | Create last =>
          let! r := catch (let! c := containers_run image command name environment container_port in ret (Got c))
            (fun e => if is_api_error e then
                        if name_taken e then ret (Create (Some e))
                        else raise (StackError ("could not start " +:+ name +:+ ": " +:+ test_str e))
                      else raise e) in
          match r with
          | Got c => ret c
          | Again => adopt_loop n name image container_port environment command attempts last
          | Create last => adopt_loop n name image container_port environment command attempts last
          end
      end
  end.
Definition _adopt_or_create (name image : string) (container_port : Z) (environment : list (string * string))
    (command : option (list string)) : T W container :=
  adopt_loop 3 name image container_port environment command 3 None.

(** One probe: [None] when it succeeded, else what to remember of the failure. *)
Definition probe_once (c : container) (probe : list string) : T W (option string) :=
  catch (let! r := exec_run c probe in ret (if fst r =? 0 then None else Some (strip (snd r))))
    (fun e => if catches_Exception e then ret (Some (test_str e)) else raise e).
Fixpoint ready_loop (rounds : nat) (c : container) (probe : list string) (name : string) (deadline streak : Z)
    (last : string) : T W unit :=
  let not_ready := raise (StackError (name +:+ " did not become ready in 60s: " +:+ last)) in
  match rounds with
  | O => not_ready
  | S rounds' =>
      let! now := monotonic in
      if now <? deadline then
        let! r := probe_once c probe in
        match r with
        | None => if _READY_STREAK <=? streak + 1 then ret tt
                  else do! sleep _READY_INTERVAL in ready_loop rounds' c probe name deadline (streak + 1) last
        | Some failure => do! sleep _READY_INTERVAL in ready_loop rounds' c probe name deadline 0 failure
        end
      else not_ready
  end.
(** 60 s at 0.3 s a round *)
Definition ready_rounds : nat := 201.
Definition _wait_ready (c : container) (probe : list string) (name : string) : T W unit :=
  let! now := monotonic in ready_loop ready_rounds c probe name (now + _READY_TIMEOUT) 0 "".

Definition host_port_of (name : string) (container_port : Z) (c : container) : outcome test_exn Z :=
  match dget (str_of_Z container_port +:+ "/tcp") (c_ports c) with
  | Some (b :: _) => match Z_of_str b with Some p => Ret p | None => Exc (Raised (PyErr ValueError "invalid literal for int()")) end
  | _ => Exc (StackError (name +:+ " exposes no host port for " +:+ str_of_Z container_port))
  end.
Definition lift {A} (o : outcome test_exn A) : T W A := fun w => (o, w).
Definition remove_existing (name : string) : T W unit :=
  do! catch (let! c := containers_get name in container_remove c)
        (fun e => match e with NotFound _ => ret tt | _ => raise e end) in
  _await_gone name.
Definition _ensure_container (name image : string) (container_port : Z) (environment : list (string * string))
    (command : option (list string)) (ready_probe : list string) : T W Z :=
  do! (if nonempty (default "" (environ "TR_TESTING_FRESH")) then remove_existing name else ret tt) in
  let! c := _adopt_or_create name image container_port environment command in
  let! c := container_reload c in
  let! host_port := lift (host_port_of name container_port c) in
  do! _wait_ready c ready_probe name in
  ret host_port.

(** ** Databases *)

Definition _psql (c : container) (sql database : string) : T W string :=
  let! r := exec_run c (psql_command database sql) in
  let output := strip (snd r) in
  if fst r =? 0 then ret output
  else raise (StackError ("psql failed (" +:+ first 80 (before_first NL sql) +:+ "): " +:+ output)).
Definition _database_exists (c : container) (name : string) : T W bool :=
  let! found := _psql c (database_exists_sql name) "postgres" in ret (bool_decide (found = "1")).

(** The executable is looked up in the service's own environment first. *)
Definition migrate_argv (w : W) (config : TestingConfig) : list string :=
  match tc_migrate_command config with
  | [] => []
  | executable :: args =>
      let path := tc_root config +:+ "/.venv/bin:" +:+ default "" (environ "PATH") in
      default executable (which w executable path) :: args
  end.
Definition run_migrations (config : TestingConfig) (dsn : string) : T W completed := fun w =>
  run_process (migrate_argv w config) (tc_root config) dsn w.

Definition building (template : string) : string := template +:+ "_building".
Definition _build_template (c : container) (config : TestingConfig) (template : string) (host_port : Z) : T W unit :=
  let building := building template in
  do! _psql c (drop_database building) "postgres" in
  do! _psql c (create_database building) "postgres" in
  do! mfor DATABASE_LAYOUT (fun statement => do! _psql c statement building in ret tt) in
  let! result := run_migrations config (_dsn host_port building) in
  if negb (returncode result =? 0) then
    do! _psql c (drop_database building) "postgres" in
    raise (StackError ("migrations failed while building the test template (" +:+
      join " " (tc_migrate_command config) +:+ "): STDOUT: " +:+ stdout result +:+ " STDERR: " +:+ stderr result))
  else
    do! _psql c (rename_database building template) "postgres" in ret tt.

(** The first [with] of [provision]: the server is up and has the template. *)
Definition postgres_section (config : TestingConfig) (pg_name template : string) : T W Z :=
  with_lock pg_name (
    let! pg_port := _ensure_container pg_name (tc_postgres_image config) 5432 _POSTGRES_ENVIRONMENT None
                      _POSTGRES_READY_PROBE in
    let! c := containers_get pg_name in
    let! exists_ := _database_exists c template in
    do! (if exists_ then ret tt else _build_template c config template pg_port) in
    ret pg_port).
(** The second one *)
Definition redis_section (config : TestingConfig) (redis_name : string) : T W Z :=
  with_lock redis_name
    (_ensure_container redis_name (tc_redis_image config) 6379 [] (Some _REDIS_COMMAND) _REDIS_READY_PROBE).

(** The first use of [config.key] fills [_fingerprint]; the object is the caller's, so it comes back. *)
Definition fingerprint_now (config : TestingConfig) : T W TestingConfig :=
  gets (fun w => fingerprinted (glob w (tc_root config)) config).
Definition provision (config : TestingConfig) (run_id worker_id : string) : T W (Stack * TestingConfig) :=
  do! _docker in
  let! config := fingerprint_now config in
  let! key := config_key config in
  let '(pg_name, template, run_db) := _names (tc_service config) key run_id worker_id in
  let redis_name := "tr-test-redis-" +:+ first 10 key in
  let! pg_port := postgres_section config pg_name template in
  let! redis_port := redis_section config redis_name in
  let '(cache_url, broker_url, result_url) := redis_triple ("redis://127.0.0.1:" +:+ str_of_Z redis_port) worker_id in
  ret (mkStack (_dsn pg_port run_db) cache_url broker_url result_url, config).

(** The [with] of [create_run_database] *)
Definition clone_section (pg_name template run_db : string) : T W unit :=
  with_lock pg_name (
    let! c := containers_get pg_name in
    do! _psql c (drop_database run_db) "postgres" in
    do! _psql c (clone_database run_db template) "postgres" in ret tt).
Definition create_run_database (config : TestingConfig) (run_id worker_id : string) : T W unit :=
  do! _docker in
  let! key := config_key config in
  let '(pg_name, template, run_db) := _names (tc_service config) key run_id worker_id in
  clone_section pg_name template run_db.

Definition drop_run_databases (config : TestingConfig) (run_id worker_id : string) : T W unit :=
  catch
    (do! _docker in
     let! key := config_key config in
     let '(pg_name, _, run_db) := _names (tc_service config) key run_id worker_id in
     let! c := containers_get pg_name in
     do! _psql c (drop_database run_db) "postgres" in ret tt)
    (fun e => if catches_Exception e then ret tt else raise e).
End Stack.

(** ** The server's databases *)

(** What happened to a database since it was created *)
Inductive event := Ran (sql : string) | Migrated (root : string) (argv : list string) | Written.
#[export] Instance event_eq_dec : EqDecision event.
Proof. solve_decision. Defined.
Notation database := (list event).

(** A statement given to [db]: its output and the databases afterwards; [None]: the server refuses. *)
Definition in_database (db sql : string) (dbs : gmap string database) : option (string * gmap string database) :=
  match split_on "'" sql with
  | [a; n; b] =>
      if bool_decide ((a, b) = ("SELECT 1 FROM pg_database WHERE datname = ", "")) then
        Some (if decide (is_Some (dbs !! n)) then "1" else "", dbs)
      else None
  | _ => match dbs !! db with Some h => Some ("", <[db := h ++ [Ran sql]]> dbs) | None => None end
  end.
Definition run_sql (db sql : string) (dbs : gmap string database) : option (string * gmap string database) :=
  match split_on (ascii_of_nat 34) sql with
  | [a; n; b] =>
      if bool_decide ((a, b) = ("DROP DATABASE IF EXISTS ", " WITH (FORCE)")) then Some ("DROP DATABASE", delete n dbs)
      else if bool_decide ((a, b) = ("CREATE DATABASE ", " OWNER postgres")) then
        match dbs !! n with None => Some ("CREATE DATABASE", <[n := []]> dbs) | Some _ => None end
      else in_database db sql dbs
  | [a; n; b; m; c] =>
      if bool_decide ((a, b, c) = ("CREATE DATABASE ", " TEMPLATE ", " OWNER postgres")) then
        match dbs !! n, dbs !! m with
        | None, Some h => Some ("CREATE DATABASE", <[n := h]> dbs)
        | _, _ => None
        end
      else if bool_decide ((a, b, c) = ("ALTER DATABASE ", " RENAME TO ", "")) then
        match dbs !! n, dbs !! m with
        | Some h, None => Some ("ALTER DATABASE", <[m := h]> (delete n dbs))
        | _, _ => None
        end
      else in_database db sql dbs
  | _ => in_database db sql dbs
  end.

(** What the development relies on.  [pg w name] are the databases of the container [name];
    an operation that fails may have had its effect or not. *)
Class Servers (W : Type) := {
  pg : W -> string -> gmap string database;
  serves : W -> string -> Z -> Prop;          (* the container is reached at this host port *)
}.
Section Relations.
Context {W : Type} `{Servers W}.
Definition kept (w w' : W) : Prop := pg w' = pg w /\ forall n p, serves w n p -> serves w' n p.
Definition kept_or_emptied (w w' : W) : Prop := forall n, pg w' n = pg w n \/ pg w' n = ∅.
(** Only databases of the container [name] may differ. *)
Definition elsewhere_kept (name : string) (w w' : W) : Prop :=
  (forall n, n <> name -> pg w' n = pg w n) /\ forall n p, serves w n p -> serves w' n p.
End Relations.
Class MachineDoc (W : Type) `{Machine W, Servers W} : Prop := {
  monotonic_doc w o w' : monotonic w = (o, w') -> kept w w';
  sleep_doc s w o w' : sleep s w = (o, w') -> kept w w';
  acquire_doc n w o w' : lock_acquire n w = (o, w') -> kept w w';
  release_doc n w o w' : lock_release n w = (o, w') -> kept w w';
  connect_doc w o w' : docker_connect w = (o, w') -> kept w w';
  get_doc n w o w' : containers_get n w = (o, w') -> kept w w' /\ forall c, o = Ret c -> c_name c = n;
  run_doc i cmd n e p w o w' : containers_run i cmd n e p w = (o, w') ->
    kept_or_emptied w w' /\ forall c, o = Ret c -> c_name c = n;
  start_doc c w o w' : container_start c w = (o, w') -> kept_or_emptied w w';
  remove_doc c w o w' : container_remove c w = (o, w') -> kept_or_emptied w w';
  reload_doc c w o w' : container_reload c w = (o, w') -> kept w w' /\
    forall c', o = Ret c' -> forall b rest p, dget "5432/tcp" (c_ports c') = Some (b :: rest) ->
      Z_of_str b = Some p -> serves w' (c_name c) p;
  probe_doc c argv w o w' : exec_run c argv w = (o, w') ->
    argv = _POSTGRES_READY_PROBE \/ argv = _REDIS_READY_PROBE -> kept w w';
  psql_doc c db sql w o w' : exec_run c (psql_command db sql) w = (o, w') ->
    elsewhere_kept (c_name c) w w' /\
    ((exists out, run_sql db sql (pg w (c_name c)) = Some (out, pg w' (c_name c)) /\
                  forall output, o = Ret (0, output) -> strip output = out) \/
     (pg w' (c_name c) = pg w (c_name c) /\ forall output, o <> Ret (0, output)));
  migrate_doc argv cwd name port db w o w' : serves w name port ->
    run_process argv cwd (_dsn port db) w = (o, w') ->
    elsewhere_kept name w w' /\ (forall d, d <> db -> pg w' name !! d = pg w name !! d) /\
    (forall r, o = Ret r -> returncode r = 0 ->
       pg w' name !! db = (fun h => h ++ [Migrated cwd argv]) <$> pg w name !! db);
}.

(** ** Names that differ *)

Definition plain_name (n : string) : Prop := all_chars ident_char n = true.
Definition is_template (db : string) : Prop :=
  exists service key, all_chars is_hex key = true /\ String.length key = 12%nat /\ db = template_name service key.

Lemma all_chars_free p c s : all_chars p s = true -> p c = false -> free_of c s = true.
Proof.
  intros Hs Hc. induction s as [|d s IH]; [done |]. cbn in *. apply andb_true_iff in Hs as [Hd Hs].
  rewrite IH, andb_true_r, negb_true_iff, bool_decide_eq_false by done. intros ->. congruence.
Qed.
Lemma all_chars_weaken p q s : (forall c, p c = true -> q c = true) -> all_chars p s = true -> all_chars q s = true.
Proof. intros Hpq. induction s as [|c s IH]; [done |]. cbn. rewrite !andb_true_iff. naive_solver. Qed.
Lemma squash_ident r s : all_chars ident_char (squash r s) = true.
Proof.
  revert r. induction s as [|c s IH]; intros r; [done |]. cbn. destruct (ident_char c) eqn:E; cbn; [by rewrite E, IH |].
  by destruct r; cbn; rewrite ?IH.
Qed.
Lemma lstrip_char_all p c s : all_chars p s = true -> all_chars p (lstrip_char c s) = true.
Proof. induction s as [|d s IH]; [done |]. cbn. intros [Hd Hs]%andb_true_iff. case_bool_decide; [auto |]. cbn. by rewrite Hd. Qed.
Lemma rstrip_char_all p c s : all_chars p s = true -> all_chars p (rstrip_char c s) = true.
Proof.
  induction s as [|d s IH]; [done |]. cbn. intros [Hd Hs]%andb_true_iff. specialize (IH Hs).
  destruct (rstrip_char c s) as [|e t]; [case_bool_decide; cbn; by rewrite ?Hd |]. cbn in *. by rewrite Hd.
Qed.
Lemma sanitize_plain v : plain_name (_sanitize v).
Proof. apply rstrip_char_all, lstrip_char_all, squash_ident. Qed.
Lemma first_plain n s : plain_name s -> plain_name (first n s).
Proof. apply all_chars_substring. Qed.
Lemma hex_plain s : all_chars is_hex s = true -> plain_name s.
Proof. apply all_chars_weaken. by intros [[] [] [] [] [] [] [] []]. Qed.
Lemma plain_append s t : plain_name s -> plain_name t -> plain_name (s +:+ t).
Proof. intros Hs Ht. unfold plain_name. by rewrite all_chars_append, Hs, Ht. Qed.
Create HintDb stack.
#[export] Hint Resolve sanitize_plain first_plain hex_plain plain_append : stack.
#[export] Hint Extern 1 (plain_name _) => reflexivity : stack.

Lemma template_plain service key : all_chars is_hex key = true -> plain_name (template_name service key).
Proof. intros Hk. unfold template_name. auto 10 with stack. Qed.
Lemma building_plain t : plain_name t -> plain_name (building t).
Proof. intros Ht. unfold building. auto with stack. Qed.
Lemma run_database_plain service key run worker : all_chars is_hex key = true ->
  plain_name (run_database service key run worker).
Proof. intros Hk. unfold run_database. destruct (_ <? _)%nat; auto 15 with stack. Qed.
Lemma length_first n s : (String.length (first n s) <= n)%nat.
Proof.
  unfold first. revert n. induction s as [|c s IH]; intros [|n]; cbn; try lia. specialize (IH n). lia.
Qed.
(** The name of a run database is never cut. *)
Lemma run_database_short service key run worker :
  (String.length (run_database service key run worker) <= 45)%nat /\
  run_database service key run worker = (first 16 (_sanitize service) +:+ "_" +:+ first 10 key +:+ "_" +:+
    first 10 (_sanitize run)) +:+ "_" +:+ first 6 (_sanitize worker).
Proof.
  unfold run_database. set (a := first 16 (_sanitize service)). set (b := first 10 key). set (c := first 10 (_sanitize run)).
  set (d := first 6 (_sanitize worker)).
  assert (String.length (a +:+ "_" +:+ b +:+ "_" +:+ c +:+ "_" +:+ d) <= 45)%nat as Hl.
  { rewrite !length_append. cbn [String.length]. subst a b c d.
    pose proof (length_first 16 (_sanitize service)). pose proof (length_first 10 key).
    pose proof (length_first 10 (_sanitize run)). pose proof (length_first 6 (_sanitize worker)). lia. }
  destruct (Nat.ltb_spec _PG_IDENTIFIER_MAX (String.length (a +:+ "_" +:+ b +:+ "_" +:+ c +:+ "_" +:+ d))) as [Hc | _].
  - unfold _PG_IDENTIFIER_MAX in Hc. lia.
  - split; [done |]. by rewrite !append_assoc.
Qed.
Lemma after_last_append s c t : free_of c t = true -> after_last c (s +:+ String c t) = t.
Proof. intros Ht. unfold after_last. by rewrite rsplit_first_append. Qed.
Lemma rsplit_first_shorter c t a b : rsplit_first c t = Some (a, b) -> (String.length b <= String.length t)%nat.
Proof.
  revert a b. induction t as [|d t IH]; cbn; intros a b E; [done |].
  destruct (rsplit_first c t) as [[a' b']|]; [injection E as <- <-; specialize (IH _ _ eq_refl); lia |].
  case_bool_decide; [injection E as <- <-; lia | done].
Qed.
Lemma after_last_short s c t : (String.length (after_last c (s +:+ String c t)) <= String.length t)%nat.
Proof.
  assert (exists a b, rsplit_first c (s +:+ String c t) = Some (a, b) /\ (String.length b <= String.length t)%nat)
    as (a & b & E & Hb); [| unfold after_last; by rewrite E].
  induction s as [|d s (a & b & E & Hb)].
  - change ("" +:+ String c t) with (String c t). cbn [rsplit_first].
    destruct (rsplit_first c t) as [[a b]|] eqn:E; [eauto using rsplit_first_shorter |].
    rewrite bool_decide_true by done. eauto.
  - exists (String d a), b. split; [| done]. change (String d s +:+ String c t) with (String d (s +:+ String c t)).
    cbn [rsplit_first]. by rewrite E.
Qed.
(** A template's name ends in ten digits of the key, no other database's does. *)
Lemma template_tail db : is_template db -> String.length (after_last "_" db) = 10%nat.
Proof.
  intros (service & key & Hh & Hl & ->). unfold template_name. change ("_tmpl_" +:+ first 10 key) with ("_tmpl" +:+ String "_" (first 10 key)).
  rewrite <- append_assoc, after_last_append; [apply length_substring; lia |].
  eapply all_chars_free; [apply all_chars_substring, Hh | done].
Qed.
Lemma building_not_template t : ~ is_template (building t).
Proof.
  intros Ht%template_tail. unfold building in Ht. change "_building" with (String "_" "building") in Ht.
  by rewrite after_last_append in Ht.
Qed.
Lemma run_database_not_template service key run worker : ~ is_template (run_database service key run worker).
Proof.
  intros Ht%template_tail. rewrite (proj2 (run_database_short _ _ _ _)) in Ht.
  match type of Ht with context [?a +:+ "_" +:+ ?d] =>
    change ("_" +:+ d) with (String "_" d) in Ht; pose proof (after_last_short a "_" d) as Hs end.
  pose proof (length_first 6 (_sanitize worker)). lia.
Qed.

(** ** What the statements do *)

Definition dq : ascii := ascii_of_nat 34.
Lemma plain_free n : plain_name n -> free_of dq n = true /\ free_of "'" n = true.
Proof. intros Hn. split; by apply (all_chars_free ident_char). Qed.
Lemma split_quoted a n b : free_of dq a = true -> free_of dq n = true ->
  split_on dq (a +:+ quoted n +:+ b) = a :: n :: split_on dq b.
Proof.
  intros Ha Hn. unfold quoted. change (String (ascii_of_nat 34) n) with (String dq n). change (String (ascii_of_nat 34) "") with (String dq "").
  rewrite append_assoc. change (String dq n +:+ (String dq "" +:+ b)) with (String dq (n +:+ String dq b)).
  rewrite split_on_append by done. by rewrite split_on_append.
Qed.
Lemma run_drop db n dbs : plain_name n -> run_sql db (drop_database n) dbs = Some ("DROP DATABASE", delete n dbs).
Proof.
  intros [Hq _]%plain_free. unfold run_sql, drop_database. change (ascii_of_nat 34) with dq. rewrite split_quoted by done. reflexivity.
Qed.
Lemma run_create db n dbs : plain_name n -> run_sql db (create_database n) dbs =
  match dbs !! n with None => Some ("CREATE DATABASE", <[n := []]> dbs) | Some _ => None end.
Proof.
  intros [Hq _]%plain_free. unfold run_sql, create_database. change (ascii_of_nat 34) with dq. rewrite split_quoted by done. reflexivity.
Qed.
Lemma run_clone db n t dbs : plain_name n -> plain_name t -> run_sql db (clone_database n t) dbs =
  match dbs !! n, dbs !! t with None, Some h => Some ("CREATE DATABASE", <[n := h]> dbs) | _, _ => None end.
Proof.
  intros [Hn _]%plain_free [Ht _]%plain_free. unfold run_sql, clone_database. change (ascii_of_nat 34) with dq.
  rewrite split_quoted by done. rewrite (split_quoted " TEMPLATE ") by done. reflexivity.
Qed.
Lemma run_rename db n t dbs : plain_name n -> plain_name t -> run_sql db (rename_database n t) dbs =
  match dbs !! n, dbs !! t with Some h, None => Some ("ALTER DATABASE", <[t := h]> (delete n dbs)) | _, _ => None end.
Proof.
  intros [Hn _]%plain_free [Ht _]%plain_free. unfold run_sql, rename_database. change (ascii_of_nat 34) with dq.
  rewrite split_quoted by done. rewrite <- (append_nil_r (quoted t)), (split_quoted " RENAME TO ") by done. reflexivity.
Qed.
Lemma run_exists db n dbs : plain_name n -> run_sql db (database_exists_sql n) dbs =
  Some (if decide (is_Some (dbs !! n)) then "1" else "", dbs).
Proof.
  intros [Hq Hs]%plain_free. unfold run_sql, database_exists_sql. change (ascii_of_nat 34) with dq.
  rewrite split_on_free by (rewrite !free_of_append, Hq; reflexivity). unfold in_database.
  rewrite <- (append_assoc "SELECT 1 FROM pg_database WHERE datname = '").
  change "SELECT 1 FROM pg_database WHERE datname = '" with ("SELECT 1 FROM pg_database WHERE datname = " +:+ "'").
  rewrite !append_assoc. change ("'" +:+ n +:+ "'") with (String "'" (n +:+ String "'" "")).
  rewrite split_on_append by reflexivity. rewrite split_on_append by done. reflexivity.
Qed.
Lemma run_layout db statement dbs : statement ∈ DATABASE_LAYOUT ->
  run_sql db statement dbs = match dbs !! db with Some h => Some ("", <[db := h ++ [Ran statement]]> dbs) | None => None end.
Proof. unfold DATABASE_LAYOUT. rewrite !elem_of_cons. intros [-> | [-> | [-> | [-> | [-> | []%elem_of_nil]]]]]; reflexivity. Qed.

(** ** Complete templates *)

(** The history of a template that [config] built: the layout, then the service's migrations to their end *)
Definition built_by (config : TestingConfig) (h : database) : Prop :=
  exists argv, tl argv = tl (tc_migrate_command config) /\
    h = (Ran <$> DATABASE_LAYOUT) ++ [Migrated (tc_root config) argv].
(** Complete, built by a configuration whose template has this name *)
Definition complete (db : string) (h : database) : Prop :=
  exists config key, db = template_name (tc_service config) key /\ built_by config h.
Definition templates_complete (m : gmap string database) : Prop :=
  forall db h, m !! db = Some h -> is_template db -> complete db h.

Lemma templates_complete_empty : templates_complete ∅.
Proof. intros db h. by rewrite lookup_empty. Qed.
Lemma templates_complete_delete n m : templates_complete m -> templates_complete (delete n m).
Proof. intros Hm db h [_ Hl]%lookup_delete_Some. by apply Hm. Qed.
Lemma templates_complete_other n h m : ~ is_template n -> templates_complete m -> templates_complete (<[n := h]> m).
Proof. intros Hn Hm db h' [[<- _] | [_ Hl]]%lookup_insert_Some; [done | by apply Hm]. Qed.
Lemma templates_complete_insert n h m : complete n h -> templates_complete m -> templates_complete (<[n := h]> m).
Proof. intros Hn Hm db h' [[<- <-] | [_ Hl]]%lookup_insert_Some; [done | by apply Hm]. Qed.
#[export] Hint Resolve templates_complete_empty templates_complete_delete templates_complete_other
  templates_complete_insert building_not_template run_database_not_template : stack.

Section Safety.
Context {W : Type} `{MachineDoc W}.

Definition invariant (w : W) : Prop := forall n, templates_complete (pg w n).

(** From worlds that satisfy [P], [c] keeps the invariant whatever its outcome, and a result satisfies [Q]. *)
Definition safe {A} (P : W -> Prop) (c : T W A) (Q : A -> W -> Prop) : Prop :=
  forall w o w', invariant w -> P w -> c w = (o, w') -> invariant w' /\ forall a, o = Ret a -> Q a w'.
Definition anyhow : W -> Prop := fun _ => True.

Lemma safe_ret {A} (P : W -> Prop) (Q : A -> W -> Prop) a : (forall w, P w -> Q a w) -> safe P (ret a) Q.
Proof. intros HPQ w o w' Hi Hp [= <- <-]. split; [done |]. intros a' [= <-]. auto. Qed.
Lemma safe_raise {A} P (Q : A -> W -> Prop) e : safe P (raise e) Q.
Proof. by intros w o w' Hi Hp [= <- <-]. Qed.
Lemma safe_bind {A B} (P : W -> Prop) (Q : A -> W -> Prop) (R : B -> W -> Prop) c k :
  safe P c Q -> (forall a, safe (Q a) (k a) R) -> safe P (bind c k) R.
Proof.
  intros Hc Hk w o w' Hi Hp. unfold bind. destruct (c w) as [[a|e] w1] eqn:E; destruct (Hc _ _ _ Hi Hp E) as [Hi1 Hq].
  - intros Ek. by eapply Hk; eauto.
  - by intros [= <- <-].
Qed.
Lemma safe_catch {A} P (Q : A -> W -> Prop) c h :
  safe P c Q -> (forall e, safe anyhow (h e) Q) -> safe P (catch c h) Q.
Proof.
  intros Hc Hh w o w' Hi Hp. unfold catch. destruct (c w) as [[a|e] w1] eqn:E; destruct (Hc _ _ _ Hi Hp E) as [Hi1 Hq].
  - by intros [= <- <-].
  - intros Ek. by eapply Hh; eauto.
Qed.
Lemma safe_weaken {A} (P P' : W -> Prop) (Q Q' : A -> W -> Prop) c :
  safe P c Q -> (forall w, P' w -> P w) -> (forall a w, Q a w -> Q' a w) -> safe P' c Q'.
Proof. intros Hc HP HQ w o w' Hi Hp E. destruct (Hc _ _ _ Hi (HP _ Hp) E). eauto. Qed.
Lemma safe_pre {A} (P P' : W -> Prop) (Q : A -> W -> Prop) c : (forall w, P' w -> P w) -> safe P c Q -> safe P' c Q.
Proof. intros HP Hc. by eapply safe_weaken. Qed.
Lemma safe_pure {A} (fact : Prop) P (Q : A -> W -> Prop) c :
  (fact -> safe P c Q) -> safe (fun w => P w /\ fact) c Q.
Proof. intros Hc w o w' Hi [Hp Hf]. by apply Hc. Qed.

(** Operations that keep what a relation keeps *)
Definition within {A} (R : W -> W -> Prop) (c : T W A) : Prop := forall w o w', c w = (o, w') -> R w w'.
Context (R : W -> W -> Prop) `{!PreOrder R}.
Lemma within_ret {A} (a : A) : within R (ret a).
Proof. by intros w o w' [= <- <-]. Qed.
Lemma within_raise {A} e : within R (@raise test_exn W A e).
Proof. by intros w o w' [= <- <-]. Qed.
Lemma within_lift {A} (o : outcome test_exn A) : within R (lift o).
Proof. by intros w o' w' [= <- <-]. Qed.
Lemma within_gets {A} (f : W -> A) : within R (gets f).
Proof. by intros w o' w' [= <- <-]. Qed.
Lemma within_bind {A B} (c : T W A) (k : A -> T W B) :
  within R c -> (forall a, within R (k a)) -> within R (bind c k).
Proof.
  intros Hc Hk w o w'. unfold bind. destruct (c w) as [[a|e] w1] eqn:E; apply Hc in E.
  - intros ?%Hk. by transitivity w1.
  - by intros [= <- <-].
Qed.
Lemma within_catch {A} (c : T W A) h : within R c -> (forall e, within R (h e)) -> within R (catch c h).
Proof.
  intros Hc Hh w o w'. unfold catch. destruct (c w) as [[a|e] w1] eqn:E; apply Hc in E.
  - by intros [= <- <-].
  - intros ?%Hh. by transitivity w1.
Qed.
End Safety.
#[export] Instance kept_preorder {W} `{Servers W} : PreOrder (@kept W _).
Proof. split; [by intros w | intros w1 w2 w3 [E1 H1] [E2 H2]]. split; [congruence | eauto]. Qed.
#[export] Instance kept_or_emptied_preorder {W} `{Servers W} : PreOrder (@kept_or_emptied W _).
Proof.
  split; [by left |]. intros w1 w2 w3 H1 H2 n. destruct (H2 n) as [-> | ->]; [apply H1 | by right].
Qed.
Lemma kept_kept_or_emptied {W} `{Servers W} (w w' : W) : kept w w' -> kept_or_emptied w w'.
Proof. intros [E _] n. left. by rewrite E. Qed.
Lemma within_kept {W A} `{Servers W} (c : T W A) : within kept c -> within kept_or_emptied c.
Proof. intros Hc w o w' E%Hc. by apply kept_kept_or_emptied. Qed.

(** The rules of [within], by the shape of the computation; operations are found in [steps]. *)
Create HintDb steps.
Ltac within_step :=
  lazymatch goal with
  | |- within _ (bind _ _) => apply within_bind; [apply _ | | intros ?]
  | |- within _ (catch _ _) => apply within_catch; [apply _ | | intros ?]
  | |- within _ (ret _) => apply within_ret; apply _
  | |- within _ (raise _) => apply within_raise; apply _
  | |- within _ (lift _) => apply within_lift; apply _
  | |- within _ (gets _) => apply within_gets; apply _
  | |- within _ (match ?x with _ => _ end) => destruct x
  | |- within kept_or_emptied _ => first [solve [simple apply within_kept; auto with steps] | solve [auto with steps]]
  | |- within _ _ => solve [auto with steps]
  end.
Ltac within_steps := repeat within_step.

Section Operations.
Context {W : Type} `{MachineDoc W}.

Lemma keeps_monotonic : within kept monotonic. Proof. exact monotonic_doc. Qed.
Lemma keeps_sleep s : within kept (sleep s). Proof. exact (sleep_doc s). Qed.
Lemma keeps_get n : within kept (containers_get n). Proof. intros w o w' E. by apply get_doc in E as [? _]. Qed.
Lemma keeps_probe c probe : probe = _POSTGRES_READY_PROBE \/ probe = _REDIS_READY_PROBE -> within kept (exec_run c probe).
Proof. intros Hp w o w' E. eapply probe_doc; eauto. Qed.
#[local] Hint Resolve keeps_monotonic keeps_sleep keeps_get keeps_probe connect_doc : steps.
Lemma keeps_docker : within kept _docker.
Proof.
  intros w o w'. unfold _docker. destruct (has_docker w); [| by intros [= <- <-]]. revert w o w'.
  change (within kept (catch docker_connect (fun e => if catches_Exception e
    then raise (StackError "Docker is required for the integration lane and is not reachable.") else raise e))).
  within_steps. exact connect_doc.
Qed.
Lemma keeps_lock n : within kept (_lock n).
Proof. intros w o w'. unfold _lock. destruct (has_filelock w); [apply acquire_doc | by intros [= <- <-]]. Qed.
Lemma keeps_gone_loop rounds n d : within kept (gone_loop rounds n d).
Proof. induction rounds as [|r IH]; cbn [gone_loop]; unfold gone_once; within_steps. Qed.
Lemma keeps_await_gone n : within kept (_await_gone n).
Proof. unfold _await_gone. within_steps. apply keeps_gone_loop. Qed.
Lemma keeps_ready_loop rounds c probe n d streak last :
  probe = _POSTGRES_READY_PROBE \/ probe = _REDIS_READY_PROBE -> within kept (ready_loop rounds c probe n d streak last).
Proof.
  intros Hp. revert streak last. induction rounds as [|r IH]; intros streak last; cbn [ready_loop]; unfold probe_once;
    within_steps; apply IH.
Qed.
Lemma keeps_wait_ready c probe n :
  probe = _POSTGRES_READY_PROBE \/ probe = _REDIS_READY_PROBE -> within kept (_wait_ready c probe n).
Proof. intros Hp. unfold _wait_ready. within_steps. by apply keeps_ready_loop. Qed.
#[local] Hint Resolve keeps_await_gone keeps_wait_ready start_doc remove_doc : steps.

(** Getting hold of a container changes no database, but may start from an empty server. *)
Lemma run_within i cmd n e p : within kept_or_emptied (containers_run i cmd n e p).
Proof. intros w o w' E. by apply run_doc in E as [? _]. Qed.
Lemma reload_within c : within kept (container_reload c).
Proof. intros w o w' E. by apply reload_doc in E as [? _]. Qed.
Lemma start_within c : within kept_or_emptied (container_start c).
Proof. exact (start_doc c). Qed.
Lemma remove_within c : within kept_or_emptied (container_remove c).
Proof. exact (remove_doc c). Qed.
#[local] Hint Resolve run_within reload_within start_within remove_within : steps.
Lemma adopt_within n last : within kept_or_emptied (adopt n last).
Proof. unfold adopt. within_steps. Qed.
Lemma adopt_loop_within k n image port env cmd attempts last : within kept_or_emptied (adopt_loop k n image port env cmd attempts last).
Proof.
  revert last. induction k as [|k IH]; intros last; cbn [adopt_loop]; within_steps; try apply adopt_within; apply IH.
Qed.
Lemma remove_existing_within n : within kept_or_emptied (remove_existing n).
Proof. unfold remove_existing. within_steps. Qed.
#[local] Hint Resolve adopt_loop_within remove_existing_within : steps.
(** The container has the name that was asked for. *)
Lemma adopt_name n last w l w' : adopt n last w = (Ret l, w') -> match l with Got c => c_name c = n | _ => True end.
Proof.
  unfold adopt, catch. destruct (bind _ _ w) as [[l'|e] w1] eqn:E.
  - intros [= <- <-]. apply bind_Ret_inv in E as (c & w2 & [_ Hc]%get_doc & E). specialize (Hc c eq_refl).
    case_bool_decide; [by apply bind_Ret_inv in E as (? & ? & _ & [= <- _]) |].
    case_bool_decide; [by injection E as <- _ | by apply bind_Ret_inv in E as (? & ? & _ & [= <- _])].
  - destruct e; cbn; by intros [= <- _].
Qed.
Lemma adopt_loop_name k n image port env cmd attempts last w c w' :
  adopt_loop k n image port env cmd attempts last w = (Ret c, w') -> c_name c = n.
Proof.
  revert last w. induction k as [|k IH]; intros last w; cbn [adopt_loop]; [done |].
  intros (l & w1 & Hl%adopt_name & E)%bind_Ret_inv. destruct l as [c'| |last']; [by injection E as <- _ | by eauto |].
  apply bind_Ret_inv in E as (r & w2 & Er & E). unfold catch in Er.
  destruct (bind _ _ w1) as [[r'|e] w3] eqn:Eb.
  - injection Er as <- <-. apply bind_Ret_inv in Eb as (c' & w4 & [_ Hc]%run_doc & [= <- _]). injection E as <- _. by apply Hc.
  - destruct (is_api_error e); [destruct (name_taken e) |]; try done. injection Er as <- <-. eauto.
Qed.

(** A container that was ensured is reached at the port that was returned. *)
Lemma ensure_container_spec environ n image port env cmd probe w o w' :
  probe = _POSTGRES_READY_PROBE \/ probe = _REDIS_READY_PROBE ->
  _ensure_container environ n image port env cmd probe w = (o, w') ->
  kept_or_emptied w w' /\ forall p, o = Ret p -> port = 5432 -> serves w' n p.
Proof.
  intros Hp. unfold _ensure_container.
  assert (within kept_or_emptied (_ensure_container environ n image port env cmd probe)) as Hw.
  { unfold _ensure_container, _adopt_or_create. within_steps. }
  intros E. split; [by apply (Hw _ _ _ E) |]. intros p -> ->.
  apply bind_Ret_inv in E as ([] & w2 & _ & E).
  apply bind_Ret_inv in E as (c & w3 & Ha & E). unfold _adopt_or_create in Ha. apply adopt_loop_name in Ha.
  apply bind_Ret_inv in E as (c' & w4 & [_ Hr]%reload_doc & E).
  apply bind_Ret_inv in E as (hp & w5 & Eh & E). apply bind_Ret_inv in E as ([] & w6 & Ew & [= -> <-]).
  injection Eh as Eh <-. apply (keeps_wait_ready _ _ _ Hp _ _ _ Ew). specialize (Hr c' eq_refl). rewrite Ha in Hr.
  unfold host_port_of in Eh. change (str_of_Z 5432 +:+ "/tcp") with "5432/tcp" in Eh.
  destruct (dget "5432/tcp" (c_ports c')) as [[|b rest]|]; try done. destruct (Z_of_str b) as [q|] eqn:Eq; [| done].
  injection Eh as ->. eauto.
Qed.
End Operations.

Section Databases.
Context {W : Type} `{MachineDoc W}.
Implicit Types (P : gmap string database -> Prop) (ports : list Z).

(** The container [n] is reached at [ports] and its databases satisfy [P]. *)
Definition at_ (n : string) ports P (w : W) : Prop := (forall p, p ∈ ports -> serves w n p) /\ P (pg w n).

Lemma invariant_within w w' : kept_or_emptied w w' -> invariant w -> invariant w'.
Proof. intros Hk Hi n. destruct (Hk n) as [-> | ->]; auto with stack. Qed.
Lemma safe_within {A} (c : T W A) : within kept_or_emptied c -> safe anyhow c (fun _ => anyhow).
Proof. intros Hc w o w' Hi _ E%Hc. split; [by eapply invariant_within | done]. Qed.
Lemma safe_kept {A} n ports P (c : T W A) : within kept c -> safe (at_ n ports P) c (fun _ => at_ n ports P).
Proof.
  intros Hc w o w' Hi [Hs HP] E%Hc. split; [eapply invariant_within; [by apply kept_kept_or_emptied | done] |].
  intros _ _. destruct E as [Epg Es]. split; [auto | by rewrite Epg].
Qed.

(** One statement: what it does to complete templates, and what it leaves *)
Lemma safe_psql c sql db n ports P (Q : string -> gmap string database -> Prop) : c_name c = n ->
  (forall m out m', templates_complete m -> P m -> run_sql db sql m = Some (out, m') ->
     templates_complete m' /\ Q out m') ->
  safe (at_ n ports P) (_psql c sql db) (fun out => at_ n ports (Q out)).
Proof.
  intros <- Hsql w o w' Hi [Hs HP] E. unfold _psql, bind, ret, raise in E.
  destruct (exec_run c (psql_command db sql) w) as [r w1] eqn:Ex.
  assert (w1 = w') as -> by (destruct r as [[code output]|]; cbn [fst snd] in E; [destruct (code =? 0) |]; by inversion E).
  apply psql_doc in Ex as [[Hn Hs'] [(out & Er & Ho) | [Epg Ho]]].
  - destruct (Hsql _ _ _ (Hi _) HP Er) as [Hc HQ]. split.
    + intros n'. destruct (decide (n' = c_name c)) as [-> | Hne]; [done | rewrite Hn by done; apply Hi].
    + intros a ->. destruct r as [[code output]|]; [| done]. cbn [fst snd] in E. destruct (Z.eqb_spec code 0) as [-> |]; [| done].
      injection E as <-. rewrite (Ho output eq_refl). split; [auto | done].
  - split.
    + intros n'. destruct (decide (n' = c_name c)) as [-> | Hne]; [rewrite Epg | rewrite Hn by done]; apply Hi.
    + intros a ->. destruct r as [[code output]|]; [| done]. cbn [fst snd] in E. destruct (Z.eqb_spec code 0) as [-> |]; [| done].
      by destruct (Ho output).
Qed.
Lemma safe_drop c n ports P db : c_name c = n -> plain_name db ->
  safe (at_ n ports P) (_psql c (drop_database db) "postgres") (fun _ => at_ n ports (fun m => m !! db = None)).
Proof.
  intros Hn Hp. apply safe_psql; [done |]. intros m out m' Hm _. rewrite run_drop by done. intros [= _ <-].
  split; [auto with stack | apply lookup_delete_eq].
Qed.
Lemma safe_create c n ports db : c_name c = n -> plain_name db -> ~ is_template db ->
  safe (at_ n ports (fun m => m !! db = None)) (_psql c (create_database db) "postgres")
    (fun _ => at_ n ports (fun m => m !! db = Some (Ran <$> []))).
Proof.
  intros Hn Hp Ht. apply safe_psql; [done |]. intros m out m' Hm Hdb. rewrite run_create, Hdb by done. intros [= _ <-].
  split; [auto with stack | apply lookup_insert_eq].
Qed.
Lemma safe_layout c n ports db todo : c_name c = n -> ~ is_template db ->
  forall done_, todo ⊆ DATABASE_LAYOUT ->
  safe (at_ n ports (fun m => m !! db = Some (Ran <$> done_)))
    (mfor todo (fun statement => do! _psql c statement db in ret tt))
    (fun _ => at_ n ports (fun m => m !! db = Some (Ran <$> (done_ ++ todo)))).
Proof.
  intros Hn Ht. induction todo as [|s todo IH]; intros done_ Hin; cbn [mfor].
  { apply safe_ret. intros w. by rewrite app_nil_r. }
  apply safe_bind with (Q := fun _ => at_ n ports (fun m => m !! db = Some (Ran <$> (done_ ++ [s])))).
  - apply safe_bind with (Q := fun _ => at_ n ports (fun m => m !! db = Some (Ran <$> (done_ ++ [s])))); [| by intros a; apply safe_ret].
    apply safe_psql; [done |]. intros m out m' Hm Hdb. rewrite run_layout, Hdb by (apply Hin; left). intros [= _ <-].
    split; [auto with stack |]. by rewrite lookup_insert_eq, fmap_app.
  - intros []. rewrite (cons_middle s done_ todo), app_assoc. apply IH. intros x Hx. apply Hin. by right.
Qed.
Lemma safe_migrations environ config n port db h : ~ is_template db ->
  safe (at_ n [port] (fun m => m !! db = Some h)) (run_migrations environ config (_dsn port db))
    (fun r => at_ n [port] (fun m => returncode r = 0 -> exists argv, tl argv = tl (tc_migrate_command config) /\
                                     m !! db = Some (h ++ [Migrated (tc_root config) argv]))).
Proof.
  intros Ht w o w' Hi [Hs Hdb] E. unfold run_migrations in E.
  destruct (migrate_doc _ _ _ _ _ _ _ _ (Hs port ltac:(left)) E) as ([Hn Hs'] & Hd & Hr). split.
  - intros n'. destruct (decide (n' = n)) as [-> | Hne]; [| rewrite Hn by done; apply Hi].
    intros d h' Hl Hdt. rewrite Hd in Hl; [by apply (Hi n) | by intros ->].
  - intros r ->. split; [auto |]. intros Hrc. rewrite (Hr r eq_refl Hrc), Hdb. eexists. split; [| reflexivity].
    unfold migrate_argv. by destruct (tc_migrate_command config).
Qed.
Lemma safe_rename c n ports db t config key : c_name c = n -> plain_name db -> plain_name t ->
  t = template_name (tc_service config) key ->
  safe (at_ n ports (fun m => exists argv, tl argv = tl (tc_migrate_command config) /\
          m !! db = Some ((Ran <$> DATABASE_LAYOUT) ++ [Migrated (tc_root config) argv])))
    (_psql c (rename_database db t) "postgres") (fun _ => at_ n ports (fun m => is_Some (m !! t))).
Proof.
  intros Hn Hdb Ht Et. apply safe_psql; [done |]. intros m out m' Hm (argv & Ha & Hh). rewrite run_rename, Hh by done.
  destruct (m !! t) as [h|] eqn:E; [done |]. intros [= _ <-]. split; [| rewrite lookup_insert_eq; eauto].
  apply templates_complete_insert; [| auto with stack]. exists config, key. split; [done |]. by exists argv.
Qed.
Lemma safe_clone c n ports db t : c_name c = n -> plain_name db -> plain_name t -> ~ is_template db -> is_template t ->
  safe (at_ n ports (fun m => m !! db = None)) (_psql c (clone_database db t) "postgres")
    (fun _ => at_ n ports (fun m => exists h, m !! db = Some h /\ complete t h)).
Proof.
  intros Hn Hdb Ht Hnt Htt. apply safe_psql; [done |]. intros m out m' Hm Hl. rewrite run_clone, Hl by done.
  destruct (m !! t) as [h|] eqn:E; [| done]. intros [= _ <-]. split; [auto with stack |].
  exists h. split; [apply lookup_insert_eq | by apply Hm].
Qed.

(** The rename is the only step that makes a template. *)
Lemma build_template_safe environ c n port config key : c_name c = n -> all_chars is_hex key = true ->
  safe (at_ n [port] (fun _ => True)) (_build_template environ c config (template_name (tc_service config) key) port)
    (fun _ => at_ n [port] (fun m => is_Some (m !! template_name (tc_service config) key))).
Proof.
  intros Hn Hk. unfold _build_template. set (t := template_name _ _). set (b := building t).
  assert (plain_name t) as Ht by by apply template_plain.
  assert (plain_name b) as Hb by by apply building_plain.
  assert (~ is_template b) as Hbt by apply building_not_template.
  eapply safe_bind; [by apply safe_drop | intros ?].
  eapply safe_bind; [by apply safe_create | intros ?].
  eapply safe_bind; [by apply (safe_layout c n [port] b DATABASE_LAYOUT Hn Hbt []) | intros ?].
  eapply safe_bind; [by apply safe_migrations | intros r].
  destruct (Z.eqb_spec (returncode r) 0) as [Hr | Hr]; cbn [negb].
  - eapply safe_bind; [| intros ?; apply safe_ret; intros w Hw; exact Hw].
    eapply safe_pre; [| eapply safe_rename; [exact Hn | exact Hb | exact Ht | reflexivity]].
    intros w [Hs Hm]. split; [done | by apply Hm].
  - eapply safe_bind; [by apply safe_drop | intros ?; apply safe_raise].
Qed.
End Databases.

(** ** The critical sections *)

Section Critical.
Context {W : Type} `{MachineDoc W}.

Lemma safe_with_lock {A} lock n ports P (Q : A -> gmap string database -> Prop) body qports :
  safe (at_ n ports P) body (fun a => at_ n (qports a) (Q a)) ->
  safe (at_ n ports P) (with_lock lock body) (fun a => at_ n (qports a) (Q a)).
Proof.
  intros Hb. unfold with_lock. eapply safe_bind; [apply safe_kept, keeps_lock | intros u0].
  intros w o w' Hi Hp. unfold finally. destruct (body w) as [o1 w1] eqn:E1. destruct (Hb _ _ _ Hi Hp E1) as [Hi1 Hq].
  destruct (lock_release lock w1) as [[u|e] w2] eqn:E2; intros [= <- <-].
  - destruct (safe_kept n [] (fun _ => True) (lock_release lock) (release_doc lock) w1 _ _ Hi1 ltac:(by split; [set_solver |]) E2) as [Hi2 _].
    split; [done |]. intros a ->. destruct (Hq a eq_refl) as [Hs HQ]. apply release_doc in E2 as [Epg Es].
    split; [auto | by rewrite Epg].
  - split; [| done]. eapply invariant_within; [eapply kept_kept_or_emptied, release_doc, E2 | done].
Qed.
Lemma safe_get n ports P : safe (at_ n ports P) (containers_get n) (fun c w => at_ n ports P w /\ c_name c = n).
Proof.
  intros w o w' Hi Hp E. pose proof (safe_kept n ports P (containers_get n) (keeps_get n) w o w' Hi Hp E) as [Hi' Hq].
  split; [done |]. intros c ->. apply get_doc in E as [_ Hc]. split; [by apply (Hq c) | by apply Hc].
Qed.
Lemma safe_ensure environ n image env cmd : 
  safe (at_ n [] (fun _ => True)) (_ensure_container environ n image 5432 env cmd _POSTGRES_READY_PROBE)
    (fun p => at_ n [p] (fun _ => True)).
Proof.
  intros w o w' Hi _ [Hk Hp]%ensure_container_spec; [| by left]. split; [by eapply invariant_within |].
  intros p ->. split; [| done]. intros q ->%list_elem_of_singleton. auto.
Qed.
Lemma safe_exists c n ports db : c_name c = n -> plain_name db ->
  safe (at_ n ports (fun _ => True)) (_database_exists c db)
    (fun b => at_ n ports (fun m => b = true -> is_Some (m !! db))).
Proof.
  intros Hn Hp. unfold _database_exists. eapply safe_bind with (Q := fun out => at_ n ports (fun m => out = "1" -> is_Some (m !! db))).
  - apply safe_psql; [done |]. intros m out m' Hm _. rewrite run_exists by done. intros [= <- <-]. split; [done |].
    by destruct (decide _).
  - intros out. apply safe_ret. intros w [Hs Ho]. split; [done |]. rewrite bool_decide_eq_true. exact Ho.
Qed.

(** After the first section of [provision] the server has the template. *)
Lemma postgres_section_safe environ config pg_name key : all_chars is_hex key = true ->
  safe anyhow (postgres_section environ config pg_name (template_name (tc_service config) key))
    (fun p => at_ pg_name [p] (fun m => is_Some (m !! template_name (tc_service config) key))).
Proof.
  intros Hk. set (t := template_name _ key). apply safe_pre with (P := at_ pg_name [] (fun _ => True)); [by split; [set_solver |] |].
  unfold postgres_section. apply (safe_with_lock _ _ _ _ (fun _ m => is_Some (m !! t)) _ (fun p => [p])).
  eapply safe_bind; [apply safe_ensure | intros p]. eapply safe_bind; [apply safe_get | intros c].
  apply safe_pure. intros Hc.
  eapply safe_bind; [by apply safe_exists, template_plain | intros b].
  apply safe_bind with (Q := fun _ => at_ pg_name [p] (fun m => is_Some (m !! t))); [| by intros []; apply safe_ret].
  destruct b.
  - apply safe_ret. intros w [Hs Hb]. split; [done | by apply Hb].
  - eapply safe_pre; [| by apply build_template_safe]. by intros w [Hs _].
Qed.
Lemma redis_section_safe environ config redis_name : safe anyhow (redis_section environ config redis_name) (fun _ => anyhow).
Proof.
  unfold redis_section. eapply safe_weaken with (P := at_ redis_name [] (fun _ => True)) (Q := fun _ => at_ redis_name [] (fun _ => True)).
  - apply (safe_with_lock _ _ _ _ (fun _ _ => True) _ (fun _ => [])). intros w o w' Hi _ [Hk _]%ensure_container_spec; [| by right].
    split; [by eapply invariant_within |]. by split; [set_solver |].
  - by split; [set_solver |].
  - done.
Qed.
(** After the section of [create_run_database] the run's database is a copy of a complete template. *)
Lemma clone_section_safe pg_name t db : plain_name db -> ~ is_template db -> plain_name t -> is_template t ->
  safe anyhow (clone_section pg_name t db) (fun _ => at_ pg_name [] (fun m => exists h, m !! db = Some h /\ complete t h)).
Proof.
  intros Hdb Hn Ht Htt. apply safe_pre with (P := at_ pg_name [] (fun _ => True)); [by split; [set_solver |] |].
  unfold clone_section. apply (safe_with_lock _ _ _ _ (fun _ m => exists h, m !! db = Some h /\ complete t h) _ (fun _ => [])).
  eapply safe_bind; [apply safe_get | intros c]. apply safe_pure. intros Hc.
  eapply safe_bind; [by apply safe_drop | intros ?]. eapply safe_bind; [by apply safe_clone | intros ?]. by apply safe_ret.
Qed.
Lemma drop_run_safe config run worker : sound_memo config -> safe anyhow (drop_run_databases config run worker) (fun _ => anyhow).
Proof.
  intros Hm. unfold drop_run_databases. apply safe_catch; [| intros e; by destruct (catches_Exception e); [apply safe_ret | apply safe_raise]].
  eapply safe_bind; [apply safe_within, within_kept, keeps_docker | intros ?].
  apply safe_bind with (Q := fun k _ => all_chars is_hex k = true).
  - intros w o w' Hi _ [= <- <-]. split; [done |]. intros k [= <-]. by apply key_digits.
  - intros k. cbn [_names]. set (n := "tr-test-pg-" +:+ first 10 k).
    apply safe_pre with (P := fun w => at_ n [] (fun _ => True) w /\ all_chars is_hex k = true); [intros w Hk; split; [by split; [set_solver |] | done] |].
    apply safe_pure. intros Hk. eapply safe_bind; [apply safe_get | intros c]. apply safe_pure. intros Hc.
    eapply safe_bind; [by apply safe_drop, run_database_plain | intros ?; by apply safe_ret].
Qed.
End Critical.

(** ** Any number of runs, by any number of services and workers

    A process holds the lock of a server while it works on it, so the critical sections of all
    processes follow one another; dropping a run's database takes no lock, and tests write to any
    database but a template at any time.  A section may end in any exception, at any of its steps. *)
Inductive activity {W : Type} `{MachineDoc W} : W -> W -> Prop :=
| PostgresSection environ config pg_name key w : all_chars is_hex key = true ->
    activity w (snd (postgres_section environ config pg_name (template_name (tc_service config) key) w))
| RedisSection environ config redis_name w : activity w (snd (redis_section environ config redis_name w))
| CloneSection service pg_name key run worker w : all_chars is_hex key = true -> String.length key = 12%nat ->
    activity w (snd (clone_section pg_name (template_name service key) (run_database service key run worker) w))
| DropRun config run worker w : sound_memo config -> activity w (snd (drop_run_databases config run worker w))
| TestsWrite w w' : (forall n db, is_template db -> pg w' n !! db = pg w n !! db) -> activity w w'.

Lemma safe_invariant {W A} `{MachineDoc W} (c : T W A) Q w : safe anyhow c Q -> invariant w -> invariant (snd (c w)).
Proof. intros Hc Hi. destruct (c w) as [o w'] eqn:E. by apply (Hc _ _ _ Hi I E). Qed.
Lemma activity_invariant {W} `{MachineDoc W} (w w' : W) : activity w w' -> invariant w -> invariant w'.
Proof.
  intros Ha Hi. destruct Ha as [environ config n key w Hk | environ config n w | service n key run worker w Hk Hl | config run worker w Hm | w w' Hw].
  - by eapply safe_invariant; [apply postgres_section_safe |].
  - by eapply safe_invariant; [apply redis_section_safe |].
  - eapply safe_invariant; [apply clone_section_safe | done];
      auto using run_database_plain, run_database_not_template, template_plain. by exists service, key.
  - by eapply safe_invariant; [apply drop_run_safe |].
  - intros n db h Hl Ht. rewrite Hw in Hl by done. by apply (Hi n).
Qed.

(** C32. Warm servers, cold data.  Start with no test containers, and let any number of runs of any services
    provision, clone, drop and write, each of them failing or being interrupted wherever it may.  Every
    template on every server is then complete: its history is the database layout followed by a
    service's migrations to their end, and nothing else.  And whenever [create_run_database] returns, the run's
    database has exactly the history of a complete template of that name, whatever an earlier run
    left under the same name.  Runs are serialised by the file lock they hold, and the run's
    fingerprint has been computed (its memo is filled), as [provision] leaves it. *)
Theorem test_data_is_cold {W} `{MachineDoc W} (w0 w : W) :
  (forall n, pg w0 n = ∅) -> star activity w0 w ->
  (forall n db h, pg w n !! db = Some h -> is_template db -> complete db h) /\
  forall config value run_id worker_id w',
    tc_fingerprint config = Some value -> digest_text value ->
    create_run_database config run_id worker_id w = (Ret tt, w') ->
    let '(pg_name, template, run_db) := _names (tc_service config) (first 12 value) run_id worker_id in
    exists h, pg w' pg_name !! run_db = Some h /\ complete template h.
Proof.
  intros Hnone Hs. assert (invariant w) as Hi.
  { refine (star_invariant _ _ _ _ _ Hs _); [intros ? ?; apply activity_invariant |]. intros n. rewrite Hnone. auto with stack. }
  split; [exact Hi |]. intros config value run_id worker_id w' Hv [Hh Hl] E. cbn [_names].
  unfold create_run_database in E. apply bind_Ret_inv in E as ([] & w1 & Hd%keeps_docker & E).
  apply bind_Ret_inv in E as (k & w2 & Ek & E). unfold config_key, gets, key, fingerprint in Ek. rewrite Hv in Ek.
  injection Ek as <- <-. cbn [_names] in E.
  change (String.substring 0 12 value) with (first 12 value) in E. set (k := first 12 value) in *.
  assert (all_chars is_hex k = true) as Hk by by apply all_chars_substring.
  assert (String.length k = 12%nat) as Hkl by (apply length_substring; lia).
  refine (proj2 (proj2 (clone_section_safe _ _ _ _ _ _ _ w1 _ _ _ I E) tt eq_refl));
    auto using run_database_plain, run_database_not_template, template_plain; [by exists (tc_service config), k |].
  eapply invariant_within; [by apply kept_kept_or_emptied | done].
Qed.

(** ** Waiting *)

Section Waiting.
Context {W : Type} `{Machine W}.
Variables (c : container) (probe : list string).

(** [k] probes in a row succeed, an interval apart; the last one ends in [w']. *)
Inductive probed : nat -> W -> W -> Prop :=
| probed_one w w' : probe_once c probe w = (Ret None, w') -> probed 1 w w'
| probed_more k w w1 w2 w' now : probe_once c probe w = (Ret None, w1) ->
    bind (sleep _READY_INTERVAL) (fun _ => monotonic) w1 = (Ret now, w2) -> probed k w2 w' -> probed (S k) w w'.

Lemma ready_loop_probed rounds name d streak last w w' : 0 <= streak < 3 ->
  ready_loop rounds c probe name d streak last w = (Ret tt, w') ->
  exists v, probed 3 v w' \/ exists now, monotonic w = (Ret now, v) /\ probed (Z.to_nat (3 - streak)) v w'.
Proof.
  revert streak last w. induction rounds as [|n IH]; intros streak last w Hs; cbn [ready_loop]; [done |].
  intros (now & w1 & Em & E)%bind_Ret_inv. destruct (now <? d); [| done].
  apply bind_Ret_inv in E as ([f|] & w2 & Ep & E).
  - apply bind_Ret_inv in E as ([] & w3 & _ & E). apply IH in E as (v & [Hv | (now' & _ & Hv)]); [| | lia];
      exists v; by left.
  - unfold _READY_STREAK in E. destruct (Z.leb_spec 3 (streak + 1)) as [Hle | Hle].
    + injection E as <-. exists w1. right. exists now. split; [done |]. replace (Z.to_nat (3 - streak)) with 1%nat by lia. by constructor.
    + apply bind_Ret_inv in E as ([] & w3 & Es & E). apply IH in E as (v & [Hv | (now' & Em' & Hv)]); [exists v; by left | | lia].
      exists w1. right. exists now. split; [done |]. replace (Z.to_nat (3 - streak)) with (S (Z.to_nat (3 - (streak + 1)))) by lia.
      eapply probed_more; [exact Ep | | exact Hv]. by rewrite (bind_Ret _ _ _ _ _ Es).
Qed.
(** One success is not enough: when the wait returns, three probes in a row have succeeded. *)
Lemma wait_ready_probed name w w' : _wait_ready c probe name w = (Ret tt, w') -> exists v, probed 3 v w'.
Proof.
  intros (now & w1 & _ & E)%bind_Ret_inv. apply ready_loop_probed in E as (v & [Hv | (_ & _ & Hv)]); [eauto.. | lia].
Qed.

(** The loops end by the clock, not by their fuel. *)
Class ClockDoc (clock : W -> Z) : Prop := {
  clock_read w o w' : monotonic w = (o, w') -> o = Ret (clock w) /\ clock w <= clock w';
  clock_sleep s w o w' : sleep s w = (o, w') -> 0 <= s -> clock w <= clock w' /\ (o = Ret tt -> clock w + s <= clock w');
  clock_get n w o w' : containers_get n w = (o, w') -> clock w <= clock w';
  clock_exec c argv w o w' : exec_run c argv w = (o, w') -> clock w <= clock w';
}.
Lemma bind_ext {A B} (x : T W A) (k1 k2 : A -> T W B) w :
  (forall a w', x w = (Ret a, w') -> k1 a w' = k2 a w') -> bind x k1 w = bind x k2 w.
Proof. intros Hk. unfold bind. destruct (x w) as [[a|e] w'] eqn:E; [by apply Hk | done]. Qed.
Lemma ready_fuel `{ClockDoc clock} n k name d streak last w : d <= clock w + 300 * Z.of_nat n ->
  ready_loop (S n + k) c probe name d streak last w = ready_loop (S n) c probe name d streak last w.
Proof.
  revert streak last w. induction n as [|n IH]; intros streak last w Hd.
  all: cbn [ready_loop Nat.add]; apply bind_ext; intros now w1 [[= ->] Hm]%clock_read.
  all: destruct (Z.ltb_spec (clock w) d) as [Hlt | _]; [| done].
  { lia. }
  apply bind_ext. intros r w2 Ep. assert (clock w1 <= clock w2) as Hp.
  { revert Ep. unfold probe_once, catch, bind. destruct (exec_run c probe w1) as [[r'|e] w3] eqn:Ex; apply clock_exec in Ex.
    - by intros [= _ <-].
    - destruct (catches_Exception e); by intros [= _ <-]. }
  destruct r as [f|]; [| destruct (_ <=? _); [done |]].
  all: apply bind_ext; intros [] w3 [_ Hs]%clock_sleep; [| done].
  all: specialize (Hs eq_refl); unfold _READY_INTERVAL in Hs.
  - exact (IH 0 f w3 ltac:(lia)).
  - exact (IH (streak + 1) last w3 ltac:(lia)).
Qed.
Lemma ready_rounds_enough `{ClockDoc clock} k name w :
  (let! now := monotonic in ready_loop (ready_rounds + k) c probe name (now + _READY_TIMEOUT) 0 "") w =
  _wait_ready c probe name w.
Proof.
  unfold _wait_ready, bind. destruct (monotonic w) as [[now|] w1] eqn:Em; [| done].
  apply clock_read in Em as [[= ->] Hm]. apply (ready_fuel 200). unfold _READY_TIMEOUT. lia.
Qed.
Lemma gone_fuel `{ClockDoc clock} n k name d w : d <= clock w + 200 * Z.of_nat n ->
  gone_loop (S n + k) name d w = gone_loop (S n) name d w.
Proof.
  revert w. induction n as [|n IH]; intros w Hd.
  all: cbn [gone_loop Nat.add]; apply bind_ext; intros now w1 [[= ->] Hm]%clock_read.
  all: destruct (Z.ltb_spec (clock w) d) as [Hlt | _]; [| done].
  { lia. }
  apply bind_ext. intros b w2 Ep. assert (clock w1 <= clock w2) as Hp.
  { revert Ep. unfold gone_once, catch, bind. destruct (containers_get name w1) as [[r'|e] w3] eqn:Ex; apply clock_get in Ex.
    - by intros [= _ <-].
    - by destruct e; intros [= _ <-]. }
  destruct b; [done |]. apply bind_ext. intros [] w3 [_ Hs]%clock_sleep; [| done]. specialize (Hs eq_refl). exact (IH w3 ltac:(lia)).
Qed.
Lemma gone_rounds_enough `{ClockDoc clock} k name w :
  (let! now := monotonic in gone_loop (gone_rounds + k) name (now + 20000)) w = _await_gone name w.
Proof.
  unfold _await_gone, bind. destruct (monotonic w) as [[now|] w1] eqn:Em; [| done].
  apply clock_read in Em as [[= ->] Hm]. apply (gone_fuel 100). lia.
Qed.
End Waiting.

(** ** A machine with one server *)

Record host := mkHost {
  h_name : option string;              (* the container that runs *)
  h_dbs : gmap string database;
  h_clock : Z;
  h_migrations : list Z;               (* exit codes of the next migrations; then 0 *)
}.
Definition h_port : Z := 15432.
Definition h_container (n : string) : container := mkContainer n "running" [("5432/tcp", [str_of_Z h_port])].
Definition not_running {A} (n : string) : T host A := raise (NotFound ("no container " +:+ n)).
Definition h_migrate (argv : list string) (cwd dsn : string) : T host completed := fun w =>
  let code := match h_migrations w with z :: _ => z | [] => 0 end in
  let dbs := match find (fun kv => bool_decide (_dsn h_port kv.1 = dsn)) (map_to_list (h_dbs w)) with
             | Some (db, h) => <[db := h ++ [if code =? 0 then Migrated cwd argv else Written]]> (h_dbs w)
             | None => h_dbs w
             end in
  (Ret (mkCompleted code "" ""), mkHost (h_name w) dbs (h_clock w) (tl (h_migrations w))).
Definition h_exec (c : container) (argv : list string) : T host (Z * string) := fun w =>
  if bool_decide (h_name w = Some (c_name c)) then
    let db := nth 7 argv "" in
    let sql := nth 9 argv "" in
    if bool_decide (argv = psql_command db sql) then
      match run_sql db sql (h_dbs w) with
      | Some (out, dbs) => (Ret (0, out), mkHost (h_name w) dbs (h_clock w) (h_migrations w))
      | None => (Ret (1, "ERROR"), w)
      end
    else (Ret (0, ""), w)
  else not_running (c_name c) w.
#[export] Instance host_machine : Machine host := {
  glob _ _ _ := [];
  which _ _ _ := None;
  has_docker _ := true;
  has_filelock _ := true;
  monotonic w := (Ret (h_clock w), w);
  sleep s w := (Ret tt, mkHost (h_name w) (h_dbs w) (h_clock w + Z.max 0 s) (h_migrations w));
  lock_acquire _ := ret tt;
  lock_release _ := ret tt;
  run_process := h_migrate;
  docker_connect := ret tt;
  containers_get n w := if bool_decide (h_name w = Some n) then (Ret (h_container n), w) else not_running n w;
  containers_run _ _ n _ _ w :=
    match h_name w with
    | None => (Ret (h_container n), mkHost (Some n) ∅ (h_clock w) (h_migrations w))
    | Some _ => (Exc (APIError "Conflict"), w)
    end;
  container_start _ := ret tt;
  container_remove c w :=
    if bool_decide (h_name w = Some (c_name c)) then (Ret tt, mkHost None ∅ (h_clock w) (h_migrations w))
    else not_running (c_name c) w;
  container_reload c w := if bool_decide (h_name w = Some (c_name c)) then (Ret (h_container (c_name c)), w)
                          else not_running (c_name c) w;
  exec_run := h_exec;
}.
#[export] Instance host_servers : Servers host := {
  pg w n := if bool_decide (h_name w = Some n) then h_dbs w else ∅;
  serves w n p := h_name w = Some n /\ p = h_port;
}.

Lemma run_sql_output db sql dbs out dbs' : run_sql db sql dbs = Some (out, dbs') -> strip out = out.
Proof.
  assert (forall a b, in_database db sql a = Some (out, b) -> strip out = out) as Hin.
  { intros a b. unfold in_database. destruct (split_on "'" sql) as [|x [|y [|z [|]]]];
      repeat case_match; intros [= <- _]; try reflexivity; by destruct (decide _). }
  unfold run_sql. repeat case_match; try (intros [= <- _]; reflexivity); try done; apply Hin.
Qed.
Lemma dsn_inj p d d' : _dsn p d = _dsn p d' -> d = d'.
Proof. unfold _dsn. intros E. do 5 apply append_inj_l in E. by do 2 apply append_inj_l in E. Qed.
Lemma host_kept (w w' : host) : h_name w' = h_name w -> h_dbs w' = h_dbs w -> kept w w'.
Proof. destruct w, w'. cbn. intros -> ->. done. Qed.
#[export] Instance host_doc : MachineDoc host.
Proof.
  split; cbn.
  - intros w o w' [= _ <-]. by apply host_kept.
  - intros s w o w' [= _ <-]. by apply host_kept.
  - intros n w o w' [= _ <-]. by apply host_kept.
  - intros n w o w' [= _ <-]. by apply host_kept.
  - intros w o w' [= _ <-]. by apply host_kept.
  - intros n w o w'. case_bool_decide; intros [= <- <-]; (split; [by apply host_kept | intros c E; by inversion E]).
  - intros i cmd n e p w o w'. destruct (h_name w) as [m|] eqn:E; intros [= <- <-].
    + split; [by left | done].
    + split; [| by intros c [= <-]]. intros n'. cbn. right. by case_bool_decide.
  - intros c w o w' [= _ <-]. by left.
  - intros c w o w'. case_bool_decide; intros [= _ <-]; [| by left]. intros n. cbn. right. by case_bool_decide.
  - intros c w o w'. case_bool_decide as Hc; intros [= <- <-]; (split; [by apply host_kept | intros c' E]); [| done].
    injection E as <-. intros b rest p [= <- _] Ez. split; [done |].
    change (Z_of_str (str_of_Z h_port) = Some p) in Ez. rewrite Z_of_str_of_Z in Ez. by injection Ez as <-.
  - intros c argv w o w' E Hargv. unfold h_exec in E. case_bool_decide; [| by injection E as _ <-; apply host_kept].
    rewrite bool_decide_false in E; [by injection E as _ <-; apply host_kept |]. destruct Hargv as [-> | ->]; done.
  - intros c db sql w o w'. unfold h_exec. cbn [nth psql_command]. case_bool_decide as Hc.
    + rewrite bool_decide_true by done. destruct (run_sql db sql (h_dbs w)) as [[out dbs]|] eqn:E; intros [= <- <-].
      * split; [split; [| done] |].
        -- intros n Hn. cbn. by rewrite bool_decide_false by (rewrite Hc; congruence).
        -- left. exists out. cbn. rewrite bool_decide_true by done. split; [done |]. intros output [= <-]. by eapply run_sql_output.
      * split; [by split |]. right. split; [by rewrite bool_decide_true | done].
    + intros [= <- <-]. split; [by split |]. right. split; [by rewrite bool_decide_false | done].
  - intros argv cwd name port db w o w' [Hn ->] E. unfold h_migrate in E. apply pair_equal_spec in E as [<- <-].
    split; [split; [intros n Hne; cbn; by rewrite !bool_decide_false by (rewrite Hn; congruence) | done] |]. cbn.
    rewrite !bool_decide_true by done. destruct (find _ _) as [[d h]|] eqn:E.
    + apply find_some in E as [Hin Hd%bool_decide_eq_true]. cbn in Hd. apply dsn_inj in Hd as ->.
      apply list_elem_of_In, elem_of_map_to_list in Hin. split; [intros d Hd; by rewrite lookup_insert_ne |].
      intros r [= <-]. cbn. intros ->. cbn. by rewrite lookup_insert_eq, Hin.
    + split; [done |]. intros r _ _. destruct (h_dbs w !! db) as [h|] eqn:El; [| done].
      apply elem_of_map_to_list, list_elem_of_In in El. apply (find_none _ _ E) in El. cbn in El.
      by rewrite bool_decide_true in El.
Qed.

(** A service whose first migration fails, and a run that finds what an earlier one wrote *)
Definition demo_digest := "0123456789abcdef0123456789abcdef0123456789abcdef0123456789abcdef".
Definition demo_config : TestingConfig :=
  mkConfig "tr-crm-core" "/w/tr-crm-core" ["migrate"; "upgrade"; "head"] ["alembic/versions/*.py"]
    _DEFAULT_POSTGRES_IMAGE _DEFAULT_REDIS_IMAGE "test" [] (Some demo_digest).
Definition demo_server := "tr-test-pg-0123456789".
Definition demo_template := "tr_crm_core_tmpl_0123456789".
Definition demo_run := "tr_crm_core_0123456789_4711_gw0".
Definition demo_section : T host Z := postgres_section (fun _ => None) demo_config demo_server (template_name "tr-crm-core" (first 12 demo_digest)).
Definition demo_clone : T host unit :=
  clone_section demo_server (template_name "tr-crm-core" (first 12 demo_digest))
    (run_database "tr-crm-core" (first 12 demo_digest) "4711" "gw0").
Definition demo_0 : host := mkHost None ∅ 0 [1].
Definition demo_failed : host := snd (demo_section demo_0).
Definition demo_built : host := snd (demo_section demo_failed).
Definition demo_cloned : host := snd (demo_clone demo_built).
Definition demo_written : host :=
  mkHost (h_name demo_cloned) (alter (fun h => h ++ [Written]) demo_run (h_dbs demo_cloned)) (h_clock demo_cloned) [].
Lemma test_data_is_cold_witness :
  h_dbs demo_failed = ∅ /\ last <$> h_dbs demo_written !! demo_run = Some (Some Written) /\
  exists w' h, create_run_database demo_config "4711" "gw0" demo_written = (Ret tt, w') /\
    pg w' demo_server !! demo_run = Some h /\ complete demo_template h.
Proof.
  split; [vm_compute; reflexivity |]. split; [vm_compute; reflexivity |].
  destruct (create_run_database demo_config "4711" "gw0" demo_written) as [[[]|e] w'] eqn:E; [| by vm_compute in E].
  destruct (test_data_is_cold demo_0 demo_written) as [_ Hcold].
  - intros n. reflexivity.
  - apply star_step with demo_failed; [by apply PostgresSection |].
    apply star_step with demo_built; [by apply PostgresSection |].
    apply star_step with demo_cloned; [by apply CloneSection |].
    apply star_step with demo_written; [| apply star_refl]. apply TestsWrite. intros n db Ht. cbn.
    case_bool_decide; [| done]. apply lookup_alter_ne. intros <-.
    apply (run_database_not_template "tr-crm-core" (first 12 demo_digest) "4711" "gw0"). exact Ht.
  - destruct (Hcold demo_config demo_digest "4711" "gw0" w') as (h & Hh & Hc); [done | by split | exact E |].
    exists w', h. split; [done |]. split; [exact Hh | exact Hc].
Defined.

(** ** What [provision] gives *)

(** The address of the run's database, and three databases of one Redis; the configuration keeps its key,
    so [create_run_database] later clones the template this call saw to. *)
Lemma provision_stack {W} `{Machine W} environ config run_id worker_id (w w' : W) stack config' :
  provision environ config run_id worker_id w = (Ret (stack, config'), w') ->
  exists pg_port redis_port files, config' = fingerprinted files config /\
    postgres_dsn stack = _dsn pg_port (run_database (tc_service config) (first 12 (fingerprint files config)) run_id worker_id) /\
    (redis_url stack, celery_broker_url stack, celery_result_backend stack) =
      redis_triple ("redis://127.0.0.1:" +:+ str_of_Z redis_port) worker_id.
Proof.
  intros E. unfold provision in E. apply bind_Ret_inv in E as ([] & w1 & _ & E).
  apply bind_Ret_inv in E as (c & w2 & Ec & E). injection Ec as <- <-.
  apply bind_Ret_inv in E as (k & w3 & Ek & E). injection Ek as <- <-. cbn [_names] in E.
  apply bind_Ret_inv in E as (p & w4 & _ & E). apply bind_Ret_inv in E as (rp & w5 & _ & E).
  exists p, rp, (glob w1 (tc_root config)). cbn [redis_triple] in *. by injection E as <- <- _.
Qed.
(** The index on the URL is discarded: the result depends on the server only. *)
Lemma redis_triple_server server db worker_id : 0 <= db ->
  redis_triple (server +:+ "/" +:+ str_of_Z db) worker_id =
  (server +:+ "/" +:+ str_of_Z (_redis_index worker_id), server +:+ "/" +:+ str_of_Z (_redis_index worker_id + 1),
   server +:+ "/" +:+ str_of_Z (_redis_index worker_id + 2)).
Proof.
  intros Hd. unfold redis_triple. enough (redis_server (server +:+ "/" +:+ str_of_Z db) = server) as -> by done.
  assert (all_chars is_decimal (str_of_Z db) = true /\ str_of_Z db <> "") as [Hall Hne].
  { assert (forall d, all_chars is_decimal (DecimalString.NilEmpty.string_of_uint d) = true) as Hu
      by (induction d; cbn; done).
    destruct db as [|p|p]; [done | | lia]. rewrite str_of_Z_pos. split; [apply Hu |].
    destruct (pos_digits p) as (c & t & -> & _). done. }
  unfold redis_server. assert (rstrip_char "/" (server +:+ "/" +:+ str_of_Z db) = server +:+ "/" +:+ str_of_Z db) as ->.
  { assert (forall a t, rstrip_char "/" t = t -> t <> "" -> rstrip_char "/" (a +:+ t) = a +:+ t) as Happ.
    { intros a t Ht Hn. induction a as [|c a IH]; [exact Ht |]. change (String c a +:+ t) with (String c (a +:+ t)).
      cbn [rstrip_char]. rewrite IH. destruct a as [|c' a']; [by destruct t | done]. }
    rewrite <- append_assoc. apply Happ; [| done]. clear -Hall Hne. induction (str_of_Z db) as [|c s IH]; [done |].
    cbn in *. apply andb_true_iff in Hall as [Hc Hs]. destruct s as [|c' s].
    - cbn. rewrite bool_decide_false; [done |]. by intros ->.
    - rewrite IH by done. done. }
  change ("/" +:+ str_of_Z db) with (String "/" (str_of_Z db)).
  rewrite rsplit_first_append by (by eapply all_chars_free).
  by rewrite Hall, (proj2 (nonempty_spec _)).
Qed.
