(* ===== verification/TestGuards.v ===== *)
(** * Checks a service's tests call

    Models src/tr_shared/testing/transaction_guard.py, session_scope.py, primary_keys.py, statements.py and
    roundtrip.py: the guard against tasks dispatched inside an open transaction, the scan of the routes' session
    dependencies and of the tables' primary keys, and the database of a migration round trip. *)

From stdpp Require Import sorting.
From Stdlib Require Import Ascii.
From S2P Require Import Prelude Json Errors Text Migrations TestConfig TestStack.
Local Open Scope Z_scope.

(** What a check raises: [AssertionError], or another exception *)
Inductive check_exn := AssertionError (msg : string) | OtherError (e : exn).

(** ** transaction_guard.py *)

Section Guard.
(** A tracked session as a key into the world; [in_transaction] is what it answers. *)
Context {W Session : Type}.
Variable in_transaction : W -> Session -> bool.

(** The two context variables, and the rest of the world *)
Record guard := mkGuard { g_session : option Session; g_violation : option string }.
Notation G A := (M check_exn (guard * W) A).
Definition set_session (s : option Session) (g : guard) : guard := mkGuard s (g_violation g).
Definition set_violation (v : option string) (g : guard) : guard := mkGuard (g_session g) v.
Definition on_guard (f : guard -> guard) : G unit := modify (fun st => (f (fst st), snd st)).

(** A context variable's token gives its earlier value back. *)
Definition track_session {A} (session : Session) (body : G A) : G A :=
  let! before := gets fst in
  do! on_guard (set_session (Some session)) in
  do! on_guard (set_violation None) in
  finally body (
    do! on_guard (set_session (g_session before)) in
    let! violation := gets (fun st => g_violation (fst st)) in
    do! on_guard (set_violation (g_violation before)) in
    if nonempty (default "" violation) then raise (AssertionError (default "" violation)) else ret tt).

(** What the handler of [task_prerun] reads of a task: its name, and [app.conf.task_always_eager] when it has an app *)
Record task := mkTask { t_name : string; t_always_eager : option bool }.
Definition violation_of (t : task) : string :=
  repr_str (t_name t) +:+ " was dispatched via .delay()/.apply_async() while the tracked session still has an open, " +:+
  "uncommitted transaction (G6d). Under eager mode this task now runs synchronously inside that transaction and " +:+
  "can see uncommitted rows a real worker never would — commit (or roll back) before dispatching, or stop tracking " +:+
  "this session with track_session() if the task intentionally shares it.".
Definition _check_no_open_transaction (t : task) : G unit := fun st =>
  match t_always_eager t, g_session (fst st) with
  | Some true, Some s =>
      if in_transaction (snd st) s then (Ret tt, (set_violation (Some (violation_of t)) (fst st), snd st))
      else (Ret tt, st)
  | _, _ => (Ret tt, st)
  end.

(** What a test does inside the block: run code that may open or end a transaction, or dispatch a task,
    which in eager mode also runs. *)
Inductive deed := Does (c : W -> outcome exn unit * W) | Dispatches (t : task) (c : W -> outcome exn unit * W).
Definition on_world (c : W -> outcome exn unit * W) : G unit := fun st =>
  let (o, w) := c (snd st) in
  (match o with Ret u => Ret u | Exc e => Exc (OtherError e) end, (fst st, w)).
Definition do_deed (d : deed) : G unit :=
  match d with
  | Does c => on_world c
  | Dispatches t c => do! _check_no_open_transaction t in on_world c
  end.
(** The worlds in which the deeds start, up to the first that raises *)
Fixpoint passed (ds : list deed) (w : W) : list (deed * W) :=
  match ds with
  | [] => []
  | d :: ds' =>
      let c := match d with Does c => c | Dispatches _ c => c end in
      (d, w) :: match c w with (Ret _, w') => passed ds' w' | (Exc _, _) => [] end
  end.
Definition violates (s : Session) (p : deed * W) : bool :=
  match p with
  | (Dispatches t _, w) => bool_decide (t_always_eager t = Some true) && in_transaction w s
  | _ => false
  end.

Lemma repr_str_nonempty s : nonempty (repr_str s) = true.
Proof. unfold repr_str. by case_match. Qed.
Lemma violation_nonempty t : nonempty (violation_of t) = true.
Proof.
  unfold violation_of. rewrite nonempty_spec. pose proof (repr_str_nonempty (t_name t)) as Hr.
  destruct (repr_str (t_name t)); [done |]. by simpl.
Qed.
(** The deeds leave a violation exactly when one of those that ran dispatched inside a transaction. *)
Lemma deeds_record s ds : forall v w, let st := snd (mfor ds do_deed (mkGuard (Some s) v, w)) in
  g_session (fst st) = Some s /\
  (nonempty (default "" (g_violation (fst st))) = true <->
   nonempty (default "" v) = true \/ existsb (violates s) (passed ds w) = true).
Proof.
  induction ds as [|d ds IH]; intros v w; cbn [mfor passed existsb]; [cbn; split; [done | naive_solver] |].
  assert (forall v c, let st := snd (bind (on_world c) (fun _ => mfor ds do_deed) (mkGuard (Some s) v, w)) in
    g_session (fst st) = Some s /\ (nonempty (default "" (g_violation (fst st))) = true <->
      nonempty (default "" v) = true \/
      existsb (violates s) (match c w with (Ret _, w') => passed ds w' | (Exc _, _) => [] end) = true)) as Hc.
  { intros v' c. unfold bind, on_world. cbn [snd fst]. destruct (c w) as [[[]|e] w']; [apply IH |].
    cbn. split; [done | naive_solver]. }
  destruct d as [c | t c]; cbn [do_deed violates orb]; [apply Hc |].
  set (bad := bool_decide (t_always_eager t = Some true) && in_transaction w s).
  assert (_check_no_open_transaction t (mkGuard (Some s) v, w) =
    (Ret tt, (mkGuard (Some s) (if bad then Some (violation_of t) else v), w))) as Ek.
  { subst bad. unfold _check_no_open_transaction. cbn [fst snd g_session].
    destruct (t_always_eager t) as [[]|]; [rewrite bool_decide_true by done | rewrite bool_decide_false by done..]; try done.
    cbn [andb]. by destruct (in_transaction w s). }
  rewrite bind_assoc, (bind_Ret _ _ _ _ _ Ek). destruct (Hc (if bad then Some (violation_of t) else v) c) as [H1 H2].
  split; [exact H1 |]. rewrite H2. destruct bad; cbn [orb default]; [| done]. pose proof (violation_nonempty t). naive_solver.
Qed.
Lemma deeds_raise_other ds : forall g w e m st, mfor ds do_deed (g, w) = (Exc e, st) -> e <> AssertionError m.
Proof.
  induction ds as [|d ds IH]; intros g w e m st; cbn [mfor]; [done |].
  unfold bind at 1. destruct (do_deed d (g, w)) as [[[]|e'] [g' w']] eqn:Ed; [apply IH |]. intros [= <- <-] ->.
  destruct d as [c | t c]; cbn [do_deed] in Ed; unfold bind, _check_no_open_transaction, on_world in Ed; repeat case_match; simplify_eq.
Qed.
(** The block ends in an [AssertionError] exactly when some task was dispatched eagerly while the tracked session
    had a transaction open, whatever else happened in the block; and it leaves the context
    variables as it found them, so blocks nest. *)
Lemma track_session_detects s ds g w :
  let r := track_session s (mfor ds do_deed) (g, w) in
  fst (snd r) = g /\
  ((exists m, fst r = Exc (AssertionError m)) <-> existsb (violates s) (passed ds w) = true).
Proof.
  destruct (deeds_record s ds None w) as [_ H2].
  destruct (mfor ds do_deed (mkGuard (Some s) None, w)) as [o [g' w']] eqn:E. cbn [fst snd] in H2.
  assert (track_session s (mfor ds do_deed) (g, w) =
    (if nonempty (default "" (g_violation g')) then Exc (AssertionError (default "" (g_violation g'))) else o, (g, w'))) as Hr.
  { unfold track_session, bind, gets, on_guard, modify, finally, set_session, set_violation. cbn [fst snd g_session g_violation].
    rewrite E. cbn [fst snd g_session g_violation]. destruct g; by destruct (nonempty _). }
  rewrite Hr. cbn [fst snd]. split; [done |].
  assert (nonempty (default "" (g_violation g')) = true <-> existsb (violates s) (passed ds w) = true) as <-.
  { rewrite H2. split; [by intros [? | ?] | by right]. }
  destruct (nonempty (default "" (g_violation g'))); [split; [done | eauto] |]. split; [| done].
  intros [m ->]. by destruct (deeds_raise_other _ _ _ _ m _ E).
Qed.
End Guard.

Definition check {A} (m : string) : outcome check_exn A := Exc (AssertionError m).
Definition lines_of (l : list string) : string := join (String NL "") l.

(** ** session_scope.py *)

(** FastAPI's [Dependant]: the callable, its scope, what it depends on *)
Inductive dependant := mkDependant (call : string) (scope : option string) (dependencies : list dependant).
Record route := mkRoute { ro_dependant : option dependant; ro_methods : list string; ro_path : string }.

Section Scopes.
Variable dependencies : list string.

(** The scopes found in a dependant's dependencies, each before those below it *)
Fixpoint _session_scopes (d : dependant) : list (option string) :=
  match d with
  | mkDependant _ _ subs =>
      flat_map (fun sub => match sub with
                           | mkDependant call scope _ =>
                               (if bool_decide (call ∈ dependencies) then [scope] else []) ++ _session_scopes sub
                           end) subs
  end.
Definition scopes_of (r : route) : list (option string) :=
  match ro_dependant r with Some d => _session_scopes d | None => [] end.
Definition offends (r : route) : bool := existsb (fun s => negb (bool_decide (s = Some "function"))) (scopes_of r).
Definition offender (r : route) : string :=
  py_repr (JList (JStr <$> merge_sort key_le (ro_methods r))) +:+ " " +:+ ro_path r.
Definition assert_session_dependencies_are_function_scoped (routes : list route) : outcome check_exn unit :=
  let scanned := length (filter (fun r => scopes_of r <> []) routes) in
  let offenders := offender <$> filter (fun r => offends r = true) routes in
  if (scanned =? 0)%nat then check "no route depends on a session — the scan is not seeing the dependency"
  else if bool_decide (offenders = []) then Ret tt
  else check ("session dependency not scope=" +:+ quoted "function" +:+ ":" +:+ String NL (lines_of (merge_sort key_le offenders))).

(** [sub] is a dependency of [d], at any depth. *)
Inductive below : dependant -> dependant -> Prop :=
| below_child sub call scope subs : sub ∈ subs -> below sub (mkDependant call scope subs)
| below_deeper sub mid call scope subs : mid ∈ subs -> below sub mid -> below sub (mkDependant call scope subs).

Lemma dependant_deep_ind (P : dependant -> Prop) :
  (forall call scope subs, Forall P subs -> P (mkDependant call scope subs)) -> forall d, P d.
Proof.
  intros HP. fix IH 1. intros [call scope subs]. apply HP. induction subs as [|sub subs IHs]; constructor; [apply IH | exact IHs].
Qed.
Lemma session_scopes_below d s : s ∈ _session_scopes d ->
  exists call subs, below (mkDependant call s subs) d /\ call ∈ dependencies.
Proof.
  induction d as [call scope subs IH] using dependant_deep_ind. cbn [_session_scopes].
  rewrite list_elem_of_In, in_flat_map. intros (sub & Hin%list_elem_of_In & Hs%list_elem_of_In).
  rewrite Forall_forall in IH. specialize (IH _ Hin). destruct sub as [c sc ss]. apply elem_of_app in Hs as [Hs | Hs].
  - case_bool_decide; [| set_solver]. apply list_elem_of_singleton in Hs as ->. exists c, ss. split; [by constructor | done].
  - apply IH in Hs as (c' & ss' & Hb & Hd). exists c', ss'. split; [by eapply below_deeper | done].
Qed.
Lemma below_session_scopes call s subs d : below (mkDependant call s subs) d -> call ∈ dependencies -> s ∈ _session_scopes d.
Proof.
  intros Hb Hd. remember (mkDependant call s subs) as sub eqn:E. induction Hb as [sub c sc l Hin | sub mid c sc l Hin Hb IH]; subst.
  - cbn [_session_scopes]. rewrite list_elem_of_In, in_flat_map. exists (mkDependant call s subs).
    rewrite <- list_elem_of_In. split; [done |]. rewrite <- list_elem_of_In, bool_decide_true by done. set_solver.
  - cbn [_session_scopes]. rewrite list_elem_of_In, in_flat_map. exists mid. rewrite <- list_elem_of_In. split; [done |].
    destruct mid as [c' sc' l']. rewrite <- list_elem_of_In. apply elem_of_app. right. by apply IH.
Qed.
(** A route reaches a session dependency; every one it reaches has function scope. *)
Definition reaches (r : route) (s : option string) : Prop :=
  exists d call subs, ro_dependant r = Some d /\ below (mkDependant call s subs) d /\ call ∈ dependencies.
Lemma scopes_of_reaches r s : s ∈ scopes_of r <-> reaches r s.
Proof.
  unfold scopes_of, reaches. destruct (ro_dependant r) as [d|]; [| set_solver]. split.
  - intros (c & ss & Hb & Hd)%session_scopes_below. by exists d, c, ss.
  - intros (d' & c & ss & [= <-] & Hb & Hd). by eapply below_session_scopes.
Qed.
Lemma offends_spec r : offends r = false <-> forall s, reaches r s -> s = Some "function".
Proof.
  unfold offends. rewrite <- not_true_iff_false, existsb_exists. split.
  - intros Hn s Hs%scopes_of_reaches. destruct (decide (s = Some "function")) as [|Hne]; [done |]. destruct Hn. exists s.
    split; [by apply list_elem_of_In | by rewrite bool_decide_false].
  - intros Ha (s & Hs%list_elem_of_In%scopes_of_reaches & Hx). rewrite (Ha s Hs) in Hx. done.
Qed.
(** The check passes exactly when some route reaches a session dependency and every one that is reached, at
    any depth, has function scope: it never passes over nothing. *)
Lemma session_dependencies_checked routes :
  assert_session_dependencies_are_function_scoped routes = Ret tt <->
  (exists r s, r ∈ routes /\ reaches r s) /\ (forall r s, r ∈ routes -> reaches r s -> s = Some "function").
Proof.
  unfold assert_session_dependencies_are_function_scoped. cbv zeta.
  destruct (filter (fun r => scopes_of r <> []) routes) as [|r0 l] eqn:Ef; cbn [length Nat.eqb].
  - split; [done |]. intros [(r & s & Hr & Hs%scopes_of_reaches) _]. exfalso.
    assert (r ∈ filter (fun r => scopes_of r <> []) routes) as Hin by (apply list_elem_of_filter; split; [by intros E; rewrite E in Hs; apply elem_of_nil in Hs | done]).
    rewrite Ef in Hin. by apply elem_of_nil in Hin.
  - assert (r0 ∈ filter (fun r => scopes_of r <> []) routes) as [Hs0 Hr0]%list_elem_of_filter by (rewrite Ef; left).
    destruct (scopes_of r0) as [|s0 l0] eqn:E0; [done |]. case_bool_decide as Ho.
    + split; [intros _ | done]. split; [exists r0, s0; split; [done | apply scopes_of_reaches; rewrite E0; left] |].
      intros r s Hr. revert s. apply offends_spec, not_true_iff_false. intros Hx. apply fmap_nil_inv in Ho.
      assert (r ∈ filter (fun r => offends r = true) routes) as Hin by by apply list_elem_of_filter.
      rewrite Ho in Hin. by apply elem_of_nil in Hin.
    + split; [done |]. intros [_ Ha]. destruct Ho. rewrite filter_none; [done |]. intros r Hr Hx.
      enough (offends r = false) by congruence. apply offends_spec. intros s. by apply Ha.
Qed.
End Scopes.

(** ** primary_keys.py *)

Record column := mkColumn { co_name : string; co_server_default : bool }.
Record db_table := mkTable { ta_fullname : string; ta_primary_key : list column }.
Definition pk_offenders (metadata : list (list db_table)) : list string :=
  merge_sort key_le (flat_map (fun meta => flat_map (fun table =>
    (fun c => ta_fullname table +:+ "." +:+ co_name c) <$>
      filter (fun c => co_server_default c = true) (ta_primary_key table)) meta) metadata).
Definition assert_no_server_default_primary_keys (metadata : list (list db_table)) : outcome check_exn unit :=
  let offenders := pk_offenders metadata in
  if bool_decide (offenders = []) then Ret tt
  else check ("primary key carries a server_default:" +:+ String NL (lines_of offenders)).
Lemma primary_keys_checked metadata : assert_no_server_default_primary_keys metadata = Ret tt <->
  forall meta table c, meta ∈ metadata -> table ∈ meta -> c ∈ ta_primary_key table -> co_server_default c = false.
Proof.
  unfold assert_no_server_default_primary_keys, pk_offenders. cbv zeta.
  match goal with |- context [merge_sort key_le ?l] => set (found := l) end.
  assert (found = [] <-> merge_sort key_le found = []) as Hs.
  { pose proof (merge_sort_Permutation key_le found) as Hp. split; intros E; [by rewrite E |]. rewrite E in Hp.
    by apply Permutation_nil in Hp. }
  assert (found = [] <-> forall meta table c, meta ∈ metadata -> table ∈ meta -> c ∈ ta_primary_key table -> co_server_default c = false) as Hf.
  { split.
    - intros E meta table c Hm Ht Hc. apply not_true_iff_false. intros Hd.
      assert (ta_fullname table +:+ "." +:+ co_name c ∈ found) as Hin; [| rewrite E in Hin; by apply elem_of_nil in Hin].
      apply list_elem_of_In, in_flat_map. exists meta. split; [by apply list_elem_of_In |].
      apply in_flat_map. exists table. split; [by apply list_elem_of_In |]. apply list_elem_of_In, list_elem_of_fmap.
      exists c. split; [done |]. by apply list_elem_of_filter.
    - intros Ha. destruct found as [|x l] eqn:E; [done |]. exfalso. assert (x ∈ found) as Hx by (rewrite E; left).
      unfold found in Hx. apply list_elem_of_In, in_flat_map in Hx as (meta & Hm%list_elem_of_In & Hx).
      apply in_flat_map in Hx as (table & Ht%list_elem_of_In & Hx%list_elem_of_In).
      apply list_elem_of_fmap in Hx as (c & _ & [Hd Hc]%list_elem_of_filter). by rewrite (Ha meta table c Hm Ht Hc) in Hd. }
  rewrite <- Hf, Hs. case_bool_decide as Ho; by split.
Qed.

(** ** statements.py *)

(** [f"{n:>2}"] *)
Definition right_2 (s : string) : string := if (String.length s <? 2)%nat then String " " s else s.
Definition describe_statements (seen : list string) : string :=
  lines_of (imap (fun i s => right_2 (str_of_Z (Z.of_nat i + 1)) +:+ ". " +:+ first 110 (before_first NL s)) seen).
(** The block's statements, in order; the listener is gone when the block ends, whatever its outcome. *)
Record recorder := mkRecorder { rc_listening : bool; rc_seen : list string }.
Definition before_cursor_execute (statement : string) (r : recorder) : recorder :=
  if rc_listening r then mkRecorder true (rc_seen r ++ [statement]) else r.
Definition record_statements {A} (body : M exn recorder A) : M exn recorder (A * list string) :=
  do! modify (fun r => mkRecorder true []) in
  let! a := finally body (modify (fun r => mkRecorder false (rc_seen r))) in
  let! seen := gets rc_seen in ret (a, seen).
Lemma statements_recorded statements r :
  record_statements (mfor statements (fun s => modify (before_cursor_execute s))) r =
  (Ret (tt, statements), mkRecorder false statements).
Proof.
  assert (forall l seen, mfor l (fun s => modify (before_cursor_execute s)) (mkRecorder true seen) =
    (@Ret exn unit tt, mkRecorder true (seen ++ l))) as Hl.
  { induction l as [|s l IH]; intros seen; cbn [mfor]; [by rewrite app_nil_r |].
    unfold bind, modify, before_cursor_execute. cbn [rc_listening rc_seen].
    etransitivity; [apply IH |]. by rewrite <- app_assoc. }
  unfold record_statements, bind, finally. change (modify (fun _ => mkRecorder true []) r) with (@Ret exn unit tt, mkRecorder true []).
  cbv beta iota. rewrite Hl. reflexivity.
Qed.

(** ** roundtrip.py *)

Section RoundTrip.
Context {W : Type}.
(** [_execute(url, statements)] on one connection, [make_url] on the address of a database *)
Variable execute : string -> list string -> M exn W unit.
Variable database_of : string -> string.
Variable with_database : string -> string -> string.

(** [s[:n]]; a negative [n] counts from the end *)
Definition prefix_slice (n : Z) (s : string) : string :=
  first (Z.to_nat (if n <? 0 then Z.of_nat (String.length s) + n else n)) s.
Definition roundtrip_name (base suffix : string) : string :=
  let tail := "_" +:+ suffix in
  prefix_slice (Z.of_nat _PG_IDENTIFIER_MAX - Z.of_nat (String.length tail)) base +:+ tail.
Definition roundtrip_database {A} (host_ok : string -> bool) (database_url suffix : string)
    (body : string -> M exn W A) : M exn W A :=
  let name := roundtrip_name (database_of database_url) suffix in
  let! admin := (fun w => (admin_database_url host_ok database_url, w)) in
  let server := with_database admin "postgres" in
  let drop := drop_database name in
  do! execute server [drop; create_database name] in
  finally
    (do! execute (with_database admin name) DATABASE_LAYOUT in
     body (with_database database_url name))
    (execute server [drop]).

(** The name fits when the suffix does; the database is dropped whatever the body did. *)
Lemma roundtrip_name_fits base suffix : (String.length suffix < 63)%nat ->
  (String.length (roundtrip_name base suffix) <= 63)%nat /\ endswith (roundtrip_name base suffix) ("_" +:+ suffix) = true.
Proof.
  intros Hs. unfold roundtrip_name. split; [| apply endswith_append]. rewrite length_append.
  change (String.length ("_" +:+ suffix)) with (S (String.length suffix)). unfold prefix_slice, _PG_IDENTIFIER_MAX.
  match goal with |- context [first ?n base] => pose proof (length_first n base) as Hl end.
  destruct (Z.ltb_spec (Z.of_nat 63 - Z.of_nat (S (String.length suffix))) 0); lia.
Qed.
Lemma roundtrip_dropped {A} host_ok url suffix (body : string -> M exn W A) admin w o w' :
  admin_database_url host_ok url = Ret admin ->
  roundtrip_database host_ok url suffix body w = (o, w') ->
  let name := roundtrip_name (database_of url) suffix in
  let server := with_database admin "postgres" in
  (exists e, execute server [drop_database name; create_database name] w = (Exc e, w') /\ o = Exc e) \/
  exists w1 o1, execute server [drop_database name] w1 = (o1, w') /\ (forall e, o1 = Exc e -> o = Exc e).
Proof.
  intros Ha E. cbv zeta. unfold roundtrip_database in E. rewrite (bind_Ret _ _ _ admin w) in E by by rewrite Ha.
  unfold bind at 1 in E. destruct (execute _ _ w) as [[[]|e] w1]; [right | left; injection E; naive_solver].
  unfold finally in E. destruct (bind _ _ w1) as [o2 w2]. exists w2.
  destruct (execute _ _ w2) as [[[]|e] w3]; injection E as <- <-; eexists; (split; [reflexivity |]); naive_solver.
Qed.
End RoundTrip.
