(* ===== verification/TestTopology.v ===== *)
(** * Queues that someone drains

    Models src/tr_shared/testing/celery_topology.py: what a service's start script says its workers consume,
    and the checks of its Celery configuration against it.  The regular expressions are searches
    written out; routes are compared by [fnmatch], which is not modelled, nor the check that uses it. *)

From stdpp Require Import sorting.
From Stdlib Require Import Ascii QArith.Qreduction.
From S2P Require Import Prelude Json Errors Text Migrations TestConfig TestGuards.
From S2P Require Settings.
Notation splitlines := Settings.splitlines.
Local Open Scope Z_scope.

Definition START_COMMAND_FILES : list string := ["deploy.sh"; "docker-entrypoint.sh"].
Definition SHARED_DEFAULT_QUEUE := "celery".
(** [CeleryTopologyError] is an [AssertionError].  Of a long message, what names the fault is kept and the
    explanation after it left out. *)
Definition topology_error {A} (m : string) : outcome check_exn A := check m.

(** ** The regular expressions *)

(** [\w] among the code points below 256 *)
Definition word_char (c : ascii) : bool :=
  let n := ord c in
  is_decimal c || is_lower_alpha c || (n =? 95)%nat ||
  bool_decide (n ∈ [170; 178; 179; 181; 185; 186; 188; 189; 190]%nat) ||
  ((192 <=? n)%nat && negb (n =? 215)%nat && negb (n =? 247)%nat).
Definition starts_with_word_char (s : string) : bool := match s with String c _ => word_char c | EmptyString => false end.
(** What follows the word [w] where it stands first on its own; [in_word]: a word character comes before. *)
Fixpoint after_word (w : string) (in_word : bool) (s : string) : option string :=
  let rest := drop_str (String.length w) s in
  if negb in_word && startswith s w && negb (starts_with_word_char rest) then Some rest
  else match s with EmptyString => None | String c s' => after_word w (word_char c) s' end.
(** [\bcelery\b[^\n]*?\bworker\b] in a line; after "celery" a word character comes before. *)
Fixpoint worker_from (fuel : nat) (in_word : bool) (s : string) : bool :=
  match fuel with
  | O => false
  | S n => match after_word "celery" in_word s with
           | Some rest => match after_word "worker" true rest with Some _ => true | None => worker_from n true rest end
           | None => false
           end
  end.
Definition _WORKER (line : string) : bool := worker_from (S (String.length line)) false line.

Definition sep_char (c : ascii) : bool := is_space c || bool_decide (c = "="%char).
Fixpoint span_while (p : ascii -> bool) (s : string) : string * string :=
  match s with
  | EmptyString => ("", "")
  | String c s' => if p c then let (a, b) := span_while p s' in (String c a, b) else ("", s)
  end.
(** [[=\s]+(\S+)] at the start: the text of the group and what follows it.  When nothing follows the
    separators, the last equals sign after the first one is given back to the group. *)
Definition option_value (s : string) : option (string * string) :=
  let (sep, rest) := span_while sep_char s in
  match sep, rest with
  | EmptyString, _ => None
  | String c sep', EmptyString =>
      match rsplit_first "=" sep' with Some (_, after) => Some ("=", after) | None => None end
  | _, _ => Some (span_while (fun c => negb (is_space c)) rest)
  end.
(** [findall] of the option [flag] *)
Fixpoint find_options (fuel : nat) (flag s : string) : list string :=
  match fuel with
  | O => []
  | S n =>
      match s with
      | EmptyString => []
      | String _ s' =>
          if startswith s flag then
            match option_value (drop_str (String.length flag) s) with
            | Some (value, rest) => value :: find_options n flag rest
            | None => find_options n flag s'
            end
          else find_options n flag s'
      end
  end.
Definition _Q_SHORT (line : string) : list string := find_options (S (String.length line)) "-Q" line.
Definition _Q_LONG (line : string) : list string := find_options (S (String.length line)) "--queues" line.
(** [^\$\{?(\w+)\}?$], for a text without line breaks *)
Definition _SHELL_VAR (value : string) : option string :=
  match value with
  | String c s =>
      if bool_decide (c = "$"%char) then
        let s := if startswith s "{" then drop_str 1 s else s in
        let (name, rest) := span_while word_char s in
        if nonempty name && bool_decide (rest ∈ [""; "}"]) then Some name else None
      else None
  | EmptyString => None
  end.

(** ** The start script *)

Definition quote_char (c : ascii) : bool := bool_decide (c ∈ [ascii_of_nat 34; "'"%char]).
(** [strip] of both quotes *)
Fixpoint rstrip_quotes (s : string) : string :=
  match s with
  | EmptyString => ""
  | String c s' =>
      match rstrip_quotes s' with
      | EmptyString => if quote_char c then "" else String c ""
      | t => String c t
      end
  end.
Definition strip_quotes (s : string) : string := rstrip_quotes (snd (span_while quote_char s)).
Definition _logical_lines (text : string) : list string :=
  let stripped := join (String NL "") (filter (fun line => startswith (lstrip line) "#" = false) (splitlines text)) in
  filter (fun ln => nonempty (strip ln) = true)
    (splitlines (replace_all (String (ascii_of_nat 92) (String NL "")) " " stripped)).

(** [name=], an optional quote and the value, at the start: at least one character that is neither a quote nor a
    line break *)
Definition assignment (name s : string) : option string :=
  if startswith s (name +:+ "=") then
    let s := drop_str (String.length name + 1) s in
    let s := match s with String c s' => if quote_char c then s' else s | EmptyString => s end in
    let value := fst (span_while (fun c => negb (quote_char c) && negb (bool_decide (c = NL))) s) in
    if nonempty value then Some (strip value) else None
  else None.
(** The first line that assigns the name; the white space before it may hold line breaks. *)
Fixpoint resolve_from (name : string) (line_start : bool) (s : string) : option string :=
  match if line_start then assignment name (lstrip s) else None, s with
  | Some value, _ => Some value
  | None, String c s' => resolve_from name (bool_decide (c = NL)) s'
  | None, EmptyString => None
  end.
Definition _resolve_variable (name text : string) : option string := resolve_from name true text.
Definition queue_names (value : string) : gset string :=
  list_to_set (strip <$> filter (fun q => nonempty (strip q) && negb (contains "$" q) = true) (split_on "," value)).
Definition _queues_from_value (value text : string) : gset string :=
  let value := strip_quotes (strip value) in
  match _SHELL_VAR value with
  | Some var =>
      match _resolve_variable var text with
      | Some resolved => queue_names (strip_quotes (strip resolved))
      | None => ∅
      end
  | None => queue_names value
  end.

Section Service.
(** The start-command files of a service: what reading each gives, where it exists *)
Variable service_root : string.
Variable read_text : string -> option (outcome exn string).

Definition exists_in (name : string) : bool := match read_text name with Some _ => true | None => false end.
(** A file that exists is read; one that goes away in between raises. *)
Definition read_file (name : string) : outcome check_exn string :=
  match read_text name with
  | Some (Ret text) => Ret text
  | Some (Exc e) => Exc (OtherError e)
  | None => Exc (OtherError (PyErr OSError name))
  end.
Definition starts_a_worker (text : string) : bool := existsb _WORKER (_logical_lines text).
Fixpoint first_worker_file (existing names : list string) : outcome check_exn string :=
  match names with
  | [] => topology_error ("none of " +:+ py_repr (JList (JStr <$> existing)) +:+ " in " +:+ service_root +:+
            " starts a Celery worker")
  | name :: names' =>
      outcome_bind (read_file name) (fun text =>
        if starts_a_worker text then Ret name else first_worker_file existing names')
  end.
Definition start_command_file : outcome check_exn string :=
  let existing := filter (fun name => exists_in name = true) START_COMMAND_FILES in
  if bool_decide (existing = []) then
    topology_error ("no start-command file in " +:+ service_root +:+ ". Looked for " +:+ join ", " START_COMMAND_FILES)
  else first_worker_file existing existing.

(** What one line names *)
Definition queues_of_line (text line : string) : gset string :=
  ⋃ ((fun raw => _queues_from_value raw text) <$> (_Q_SHORT line ++ _Q_LONG line)).
Fixpoint read_workers (text : string) (lines : list string) (queues : gset string) (unparsed : list string)
    : gset string * list string :=
  match lines with
  | [] => (queues, unparsed)
  | line :: lines' =>
      if _WORKER line then
        let found := queues_of_line text line in
        if bool_decide (found = ∅) then read_workers text lines' queues (unparsed ++ [strip line])
        else read_workers text lines' (queues ∪ found) unparsed
      else read_workers text lines' queues unparsed
  end.
Definition consumed_queues : outcome check_exn (gset string) :=
  outcome_bind start_command_file (fun path =>
  outcome_bind (read_file path) (fun text =>
  let (queues, unparsed) := read_workers text (_logical_lines text) ∅ [] in
  if negb (bool_decide (unparsed = [])) then
    topology_error (path +:+ " starts a Celery worker on a line this guard cannot read a queue list from:" +:+
      String NL (lines_of unparsed))
  else if bool_decide (queues = ∅) then
    topology_error (path +:+ " names no queues for any worker role")
  else Ret queues)).

(** ** The checks of the configuration *)

(** A value of [expires] or [schedule] that is a number of seconds, or another object *)
Inductive interval := Seconds (q : Q) | Other.
(** An entry of [beat_schedule]; [be_queue] and [be_expires] are read from its options. *)
Record beat_entry := mkBeat { be_queue : option string; be_expires : option interval; be_schedule : interval }.
Record celery_conf := mkConf { task_default_queue : string; beat : list (string * beat_entry) }.

Definition sorted_queues (s : gset string) : string := py_repr (JList (JStr <$> merge_sort key_le (elements s))).
Definition assert_default_queue_is_consumed (conf : celery_conf) : outcome check_exn unit :=
  let default := task_default_queue conf in
  outcome_bind consumed_queues (fun consumed =>
    if bool_decide (default ∈ consumed) then Ret tt
    else check ("task_default_queue=" +:+ repr_str default +:+ " is drained by no worker (this service consumes " +:+
                sorted_queues consumed +:+ ")")).
Definition assert_no_service_consumes_the_shared_queue (conf : celery_conf) : outcome check_exn unit :=
  outcome_bind consumed_queues (fun consumed =>
    if bool_decide (SHARED_DEFAULT_QUEUE ∈ consumed) then
      check ("this service's worker drains " +:+ repr_str SHARED_DEFAULT_QUEUE)
    else if bool_decide (task_default_queue conf = SHARED_DEFAULT_QUEUE) then
      check ("task_default_queue is still the shared default " +:+ repr_str SHARED_DEFAULT_QUEUE)
    else Ret tt).
Definition orphan (consumed : gset string) (e : string * beat_entry) : bool :=
  match be_queue (snd e) with
  | Some queue => nonempty queue && negb (bool_decide (queue ∈ consumed))
  | None => false
  end.
Definition assert_every_beat_entry_targets_a_consumed_queue (conf : celery_conf) : outcome check_exn unit :=
  outcome_bind consumed_queues (fun consumed =>
    let orphans := merge_sort key_le ((fun e => fst e +:+ " -> " +:+ default "" (be_queue (snd e))) <$>
                     filter (fun e => orphan consumed e = true) (beat conf)) in
    if bool_decide (orphans = []) then Ret tt
    else check ("beat sends work to queues no worker drains: " +:+ py_repr (JList (JStr <$> orphans)))).
End Service.

Definition assert_every_beat_entry_sets_expires (conf : celery_conf) : outcome check_exn unit :=
  let unbounded := merge_sort key_le (fst <$> filter (fun e => be_expires (snd e) = None) (beat conf)) in
  if bool_decide (unbounded = []) then Ret tt
  else check ("beat entries publish without `expires`: " +:+ py_repr (JList (JStr <$> unbounded))).
(** A date or a duration does not compare with a number. *)
Fixpoint expires_long_enough (entries : list (string * beat_entry)) : outcome check_exn unit :=
  match entries with
  | [] => Ret tt
  | (name, entry) :: entries' =>
      match be_expires entry, be_schedule entry with
      | Some (Seconds expires), Seconds schedule =>
          if Qle_bool schedule expires then expires_long_enough entries'
          else check (name +:+ ": expires is below the schedule: discards work that is still fresh.")
      | Some Other, Seconds _ => Exc (OtherError (PyErr TypeError "'>=' not supported between these types"))
      | _, _ => expires_long_enough entries'
      end
  end.
Definition assert_expires_is_not_shorter_than_the_interval (conf : celery_conf) : outcome check_exn unit :=
  expires_long_enough (beat conf).

(** ** What the parse promises *)

Lemma read_workers_queues text lines : forall queues unparsed,
  (read_workers text lines queues unparsed).1 =
    queues ∪ ⋃ (queues_of_line text <$> filter (fun line => _WORKER line = true) lines).
Proof.
  induction lines as [|line lines IH]; intros queues unparsed; cbn [read_workers]; [set_solver |].
  rewrite filter_cons. destruct (_WORKER line) eqn:Hw; [rewrite decide_True by done | rewrite decide_False by done; apply IH].
  rewrite fmap_cons. cbn [union_list foldr]. case_bool_decide as Hf; rewrite IH; set_solver.
Qed.
Lemma read_workers_unparsed text lines : forall queues unparsed,
  (read_workers text lines queues unparsed).2 = [] <->
    unparsed = [] /\ forall line, line ∈ lines -> _WORKER line = true -> queues_of_line text line <> ∅.
Proof.
  induction lines as [|line lines IH]; intros queues unparsed; cbn [read_workers].
  { cbn [snd]. split; [intros -> | by intros [-> _]]. split; [done |]. by intros line Hx%elem_of_nil. }
  assert ((forall l, l ∈ line :: lines -> _WORKER l = true -> queues_of_line text l <> ∅) <->
    (_WORKER line = true -> queues_of_line text line <> ∅) /\
    (forall l, l ∈ lines -> _WORKER l = true -> queues_of_line text l <> ∅)) as ->.
  { split; [intros H; split; [apply H; left | intros l Hl; apply H; by right] |].
    by intros [H1 H2] l [-> | Hl]%elem_of_cons; [apply H1 | apply H2]. }
  destruct (_WORKER line); [case_bool_decide as Hf |]; rewrite IH.
  - split; [intros [E _]; by apply app_eq_nil in E as [_ [=]] | intros [_ [H _]]; by destruct (H eq_refl)].
  - split; [intros [Hu Ha] | intros [Hu [_ Ha]]]; by repeat split.
  - split; [intros [Hu Ha] | intros [Hu [_ Ha]]]; by repeat split.
Qed.

Lemma sorted_nil l : merge_sort key_le l = [] -> l = [].
Proof. intros E. pose proof (merge_sort_Permutation key_le l) as Hp. rewrite E in Hp. by apply Permutation_nil in Hp. Qed.

Section Parsed.
Variable service_root : string.
Variable read_text : string -> option (outcome exn string).
Notation consumed := (consumed_queues service_root read_text).

Lemma start_command_file_worker path : start_command_file service_root read_text = Ret path ->
  path ∈ START_COMMAND_FILES /\ exists text, read_text path = Some (Ret text) /\ starts_a_worker text = true.
Proof.
  unfold start_command_file. cbv zeta. case_bool_decide as He; [done |]. clear He.
  assert (forall existing names, first_worker_file service_root read_text existing names = Ret path ->
    path ∈ names /\ exists text, read_text path = Some (Ret text) /\ starts_a_worker text = true) as Hf.
  { intros existing. induction names as [|name names IH]; cbn [first_worker_file]; [done |].
    unfold read_file. destruct (read_text name) as [[text|e]|] eqn:Er; cbn [outcome_bind]; try done.
    destruct (starts_a_worker text) eqn:Ew; [| set_solver]. intros [= <-]. split; [set_solver | eauto]. }
  intros [[_ Hin]%list_elem_of_filter Ht]%Hf. done.
Qed.
(** A parse never comes back empty.  When [consumed_queues] returns, it read a script that starts a worker, every
    line that starts one named a queue, and the queues are those the lines name. *)
Lemma consumed_queues_parsed queues : consumed = Ret queues ->
  queues <> ∅ /\ exists path text, path ∈ START_COMMAND_FILES /\ read_text path = Some (Ret text) /\
    (exists line, line ∈ _logical_lines text /\ _WORKER line = true) /\
    forall line, line ∈ _logical_lines text -> _WORKER line = true ->
      queues_of_line text line <> ∅ /\ queues_of_line text line ⊆ queues.
Proof.
  unfold consumed_queues. destruct (start_command_file _ _) as [path|] eqn:Es; [| done]. cbn [outcome_bind].
  apply start_command_file_worker in Es as (Hp & text & Ht & Hw). unfold read_file. rewrite Ht. cbn [outcome_bind].
  destruct (read_workers _ _ _ _) as [qs un] eqn:Er.
  pose proof (read_workers_queues text (_logical_lines text) ∅ []) as Hq.
  pose proof (read_workers_unparsed text (_logical_lines text) ∅ []) as Hu. rewrite Er in Hq, Hu. cbn [fst snd] in Hq, Hu.
  destruct (bool_decide_reflect (un = [])) as [Hn|]; [| done]. cbn [negb]. case_bool_decide as He; [done |].
  intros [= <-]. split; [done |]. exists path, text. split_and!; [done | done | |].
  - apply existsb_exists in Hw as (line & Hin%list_elem_of_In & Hl). eauto.
  - intros line Hin Hl. apply Hu in Hn as [_ Hn]. split; [by apply Hn |]. rewrite Hq. intros q Hx.
    apply elem_of_union_r, elem_of_union_list. exists (queues_of_line text line). split; [| done].
    apply list_elem_of_fmap_2, list_elem_of_filter. done.
Qed.
(** So a default queue that passes both checks is drained by one of the service's workers and by no other's
    fallback. *)
Lemma default_queue_drained conf :
  assert_default_queue_is_consumed service_root read_text conf = Ret tt ->
  assert_no_service_consumes_the_shared_queue service_root read_text conf = Ret tt ->
  exists queues, consumed = Ret queues /\ task_default_queue conf ∈ queues /\
    SHARED_DEFAULT_QUEUE ∉ queues.
Proof.
  unfold assert_default_queue_is_consumed, assert_no_service_consumes_the_shared_queue.
  destruct consumed as [queues|]; [| done]. cbn [outcome_bind]. repeat case_bool_decide; naive_solver.
Qed.
Lemma beat_entries_drained conf :
  assert_every_beat_entry_targets_a_consumed_queue service_root read_text conf = Ret tt ->
  exists queues, consumed = Ret queues /\ forall name entry queue, (name, entry) ∈ beat conf ->
    be_queue entry = Some queue -> queue <> "" -> queue ∈ queues.
Proof.
  unfold assert_every_beat_entry_targets_a_consumed_queue. destruct consumed as [queues|]; [| done]. cbn [outcome_bind].
  cbv zeta. case_bool_decide as Ho; [| done]. intros _. exists queues. split; [done |]. intros name entry queue Hin Hq Hne.
  apply dec_stable. intros Hx. apply sorted_nil, fmap_nil_inv in Ho.
  assert ((name, entry) ∈ filter (fun e => orphan queues e = true) (beat conf)) as Hf; [| rewrite Ho in Hf; by apply elem_of_nil in Hf].
  apply list_elem_of_filter. split; [| done]. unfold orphan. cbn [snd]. rewrite Hq, bool_decide_false by done.
  by apply nonempty_spec in Hne as ->.
Qed.
End Parsed.

Lemma beat_copies_expire conf : assert_every_beat_entry_sets_expires conf = Ret tt ->
  assert_expires_is_not_shorter_than_the_interval conf = Ret tt ->
  forall name entry, (name, entry) ∈ beat conf ->
    match be_expires entry, be_schedule entry with
    | Some (Seconds expires), Seconds schedule => (schedule <= expires)%Q
    | Some Other, Seconds _ | None, _ => False
    | Some _, Other => True
    end.
Proof.
  unfold assert_every_beat_entry_sets_expires, assert_expires_is_not_shorter_than_the_interval. cbv zeta.
  case_bool_decide as Hu; [intros _ | done]. rename Hu into Hp. apply sorted_nil, fmap_nil_inv in Hp. induction (beat conf) as [|[name entry] l IH]; [set_solver |].
  rewrite filter_cons in Hp. cbn [expires_long_enough snd] in *. destruct (be_expires entry) as [e|] eqn:Ee; [| by rewrite decide_True in Hp].
  rewrite decide_False in Hp by done. specialize (IH Hp). intros Hr name' entry' [[= -> ->] | Hin]%elem_of_cons.
  - rewrite Ee. destruct e as [q|], (be_schedule entry) as [q'|]; try done. destruct (Qle_bool q' q) eqn:Eq; [by apply Qle_bool_iff | done].
  - apply (IH) with name'; [| done]. destruct e as [q|], (be_schedule entry) as [q'|]; try done. by destruct (Qle_bool q' q).
Qed.

(** The spellings the services use, and one that must not pass *)
Definition script (lines : list string) (name : string) : option (outcome exn string) :=
  if bool_decide (name = "deploy.sh") then Some (Ret (join (String NL "") lines)) else None.
Example spelling_short :
  consumed_queues "/app" (script ["# celery worker -Q list"; "exec celery -A app.celery_app worker -Q media,mail"]) = Ret {["media"; "mail"]}.
Proof. vm_compute. reflexivity. Qed.
Example spelling_continued :
  consumed_queues "/app" (script ["exec celery -A app.celery_app worker \"; "  --queues=media -c 2"]) = Ret {["media"]}.
Proof. vm_compute. reflexivity. Qed.
Example spelling_variable :
  consumed_queues "/app" (script ["QUEUES='media, mail'"; "celery worker -Q '${QUEUES}'"]) = Ret {["media"; "mail"]}.
Proof. vm_compute. reflexivity. Qed.
Example spelling_unknown :
  exists m, consumed_queues "/app" (script ["celery worker -Q media"; "celery worker"]) = Exc (AssertionError m).
Proof. eexists. vm_compute. reflexivity. Qed.
