(* ===== verification/TestRoles.v ===== *)
(** * The roles of a start script

    Models the static check of src/tr_shared/testing/role_dispatch.py: every background role that a start script dispatches on
    sets the statement profile first, no request role sets it, and nothing outside the dispatch does.  The check that starts
    processes is not modelled, nor the reading of start commands by [shlex]. *)

From stdpp Require Import sorting.
From Stdlib Require Import Ascii.
From S2P Require Import Prelude Json Errors Text Migrations TestConfig TestGuards TestTopology.
Local Open Scope Z_scope.

(** ** The regular expressions, on a line each *)

Definition _PROFILE_VARIABLE := "DATABASE_STATEMENT_TIMEOUT_PROFILE".
Definition blank (c : ascii) : bool := bool_decide (c ∈ [" "%char; ascii_of_nat 9]).
Definition skip_blanks (s : string) : string := snd (span_while blank s).
(** At least one blank *)
Definition some_blanks (s : string) : option string :=
  match s with String c _ => if blank c then Some (skip_blanks s) else None | EmptyString => None end.
Definition word (w s : string) : option string :=
  if startswith s w then Some (drop_str (String.length w) s) else None.
Definition all_blank (s : string) : bool := bool_decide (skip_blanks s = "").
Definition and_then (o : option string) (f : string -> option string) : option string :=
  match o with Some s => f s | None => None end.
(** The line of [case "$ROLE" in] or [case "$1" in] *)
Definition _CASE (line : string) : bool :=
  match and_then (word "case" (skip_blanks line)) some_blanks with
  | Some s =>
      existsb (fun v => match and_then (and_then (word (quoted v) s) some_blanks) (word "in") with Some r => all_blank r | None => false end)
        ["$ROLE"; "$1"]
  | None => false
  end.
Definition _ESAC (line : string) : bool :=
  match word "esac" (skip_blanks line) with Some r => all_blank r | None => false end.
(** A label up to its bracket, and what follows *)
Definition _ARM (chunk : string) : option (string * string) :=
  let (label, rest) := span_while (fun c => negb (is_space c) && negb (bool_decide (c = ")"%char))) (lstrip chunk) in
  match rest with
  | String c body => if bool_decide (c = ")"%char) && nonempty label then Some (label, body) else None
  | EmptyString => None
  end.
Definition _EXPORT (command : string) : bool :=
  match and_then (word "export" command) some_blanks with
  | Some s => bool_decide (s = _PROFILE_VARIABLE +:+ "=background")
  | None => false
  end.
(** [text.split(";;")] *)
Fixpoint split_arms (s : string) : list string :=
  match s with
  | String ";" (String ";" s') => "" :: split_arms s'
  | String c s' => match split_arms s' with l :: ls => String c l :: ls | [] => [String c ""] end
  | EmptyString => [""]
  end.
Definition uncommented (text : string) : list string := filter (fun line => startswith (lstrip line) "#" = false) (splitlines text).
Definition not_blank (line : string) : bool := nonempty (strip line).
Definition _first_command (body : string) : string := strip (default "" (head (filter (fun line => not_blank line = true) (splitlines body)))).

(** ** The check *)

(** The lines before the first one that [p] accepts, and those after it *)
Fixpoint break_at (p : string -> bool) (lines : list string) : option (list string * list string) :=
  match lines with
  | [] => None
  | line :: lines' =>
      if p line then Some ([], lines')
      else match break_at p lines' with Some (before, after) => Some (line :: before, after) | None => None end
  end.
Definition mentions (text : string) : bool := contains _PROFILE_VARIABLE text.

Section Roles.
Variable request_roles : gset string.

Definition roles_of (label : string) : gset string := list_to_set (split_on "|" label).
Definition arm_problem (label body : string) : option string :=
  let roles := roles_of label in
  if bool_decide (roles = {["*"]}) then None
  else if bool_decide (roles ⊆ request_roles) then
    if mentions body then Some (label +:+ ": a request role must not set " +:+ _PROFILE_VARIABLE) else None
  else if negb (bool_decide (roles ∩ request_roles = ∅)) then Some (label +:+ ": the arm mixes request and background roles")
  else if _EXPORT (_first_command body) then None
  else Some (label +:+ ": the first command must be `export " +:+ _PROFILE_VARIABLE +:+ "=background`").
(** The problems of the arms and the roles they name; an arm that cannot be read is an error. *)
Fixpoint read_arms (script : string) (chunks : list string) (problems : list string) (named : gset string)
    : outcome check_exn (list string * gset string) :=
  match chunks with
  | [] => Ret (problems, named)
  | chunk :: chunks' =>
      if not_blank chunk then
        match _ARM chunk with
        | None => check (script +:+ ": cannot parse case arm " +:+ repr_str (strip chunk))
        | Some (label, body) =>
            read_arms script chunks' (problems ++ option_list (arm_problem label body)) (named ∪ roles_of label)
        end
      else read_arms script chunks' problems named
  end.
Definition arms_text (lines : list string) : string := String NL (fold_right (fun line s => line +:+ String NL s) "" lines).
Definition assert_background_roles_set_statement_profile (script text : string) : outcome check_exn unit :=
  let code := uncommented text in
  match break_at _CASE code with
  | None => check (script +:+ ": expected one role dispatch, found 0")
  | Some (before, rest) =>
      let more := length (filter (fun line => _CASE line = true) rest) in
      if negb (more =? 0)%nat then
        check (script +:+ ": expected one role dispatch, found " +:+ str_of_Z (Z.of_nat more + 1))
      else match break_at _ESAC rest with
      | None => check (script +:+ ": the role dispatch has no esac")
      | Some (arms, after) =>
          let outside := if existsb mentions (before ++ after)
                         then [_PROFILE_VARIABLE +:+ " is set outside the role dispatch"] else [] in
          outcome_bind (read_arms script (split_arms (arms_text arms)) outside ∅) (fun '(problems, named) =>
            let problems := problems ++ ((fun role => role +:+ ": request role has no case arm") <$>
                              merge_sort key_le (elements (request_roles ∖ named))) in
            if bool_decide (problems = []) then Ret tt
            else check (script +:+ ":" +:+ String NL (lines_of problems)))
      end
  end.

(** ** What a script that passes does *)

(** An arm as the fleet wants it: the fallback, request roles that leave the profile alone, or background
    roles that set it first *)
Definition arm_ok (label body : string) : Prop :=
  roles_of label = {["*"]} \/ (roles_of label ⊆ request_roles /\ mentions body = false) \/
  (roles_of label ## request_roles /\ _EXPORT (_first_command body) = true).
Lemma roles_of_nonempty label : roles_of label <> ∅.
Proof.
  unfold roles_of. destruct (split_on "|" label) as [|x l] eqn:E; [| set_solver]. exfalso.
  destruct label as [|c s]; [done |]. cbn [split_on] in E. case_bool_decide; [done |]. by destruct (split_on "|" s).
Qed.
Lemma arm_problem_None label body : arm_problem label body = None <-> arm_ok label body.
Proof.
  unfold arm_problem, arm_ok. cbv zeta. case_bool_decide as Hstar; [naive_solver |].
  pose proof (roles_of_nonempty label) as Hne. case_bool_decide as Hs.
  - destruct (mentions body) eqn:Hm; split; try done; [| naive_solver].
    intros [? | [[_ ?] | [Hd _]]]; [done | done |]. destruct Hne. set_solver.
  - case_bool_decide as Hd; cbn [negb].
    + assert (roles_of label ## request_roles) by set_solver. destruct (_EXPORT _) eqn:He; split; naive_solver.
    + split; [done |]. intros [? | [[? _] | [Hx _]]]; [done | done |]. destruct Hd. set_solver.
Qed.
Lemma read_arms_spec script chunks : forall problems named problems' named',
  read_arms script chunks problems named = Ret (problems', named') ->
  (problems' = [] <-> problems = [] /\
    forall chunk label body, chunk ∈ chunks -> not_blank chunk = true -> _ARM chunk = Some (label, body) -> arm_ok label body) /\
  (forall chunk, chunk ∈ chunks -> not_blank chunk = true -> is_Some (_ARM chunk)) /\
  (forall role, role ∈ named' <-> role ∈ named \/
    exists chunk label body, chunk ∈ chunks /\ not_blank chunk = true /\ _ARM chunk = Some (label, body) /\ role ∈ roles_of label).
Proof.
  induction chunks as [|chunk chunks IH]; intros problems named problems' named'; cbn [read_arms].
  { intros [= <- <-]. split_and!; [split; [| by intros [? _]] | |]; [intros ->; split; [done |] | |].
    - intros ? ? ? Hx. by apply elem_of_nil in Hx.
    - intros ? Hx. by apply elem_of_nil in Hx.
    - intros role. split; [by left |]. intros [? | (? & ? & ? & Hx & _)]; [done | by apply elem_of_nil in Hx]. }
  destruct (not_blank chunk) eqn:Hb; [destruct (_ARM chunk) as [[label body]|] eqn:Ha; [| done] |]; intros Hr; apply IH in Hr as (H1 & H2 & H3).
  - split_and!.
    + rewrite H1. split.
      * intros [[Hp Ho]%app_eq_nil Hall]. split; [done |]. intros c l b [-> | Hin]%elem_of_cons Hc Hl; [| by eapply Hall].
        rewrite Ha in Hl. injection Hl as <- <-. apply arm_problem_None. by destruct (arm_problem label body).
      * intros [-> Hall]. split; [| intros c l b Hin; apply Hall; by right].
        assert (arm_problem label body = None) as -> by (apply arm_problem_None; eapply Hall; [left | done | done]). done.
    + intros c [-> | Hin]%elem_of_cons Hc; [by rewrite Ha | by apply H2].
    + intros role. rewrite H3, elem_of_union. split.
      * intros [[? | ?] | (c & l & b & ? & ? & ? & ?)]; [by left | right; exists chunk, label, body; set_solver | right; exists c, l, b; set_solver].
      * intros [? | (c & l & b & [-> | Hin]%elem_of_cons & Hc & Hl & Hr)]; [by left; left | | right; by exists c, l, b].
        rewrite Ha in Hl. injection Hl as <- <-. left; by right.
  - split_and!.
    + rewrite H1. split; (intros [Hp Hall]; split; [done |]).
      * intros c l b [-> | Hin]%elem_of_cons Hc; [congruence |]. by apply Hall.
      * intros c l b Hin. apply Hall. by right.
    + intros c [-> | Hin]%elem_of_cons Hc; [congruence | by apply H2].
    + intros role. rewrite H3. split; (intros [? | (c & l & b & Hin & Hc & Hl & Hr)]; [by left | right]).
      * exists c, l, b. split_and!; [by right | done..].
      * apply elem_of_cons in Hin as [-> | Hin]; [congruence |]. by exists c, l, b.
Qed.
Lemma break_at_Some p lines before after : break_at p lines = Some (before, after) ->
  exists line, lines = before ++ line :: after /\ p line = true.
Proof.
  revert before. induction lines as [|l lines IH]; intros before; cbn [break_at]; [done |]. destruct (p l) eqn:Hl.
  - intros [= <- <-]. by exists l.
  - destruct (break_at p lines) as [[b a]|]; [| done]. intros [= <- <-]. destruct (IH b eq_refl) as (line & -> & Hp). by exists line.
Qed.
(** A script that passes has one dispatch, whose arms can all be read: each is the fallback, an arm of request
    roles that leaves the profile alone, or an arm of background roles whose first command sets it; every request role
    has its arm; and no line outside the dispatch mentions the profile. *)
Lemma background_roles_checked script text :
  assert_background_roles_set_statement_profile script text = Ret tt ->
  exists before case_line arms esac_line after,
    uncommented text = before ++ case_line :: arms ++ esac_line :: after /\
    _CASE case_line = true /\ _ESAC esac_line = true /\ Forall (fun line => _CASE line = false) (arms ++ after) /\
    Forall (fun line => mentions line = false) (before ++ after) /\
    (forall chunk, chunk ∈ split_arms (arms_text arms) -> not_blank chunk = true ->
       exists label body, _ARM chunk = Some (label, body) /\ arm_ok label body) /\
    (forall role, role ∈ request_roles -> exists chunk label body, chunk ∈ split_arms (arms_text arms) /\
       not_blank chunk = true /\ _ARM chunk = Some (label, body) /\ role ∈ roles_of label).
Proof.
  unfold assert_background_roles_set_statement_profile. cbv zeta.
  destruct (break_at _CASE (uncommented text)) as [[before rest]|] eqn:Eb; [| done].
  apply break_at_Some in Eb as (case_line & Eu & Hc).
  destruct (Nat.eqb_spec (length (filter (fun line => _CASE line = true) rest)) 0) as [Hn|]; cbn [negb]; [| done].
  destruct (break_at _ESAC rest) as [[arms after]|] eqn:Ee; [| done]. apply break_at_Some in Ee as (esac_line & -> & He).
  match goal with |- context [read_arms script ?c ?o ∅] => destruct (read_arms script c o ∅) as [[problems named]|] eqn:Er; [| done]; set (outside := o) in * end.
  cbn [outcome_bind]. case_bool_decide as Hp; [intros _ | done]. apply app_eq_nil in Hp as [Hp Hm%fmap_nil_inv%sorted_nil].
  apply read_arms_spec in Er as (H1 & H2 & H3). apply H1 in Hp as [Ho Ha]. exists before, case_line, arms, esac_line, after.
  assert (forall line, line ∈ arms ++ esac_line :: after -> _CASE line = false) as Hnone.
  { intros line Hin. apply not_true_iff_false. intros Hl. apply nil_length_inv in Hn.
    assert (line ∈ filter (fun l => _CASE l = true) (arms ++ esac_line :: after)) as Hf by by apply list_elem_of_filter.
    rewrite Hn in Hf. by apply elem_of_nil in Hf. }
  split_and!; [done | done | done | | | |].
  - apply Forall_forall. intros line [Hin | Hin]%elem_of_app; apply Hnone, elem_of_app; [by left | right; by right].
  - apply Forall_forall. intros line Hin. apply not_true_iff_false. intros Hl. subst outside.
    assert (existsb mentions (before ++ after) = true) as Hx by (apply existsb_exists; exists line; split; [by apply list_elem_of_In | done]).
    by rewrite Hx in Ho.
  - intros chunk Hin Hb. destruct (H2 chunk Hin Hb) as [[label body] El]. exists label, body. split; [done |]. by eapply Ha.
  - intros role Hr. assert (role ∈ named) as Hx; [| apply H3 in Hx as [Hx | Hx]; [by apply elem_of_empty in Hx | done]].
    apply dec_stable. intros Hx. assert (role ∈ elements (request_roles ∖ named)) as He' by (apply elem_of_elements; set_solver).
    rewrite Hm in He'. by apply elem_of_nil in He'.
Qed.
End Roles.

Definition entrypoint (api worker : list string) : string :=
  join (String NL "") (["#!/bin/sh"; "case " +:+ quoted "$ROLE" +:+ " in"; "  api)"] ++ api ++ ["  ;;"; "  worker|beat)"] ++ worker ++
    ["  ;;"; "  *) exit 1 ;;"; "esac"]).
Example roles_pass : assert_background_roles_set_statement_profile {["api"]} "deploy.sh"
  (entrypoint ["exec uvicorn app.main:app"] ["export DATABASE_STATEMENT_TIMEOUT_PROFILE=background"; "exec celery worker"]) = Ret tt.
Proof. vm_compute. reflexivity. Qed.
Example roles_late_export : exists m, assert_background_roles_set_statement_profile {["api"]} "deploy.sh"
  (entrypoint ["exec uvicorn app.main:app"] ["cd /app"; "export DATABASE_STATEMENT_TIMEOUT_PROFILE=background"]) = Exc (AssertionError m).
Proof. eexists. vm_compute. reflexivity. Qed.
