(* ===== verification/TestFixtures.v ===== *)
(** * Fakes and fixtures

    Models src/tr_shared/testing/stubs/ (http_stub.py, bayut.py, hikcentral.py, propertyfinder.py), fixtures.py and
    the rolled-back session of isolation.py.  The fakes answer the clients of [Portals] and sign for the verifiers of
    [Webhooks].  httpx is the class [HttpxFake]; a compiled pattern is its text and its [search]. *)

From Stdlib Require Import Ascii.
From S2P Require Import Prelude Json Hash Errors HttpClient Text Migrations Portals Webhooks Redis TestConfig TestGuards.
Local Open Scope Z_scope.

(** ** http_stub.py *)

(** What the builder reads of httpx: a request's path and body, and the response it makes of a status and a JSON value
    ([None] gives a response without a body). *)
Class HttpxFake := {
  url_path : request -> string;
  content : request -> string;
  Response : Z -> option json -> response;
}.
Class HttpxFakeDoc `{HttpxFake} : Prop := {
  response_status status body : r_status (Response status body) = status;
  response_json status body : json_wf body = true -> loads (r_text (Response status (Some body))) = Some body;
}.
Definition named_groups : Type := list (string * string).
Record pattern := mkPattern { pat_text : string; search : string -> option named_groups }.
Record RecordedRequest := mkRecorded { rc_method : string; rc_url : string; rc_json : json; rc_headers : list (string * string) }.

Section Stub.
Context `{HttpxFake}.

Record _Route := mkStubRoute {
  sr_method : string; path_pattern : pattern; responder : request -> outcome check_exn response;
}.
Record MockTransportBuilder := mkBuilder { _routes : list _Route; requests : list RecordedRequest }.
Definition new_builder : MockTransportBuilder := mkBuilder [] [].

(** The [json] of a route: a value, or what to call with the match *)
Inductive route_json := JsonValue (v : json) | JsonCall (f : named_groups -> outcome check_exn json).
Definition _default_responder (compiled : pattern) (body : option route_json) (status_code : Z)
    (handler : option (request -> named_groups -> outcome check_exn response)) (rq : request) : outcome check_exn response :=
  match search compiled (url_path rq) with
  | None => check ""
  | Some groups =>
      match handler with
      | Some h => h rq groups
      | None =>
          match body with
          | Some (JsonCall f) => outcome_bind (f groups) (fun v => Ret (Response status_code (Some v)))
          | Some (JsonValue v) => Ret (Response status_code (Some v))
          | None => Ret (Response status_code None)
          end
      end
  end.
Definition route (method : string) (compiled : pattern) (body : option route_json) (status_code : Z)
    (handler : option (request -> named_groups -> outcome check_exn response)) (b : MockTransportBuilder) : MockTransportBuilder :=
  mkBuilder (_routes b ++ [mkStubRoute (upper method) compiled (_default_responder compiled body status_code handler)]) (requests b).

Definition _safe_json (rq : request) : json :=
  if nonempty (content rq) then default JNull (loads (content rq)) else JNull.
Definition recorded (rq : request) : RecordedRequest := mkRecorded (rq_method rq) (rq_url rq) (_safe_json rq) (rq_headers rq).
Definition candidate_for (rq : request) (r : _Route) : bool :=
  bool_decide (sr_method r = rq_method rq) && match search (path_pattern r) (url_path rq) with Some _ => true | None => false end.
(** The message's list of routes is given by their patterns. *)
Definition no_route (b : MockTransportBuilder) (rq : request) : string :=
  "MockTransportBuilder: no route registered for " +:+ rq_method rq +:+ " " +:+ url_path rq +:+ ", routes: " +:+
  join ", " ((fun r => sr_method r +:+ " " +:+ pat_text (path_pattern r)) <$> _routes b).
Fixpoint first_route (rq : request) (routes : list _Route) : option _Route :=
  match routes with
  | [] => None
  | r :: routes' => if candidate_for rq r then Some r else first_route rq routes'
  end.
Definition _dispatch (rq : request) : M check_exn MockTransportBuilder response := fun b =>
  match first_route rq (_routes b) with
  | Some r => (responder r rq, mkBuilder (_routes b) (requests b ++ [recorded rq]))
  | None => (Exc (AssertionError (no_route b rq)), b)
  end.

(** A client's transport: the stub's assertion is an exception of no class of [py_class]. *)
#[export] Instance stub_env : HttpEnv MockTransportBuilder := {
  http_send rq b :=
    match _dispatch rq b with
    | (Ret r, b') => (Ret r, b')
    | (Exc (OtherError e), b') => (Exc e, b')
    | (Exc (AssertionError m), b') => (Exc (PyErr OtherException m), b')
    end;
  sleep _ b := (Ret tt, b);
  monotonic _ := 0;
  raise_for_status r := if 400 <=? r_status r then Some "error" else None;
}.

(** A pattern that is a plain text up to the end; [$] also holds before a final line break. *)
Definition ends_with (text : string) : pattern :=
  mkPattern (text +:+ "$") (fun path => if endswith (removesuffix path (String NL "")) text then Some [] else None).

(** ** bayut.py, hikcentral.py, propertyfinder.py *)

Definition get_json (text : string) (v : json) : MockTransportBuilder -> MockTransportBuilder :=
  route "GET" (ends_with text) (Some (JsonValue v)) 200 None.
Definition post_json (text : string) (v : json) : MockTransportBuilder -> MockTransportBuilder :=
  route "POST" (ends_with text) (Some (JsonValue v)) 200 None.
Definition page (items : list json) : json := JObj [("data", JList items); ("total", JInt (Z.of_nat (length items)))].
(** [BayutStub] and [PropertyFinderStub] share these two. *)
Definition stub_listings (items : list json) : MockTransportBuilder -> MockTransportBuilder := get_json "/listings" (page items).
Definition stub_leads (items : list json) : MockTransportBuilder -> MockTransportBuilder := get_json "/leads" (page items).
Definition stub_token (access_token : string) (expires_in : Z) : MockTransportBuilder -> MockTransportBuilder :=
  post_json "/oauth/token" (JObj [("access_token", JStr access_token); ("expires_in", JInt expires_in); ("token_type", JStr "Bearer")]).
Definition hik_body (success : bool) (msg : string) (data : json) : list (string * json) :=
  if success then [("code", JStr "0"); ("msg", JStr msg); ("data", data)] else [("code", JStr "1"); ("msg", JStr msg)].
Definition stub_version (success : bool) (msg : string) : MockTransportBuilder -> MockTransportBuilder :=
  get_json "/api/common/v1/version" (JObj (hik_body success msg (JStr ""))).
Definition stub_attendance (success : bool) (msg : string) : MockTransportBuilder -> MockTransportBuilder :=
  post_json "/api/attendance/v1/report" (JObj (hik_body success msg (JObj []))).
End Stub.

Definition sign_bayut_webhook (payload secret : string) : list (string * string) :=
  [("x-bayut-signature", hexdigest (md5 (bytes_of (utf8_encode secret +:+ payload))))].
Definition sign_propertyfinder_webhook (payload secret : string) : list (string * string) :=
  [("x-signature", hmac_hex secret payload)].

(** ** fixtures.py, and the session of isolation.py *)

Definition tr_database_url (env : list (string * string)) : outcome exn string :=
  match dget "DATABASE_URL" env with
  | Some url =>
      if nonempty url && negb (bool_decide (url = POISON_DATABASE_URL)) then Ret url
      else Exc (PyErr RuntimeError "This test asked for a database while running in the UNIT lane, which has none.")
  | None => Exc (PyErr RuntimeError "This test asked for a database while running in the UNIT lane, which has none.")
  end.

(** What the session fixture uses of SQLAlchemy: [connect], [begin], [AsyncSession] and the three that end them *)
Class TestDb (W Connection Transaction Session : Type) := {
  connect : Py W Connection;
  begin_transaction : Connection -> Py W Transaction;
  AsyncSession : Connection -> string -> bool -> Py W Session;   (* join mode, [expire_on_commit] *)
  close_session : Session -> Py W unit;
  rollback_transaction : Transaction -> Py W unit;
  close_connection : Connection -> Py W unit;
}.
Definition savepoint_session {W C T S A} `{TestDb W C T S} (body : S -> Py W A) : Py W A :=
  let! connection := connect in
  let! transaction := begin_transaction connection in
  let! session := AsyncSession connection "create_savepoint" false in
  finally (body session)
    (do! close_session session in
     do! rollback_transaction transaction in
     close_connection connection).
(** A Redis client of one index: the index is empty when the test starts and when it has ended. *)
Class TestRedis (W Client : Type) := {
  from_url : string -> Py W Client;
  flushdb : Client -> Py W unit;
  close_client : Client -> Py W unit;
}.
Definition tr_redis {W C A} `{TestRedis W C} (env : list (string * string)) (body : C -> Py W A) : Py W A :=
  match dget "REDIS_URL" env with
  | Some url =>
      if nonempty url then
        let! client := from_url url in
        do! flushdb client in
        finally (body client) (do! flushdb client in close_client client)
      else raise (PyErr RuntimeError "REDIS_URL is unset; this test needs the integration lane.")
  | None => raise (PyErr RuntimeError "REDIS_URL is unset; this test needs the integration lane.")
  end.

(** ** What the fakes promise *)

Section StubFacts.
Context `{HttpxFakeDoc}.

Lemma first_route_spec rq routes r : first_route rq routes = Some r <->
  exists pre post, routes = pre ++ r :: post /\ candidate_for rq r = true /\
    Forall (fun r' => candidate_for rq r' = false) pre.
Proof.
  induction routes as [|r0 routes IH]; cbn [first_route].
  { split; [done | intros ([|] & ? & [=] & _)]. }
  destruct (candidate_for rq r0) eqn:Ec; [| rewrite IH]; split.
  - intros [= <-]. by exists [], routes.
  - intros ([|r1 pre] & post & [= <- E] & Hr & Hp); [done |]. apply Forall_cons in Hp as [Hp _]. congruence.
  - intros (pre & post & -> & Hr & Hp). exists (r0 :: pre), post. split_and!; [done.. |]. by constructor.
  - intros ([|r1 pre] & post & [= <- E] & Hr & Hp); [congruence |]. apply Forall_cons in Hp as [_ Hp]. by exists pre, post.
Qed.
(** The stub keeps each request it answers, once and in order, and no other. *)
Lemma requests_kept rqs : forall b,
  let b' := foldl (fun b rq => snd (_dispatch rq b)) b rqs in
  _routes b' = _routes b /\
  requests b' = requests b ++ (recorded <$> filter (fun rq => is_Some (first_route rq (_routes b))) rqs).
Proof.
  induction rqs as [|rq rqs IH]; intros b; cbn [foldl]; [by rewrite app_nil_r |].
  destruct (IH (snd (_dispatch rq b))) as [H1 H2]. cbv zeta. rewrite H1, H2. unfold _dispatch. rewrite filter_cons.
  destruct (first_route rq (_routes b)) as [r|] eqn:E; cbn [snd _routes requests].
  - rewrite decide_True by eauto. by rewrite fmap_cons, <- app_assoc.
  - rewrite decide_False by (intros [? [=]]). done.
Qed.
Lemma hik_body_fields success msg data :
  dget "code" (hik_body success msg data) = Some (JStr (if success then "0" else "1")) /\
  dget "msg" (hik_body success msg data) = Some (JStr msg).
Proof. by destruct success. Qed.
(** The fake HikCentral against the real client: the probe sends one request, which the stub keeps, and the
    client gives the body back on success and the fault on failure. *)
Lemma hikcentral_version_stubbed host_ok getaddrinfo classify now_ms base key secret success msg :
  safe_host host_ok getaddrinfo classify (rstrip_slash base) ->
  (forall rq, rq_url rq = rstrip_slash base +:+ "/api/common/v1/version" ->
     endswith (removesuffix (url_path rq) (String NL "")) "/api/common/v1/version" = true) ->
  let b := stub_version success msg new_builder in
  exists rq, rq_url rq = rstrip_slash base +:+ "/api/common/v1/version" /\ rq_method rq = "GET" /\
    hikcentral_get_version host_ok getaddrinfo classify now_ms base key secret b =
      (if success then Ret (hik_body true msg (JStr ""))
       else Exc (unavailable ("HikCentral version check failed: " +:+ msg) "HIKCENTRAL_AUTH_001"),
       mkBuilder (_routes b) [recorded rq]).
Proof.
  intros Hs Hp. eexists (mkRequest "GET" (rstrip_slash base +:+ "/api/common/v1/version") None None _).
  split; [done |]. split; [done |]. unfold hikcentral_get_version, probe. cbv zeta.
  apply (assert_safe_ret _ _ _ _ tt) in Hs.
  rewrite (bind_Ret _ _ _ tt (stub_version success msg new_builder)) by (unfold lift_out; by rewrite Hs).
  unfold bind, gets, catch. cbn [http_send stub_env]. unfold _dispatch. cbn [_routes stub_version get_json route new_builder app first_route].
  unfold candidate_for. cbn [sr_method path_pattern rq_method search ends_with]. rewrite Hp by done.
  change (upper "GET") with "GET". rewrite bool_decide_true by done. cbn [andb responder]. unfold _default_responder.
  cbn [search ends_with]. rewrite Hp by done. rewrite response_status, response_json by (by destruct success).
  change (negb (200 =? 200)) with false. cbv iota. destruct (hik_body_fields success msg (JStr "")) as [-> ->].
  destruct success; reflexivity.
Qed.
End StubFacts.

(** An httpx that writes the JSON text of the standard library, and reads a path off the URL *)
Definition plain_httpx : HttpxFake := {|
  url_path rq := match urlsplit (fun _ => true) (rq_url rq) with Ret r => u_path r | Exc _ => "" end;
  content rq := match rq_json rq with Some v => dumps v | None => "" end;
  Response status body := mkResponse status "application/json" (match body with Some v => dumps v | None => "" end);
|}.
Lemma plain_httpx_doc : @HttpxFakeDoc plain_httpx.
Proof. split; [done |]. intros status body Hb. by apply loads_dumps. Qed.
Example hikcentral_attendance_stubbed :
  let _ := plain_httpx in
  let b := stub_attendance false "no licence" (stub_version true "Success" new_builder) in
  let r := hikcentral_probe_attendance (fun _ => true) (fun _ => Ret ["8.8.8.8"]) (fun _ => Ret (mkIp false false false false false))
    (fun _ => 0) (fun _ => ("2026-01-01", "2026-01-02")) "https://hik.example/" "k" "s" b in
  (fst r, rc_url <$> requests (snd r)) =
  (Exc (unavailable "HikCentral attendance module unreachable/unlicensed: no licence" "HIKCENTRAL_UNAVAILABLE_007"),
   ["https://hik.example/api/attendance/v1/report"]).
Proof. vm_compute. reflexivity. Qed.

(** A signed fake delivery passes the verifier a service uses, whatever the payload and the secret. *)
Lemma bayut_signature_accepted payload secret :
  verify BayutMD5Verifier payload (sign_bayut_webhook payload secret) secret = Ret true.
Proof.
  cbn [verify]. f_equal. unfold bayut_verify. destruct (nonempty secret); [| done]. cbn [negb].
  apply with_signature_spec. unfold sign_bayut_webhook.
  destruct (md5_bytes (bytes_of (utf8_encode secret +:+ payload))) as [Hl Hb]. apply hexdigest_hex in Hb as [Hx Hn].
  eexists. split; [reflexivity |]. split.
  - intros E. rewrite E, Hl in Hn. discriminate Hn.
  - rewrite lower_hex by done. by apply constant_time_equals_spec.
Qed.
Lemma propertyfinder_signature_accepted payload secret :
  verify PropertyFinderVerifier payload (sign_propertyfinder_webhook payload secret) secret = Ret true.
Proof.
  cbn [verify PropertyFinderVerifier HMACVerifier_init]. f_equal. unfold hmac_verify. destruct (nonempty secret); [| done]. cbn [negb].
  apply with_signature_spec. unfold sign_propertyfinder_webhook, hmac_hex, hmac_sha256.
  match goal with |- context [sha256 ?m] => lazymatch m with map _ _ ++ _ => destruct (sha256_bytes m) as [Hl Hb] end end.
  apply hexdigest_hex in Hb as [Hx Hn]. eexists. split; [reflexivity |]. split.
  - intros E. rewrite E, Hl in Hn. discriminate Hn.
  - rewrite bool_decide_false by done. by apply constant_time_equals_spec.
Qed.

(** A database of states [D] as the join mode uses it: an outer transaction with its working state, and the state at the
    session's savepoint. *)
Section Savepoints.
Context {D : Type}.
Record database := mkDatabase { stored : D; outer : option (D * D) }.
#[export] Instance savepoint_db : TestDb database unit unit unit := {
  connect := ret tt;
  begin_transaction _ := modify (fun w => mkDatabase (stored w) (Some (stored w, stored w)));
  AsyncSession _ _ _ := ret tt;
  close_session _ := modify (fun w => mkDatabase (stored w) ((fun o => (snd o, snd o)) <$> outer w));
  rollback_transaction _ := modify (fun w => mkDatabase (stored w) None);
  close_connection _ := ret tt;
}.
(** What a session does: write, commit (its savepoint is released and a new one made), roll back to the savepoint;
    or the test raises. *)
Inductive session_op := Write (f : D -> D) | Commit | Rollback | Raises (e : exn).
Definition run_op (op : session_op) : Py database unit :=
  match op with
  | Write f => modify (fun w => mkDatabase (stored w) ((fun o => (f (fst o), snd o)) <$> outer w))
  | Commit => modify (fun w => mkDatabase (stored w) ((fun o => (fst o, fst o)) <$> outer w))
  | Rollback => modify (fun w => mkDatabase (stored w) ((fun o => (snd o, snd o)) <$> outer w))
  | Raises e => raise e
  end.
(** Whatever a test does in its session, commits included, and whether it passes or raises, the stored data are
    as before and no transaction is left open. *)
Lemma savepoint_session_leaves_nothing ops w :
  snd (savepoint_session (fun _ => mfor ops run_op) w) = mkDatabase (stored w) None.
Proof.
  assert (preserves (fun v => stored v = stored w) (mfor ops run_op)) as Hs.
  { apply preserves_mfor. intros [f | | | e] _ v Hv; exact Hv. }
  specialize (Hs (mkDatabase (stored w) (Some (stored w, stored w))) eq_refl). unfold savepoint_session. cbn. unfold bind, ret, modify, finally.
  destruct (mfor ops run_op _) as [o v]. cbn in *. by rewrite Hs.
Qed.
(** In between, the session sees its own commits: a rollback goes back to the last of them. *)
Lemma savepoint_session_sees_commits f g d o :
  mfor [Write f; Commit; Write g; Rollback] run_op (mkDatabase d (Some (d, o))) = (Ret tt, mkDatabase d (Some (f d, f d))).
Proof. reflexivity. Qed.
End Savepoints.
